(** * NoorSigner: key custody, account store and event hashing

    A shallow embedding of the Go sources of the NoorSigner daemon
    (storage.go, accounts.go, crypto.go and the multi-account daemon)
    together with the properties the specification states about them.

    Conventions.
    - A Go [string] is a Rocq [string]: a sequence of 8-bit characters.
      A Go [[]byte] is a [list byte].  The conversions [[]byte(s)] and
      [string(b)] are [list_byte_of_string] and [string_of_list_byte].
    - A Go result pair [(v, err)] is a [Result]: [Ok v] when [err == nil]
      and [Err msg] otherwise, [msg] being the text of the error.
    - Libraries outside the repository (scrypt, bech32, secp256k1, SHA-256,
      the JSON parser) are interfaces, declared as type classes; the
      theorems hold for every implementation of them. *)

From Stdlib Require Import ZArith NArith List Ascii String Strings.Byte Bool Lia.
From Stdlib Require Import DecimalString DecimalPos SpecFloat OrderedTypeEx Wf_nat.
From stdpp Require Import base option list gmap strings sorting.

Local Open Scope list_scope.
Local Open Scope string_scope.

(** ** Results of fallible calls *)

Inductive Result (A : Type) : Type :=
| Ok (a : A)
| Err (msg : string).
Arguments Ok {A} a.
Arguments Err {A} msg.

Definition isOk {A} (r : Result A) : bool :=
  match r with Ok _ => true | Err _ => false end.

(** ** Bytes *)

Module Bytes.

(** Go's [a ^ b] on two bytes. *)
Definition xor (a b : byte) : byte :=
  match Byte.of_N (N.lxor (Byte.to_N a) (Byte.to_N b)) with
  | Some c => c
  | None => x00
  end.

(** Go's [b >> 4] and [b & 0x0f] on a byte, as numbers below 16. *)
Definition hi (b : byte) : N := N.shiftr (Byte.to_N b) 4.
Definition lo (b : byte) : N := N.land (Byte.to_N b) 15.

End Bytes.

(** ** Hexadecimal text (accounts.go: encodeHex, decodeHex,
       hexCharToNibble) *)

Module Hex.

Definition hexChars : string := "0123456789abcdef".

(** [hexChars[n]] for [n] below 16. *)
Definition hexChar (n : N) : ascii :=
  match String.get (N.to_nat n) hexChars with
  | Some c => c
  | None => "0"%char
  end.

(** [encodeHex]: two lower-case digits per byte, high nibble first.
    The standard library's [hex.EncodeToString] produces the same text. *)
Fixpoint encodeHex (data : list byte) : string :=
  match data with
  | [] => ""
  | b :: rest =>
      String (hexChar (Bytes.hi b)) (String (hexChar (Bytes.lo b)) (encodeHex rest))
  end.

Definition EncodeToString : list byte -> string := encodeHex.

(** Go's [%c] applied to a byte value: the character itself below 0x80,
    the two-byte UTF-8 form of the code point otherwise. *)
Definition fmt_c (c : ascii) : string :=
  let n := N_of_ascii c in
  if (n <? 128)%N then String c ""
  else String (ascii_of_N (192 + N.shiftr n 6))
              (String (ascii_of_N (128 + N.land n 63)) "").

(** [hexCharToNibble]. *)
Definition hexCharToNibble (c : ascii) : Result N :=
  let n := N_of_ascii c in
  if (48 <=? n)%N && (n <=? 57)%N then Ok (n - 48)%N
  else if (97 <=? n)%N && (n <=? 102)%N then Ok (n - 97 + 10)%N
  else if (65 <=? n)%N && (n <=? 70)%N then Ok (n - 65 + 10)%N
  else Err ("invalid hex character: " ++ fmt_c c).

(** [(high << 4) | low] as a byte. *)
Definition joinNibbles (high low : N) : byte :=
  match Byte.of_N (N.lor (N.shiftl high 4 mod 256) low) with
  | Some b => b
  | None => x00
  end.

(** The loop of [decodeHex], two characters per step. *)
Fixpoint decodePairs (s : string) : Result (list byte) :=
  match s with
  | "" => Ok []
  | String _ "" => Err "odd length hex string"
  | String a (String b rest) =>
      match hexCharToNibble a with
      | Err e => Err e
      | Ok high =>
          match hexCharToNibble b with
          | Err e => Err e
          | Ok low =>
              match decodePairs rest with
              | Err e => Err e
              | Ok tl => Ok (joinNibbles high low :: tl)
              end
          end
      end
  end.

(** [decodeHex]. *)
Definition decodeHex (s : string) : Result (list byte) :=
  if Nat.eqb (String.length s mod 2) 0 then decodePairs s
  else Err "odd length hex string".

(** The standard library's [fromHexChar]: the value of a hexadecimal digit
    of either case. *)
Definition fromHexChar (c : ascii) : option N :=
  let n := N_of_ascii c in
  if (48 <=? n)%N && (n <=? 57)%N then Some (n - 48)%N
  else if (97 <=? n)%N && (n <=? 102)%N then Some (n - 87)%N
  else if (65 <=? n)%N && (n <=? 70)%N then Some (n - 55)%N
  else None.

(** [strconv.IsPrint] on the code points below 256. *)
Definition isPrintLatin1 (n : N) : bool :=
  ((32 <=? n)%N && (n <? 127)%N) || ((161 <=? n)%N && negb (n =? 173)%N).

Definition upperHexChar (n : N) : ascii :=
  match String.get (N.to_nat n) "0123456789ABCDEF" with
  | Some c => c
  | None => "0"%char
  end.

(** [InvalidByteError(c).Error()], that is
    [fmt.Sprintf("encoding/hex: invalid byte: %#U", rune(c))]: the code
    point with four upper-case digits, followed by the character between
    single quotes when it is printable. *)
Definition invalidByteError (c : ascii) : string :=
  let n := N_of_ascii c in
  "encoding/hex: invalid byte: U+00"
  ++ String (upperHexChar (N.shiftr n 4)) (String (upperHexChar (N.land n 15)) "")
  ++ (if isPrintLatin1 n then " '" ++ fmt_c c ++ "'" else "").

(** The loop of the standard library's [hex.Decode], two characters per
    step; a character left over at the end is looked at before the odd
    length is reported. *)
Fixpoint decodeLoop (s : string) : Result (list byte) :=
  match s with
  | "" => Ok []
  | String p "" =>
      match fromHexChar p with
      | None => Err (invalidByteError p)
      | Some _ => Err "encoding/hex: odd length hex string"
      end
  | String p (String q rest) =>
      match fromHexChar p with
      | None => Err (invalidByteError p)
      | Some a =>
          match fromHexChar q with
          | None => Err (invalidByteError q)
          | Some b =>
              match decodeLoop rest with
              | Err e => Err e
              | Ok tl => Ok (joinNibbles a b :: tl)
              end
          end
      end
  end.

(** The standard library's [hex.DecodeString]. *)
Definition DecodeString (s : string) : Result (list byte) := decodeLoop s.

End Hex.

(** ** scrypt (golang.org/x/crypto/scrypt) *)

(** The key-derivation core is an interface: for a password, a salt and the
    cost parameters it yields the PBKDF2 output stream, of which [Key]
    returns the first [keyLen] bytes. *)
Class ScryptLib := {
  scrypt_stream : list byte -> list byte -> Z -> Z -> Z -> nat -> byte
}.

Module scrypt.

Definition maxInt : Z := 2 ^ 63 - 1.

(** [scrypt.Key]: the parameter checks of the library, then the first
    [keyLen] bytes of the stream. *)
Definition Key `{ScryptLib} (password salt : list byte) (N r p : Z) (keyLen : nat)
  : Result (list byte) :=
  if (N <=? 1)%Z || negb (Z.land N (N - 1) =? 0)%Z then
    Err "scrypt: N must be > 1 and a power of 2"
  else if (2 ^ 30 <=? r * p)%Z || (maxInt / 128 / p <? r)%Z
          || (maxInt / 256 <? r)%Z || (maxInt / 128 / r <? N)%Z then
    Err "scrypt: parameters are too large"
  else Ok (map (scrypt_stream password salt N r p) (seq 0 keyLen)).

End scrypt.

(** ** The random source (crypto/rand) *)

(** One reading of the system's random source: it either fails, or fills
    the buffer it is given. *)
Record Entropy := {
  rand_fail : bool;
  rand_byte : nat -> byte
}.

Definition rand_Read (e : Entropy) (n : nat) : Result (list byte) :=
  if rand_fail e then Err "entropy source unavailable"
  else Ok (map (rand_byte e) (seq 0 n)).

(** ** storage.go: encryption of the nsec *)

Definition scryptN : Z := 16384.
Definition scryptR : Z := 8.
Definition scryptP : Z := 1.
Definition keyLen : nat := 32.
Definition saltLen : nat := 16.

Record EncryptedKey := {
  Salt : list byte;
  EncryptedNsec : list byte
}.

(** The loop [for i := 0; i < len(data); i++ { out[i] = data[i] ^ key[i%len(key)] }],
    started at index [i]. *)
Fixpoint xorLoop (i : nat) (data key : list byte) : list byte :=
  match data with
  | [] => []
  | b :: rest =>
      Bytes.xor b (nth (i mod length key) key x00) :: xorLoop (S i) rest key
  end.

(** [encryptNsec]. *)
Definition encryptNsec `{ScryptLib} (rnd : Entropy) (nsec password : string)
  : Result EncryptedKey :=
  match rand_Read rnd saltLen with
  | Err e => Err ("cannot generate salt: " ++ e)
  | Ok salt =>
      match scrypt.Key (list_byte_of_string password) salt scryptN scryptR scryptP keyLen with
      | Err e => Err ("scrypt key derivation failed: " ++ e)
      | Ok derivedKey =>
          let nsecBytes := list_byte_of_string nsec in
          let encrypted := xorLoop 0 nsecBytes derivedKey in
          Ok {| Salt := salt; EncryptedNsec := encrypted |}
      end
  end.

(** [decryptNsec]. *)
Definition decryptNsec `{ScryptLib} (encKey : EncryptedKey) (password : string)
  : Result string :=
  match scrypt.Key (list_byte_of_string password) (Salt encKey) scryptN scryptR scryptP keyLen with
  | Err e => Err ("scrypt key derivation failed: " ++ e)
  | Ok derivedKey =>
      let decrypted := xorLoop 0 (EncryptedNsec encKey) derivedKey in
      Ok (string_of_list_byte decrypted)
  end.

(** ** UTF-8 (unicode/utf8) *)

Module utf8.

Definition RuneError : N := 65533.

Definition isCont (b lo hi : N) : bool := (lo <=? b)%N && (b <=? hi)%N.

(** Size of the sequence a first byte announces and the range accepted
    for the second byte; [None] for a byte that cannot start a sequence. *)
Definition first (b0 : N) : option (nat * N * N) :=
  if (b0 <? 194)%N then None
  else if (b0 <=? 223)%N then Some (2%nat, 128, 191)%N
  else if (b0 =? 224)%N then Some (3%nat, 160, 191)%N
  else if (b0 <=? 236)%N then Some (3%nat, 128, 191)%N
  else if (b0 =? 237)%N then Some (3%nat, 128, 159)%N
  else if (b0 <=? 239)%N then Some (3%nat, 128, 191)%N
  else if (b0 =? 240)%N then Some (4%nat, 144, 191)%N
  else if (b0 <=? 243)%N then Some (4%nat, 128, 191)%N
  else if (b0 =? 244)%N then Some (4%nat, 128, 143)%N
  else None.

(** [utf8.DecodeRuneInString]: the rune at the head of a string and the
    number of bytes it takes; [(RuneError, 1)] at a byte that starts no
    well-formed sequence. *)
Definition decodeRune (s : string) : N * nat :=
  match s with
  | "" => (RuneError, 0%nat)
  | String c0 r0 =>
      let b0 := N_of_ascii c0 in
      if (b0 <? 128)%N then (b0, 1%nat) else
      match first b0 with
      | None => (RuneError, 1%nat)
      | Some (sz, lo, hi) =>
          match r0 with
          | "" => (RuneError, 1%nat)
          | String c1 r1 =>
              let b1 := N_of_ascii c1 in
              if negb (isCont b1 lo hi) then (RuneError, 1%nat)
              else if (sz <=? 2)%nat then
                (N.lor (N.shiftl (N.land b0 31) 6) (N.land b1 63), 2%nat)
              else
                match r1 with
                | "" => (RuneError, 1%nat)
                | String c2 r2 =>
                    let b2 := N_of_ascii c2 in
                    if negb (isCont b2 128 191) then (RuneError, 1%nat)
                    else if (sz <=? 3)%nat then
                      (N.lor (N.lor (N.shiftl (N.land b0 15) 12)
                                    (N.shiftl (N.land b1 63) 6))
                             (N.land b2 63), 3%nat)
                    else
                      match r2 with
                      | "" => (RuneError, 1%nat)
                      | String c3 _ =>
                          let b3 := N_of_ascii c3 in
                          if negb (isCont b3 128 191) then (RuneError, 1%nat)
                          else
                            (N.lor (N.lor (N.lor (N.shiftl (N.land b0 7) 18)
                                                 (N.shiftl (N.land b1 63) 12))
                                          (N.shiftl (N.land b2 63) 6))
                                   (N.land b3 63), 4%nat)
                      end
                end
          end
      end
  end.

(** A string cut into its runes, each with the bytes that encode it; a
    byte that starts no well-formed sequence stands alone with
    [RuneError]. *)
Fixpoint chunks (s : string) : list (N * string) :=
  match s with
  | "" => []
  | String c0 r0 =>
      let r := fst (decodeRune s) in
      match snd (decodeRune s) with
      | 2%nat =>
          match r0 with
          | String c1 r1 => (r, String c0 (String c1 "")) :: chunks r1
          | _ => (RuneError, String c0 "") :: chunks r0
          end
      | 3%nat =>
          match r0 with
          | String c1 (String c2 r2) =>
              (r, String c0 (String c1 (String c2 ""))) :: chunks r2
          | _ => (RuneError, String c0 "") :: chunks r0
          end
      | 4%nat =>
          match r0 with
          | String c1 (String c2 (String c3 r3)) =>
              (r, String c0 (String c1 (String c2 (String c3 "")))) :: chunks r3
          | _ => (RuneError, String c0 "") :: chunks r0
          end
      | _ => (r, String c0 "") :: chunks r0
      end
  end.

(** [unicode.IsSpace]. *)
Definition IsSpace (r : N) : bool :=
  ((9 <=? r)%N && (r <=? 13)%N) || (r =? 32)%N || (r =? 133)%N || (r =? 160)%N
  || (r =? 5760)%N || ((8192 <=? r)%N && (r <=? 8202)%N)
  || (r =? 8232)%N || (r =? 8233)%N || (r =? 8239)%N || (r =? 8287)%N
  || (r =? 12288)%N.

(** [utf8.AppendRune]: the bytes that encode a rune; a surrogate and a
    value beyond [MaxRune] are written as [RuneError]. *)
Definition EncodeRune (r : N) : string :=
  let b (n : N) := ascii_of_N n in
  if (r <=? 127)%N then String (b r) ""
  else if (r <=? 2047)%N then
    String (b (192 + N.shiftr r 6)%N) (String (b (128 + N.land r 63)%N) "")
  else if ((55296 <=? r)%N && (r <=? 57343)%N) || (1114111 <? r)%N then
    String (b 239%N) (String (b 191%N) (String (b 189%N) ""))
  else if (r <=? 65535)%N then
    String (b (224 + N.shiftr r 12)%N)
      (String (b (128 + N.land (N.shiftr r 6) 63)%N)
         (String (b (128 + N.land r 63)%N) ""))
  else
    String (b (240 + N.shiftr r 18)%N)
      (String (b (128 + N.land (N.shiftr r 12) 63)%N)
         (String (b (128 + N.land (N.shiftr r 6) 63)%N)
            (String (b (128 + N.land r 63)%N) ""))).

End utf8.

(** ** Text helpers (strings, fmt, bytes) *)

Module Strs.

(** The list from its first element that satisfies [keep] on. *)
Fixpoint dropwhile_not {A} (keep : A -> bool) (l : list A) : list A :=
  match l with
  | [] => []
  | x :: rest => if keep x then l else dropwhile_not keep rest
  end.

(** [strings.HasPrefix(s, prefix)]. *)
Definition HasPrefix (s pre : string) : bool := String.prefix pre s.

(** [fmt.Sprintf("%d", z)]: decimal digits, with a minus sign below zero. *)
Definition fmt_d (z : Z) : string := NilZero.string_of_int (Z.to_int z).

(** The text before the first [sep] and the text after it, if [sep] occurs. *)
Fixpoint cut (sep : ascii) (s : string) : option (string * string) :=
  match s with
  | "" => None
  | String c rest =>
      if Ascii.eqb c sep then Some ("", rest)
      else match cut sep rest with
           | Some (a, b) => Some (String c a, b)
           | None => None
           end
  end.

(** [strings.Split(s, sep)] for a one-character separator. *)
Fixpoint Split (sep : ascii) (s : string) : list string :=
  match s with
  | "" => [""]
  | String c rest =>
      if Ascii.eqb c sep then "" :: Split sep rest
      else match Split sep rest with
           | [] => [String c ""]
           | hd :: tl => String c hd :: tl
           end
  end.

(** [strings.SplitN(s, sep, 2)] for a one-character separator. *)
Definition SplitN2 (sep : ascii) (s : string) : list string :=
  match cut sep s with
  | Some (a, b) => [a; b]
  | None => [s]
  end.

(** [bytes.TrimSuffix(s, suffix)]. *)
Definition TrimSuffix (s suffix : string) : string :=
  let n := String.length s in
  let k := String.length suffix in
  if (k <=? n)%nat && String.eqb (String.substring (n - k) k s) suffix
  then String.substring 0 (n - k) s
  else s.

(** [strings.TrimSpace(s)]: the white space at both ends removed. *)
Definition TrimSpace (s : string) : string :=
  let notSpace (c : N * string) := negb (utf8.IsSpace (fst c)) in
  let kept := rev (dropwhile_not notSpace (rev (dropwhile_not notSpace (utf8.chunks s)))) in
  String.concat "" (map snd kept).

(** [strings.Join(parts, sep)]. *)
Definition Join (parts : list string) (sep : string) : string :=
  String.concat sep parts.

End Strs.

(** ** Instants (package time) *)

(** Go's [int64] arithmetic: a result outside the range wraps around. *)
Definition wrapInt64 (z : Z) : Z := ((z + 2 ^ 63) mod 2 ^ 64 - 2 ^ 63)%Z.

(** A [time.Time]: the wall-clock reading as seconds since the Unix epoch
    and nanoseconds within the second, and the monotonic-clock reading in
    nanoseconds when the value carries one ([time.Now] does, a value built
    by [time.Unix] does not). *)
Record Time := {
  wallSec : Z;
  wallNsec : Z;
  mono : option Z
}.

Module time.

Definition Hour : Z := 3600 * 1000000000.

(** [unixToInternal]: the seconds from the year 1, where the count of
    seconds inside a [Time] starts, to 1970. *)
Definition unixToInternal : Z := 62135596800.

(** The largest [sec] for which [sec + unixToInternal] is an [int64]. *)
Definition maxUnix : Z := 2 ^ 63 - 1 - unixToInternal.

(** [time.Unix(sec, 0)]: the [Time] keeps [sec + unixToInternal] in an
    [int64], so that a [sec] above [maxUnix] gives a time some 292 billion
    years in the past. *)
Definition Unix0 (s : Z) : Time :=
  {| wallSec := wrapInt64 (s + unixToInternal) - unixToInternal;
     wallNsec := 0;
     mono := None |}.

(** [t.Unix()]. *)
Definition Unix (t : Time) : Z := wallSec t.

(** [t.Add(d)] for a duration of [d] nanoseconds. *)
Definition Add (t : Time) (d : Z) : Time :=
  let ns := (wallNsec t + d)%Z in
  {| wallSec := (wallSec t + ns / 1000000000)%Z;
     wallNsec := (ns mod 1000000000)%Z;
     mono := match mono t with Some m => Some (m + d)%Z | None => None end |}.

(** [t.Before(u)]: by the monotonic readings when both values carry one,
    by the wall clock otherwise. *)
Definition Before (t u : Time) : bool :=
  match mono t, mono u with
  | Some a, Some b => (a <? b)%Z
  | _, _ =>
      (wallSec t <? wallSec u)%Z
      || ((wallSec t =? wallSec u)%Z && (wallNsec t <? wallNsec u)%Z)
  end.

End time.

(** ** storage.go: trust sessions *)

Record TrustSession := {
  SessionToken : string;
  ExpiresAt : Time;
  CreatedAt : Time;
  SessionNsec : list byte   (* field EncryptedNsec of TrustSession *)
}.

(** [isTrustSessionValid], [now] being the result of [time.Now()]. *)
Definition isTrustSessionValid (now : Time) (session : TrustSession) : bool :=
  time.Before now (ExpiresAt session).

(** [createTrustSession], [now] being the result of [time.Now()]. *)
Definition createTrustSession (rnd : Entropy) (now : Time) (nsec : string)
  : Result TrustSession :=
  match rand_Read rnd 32 with
  | Err e => Err ("cannot generate session token: " ++ e)
  | Ok tokenBytes =>
      let sessionKey := firstn 32 tokenBytes in
      let nsecBytes := list_byte_of_string nsec in
      let encryptedNsec := xorLoop 0 nsecBytes sessionKey in
      let token := Hex.EncodeToString tokenBytes in
      let expires := time.Add now (24 * time.Hour)%Z in
      Ok {| SessionToken := token;
            ExpiresAt := expires;
            CreatedAt := now;
            SessionNsec := encryptedNsec |}
  end.

(** The text both [saveTrustSession] and [saveAccountTrustSession] build
    with [fmt.Sprintf("%s:%d:%d:%s", session.SessionToken,
    session.ExpiresAt.Unix(), session.CreatedAt.Unix(), encryptedHex)]. *)
Definition trustSessionContent (session : TrustSession) : string :=
  let encryptedHex := Hex.encodeHex (SessionNsec session) in
  SessionToken session ++ ":" ++
  Strs.fmt_d (time.Unix (ExpiresAt session)) ++ ":" ++
  Strs.fmt_d (time.Unix (CreatedAt session)) ++ ":" ++
  encryptedHex.

(** [decryptTrustSessionNsec].  [tokenBytes[:32]] reslices the decoded
    token to 32 bytes.  When fewer than 32 bytes were decoded the reslice
    reaches past the length of the slice: the run-time panics, unless the
    decoder's buffer happens to have that capacity, and then the key takes
    bytes the decoder left behind.  The model fixes neither and answers
    [None] there. *)
Definition decryptTrustSessionNsec (session : TrustSession) : option (Result string) :=
  match Hex.DecodeString (SessionToken session) with
  | Err e => Some (Err ("invalid session token: " ++ e))
  | Ok tokenBytes =>
      if (length tokenBytes <? 32)%nat then None
      else
        let sessionKey := firstn 32 tokenBytes in
        let decrypted := xorLoop 0 (SessionNsec session) sessionKey in
        Some (Ok (string_of_list_byte decrypted))
  end.

(** ** Interfaces of the libraries the daemon links against *)

(** github.com/btcsuite/btcd/btcutil/bech32. *)
Class Bech32Lib := {
  (** [bech32.Decode]: the human-readable part and the 5-bit data. *)
  bech32_Decode : string -> Result (string * list byte);
  (** [bech32.ConvertBits(data, fromBits, toBits, pad)]. *)
  bech32_ConvertBits : list byte -> N -> N -> bool -> Result (list byte);
  (** [bech32.Encode(hrp, data)]. *)
  bech32_Encode : string -> list byte -> Result string
}.

(** github.com/btcsuite/btcd/btcec/v2 and its schnorr package. *)
Class Secp256k1Lib := {
  PrivateKey : Type;
  (** [btcec.PrivKeyFromBytes], first component. *)
  PrivKeyFromBytes : list byte -> PrivateKey;
  (** [schnorr.SerializePubKey(privateKey.PubKey())]. *)
  SerializePubKey : PrivateKey -> list byte;
  (** [schnorr.Sign(privateKey, hash)] followed by [Serialize()]. *)
  schnorr_Sign : PrivateKey -> list byte -> Result (list byte)
}.

(** crypto/sha256. *)
Class Sha256Lib := {
  sha256_Sum256 : list byte -> list byte
}.

(** ** crypto.go: keys *)

(** [nsecToPrivateKey]. *)
Definition nsecToPrivateKey `{Bech32Lib} `{Secp256k1Lib} (nsec : string)
  : Result PrivateKey :=
  let decoded : Result (list byte) :=
    if Strs.HasPrefix nsec "nsec1" then
      match bech32_Decode nsec with
      | Err e => Err ("invalid bech32 nsec: " ++ e)
      | Ok (_, data) =>
          match bech32_ConvertBits data 5 8 false with
          | Err e => Err ("bech32 conversion failed: " ++ e)
          | Ok keyBytes => Ok keyBytes
          end
      end
    else
      match Hex.DecodeString nsec with
      | Err e => Err ("invalid hex nsec: " ++ e)
      | Ok keyBytes => Ok keyBytes
      end in
  match decoded with
  | Err e => Err e
  | Ok keyBytes =>
      if negb (length keyBytes =? 32)%nat then
        Err ("nsec must be 32 bytes, got " ++ Strs.fmt_d (Z.of_nat (length keyBytes)))
      else Ok (PrivKeyFromBytes keyBytes)
  end.

(** [privateKeyToNpub]. *)
Definition privateKeyToNpub `{Bech32Lib} `{Secp256k1Lib} (privateKey : PrivateKey)
  : string :=
  let pubKeyBytes := SerializePubKey privateKey in
  match bech32_ConvertBits pubKeyBytes 8 5 true with
  | Err _ => Hex.EncodeToString pubKeyBytes
  | Ok converted =>
      match bech32_Encode "npub" converted with
      | Err _ => Hex.EncodeToString pubKeyBytes
      | Ok npub => npub
      end
  end.

(** [signNostrEvent]. *)
Definition signNostrEvent `{Secp256k1Lib} (privateKey : PrivateKey) (eventHash : list byte)
  : Result string :=
  match schnorr_Sign privateKey eventHash with
  | Err e => Err ("schnorr signing failed: " ++ e)
  | Ok signature => Ok (Hex.EncodeToString signature)
  end.

(** [npubToPubkey] (accounts.go). *)
Definition npubToPubkey `{Bech32Lib} (npub : string) : Result string :=
  if negb (Strs.HasPrefix npub "npub1") then Err "invalid npub format"
  else
    match bech32_Decode npub with
    | Err e => Err ("invalid bech32: " ++ e)
    | Ok (_, data) =>
        match bech32_ConvertBits data 5 8 false with
        | Err e => Err ("bit conversion failed: " ++ e)
        | Ok converted => Ok (Hex.encodeHex converted)
        end
    end.

(** ** JSON values and the encoder (encoding/json) *)

Set Warnings "-register-all".

(** The dynamic values of Go's [interface{}] that reach the encoder: what
    [json.Unmarshal] stores ([nil], [bool], [float64], [string],
    [[]interface{}], [map[string]interface{}]) and the integers the
    program itself puts in ([int], [int64]).  A map is kept as the list of
    its bindings. *)
Inductive JValue : Type :=
| JNull
| JBool (b : bool)
| JFloat (f : spec_float)
| JInt (z : Z)
| JString (s : string)
| JArray (items : list JValue)
| JObject (fields : list (string * JValue)).

(** encoding/json's parser and strconv's shortest float formatting. *)
Class JsonLib := {
  (** [json.Unmarshal(data, &m)] for [m] a [map[string]interface{}]. *)
  json_Unmarshal : string -> Result (list (string * JValue));
  (** The text the encoder writes for a finite [float64]. *)
  json_formatFloat : spec_float -> string
}.

(** What a float64-to-int64 conversion yields when the value is not
    representable; the Go language leaves it to the implementation. *)
Class GoArch := {
  int64_unrepresentable : spec_float -> Z
}.

Module json.

(** [m[key]] on a map kept as a list of bindings. *)
Fixpoint get (m : list (string * JValue)) (key : string) : option JValue :=
  match m with
  | [] => None
  | (k, v) :: rest => if String.eqb k key then Some v else get rest key
  end.

(** *** Strings *)

(** The double quote character. *)
Definition dquote : ascii := "034"%char.

(** [safeSet[b]]: the ASCII characters written as they are when HTML
    escaping is off, that is all from space on except the double quote and
    the backslash. *)
Definition safeSet (b : N) : bool :=
  (32 <=? b)%N && (b <? 128)%N && negb (b =? 34)%N && negb (b =? 92)%N.

(** [htmlSafeSet[b]]: as [safeSet] without [<], [>] and [&]. *)
Definition htmlSafeSet (b : N) : bool :=
  safeSet b && negb (b =? 60)%N && negb (b =? 62)%N && negb (b =? 38)%N.

(** The escape written for an ASCII character outside the safe set. *)
Definition escapeByte (c : ascii) : string :=
  let b := N_of_ascii c in
  if (b =? 92)%N || (b =? 34)%N then String "\" (String c "")
  else if (b =? 8)%N then "\b"
  else if (b =? 12)%N then "\f"
  else if (b =? 10)%N then "\n"
  else if (b =? 13)%N then "\r"
  else if (b =? 9)%N then "\t"
  else "\u00" ++ String (Hex.hexChar (N.shiftr b 4))
                        (String (Hex.hexChar (N.land b 15)) "").

(** What [appendString] writes for one rune [c] encoded by [bytes]. *)
Definition escapeRune (escapeHTML : bool) (c : N) (bytes : string) : string :=
  match bytes with
  | String c0 "" =>
      let b := N_of_ascii c0 in
      if (b <? 128)%N then
        if htmlSafeSet b || (negb escapeHTML && safeSet b) then bytes
        else escapeByte c0
      else "\ufffd"
  | _ =>
      if (c =? 8232)%N || (c =? 8233)%N
      then "\u202" ++ String (Hex.hexChar (N.land c 15)) ""
      else bytes
  end.

(** The body of [appendString], between the two quotes. *)
Definition escapeString (escapeHTML : bool) (src : string) : string :=
  String.concat "" (map (fun c => escapeRune escapeHTML (fst c) (snd c)) (utf8.chunks src)).

(** [appendString]: the quoted, escaped string. *)
Definition appendString (src : string) (escapeHTML : bool) : string :=
  String dquote (escapeString escapeHTML src ++ String dquote "").

(** *** Values *)

(** Insertion of a rendered binding into a list ordered by key; the
    encoder writes the bindings of a map in the order of their keys. *)
Fixpoint insertByKey (k : string) (v : string) (l : list (string * string))
  : list (string * string) :=
  match l with
  | [] => [(k, v)]
  | (k', v') :: rest =>
      if String.leb k k' then (k, v) :: l
      else (k', v') :: insertByKey k v rest
  end.

Definition sortByKey (l : list (string * string)) : list (string * string) :=
  fold_right (fun kv acc => insertByKey (fst kv) (snd kv) acc) [] l.

Definition isFinite (f : spec_float) : bool :=
  match f with
  | S754_zero _ | S754_finite _ _ _ => true
  | S754_infinity _ | S754_nan => false
  end.

(** The text the encoder writes for a value; it fails on a float that is
    infinite or not a number. *)
Fixpoint marshal `{JsonLib} (escapeHTML : bool) (v : JValue) : Result string :=
  match v with
  | JNull => Ok "null"
  | JBool true => Ok "true"
  | JBool false => Ok "false"
  | JFloat f =>
      if isFinite f then Ok (json_formatFloat f)
      else Err "json: unsupported value"
  | JInt z => Ok (Strs.fmt_d z)
  | JString s => Ok (appendString s escapeHTML)
  | JArray items =>
      let fix elems (l : list JValue) : Result (list string) :=
        match l with
        | [] => Ok []
        | x :: rest =>
            match marshal escapeHTML x with
            | Err e => Err e
            | Ok s =>
                match elems rest with
                | Err e => Err e
                | Ok ss => Ok (s :: ss)
                end
            end
        end in
      match elems items with
      | Err e => Err e
      | Ok ss => Ok ("[" ++ Strs.Join ss "," ++ "]")
      end
  | JObject fields =>
      let fix members (l : list (string * JValue)) : Result (list (string * string)) :=
        match l with
        | [] => Ok []
        | (k, x) :: rest =>
            match marshal escapeHTML x with
            | Err e => Err e
            | Ok s =>
                match members rest with
                | Err e => Err e
                | Ok ss => Ok ((k, s) :: ss)
                end
            end
        end in
      match members fields with
      | Err e => Err e
      | Ok kvs =>
          Ok ("{" ++ Strs.Join (map (fun kv => appendString (fst kv) escapeHTML ++ ":" ++ snd kv)
                                    (sortByKey kvs)) ","
                  ++ "}")
      end
  end.

(** [Encoder.Encode(v)] into an empty buffer, with [SetEscapeHTML(escapeHTML)]:
    the text of the value followed by a newline. *)
Definition Encode `{JsonLib} (escapeHTML : bool) (v : JValue) : Result string :=
  match marshal escapeHTML v with
  | Err e => Err e
  | Ok s => Ok (s ++ String "010"%char "")
  end.

End json.

(** ** crypto.go: the event hash *)

(** Go's conversion [int64(f)] of a [float64]: the fraction is dropped; a
    value outside the range of [int64] gives what the platform gives. *)
Definition int64_of_float `{GoArch} (f : spec_float) : Z :=
  match f with
  | S754_zero _ => 0%Z
  | S754_finite s m e =>
      let mag := if (0 <=? e)%Z then (Z.pos m * 2 ^ e)%Z else (Z.pos m / 2 ^ (- e))%Z in
      let v := if s then (- mag)%Z else mag in
      if (- 2 ^ 63 <=? v)%Z && (v <? 2 ^ 63)%Z then v
      else int64_unrepresentable f
  | _ => int64_unrepresentable f
  end.

(** [createEventHash]. *)
Definition createEventHash `{JsonLib} `{GoArch} `{Sha256Lib} (eventJSON : string)
  : Result (list byte) :=
  match json_Unmarshal eventJSON with
  | Err e => Err ("invalid event JSON: " ++ e)
  | Ok event =>
      match json.get event "pubkey" with
      | Some (JString pubkey) =>
          match json.get event "created_at" with
          | Some (JFloat createdAt) =>
              match json.get event "kind" with
              | Some (JFloat kind) =>
                  match json.get event "tags" with
                  | Some (JArray tags) =>
                      match json.get event "content" with
                      | Some (JString content) =>
                          let serialization :=
                            JArray [ JInt 0;
                                     JString pubkey;
                                     JInt (int64_of_float createdAt);
                                     JInt (int64_of_float kind);
                                     JArray tags;
                                     JString content ] in
                          match json.Encode false serialization with
                          | Err e => Err ("serialization failed: " ++ e)
                          | Ok buf =>
                              let serialized := Strs.TrimSuffix buf (String "010"%char "") in
                              Ok (sha256_Sum256 (list_byte_of_string serialized))
                          end
                      | _ => Err "missing or invalid content field"
                      end
                  | _ => Err "missing or invalid tags field"
                  end
              | _ => Err "missing or invalid kind field"
              end
          | _ => Err "missing or invalid created_at field"
          end
      | _ => Err "missing or invalid pubkey field"
      end
  end.

(** ** The file tree and the operating system *)

(** The operating system is idealised: one user who may read and write
    everything below the root, no symbolic links, no limits on sizes or
    on the length of names.  Permission bits are not recorded. *)

(** A file with its bytes, or a directory with its entries by name. *)
Inductive node : Type :=
| File (data : string)
| Dir (entries : gmap string node).

(** An absolute, cleaned path: the names from the root down. *)
Definition path : Type := list string.

Inductive errno : Type :=
| ENOENT | ENOTDIR | EISDIR | ENOTEMPTY | EINVAL.

Module os.

(** The text of the cause of an operating-system error, as
    [syscall.Errno.Error()] gives it.  The errors of the [os] functions
    are [*PathError] values, which show the operation and the path before
    the cause; these two differ between systems and are left out of the
    texts here. *)
Definition errorText (e : errno) : string :=
  match e with
  | ENOENT => "no such file or directory"
  | ENOTDIR => "not a directory"
  | EISDIR => "is a directory"
  | ENOTEMPTY => "directory not empty"
  | EINVAL => "invalid argument"
  end.

(** [os.IsNotExist(err)]. *)
Definition IsNotExist (e : errno) : bool :=
  match e with ENOENT => true | _ => false end.

(** Name resolution from a node downwards. *)
Fixpoint walk (p : path) (n : node) : errno + node :=
  match p with
  | [] => inr n
  | c :: p' =>
      match n with
      | File _ => inl ENOTDIR
      | Dir m =>
          match m !! c with
          | None => inl ENOENT
          | Some n' => walk p' n'
          end
      end
  end.

(** [os.Stat(p)]: the node a path names. *)
Definition Stat (p : path) (root : node) : errno + node := walk p root.

(** [os.ReadFile(p)]. *)
Definition ReadFile (p : path) (root : node) : errno + string :=
  match walk p root with
  | inl e => inl e
  | inr (File data) => inr data
  | inr (Dir _) => inl EISDIR
  end.

(** [os.WriteFile(p, data, perm)]: creates the file in an existing
    directory or replaces the bytes of an existing file. *)
Fixpoint WriteFile (p : path) (data : string) (n : node) : errno + node :=
  match p with
  | [] =>
      match n with
      | File _ => inr (File data)
      | Dir _ => inl EISDIR
      end
  | c :: p' =>
      match n with
      | File _ => inl ENOTDIR
      | Dir m =>
          match m !! c with
          | None =>
              match p' with
              | [] => inr (Dir (<[c := File data]> m))
              | _ :: _ => inl ENOENT
              end
          | Some n' =>
              match WriteFile p' data n' with
              | inl e => inl e
              | inr n'' => inr (Dir (<[c := n'']> m))
              end
          end
      end
  end.

(** [os.MkdirAll(p, perm)]: creates the directories that are missing on
    the way; fails when a name on the way is a file. *)
Fixpoint MkdirAll (p : path) (n : node) : errno + node :=
  match n with
  | File _ => inl ENOTDIR
  | Dir m =>
      match p with
      | [] => inr n
      | c :: p' =>
          match MkdirAll p' (default (Dir ∅) (m !! c)) with
          | inl e => inl e
          | inr n' => inr (Dir (<[c := n']> m))
          end
      end
  end.

(** [os.RemoveAll(p)]: removes the node and everything below it; a path
    that names nothing is no error.  Removing the root is refused. *)
Fixpoint RemoveAll (p : path) (n : node) : errno + node :=
  match p with
  | [] => inl EINVAL
  | c :: p' =>
      match n with
      | File _ => inl ENOTDIR
      | Dir m =>
          match p' with
          | [] => inr (Dir (delete c m))
          | _ :: _ =>
              match m !! c with
              | None => inr n
              | Some n' =>
                  match RemoveAll p' n' with
                  | inl e => inl e
                  | inr n'' => inr (Dir (<[c := n'']> m))
                  end
              end
          end
      end
  end.

(** [os.Remove(p)]: removes a file or an empty directory. *)
Fixpoint Remove (p : path) (n : node) : errno + node :=
  match p with
  | [] => inl EINVAL
  | c :: p' =>
      match n with
      | File _ => inl ENOTDIR
      | Dir m =>
          match m !! c with
          | None => inl ENOENT
          | Some n' =>
              match p' with
              | [] =>
                  match n' with
                  | File _ => inr (Dir (delete c m))
                  | Dir sub =>
                      if decide (sub = ∅) then inr (Dir (delete c m))
                      else inl ENOTEMPTY
                  end
              | _ :: _ =>
                  match Remove p' n' with
                  | inl e => inl e
                  | inr n'' => inr (Dir (<[c := n'']> m))
                  end
              end
          end
      end
  end.

(** The order of file names: byte-wise lexicographic. *)
Definition nameLe (a b : string * node) : Prop := String.leb (fst a) (fst b) = true.

#[global] Instance nameLe_dec (a b : string * node) : Decision (nameLe a b).
Proof. unfold nameLe. apply _. Defined.

(** [os.ReadDir(p)]: the entries of a directory, sorted by file name. *)
Definition ReadDir (p : path) (root : node) : errno + list (string * node) :=
  match walk p root with
  | inl e => inl e
  | inr (File _) => inl ENOTDIR
  | inr (Dir m) => inr (merge_sort nameLe (map_to_list m))
  end.

(** [filepath.Join(dir, elem)] for a cleaned absolute [dir]: the names of
    [elem] are taken in turn; an empty name and [.] are dropped, [..]
    steps back to the parent, and the parent of the root is the root. *)
Definition step (dir : path) (name : string) : path :=
  if String.eqb name "" || String.eqb name "." then dir
  else if String.eqb name ".." then removelast dir
  else (dir ++ [name])%list.

Definition Join (dir : path) (elem : string) : path :=
  fold_left step (Strs.Split "/"%char elem) dir.

End os.

(** ** The world a process runs in *)

Record World := {
  (** The user's home directory; [None] when [$HOME] is not set. *)
  homeDir : option path;
  (** The file tree, from the root. *)
  root : node;
  (** The modification time the system reports for a path. *)
  modTime : path -> Time
}.

Definition setRoot (w : World) (r : node) : World :=
  {| homeDir := homeDir w; root := r; modTime := modTime w |}.

(** Computations that read and change the world. *)
Definition IO (A : Type) : Type := World -> A * World.

Definition ret {A} (a : A) : IO A := fun w => (a, w).

Definition bind {A B} (c : IO A) (k : A -> IO B) : IO B :=
  fun w => let (a, w') := c w in k a w'.

Declare Scope io_scope.
Delimit Scope io_scope with io.

Notation "'let*' x := c 'in' k" := (bind c (fun x => k))
  (at level 10, x name, c at level 100, k at level 200) : io_scope.

(** [v, err := c; if err != nil { return err }]: the error is handed on
    unchanged. *)
Notation "'try*' x := c 'in' k" :=
  (bind c (fun r => match r with
                    | Err e => ret (Err e)
                    | Ok x => k
                    end))
  (at level 10, x name, c at level 100, k at level 200) : io_scope.

Module sys.

(** An operation that changes the tree: the new tree on success, the old
    one kept on failure. *)
Definition update (f : node -> errno + node) : IO (option errno) :=
  fun w => match f (root w) with
           | inl e => (Some e, w)
           | inr r => (None, setRoot w r)
           end.

(** An operation that only reads the tree. *)
Definition query {A} (f : node -> A) : IO A := fun w => (f (root w), w).

(** [os.UserHomeDir()]. *)
Definition UserHomeDir : IO (Result path) :=
  fun w => match homeDir w with
           | Some h => (Ok h, w)
           | None => (Err "$HOME is not defined", w)
           end.

Definition MkdirAll (p : path) : IO (option errno) := update (os.MkdirAll p).
Definition WriteFile (p : path) (data : string) : IO (option errno) :=
  update (os.WriteFile p data).
Definition RemoveAll (p : path) : IO (option errno) := update (os.RemoveAll p).
Definition Remove (p : path) : IO (option errno) := update (os.Remove p).
Definition Stat (p : path) : IO (errno + node) := query (os.Stat p).
Definition ReadFile (p : path) : IO (errno + string) := query (os.ReadFile p).
Definition ReadDir (p : path) : IO (errno + list (string * node)) :=
  query (os.ReadDir p).

(** [info.ModTime()] for the entry at a path. *)
Definition ModTime (p : path) : IO Time := fun w => (modTime w p, w).

End sys.

(** ** accounts.go *)

Local Open Scope io_scope.

Record AccountInfo := {
  Npub : string;
  Pubkey : string;
  AccountCreatedAt : Time   (* field CreatedAt of AccountInfo *)
}.

(** [getStorageDir] (storage.go). *)
Definition getStorageDir : IO (Result path) :=
  let* h := sys.UserHomeDir in
  match h with
  | Err e => ret (Err ("cannot get home directory: " ++ e))
  | Ok homeDir =>
      let storageDir := os.Join homeDir ".noorsigner" in
      let* err := sys.MkdirAll storageDir in
      match err with
      | Some e => ret (Err ("cannot create storage directory: " ++ os.errorText e))
      | None => ret (Ok storageDir)
      end
  end.

(** [getAccountsDir]. *)
Definition getAccountsDir : IO (Result path) :=
  try* storageDir := getStorageDir in
  let accountsDir := os.Join storageDir "accounts" in
  let* err := sys.MkdirAll accountsDir in
  match err with
  | Some e => ret (Err ("cannot create accounts directory: " ++ os.errorText e))
  | None => ret (Ok accountsDir)
  end.

(** [sanitizeNpubForPath]. *)
Definition sanitizeNpubForPath (npub : string) : string :=
  if (70 <? String.length npub)%nat then String.substring 0 70 npub
  else npub.

(** [getAccountDir]. *)
Definition getAccountDir (npub : string) : IO (Result path) :=
  try* accountsDir := getAccountsDir in
  let safeNpub := sanitizeNpubForPath npub in
  let accountDir := os.Join accountsDir safeNpub in
  ret (Ok accountDir).

(** [getAccountKeyFilePath]. *)
Definition getAccountKeyFilePath (npub : string) : IO (Result path) :=
  try* accountDir := getAccountDir npub in
  ret (Ok (os.Join accountDir "keys.encrypted")).

(** [getAccountTrustSessionFilePath]. *)
Definition getAccountTrustSessionFilePath (npub : string) : IO (Result path) :=
  try* accountDir := getAccountDir npub in
  ret (Ok (os.Join accountDir "trust_session")).

(** [getActiveAccountFilePath]. *)
Definition getActiveAccountFilePath : IO (Result path) :=
  try* storageDir := getStorageDir in
  ret (Ok (os.Join storageDir "active_account")).

(** [saveActiveAccount]. *)
Definition saveActiveAccount (npub : string) : IO (Result unit) :=
  try* filePath := getActiveAccountFilePath in
  let* err := sys.WriteFile filePath npub in
  match err with
  | Some e => ret (Err ("cannot write active account file: " ++ os.errorText e))
  | None => ret (Ok tt)
  end.

(** [loadActiveAccount]. *)
Definition loadActiveAccount : IO (Result string) :=
  try* filePath := getActiveAccountFilePath in
  let* st := sys.Stat filePath in
  let missing := match st with inl e => os.IsNotExist e | inr _ => false end in
  if missing then ret (Err "no active account set")
  else
    let* content := sys.ReadFile filePath in
    match content with
    | inl e => ret (Err ("cannot read active account file: " ++ os.errorText e))
    | inr c => ret (Ok (Strs.TrimSpace c))
    end.

(** The body of the loop of [listAccounts] for one directory entry: the
    account it contributes, if any.  [entry.Info()] does not fail here, as
    nothing removes the entry between the listing and the call. *)
Definition listEntry `{Bech32Lib} (accountsDir : path) (entry : string * node)
  : IO (option AccountInfo) :=
  match snd entry with
  | File _ => ret None
  | Dir _ =>
      let npub := fst entry in
      if negb (Strs.HasPrefix npub "npub1") then ret None
      else
        let* info := sys.ModTime (accountsDir ++ [npub])%list in
        match npubToPubkey npub with
        | Err _ => ret None
        | Ok pubkey =>
            ret (Some {| Npub := npub; Pubkey := pubkey; AccountCreatedAt := info |})
        end
  end.

(** The loop of [listAccounts] over the entries. *)
Fixpoint listEntries `{Bech32Lib} (accountsDir : path) (entries : list (string * node))
  : IO (list AccountInfo) :=
  match entries with
  | [] => ret []
  | entry :: rest =>
      let* a := listEntry accountsDir entry in
      let* accounts := listEntries accountsDir rest in
      match a with
      | Some acc => ret (acc :: accounts)
      | None => ret accounts
      end
  end.

(** [listAccounts]. *)
Definition listAccounts `{Bech32Lib} : IO (Result (list AccountInfo)) :=
  try* accountsDir := getAccountsDir in
  let* entries := sys.ReadDir accountsDir in
  match entries with
  | inl e =>
      if os.IsNotExist e then ret (Ok [])
      else ret (Err ("cannot read accounts directory: " ++ os.errorText e))
  | inr entries =>
      let* accounts := listEntries accountsDir entries in
      ret (Ok accounts)
  end.

(** [accountExists]. *)
Definition accountExists (npub : string) : IO bool :=
  let* r := getAccountDir npub in
  match r with
  | Err _ => ret false
  | Ok accountDir =>
      let keyFile := os.Join accountDir "keys.encrypted" in
      let* st := sys.Stat keyFile in
      match st with
      | inl _ => ret false
      | inr _ => ret true
      end
  end.

(** [saveAccountEncryptedKey]. *)
Definition saveAccountEncryptedKey (npub : string) (encKey : EncryptedKey)
  : IO (Result unit) :=
  try* accountDir := getAccountDir npub in
  let* err := sys.MkdirAll accountDir in
  match err with
  | Some e => ret (Err ("cannot create account directory: " ++ os.errorText e))
  | None =>
      let keyFile := os.Join accountDir "keys.encrypted" in
      let saltHex := Hex.encodeHex (Salt encKey) in
      let encryptedHex := Hex.encodeHex (EncryptedNsec encKey) in
      let content := saltHex ++ ":" ++ encryptedHex in
      let* err := sys.WriteFile keyFile content in
      match err with
      | Some e => ret (Err ("cannot write account key file: " ++ os.errorText e))
      | None => ret (Ok tt)
      end
  end.

(** The part of [loadAccountEncryptedKey] that parses the file's text. *)
Definition parseEncryptedKey (content : string) : Result EncryptedKey :=
  match Strs.SplitN2 ":"%char content with
  | [saltHex; encryptedHex] =>
      match Hex.decodeHex saltHex with
      | Err e => Err ("invalid salt in account key file: " ++ e)
      | Ok salt =>
          match Hex.decodeHex encryptedHex with
          | Err e => Err ("invalid encrypted data in account key file: " ++ e)
          | Ok encrypted => Ok {| Salt := salt; EncryptedNsec := encrypted |}
          end
      end
  | _ => Err "invalid account key file format"
  end.

(** [loadAccountEncryptedKey]. *)
Definition loadAccountEncryptedKey (npub : string) : IO (Result EncryptedKey) :=
  try* keyFile := getAccountKeyFilePath npub in
  let* st := sys.Stat keyFile in
  let missing := match st with inl e => os.IsNotExist e | inr _ => false end in
  if missing then ret (Err ("account not found: " ++ npub))
  else
    let* content := sys.ReadFile keyFile in
    match content with
    | inl e => ret (Err ("cannot read account key file: " ++ os.errorText e))
    | inr c => ret (parseEncryptedKey c)
    end.

(** [saveAccountTrustSession]. *)
Definition saveAccountTrustSession (npub : string) (session : TrustSession)
  : IO (Result unit) :=
  try* sessionFile := getAccountTrustSessionFilePath npub in
  let content := trustSessionContent session in
  let* err := sys.WriteFile sessionFile content in
  match err with
  | Some e => ret (Err ("cannot write account trust session file: " ++ os.errorText e))
  | None => ret (Ok tt)
  end.

(** [saveTrustSession] (storage.go), for the single-account layout. *)
Definition saveTrustSession (session : TrustSession) : IO (Result unit) :=
  try* storageDir := getStorageDir in
  let sessionFile := os.Join storageDir "trust_session" in
  let content := trustSessionContent session in
  let* err := sys.WriteFile sessionFile content in
  match err with
  | Some e => ret (Err ("cannot write trust session file: " ++ os.errorText e))
  | None => ret (Ok tt)
  end.

(** The loop of [parseInt64] over the runes of the string, [result]
    being the value read so far. *)
Fixpoint parseInt64Loop (runes : list (N * string)) (result : Z) : Result Z :=
  match runes with
  | [] => Ok result
  | (c, _) :: rest =>
      if (c <? 48)%N || (57 <? c)%N then Err ("invalid digit: " ++ utf8.EncodeRune c)
      else parseInt64Loop rest (wrapInt64 (wrapInt64 (result * 10) + Z.of_N (c - 48)))
  end.

(** [parseInt64]. *)
Definition parseInt64 (s : string) : Result Z := parseInt64Loop (utf8.chunks s) 0.

(** The part of [loadAccountTrustSession] that parses the file's text. *)
Definition parseAccountTrustSession (content : string) : Result TrustSession :=
  match Strs.Split ":"%char content with
  | [part0; part1; part2; part3] =>
      match parseInt64 part1 with
      | Err e => Err ("invalid expiry timestamp: " ++ e)
      | Ok expiresUnix =>
          match parseInt64 part2 with
          | Err e => Err ("invalid created timestamp: " ++ e)
          | Ok createdUnix =>
              match Hex.decodeHex part3 with
              | Err e => Err ("invalid encrypted nsec: " ++ e)
              | Ok encryptedNsec =>
                  Ok {| SessionToken := part0;
                        ExpiresAt := time.Unix0 expiresUnix;
                        CreatedAt := time.Unix0 createdUnix;
                        SessionNsec := encryptedNsec |}
              end
          end
      end
  | _ => Err "invalid account trust session format"
  end.

(** [loadAccountTrustSession]. *)
Definition loadAccountTrustSession (npub : string) : IO (Result TrustSession) :=
  try* sessionFile := getAccountTrustSessionFilePath npub in
  let* st := sys.Stat sessionFile in
  let missing := match st with inl e => os.IsNotExist e | inr _ => false end in
  if missing then ret (Err ("no trust session for account: " ++ npub))
  else
    let* content := sys.ReadFile sessionFile in
    match content with
    | inl e => ret (Err ("cannot read account trust session file: " ++ os.errorText e))
    | inr c => ret (parseAccountTrustSession c)
    end.

(** [clearAccountTrustSession]. *)
Definition clearAccountTrustSession (npub : string) : IO (Result unit) :=
  try* sessionFile := getAccountTrustSessionFilePath npub in
  let* st := sys.Stat sessionFile in
  let missing := match st with inl e => os.IsNotExist e | inr _ => false end in
  if missing then ret (Ok tt)
  else
    let* err := sys.Remove sessionFile in
    match err with
    | Some e => ret (Err (os.errorText e))
    | None => ret (Ok tt)
    end.

(** [removeAccount]. *)
Definition removeAccount (npub : string) : IO (Result unit) :=
  try* accountDir := getAccountDir npub in
  let* st := sys.Stat accountDir in
  let missing := match st with inl e => os.IsNotExist e | inr _ => false end in
  if missing then ret (Err ("account not found: " ++ npub))
  else
    let* err := sys.RemoveAll accountDir in
    match err with
    | Some e => ret (Err ("cannot remove account: " ++ os.errorText e))
    | None =>
        let* active := loadActiveAccount in
        match active with
        | Ok activeNpub =>
            if String.eqb activeNpub npub then
              let* activeFile := getActiveAccountFilePath in
              match activeFile with
              | Ok f => let* _ := sys.Remove f in ret (Ok tt)
              | Err _ => ret (Ok tt)
              end
            else ret (Ok tt)
        | Err _ => ret (Ok tt)
        end
    end.

(** ** strconv *)

(** [strconv.Quote], which the error texts of [strconv] use to show the
    text that did not parse. *)
Class StrconvLib := {
  strconv_Quote : string -> string
}.

Module strconv.

Inductive NumErr : Type := ErrSyntax | ErrRange.

(** The loop of [ParseUint(s, 10, 64)] over the bytes of the string, [n]
    being the number read so far: a byte that is no decimal digit is a
    syntax error, a number beyond 64 bits a range error. *)
Fixpoint parseUintLoop (s : string) (n : Z) : NumErr + Z :=
  match s with
  | "" => inr n
  | String c rest =>
      let b := N_of_ascii c in
      if (48 <=? b)%N && (b <=? 57)%N then
        if ((2 ^ 64 - 1) / 10 + 1 <=? n)%Z then inl ErrRange
        else
          let n1 := (n * 10 + Z.of_N (b - 48))%Z in
          if (2 ^ 64 - 1 <? n1)%Z then inl ErrRange
          else parseUintLoop rest n1
      else inl ErrSyntax
  end.

(** [ParseUint(s, 10, 64)]. *)
Definition ParseUint (s : string) : NumErr + Z :=
  match s with
  | "" => inl ErrSyntax
  | _ => parseUintLoop s 0
  end.

(** The text of a [*NumError] of [ParseInt]. *)
Definition numError `{StrconvLib} (s0 : string) (e : NumErr) : string :=
  "strconv.ParseInt: parsing " ++ strconv_Quote s0 ++ ": " ++
  match e with
  | ErrSyntax => "invalid syntax"
  | ErrRange => "value out of range"
  end.

(** [strconv.ParseInt(s, 10, 64)]. *)
Definition ParseInt `{StrconvLib} (s0 : string) : Result Z :=
  match s0 with
  | "" => Err (numError s0 ErrSyntax)
  | String c rest =>
      let neg := Ascii.eqb c "-" in
      let s := if Ascii.eqb c "+" || Ascii.eqb c "-" then rest else s0 in
      match ParseUint s with
      | inl ErrSyntax => Err (numError s0 ErrSyntax)
      | inl ErrRange => Err (numError s0 ErrRange)
      | inr un =>
          if negb neg && (2 ^ 63 <=? un)%Z then Err (numError s0 ErrRange)
          else if neg && (2 ^ 63 <? un)%Z then Err (numError s0 ErrRange)
          else Ok (if neg then (- un)%Z else un)
      end
  end.

End strconv.

(** ** storage.go: the single-account layout *)

(** [getKeyFilePath]. *)
Definition getKeyFilePath : IO (Result path) :=
  try* storageDir := getStorageDir in
  ret (Ok (os.Join storageDir "keys.encrypted")).

(** [saveEncryptedKey]. *)
Definition saveEncryptedKey (encKey : EncryptedKey) : IO (Result unit) :=
  try* keyFile := getKeyFilePath in
  let saltHex := Hex.EncodeToString (Salt encKey) in
  let encryptedHex := Hex.EncodeToString (EncryptedNsec encKey) in
  let content := saltHex ++ ":" ++ encryptedHex in
  let* err := sys.WriteFile keyFile content in
  match err with
  | Some e => ret (Err ("cannot write key file: " ++ os.errorText e))
  | None => ret (Ok tt)
  end.

(** The loop [for i, c := range parts { if c == ':' { sepIndex = i; break } }]
    over the runes of the text, [i] being the byte index of the rune at
    the head. *)
Fixpoint findSeparator (runes : list (N * string)) (i : nat) : option nat :=
  match runes with
  | [] => None
  | (c, bytes) :: rest =>
      if (c =? 58)%N then Some i
      else findSeparator rest (i + String.length bytes)
  end.

(** The part of [loadEncryptedKey] that parses the file's text. *)
Definition parseKeyFile (parts : string) : Result EncryptedKey :=
  if (String.length parts <? 33)%nat then Err "invalid key file format"
  else
    match findSeparator (utf8.chunks parts) 0 with
    | None => Err "invalid key file format - no separator"
    | Some sepIndex =>
        let saltHex := String.substring 0 sepIndex parts in
        let encryptedHex :=
          String.substring (sepIndex + 1) (String.length parts - (sepIndex + 1)) parts in
        match Hex.DecodeString saltHex with
        | Err e => Err ("invalid salt in key file: " ++ e)
        | Ok salt =>
            match Hex.DecodeString encryptedHex with
            | Err e => Err ("invalid encrypted data in key file: " ++ e)
            | Ok encrypted => Ok {| Salt := salt; EncryptedNsec := encrypted |}
            end
        end
    end.

(** [loadEncryptedKey]. *)
Definition loadEncryptedKey : IO (Result EncryptedKey) :=
  try* keyFile := getKeyFilePath in
  let* st := sys.Stat keyFile in
  let missing := match st with inl e => os.IsNotExist e | inr _ => false end in
  if missing then ret (Err "no encrypted key found - run 'init' first")
  else
    let* content := sys.ReadFile keyFile in
    match content with
    | inl e => ret (Err ("cannot read key file: " ++ os.errorText e))
    | inr c => ret (parseKeyFile c)
    end.

(** [getTrustSessionFilePath]. *)
Definition getTrustSessionFilePath : IO (Result path) :=
  try* storageDir := getStorageDir in
  ret (Ok (os.Join storageDir "trust_session")).

(** The part of [loadTrustSession] that parses the file's text. *)
Definition parseTrustSession `{StrconvLib} (content : string) : Result TrustSession :=
  let parts := Strs.Split ":"%char content in
  match parts with
  | [token; part1; part2; encryptedHex] =>
      match strconv.ParseInt part1 with
      | Err e => Err ("invalid expiry timestamp: " ++ e)
      | Ok expiresUnix =>
          match strconv.ParseInt part2 with
          | Err e => Err ("invalid created timestamp: " ++ e)
          | Ok createdUnix =>
              match Hex.DecodeString encryptedHex with
              | Err e => Err ("invalid encrypted nsec in trust session: " ++ e)
              | Ok encryptedNsec =>
                  Ok {| SessionToken := token;
                        ExpiresAt := time.Unix0 expiresUnix;
                        CreatedAt := time.Unix0 createdUnix;
                        SessionNsec := encryptedNsec |}
              end
          end
      end
  | _ =>
      Err ("invalid trust session format - expected 4 parts, got "
           ++ Strs.fmt_d (Z.of_nat (length parts)))
  end.

(** [loadTrustSession]. *)
Definition loadTrustSession `{StrconvLib} : IO (Result TrustSession) :=
  try* sessionFile := getTrustSessionFilePath in
  let* st := sys.Stat sessionFile in
  let missing := match st with inl e => os.IsNotExist e | inr _ => false end in
  if missing then ret (Err "no trust session found")
  else
    let* content := sys.ReadFile sessionFile in
    match content with
    | inl e => ret (Err ("cannot read trust session file: " ++ os.errorText e))
    | inr c => ret (parseTrustSession c)
    end.

(** [clearTrustSession]. *)
Definition clearTrustSession : IO (Result unit) :=
  try* sessionFile := getTrustSessionFilePath in
  let* st := sys.Stat sessionFile in
  let missing := match st with inl e => os.IsNotExist e | inr _ => false end in
  if missing then ret (Ok tt)
  else
    let* err := sys.Remove sessionFile in
    match err with
    | Some e => ret (Err (os.errorText e))
    | None => ret (Ok tt)
    end.

(** ** accounts.go: migration from the single-account layout *)

(** The trust session of the old layout carried over to the account, when
    the old file is there and loads: the [if _, err := os.Stat(oldTrustFile);
    err == nil] block of [migrateToMultiAccount]. *)
Definition migrateTrustSession `{StrconvLib} (oldTrustFile : path) (npub : string)
  : IO unit :=
  let* st := sys.Stat oldTrustFile in
  match st with
  | inl _ => ret tt
  | inr _ =>
      let* loaded := loadTrustSession in
      match loaded with
      | Ok oldSession =>
          let* ignored := saveAccountTrustSession npub oldSession in ret tt
      | Err _ => ret tt
      end
  end.

(** [migrateToMultiAccount]; [readPassword] is what the prompt for the
    password returns, should the migration come to ask.  What the
    function prints is left out. *)
Definition migrateToMultiAccount `{Bech32Lib} `{Secp256k1Lib} `{ScryptLib} `{StrconvLib}
  (readPassword : Result string) : IO (Result unit) :=
  try* storageDir := getStorageDir in
  let oldKeyFile := os.Join storageDir "keys.encrypted" in
  let oldTrustFile := os.Join storageDir "trust_session" in
  let* st := sys.Stat oldKeyFile in
  let missing := match st with inl e => os.IsNotExist e | inr _ => false end in
  if missing then ret (Ok tt)
  else
    let* listed := listAccounts in
    let accounts := match listed with Ok l => l | Err _ => [] end in
    if (0 <? length accounts)%nat then
      let* ignored := sys.Remove oldKeyFile in
      let* ignored2 := sys.Remove oldTrustFile in
      ret (Ok tt)
    else
      let* loaded := loadEncryptedKey in
      match loaded with
      | Err e => ret (Err ("cannot load old key for migration: " ++ e))
      | Ok encKey =>
          match readPassword with
          | Err e => ret (Err ("cannot read password: " ++ e))
          | Ok password =>
              match decryptNsec encKey password with
              | Err e => ret (Err ("invalid password or corrupted key: " ++ e))
              | Ok nsec =>
                  match nsecToPrivateKey nsec with
                  | Err e => ret (Err ("invalid nsec: " ++ e))
                  | Ok privateKey =>
                      let npub := privateKeyToNpub privateKey in
                      let* saved := saveAccountEncryptedKey npub encKey in
                      match saved with
                      | Err e => ret (Err ("cannot save migrated key: " ++ e))
                      | Ok _ =>
                          let* ignored := migrateTrustSession oldTrustFile npub in
                          let* active := saveActiveAccount npub in
                          match active with
                          | Err e => ret (Err ("cannot set active account: " ++ e))
                          | Ok _ =>
                              let* ignored2 := sys.Remove oldKeyFile in
                              let* ignored3 := sys.Remove oldTrustFile in
                              ret (Ok tt)
                          end
                      end
                  end
              end
          end
      end.

(** ** The daemon (multi-account variant) *)

(** [SignRequest]: a decoded request. *)
Record SignRequest := {
  ID : string;
  Method : string;
  EventJSON : string;
  Plaintext : string;
  RecipientPubkey : string;
  Payload : string;
  SenderPubkey : string;
  ReqPubkey : string;    (* field Pubkey *)
  ReqNpub : string;      (* field Npub *)
  Nsec : string;
  Password : string;
  SetActive : bool
}.

(** [SignResponse]. *)
Record SignResponse := {
  SignID : string;
  Signature : string;
  SignError : string
}.

(** [AccountActionResponse]. *)
Record AccountActionResponse := {
  ActionID : string;
  Success : bool;
  ActionPubkey : string;
  ActionNpub : string;
  ActionError : string
}.

(** An [AccountActionResponse] that carries only an error. *)
Definition actionError (id msg : string) : AccountActionResponse :=
  {| ActionID := id; Success := false; ActionPubkey := ""; ActionNpub := "";
     ActionError := msg |}.

(** [Daemon]: the fields the lock [mu] protects.  The handlers below are
    run one at a time, so the lock itself does not appear. *)
Record Daemon `{Secp256k1Lib} := {
  privateKey : option PrivateKey;   (* nil when no key is loaded *)
  npub : string;
  pubkey : string
}.

(** [Daemon.signEvent].  Signing with no key loaded is a fault of the
    process; it is reported here as an error. *)
Definition signEvent `{Secp256k1Lib} `{JsonLib} `{GoArch} `{Sha256Lib}
  (d : Daemon) (eventJSON : string) : Result string :=
  match createEventHash eventJSON with
  | Err e => Err ("failed to hash event: " ++ e)
  | Ok eventHash =>
      match privateKey d with
      | Some key => signNostrEvent key eventHash
      | None => Err "no private key loaded"
      end
  end.

(** [handleConnection], case ["sign_event"]. *)
Definition handleSignEvent `{Secp256k1Lib} `{JsonLib} `{GoArch} `{Sha256Lib}
  (d : Daemon) (req : SignRequest) : SignResponse :=
  match signEvent d (EventJSON req) with
  | Err e => {| SignID := ID req; Signature := ""; SignError := e |}
  | Ok signature => {| SignID := ID req; Signature := signature; SignError := "" |}
  end.

(** [handleConnection], case ["add_account"]. *)
Definition handleAddAccount `{Bech32Lib} `{Secp256k1Lib} `{ScryptLib}
  (rnd : Entropy) (req : SignRequest) : IO AccountActionResponse :=
  if String.eqb (Nsec req) "" || String.eqb (Password req) "" then
    ret (actionError (ID req) "nsec and password required")
  else
    match nsecToPrivateKey (Nsec req) with
    | Err e => ret (actionError (ID req) ("invalid nsec: " ++ e))
    | Ok privateKey =>
        let npub := privateKeyToNpub privateKey in
        let* exists_ := accountExists npub in
        if exists_ then ret (actionError (ID req) "account already exists")
        else
          match encryptNsec rnd (Nsec req) (Password req) with
          | Err e => ret (actionError (ID req) ("encryption failed: " ++ e))
          | Ok encryptedKey =>
              let* saved := saveAccountEncryptedKey npub encryptedKey in
              match saved with
              | Err e => ret (actionError (ID req) ("failed to save account: " ++ e))
              | Ok _ =>
                  let* ignored :=
                    (if SetActive req then saveActiveAccount npub else ret (Ok tt)) in
                  let pubkey := match npubToPubkey npub with Ok p => p | Err _ => "" end in
                  ret {| ActionID := ID req; Success := true;
                         ActionPubkey := pubkey; ActionNpub := npub;
                         ActionError := "" |}
              end
          end
    end.

(** The test [addAccount] (main.go, the command-line path) applies to the
    password it has read, [len(password1) < 8]: when it holds the password
    is turned down and asked for again. *)
Definition cliPasswordTooShort (password1 : string) : bool :=
  (String.length password1 <? 8)%nat.

(** The loop [for _, acc := range accounts { if acc.Pubkey == pubkey
    { targetNpub = acc.Npub; break } }], starting from [targetNpub]. *)
Fixpoint findByPubkey (accounts : list AccountInfo) (pubkey targetNpub : string) : string :=
  match accounts with
  | [] => targetNpub
  | acc :: rest =>
      if String.eqb (Pubkey acc) pubkey then Npub acc
      else findByPubkey rest pubkey targetNpub
  end.

(** The account a [switch_account] or [remove_account] request names: its
    [npub] field, or else the account whose public key is the [pubkey]
    field. *)
Definition resolveTarget `{Bech32Lib} (req : SignRequest) : IO string :=
  let targetNpub := ReqNpub req in
  if String.eqb targetNpub "" && negb (String.eqb (ReqPubkey req) "") then
    let* listed := listAccounts in
    let accounts := match listed with Ok l => l | Err _ => [] end in
    ret (findByPubkey accounts (ReqPubkey req) targetNpub)
  else ret targetNpub.

(** [handleConnection], case ["switch_account"]. *)
Definition handleSwitchAccount `{Bech32Lib} `{Secp256k1Lib} `{ScryptLib}
  (rnd : Entropy) (now : Time) (d : Daemon) (req : SignRequest)
  : IO (AccountActionResponse * Daemon) :=
  let* targetNpub := resolveTarget req in
  if String.eqb targetNpub "" then
    ret (actionError (ID req) "pubkey or npub required", d)
  else if String.eqb (Password req) "" then
    ret (actionError (ID req) "password required", d)
  else
    let* exists_ := accountExists targetNpub in
    if negb exists_ then ret (actionError (ID req) "account not found", d)
    else
      let* loaded := loadAccountEncryptedKey targetNpub in
      match loaded with
      | Err e => ret (actionError (ID req) ("failed to load account: " ++ e), d)
      | Ok encKey =>
          match decryptNsec encKey (Password req) with
          | Err _ => ret (actionError (ID req) "invalid password", d)
          | Ok nsec =>
              match nsecToPrivateKey nsec with
              | Err _ => ret (actionError (ID req) "corrupted key file", d)
              | Ok newPrivateKey =>
                  let newPubkey :=
                    match npubToPubkey targetNpub with Ok p => p | Err _ => "" end in
                  let* ignored :=
                    match createTrustSession rnd now nsec with
                    | Ok session => saveAccountTrustSession targetNpub session
                    | Err _ => ret (Ok tt)
                    end in
                  let d' := {| privateKey := Some newPrivateKey;
                               npub := targetNpub;
                               pubkey := newPubkey |} in
                  let* ignored2 := saveActiveAccount targetNpub in
                  ret ({| ActionID := ID req; Success := true;
                          ActionPubkey := newPubkey; ActionNpub := targetNpub;
                          ActionError := "" |}, d')
              end
          end
      end.

(** [handleConnection], case ["remove_account"]. *)
Definition handleRemoveAccount `{Bech32Lib} `{Secp256k1Lib} `{ScryptLib}
  (d : Daemon) (req : SignRequest) : IO AccountActionResponse :=
  let* targetNpub := resolveTarget req in
  if String.eqb targetNpub "" then
    ret (actionError (ID req) "pubkey or npub required")
  else if String.eqb (Password req) "" then
    ret (actionError (ID req) "password required")
  else
    let* exists_ := accountExists targetNpub in
    if negb exists_ then ret (actionError (ID req) "account not found")
    else
      let* loaded := loadAccountEncryptedKey targetNpub in
      match loaded with
      | Err e => ret (actionError (ID req) ("failed to load account: " ++ e))
      | Ok encKey =>
          match decryptNsec encKey (Password req) with
          | Err _ => ret (actionError (ID req) "invalid password")
          | Ok _ =>
              let isCurrentAccount := String.eqb (npub d) targetNpub in
              if isCurrentAccount then
                ret (actionError (ID req)
                       "cannot remove active account - switch to another account first")
              else
                let* removed := removeAccount targetNpub in
                match removed with
                | Err e => ret (actionError (ID req) ("failed to remove account: " ++ e))
                | Ok _ =>
                    ret {| ActionID := ID req; Success := true;
                           ActionPubkey := ""; ActionNpub := ""; ActionError := "" |}
                end
          end
      end.

(** ** Notions the specification uses *)

Module Spec.

(** The instant a [Time] denotes on the wall clock, in nanoseconds since
    the epoch. *)
Definition instant (t : Time) : Z := (wallSec t * 1000000000 + wallNsec t)%Z.

(** A [Time] whose nanoseconds lie within the second, as every value the
    time package builds does. *)
Definition normal (t : Time) : Prop := (0 <= wallNsec t < 1000000000)%Z.

(** "[t] is strictly before [u]": on the monotonic clock when both values
    were read from it, on the wall clock otherwise. *)
Definition strictlyBefore (t u : Time) : Prop :=
  match mono t, mono u with
  | Some a, Some b => (a < b)%Z
  | _, _ => (instant t < instant u)%Z
  end.

(** The trust-session text as section 3 of the specification words it:
    [hex(token) ":" created_unix ":" expires_unix ":" hex(ciphertext)]. *)
Definition createdFirstContent (session : TrustSession) : string :=
  SessionToken session ++ ":" ++
  Strs.fmt_d (time.Unix (CreatedAt session)) ++ ":" ++
  Strs.fmt_d (time.Unix (ExpiresAt session)) ++ ":" ++
  Hex.encodeHex (SessionNsec session).

(** The trust-session text as section 6 of the specification lays it out:
    [hex(token) ":" expires_unix ":" created_unix ":" hex(ciphertext)]. *)
Definition expiresFirstContent (token : list byte) (expires created : Z)
  (ciphertext : list byte) : string :=
  Hex.encodeHex token ++ ":" ++ Strs.fmt_d expires ++ ":" ++
  Strs.fmt_d created ++ ":" ++ Hex.encodeHex ciphertext.

(** The places of the on-disk layout below a home directory [h]. *)
Definition storagePath (h : path) : path := (h ++ [".noorsigner"])%list.
Definition accountsPath (h : path) : path := (storagePath h ++ ["accounts"])%list.
Definition activePath (h : path) : path := (storagePath h ++ ["active_account"])%list.
Definition accountPath (h : path) (name : string) : path :=
  (accountsPath h ++ [name])%list.
Definition keyFilePath (h : path) (name : string) : path :=
  (accountPath h name ++ ["keys.encrypted"])%list.
Definition sessionFilePath (h : path) (name : string) : path :=
  (accountPath h name ++ ["trust_session"])%list.

(** Whether a character occurs in a string. *)
Fixpoint hasChar (c : ascii) (s : string) : bool :=
  match s with
  | "" => false
  | String a rest => Ascii.eqb a c || hasChar c rest
  end.

(** A string that can name an account's directory as it stands: one path
    element of at most 70 bytes.  Every npub is one (63 characters of the
    bech32 alphabet). *)
Definition accountName (s : string) : bool :=
  negb (String.eqb s "") && negb (String.eqb s ".") && negb (String.eqb s "..")
  && negb (hasChar "/"%char s) && (String.length s <=? 70)%nat.

End Spec.

(** ** Notions about text *)

Module Text.

(** Every character of the string satisfies [f]. *)
Fixpoint allOf (f : ascii -> bool) (s : string) : bool :=
  match s with
  | "" => true
  | String c rest => f c && allOf f rest
  end.

(** A decimal digit, [0] to [9]. *)
Definition isDigit (c : ascii) : bool :=
  let n := N_of_ascii c in (48 <=? n)%N && (n <=? 57)%N.

(** A hexadecimal digit, in either case. *)
Definition isHexDigit (c : ascii) : bool :=
  let n := N_of_ascii c in
  ((48 <=? n)%N && (n <=? 57)%N) || ((97 <=? n)%N && (n <=? 102)%N)
  || ((65 <=? n)%N && (n <=? 70)%N).

(** The number a string of decimal digits denotes, [acc] being the number
    read so far. *)
Fixpoint decimalFrom (acc : Z) (s : string) : Z :=
  match s with
  | "" => acc
  | String c rest => decimalFrom (acc * 10 + Z.of_N (N_of_ascii c - 48)) rest
  end.

Definition decimalValue (s : string) : Z := decimalFrom 0 s.

(** An upper-case hexadecimal letter turned into lower case. *)
Definition lowerHex (c : ascii) : ascii :=
  let n := N_of_ascii c in
  if (65 <=? n)%N && (n <=? 70)%N then ascii_of_N (n + 32) else c.

Fixpoint mapChars (f : ascii -> ascii) (s : string) : string :=
  match s with
  | "" => ""
  | String c rest => String (f c) (mapChars f rest)
  end.

End Text.

(** ** Notions the specification uses about the stored state *)

Module State.
Import Spec.

(** The bytes of the file at a path, if a file is there. *)
Definition fileAt (q : path) (w : World) : option string :=
  match os.ReadFile q (root w) with
  | inr c => Some c
  | inl _ => None
  end.

(** Two worlds with the same files, each with the same bytes: they may
    differ only in directories that hold no file. *)
Definition sameFiles (w w' : World) : Prop :=
  homeDir w' = homeDir w /\
  modTime w' = modTime w /\
  forall q : path, fileAt q w' = fileAt q w.

(** The key file the program reads for the account a request names. *)
Definition keyFileOf (h : path) (target : string) : path :=
  os.Join (os.Join (accountsPath h) (sanitizeNpubForPath target)) "keys.encrypted".

(** "The password decrypts the target account's key to a valid nsec": the
    key file of the account holds an encrypted key whose decryption under
    the password parses as a private key. *)
Definition passwordUnlocks `{Bech32Lib} `{Secp256k1Lib} `{ScryptLib}
  (w : World) (target password : string) : Prop :=
  exists h content encKey nsec key,
    homeDir w = Some h /\
    fileAt (keyFileOf h target) w = Some content /\
    parseEncryptedKey content = Ok encKey /\
    decryptNsec encKey password = Ok nsec /\
    nsecToPrivateKey nsec = Ok key.

(** A computation that creates, changes and removes no file. *)
Definition quiet {A} (c : IO A) : Prop :=
  forall w, sameFiles w (snd (c w)).

(** A directory is at the path. *)
Definition isDirAt (p : path) (w : World) : Prop :=
  exists sub, os.walk p (root w) = inr (Dir sub).

(** Strictly ascending order of strings, byte by byte. *)
Definition nameLt (a b : string) : Prop := String.ltb a b = true.

(** The account a directory entry stands for in a listing, if any. *)
Definition accountOf `{Bech32Lib} (mt : path -> Time) (dir : path)
  (entry : string * node) : option AccountInfo :=
  match snd entry with
  | File _ => None
  | Dir _ =>
      if negb (Strs.HasPrefix (fst entry) "npub1") then None
      else match npubToPubkey (fst entry) with
           | Err _ => None
           | Ok pk =>
               Some {| Npub := fst entry; Pubkey := pk;
                       AccountCreatedAt := mt (dir ++ [fst entry])%list |}
           end
  end.

(** What [loadActiveAccount] answers for the node at the place of the
    [active_account] file. *)
Definition activeAnswer (found : errno + node) : Result string :=
  match found with
  | inl e =>
      if os.IsNotExist e then Err "no active account set"
      else Err ("cannot read active account file: " ++ os.errorText e)
  | inr (File c) => Ok (Strs.TrimSpace c)
  | inr (Dir _) => Err ("cannot read active account file: " ++ os.errorText EISDIR)
  end.

(** The storage directories are laid out: [accounts/] exists below the
    storage root. *)
Definition settled (w : World) (h : path) : Prop :=
  homeDir w = Some h /\
  exists m, os.walk (accountsPath h) (root w) = inr (Dir m).

End State.

(** ** Notions the specification uses about events *)

Module Canon.

(** The texts of the items of an array, as the encoder writes them one
    after the other. *)
Fixpoint marshalItems `{JsonLib} (escapeHTML : bool) (l : list JValue)
  : Result (list string) :=
  match l with
  | [] => Ok []
  | x :: rest =>
      match json.marshal escapeHTML x with
      | Err e => Err e
      | Ok s =>
          match marshalItems escapeHTML rest with
          | Err e => Err e
          | Ok ss => Ok (s :: ss)
          end
      end
  end.

(** A JSON string literal without HTML escaping. *)
Definition quote (s : string) : string := json.appendString s false.

(** The canonical text of [[0, pubkey, created_at, kind, tags, content]]:
    compact, the two numbers as decimal integers, the strings quoted
    without HTML escaping, nothing before the opening bracket and nothing
    after the closing one.  [tagsText] is the compact text of the tags. *)
Definition nip01Text (pubkey : string) (createdAt kind : Z) (tagsText content : string)
  : string :=
  "[0," ++ quote pubkey ++ "," ++ Strs.fmt_d createdAt ++ "," ++ Strs.fmt_d kind
  ++ "," ++ tagsText ++ "," ++ quote content ++ "]".

(** The characters a JSON string shows as they are when HTML escaping is
    off: printable ASCII other than the double quote and the backslash;
    [<], [>] and [&] are among them. *)
Definition verbatimChar (c : ascii) : bool :=
  let b := N_of_ascii c in
  (32 <=? b)%N && (b <? 128)%N && negb (b =? 34)%N && negb (b =? 92)%N.

Fixpoint verbatim (s : string) : bool :=
  match s with
  | "" => true
  | String c rest => verbatimChar c && verbatim rest
  end.

(** The float64 that the JSON number [1.6942e9] denotes:
    7105989836800000 * 2^-22. *)
Definition float_1_6942e9 : spec_float := S754_finite false 7105989836800000 (-22).

End Canon.

(** ** The compact JSON text, as the specification has it *)

Module Compact.

(** Whether a byte lies between two bounds. *)
Definition within (b lo hi : N) : bool := (lo <=? b)%N && (b <=? hi)%N.

(** Well-formed UTF-8, after table 3-7 of the Unicode standard: one byte
    below 0x80; C2..DF and a trailing byte; E0..EF and two, F0..F4 and
    three trailing bytes, the first of them narrowed after E0, ED, F0 and
    F4 so that no code point is written longer than needed, none is a
    surrogate and none lies beyond U+10FFFF.  The strings of a JSON text
    are of this kind. *)
Fixpoint wellFormed (s : string) : bool :=
  match s with
  | "" => true
  | String c0 r0 =>
      let b0 := N_of_ascii c0 in
      if (b0 <? 128)%N then wellFormed r0
      else
        match r0 with
        | "" => false
        | String c1 r1 =>
            let b1 := N_of_ascii c1 in
            if within b0 194 223 then within b1 128 191 && wellFormed r1
            else
              match r1 with
              | "" => false
              | String c2 r2 =>
                  let b2 := N_of_ascii c2 in
                  if within b0 224 239 then
                    within b1 (if (b0 =? 224)%N then 160 else 128)
                              (if (b0 =? 237)%N then 159 else 191)
                    && within b2 128 191 && wellFormed r2
                  else
                    match r2 with
                    | "" => false
                    | String c3 r3 =>
                        let b3 := N_of_ascii c3 in
                        within b0 240 244
                        && within b1 (if (b0 =? 240)%N then 144 else 128)
                                     (if (b0 =? 244)%N then 143 else 191)
                        && within b2 128 191 && within b3 128 191
                        && wellFormed r3
                    end
              end
        end
  end.

(** Modelled from the spec: what stands for one byte of a string inside a
    JSON string literal that is escaped no more than JSON demands.  The
    double quote and the backslash take a backslash before them; the
    control characters are written [\b], [\f], [\n], [\r], [\t] where JSON
    has such a short form and [\u00XX] otherwise; every other byte, [<],
    [>] and [&] among them and every byte of a character beyond ASCII,
    stands as it is. *)
Definition escapeChar (c : ascii) : string :=
  let b := N_of_ascii c in
  if (b =? 34)%N then String "\" (String json.dquote "")
  else if (b =? 92)%N then "\\"
  else if (b =? 8)%N then "\b"
  else if (b =? 12)%N then "\f"
  else if (b =? 10)%N then "\n"
  else if (b =? 13)%N then "\r"
  else if (b =? 9)%N then "\t"
  else if (b <? 32)%N then
    "\u00" ++ String (Hex.hexChar (b / 16)) (String (Hex.hexChar (b mod 16)) "")
  else String c "".

(** The three bytes E2 80 A8 and E2 80 A9, which encode the line
    separator U+2028 and the paragraph separator U+2029. *)
Definition separator (c0 c1 c2 : ascii) : bool :=
  (N_of_ascii c0 =? 226)%N && (N_of_ascii c1 =? 128)%N
  && within (N_of_ascii c2) 168 169.

(** Modelled from the spec: the body of the string literal.  U+2028 and
    U+2029 are written [\u2028] and [\u2029], an escape JSON allows for
    any character; JavaScript's [JSON.stringify] writes these two as they
    are and agrees on every string that holds neither. *)
Fixpoint escape (s : string) : string :=
  match s with
  | "" => ""
  | String c0 r0 =>
      match r0 with
      | String c1 (String c2 r2) =>
          if separator c0 c1 c2 then
            "\u202" ++ String (if (N_of_ascii c2 =? 168)%N then "8"%char else "9"%char)
                              (escape r2)
          else escapeChar c0 ++ escape r0
      | _ => escapeChar c0 ++ escape r0
      end
  end.

(** Modelled from the spec: a JSON string literal. *)
Definition quote (s : string) : string :=
  String json.dquote (escape s ++ String json.dquote "").

(** The values whose compact text is given below: the constants, integers,
    finite numbers, well-formed strings, and arrays of such values to any
    depth; the tags of an event are arrays of strings.  An object is not
    among them: JSON leaves the order of its members open. *)
Fixpoint plain (v : JValue) : bool :=
  match v with
  | JNull | JBool _ | JInt _ => true
  | JFloat f => json.isFinite f
  | JString s => wellFormed s
  | JArray items => forallb plain items
  | JObject _ => false
  end.

(** Modelled from the spec: the compact JSON text of a value, with nothing
    between its tokens, before it or after it; a [float64] as the library
    formats it. *)
Fixpoint text `{JsonLib} (v : JValue) : string :=
  match v with
  | JNull => "null"
  | JBool true => "true"
  | JBool false => "false"
  | JFloat f => json_formatFloat f
  | JInt z => Strs.fmt_d z
  | JString s => quote s
  | JArray items => "[" ++ String.concat "," (map text items) ++ "]"
  | JObject _ => ""
  end.

(** Modelled from the spec: [canonical_json([0, pubkey, created_at, kind,
    tags, content])], the two numbers being integers. *)
Definition serialization `{JsonLib} (pubkey : string) (createdAt kind : Z)
  (tags : list JValue) (content : string) : string :=
  text (JArray [JInt 0; JString pubkey; JInt createdAt; JInt kind;
                JArray tags; JString content]).

End Compact.

(** ** Reference models of the libraries *)

(** The definitions of this part give the library interfaces concrete
    instances, so that the program can be run on examples.  The theorems
    do not depend on them. *)

(** *** bech32, after BIP-173 *)

Module RefBech32.

Definition charset : string := "qpzry9x8gf2tvdw0s3jn54khce6mua7l".

Definition generator : list N :=
  [996825010; 642813549; 513874426; 1027748829; 705979059]%N.

Definition byteOfN (n : N) : byte :=
  match Byte.of_N (n mod 256) with Some b => b | None => x00 end.

(** One step of the checksum polynomial. *)
Definition polymodStep (chk v : N) : N :=
  let b := N.shiftr chk 25 in
  let chk' := N.lxor (N.shiftl (N.land chk 33554431) 5) v in
  fold_left
    (fun acc ig =>
       if N.testbit b (fst ig) then N.lxor acc (snd ig) else acc)
    (combine [0; 1; 2; 3; 4]%N generator) chk'.

Definition polymod (values : list N) : N := fold_left polymodStep values 1%N.

Definition hrpExpand (hrp : string) : list N :=
  let cs := map N_of_ascii (list_ascii_of_string hrp) in
  (map (fun c => N.shiftr c 5) cs ++ [0%N] ++ map (fun c => N.land c 31) cs)%list.

(** Position of a character in the charset. *)
Fixpoint indexIn (c : ascii) (s : string) (i : N) : option N :=
  match s with
  | "" => None
  | String a rest => if Ascii.eqb a c then Some i else indexIn c rest (i + 1)%N
  end.

Fixpoint toValues (s : string) : option (list N) :=
  match s with
  | "" => Some []
  | String c rest =>
      match indexIn c charset 0%N, toValues rest with
      | Some v, Some vs => Some (v :: vs)
      | _, _ => None
      end
  end.

Definition isLower (c : ascii) : bool :=
  let n := N_of_ascii c in (97 <=? n)%N && (n <=? 122)%N.
Definition isUpper (c : ascii) : bool :=
  let n := N_of_ascii c in (65 <=? n)%N && (n <=? 90)%N.
Definition toLower (c : ascii) : ascii :=
  if isUpper c then ascii_of_N (N_of_ascii c + 32) else c.
Definition printable (c : ascii) : bool :=
  let n := N_of_ascii c in (33 <=? n)%N && (n <=? 126)%N.

Fixpoint mapString (f : ascii -> ascii) (s : string) : string :=
  match s with
  | "" => ""
  | String c rest => String (f c) (mapString f rest)
  end.

Fixpoint allChars (f : ascii -> bool) (s : string) : bool :=
  match s with
  | "" => true
  | String c rest => f c && allChars f rest
  end.

(** Index of the last ["1"] of a string, counted from [i]. *)
Fixpoint lastOne (s : string) (i : nat) : option nat :=
  match s with
  | "" => None
  | String c rest =>
      match lastOne rest (S i) with
      | Some j => Some j
      | None => if Ascii.eqb c "1"%char then Some i else None
      end
  end.

Definition Decode (bech : string) : Result (string * list byte) :=
  let n := String.length bech in
  if (90 <? n)%nat || (n <? 8)%nat then Err "invalid bech32 string length"
  else if negb (allChars printable bech) then Err "invalid character in string"
  else if negb (allChars (fun c => negb (isLower c)) bech)
          && negb (allChars (fun c => negb (isUpper c)) bech)
  then Err "string not all lowercase or all uppercase"
  else
    let bech := mapString toLower bech in
    match lastOne bech 0 with
    | None => Err "invalid separator index"
    | Some one =>
        if (one <? 1)%nat || (n <? one + 7)%nat then Err "invalid separator index"
        else
          let hrp := String.substring 0 one bech in
          let data := String.substring (one + 1) (n - one - 1) bech in
          match toValues data with
          | None => Err "invalid character not part of charset"
          | Some decoded =>
              if negb (polymod (hrpExpand hrp ++ decoded)%list =? 1)%N
              then Err "invalid checksum"
              else Ok (hrp, map byteOfN (firstn (length decoded - 6) decoded))
          end
    end.

(** The low [k] bits of a number, most significant first. *)
Definition bitsOf (k : nat) (n : N) : list bool :=
  map (fun i => N.testbit n (N.of_nat (k - 1 - i))) (seq 0 k).

Definition valueOf (bits : list bool) : N :=
  fold_left (fun acc (b : bool) => (2 * acc + (if b then 1 else 0))%N) bits 0%N.

(** The complete groups of [k] bits and what is left over; [fuel] bounds
    the number of groups. *)
Fixpoint groups (fuel k : nat) (bits : list bool) : list (list bool) * list bool :=
  match fuel with
  | O => ([], bits)
  | S fuel' =>
      if (length bits <? k)%nat then ([], bits)
      else let (gs, rest) := groups fuel' k (skipn k bits) in
           (firstn k bits :: gs, rest)
  end.

Definition ConvertBits (data : list byte) (fromBits toBits : N) (pad : bool)
  : Result (list byte) :=
  if (fromBits <? 1)%N || (8 <? fromBits)%N || (toBits <? 1)%N || (8 <? toBits)%N
  then Err "only bit groups between 1 and 8 allowed"
  else
    let from := N.to_nat fromBits in
    let to := N.to_nat toBits in
    let bits := flat_map (fun b => bitsOf from (Byte.to_N b)) data in
    let (gs, rest) := groups (length bits) to bits in
    let full := map (fun g => byteOfN (valueOf g)) gs in
    match rest with
    | [] => Ok full
    | _ :: _ =>
        if pad then
          Ok (full ++ [byteOfN (valueOf (rest ++ repeat false (to - length rest)))])%list
        else if (4 <? length rest)%nat || negb (valueOf rest =? 0)%N
        then Err "invalid incomplete group"
        else Ok full
    end.

Definition charOf (v : N) : ascii :=
  match String.get (N.to_nat v) charset with Some c => c | None => "q"%char end.

Definition Encode (hrp : string) (data : list byte) : Result string :=
  let hrp := mapString toLower hrp in
  let values := map Byte.to_N data in
  if negb (forallb (fun v => (v <? 32)%N) values) then Err "invalid data byte"
  else
    let pm := N.lxor (polymod (hrpExpand hrp ++ values ++ repeat 0%N 6)%list) 1 in
    let checksum :=
      map (fun i => N.land (N.shiftr pm (5 * (5 - N.of_nat i))) 31) (seq 0 6) in
    Ok (hrp ++ "1" ++ string_of_list_ascii (map charOf (values ++ checksum)%list)).

#[global] Instance lib : Bech32Lib := {
  bech32_Decode := Decode;
  bech32_ConvertBits := ConvertBits;
  bech32_Encode := Encode
}.

End RefBech32.

(** ** Sample data *)

Module Sample.

Definition home : path := ["home"; "user"].

(** Two npubs: bech32 of the public keys [3bf0c63f...fa459d] and
    [82341f88...fbe6a2]. *)
Definition npubA : string :=
  "npub180cvv07tjdrrgpa0j7j7tmnyl2yr6yr7l8j4s3evf6u64th6gkwsyjh6w6".
Definition npubB : string :=
  "npub1sg6plzptd64u62a878hep2kev88swjh3tw00gjsfl8f237lmu63q0uf63m".

Definition noon : Time := time.Unix0 1700000000.

(** A world whose storage root has the given entries. *)
Definition worldOf (storage : gmap string node) : World :=
  {| homeDir := Some home;
     root := Dir {[ "home" := Dir {[ "user" := Dir {[ ".noorsigner" := Dir storage ]} ]} ]};
     modTime := fun _ => noon |}.

(** [accounts/] holds a directory named by [npubA] with no key file in it
    and a directory [backup] with a key file. *)
Definition listingWorld : World :=
  worldOf {[ "accounts" :=
               Dir {[ npubA := Dir ∅;
                      "backup" := Dir {[ "keys.encrypted" := File "00:00" ]} ]} ]}.

(** Random bytes 0, 1, 2, ... *)
Definition counting : Entropy :=
  {| rand_fail := false; rand_byte := fun i => RefBech32.byteOfN (N.of_nat i) |}.

(** An [add_account] request for the private key 1, given in hex. *)
Definition addRequest (password : string) : SignRequest :=
  {| ID := "req-011"; Method := "add_account"; EventJSON := ""; Plaintext := "";
     RecipientPubkey := ""; Payload := ""; SenderPubkey := "";
     ReqPubkey := ""; ReqNpub := "";
     Nsec := "0000000000000000000000000000000000000000000000000000000000000001";
     Password := password; SetActive := true |}.

(** The npub of the private key 1. *)
Definition npubOne : string :=
  "npub10xlxvlhemja6c4dqv22uapctqupfhlxm9h8z3k2e72q4k9hcz7vqpkge6d".

(** A bare home directory: nothing stored yet. *)
Definition freshWorld : World :=
  {| homeDir := Some home;
     root := Dir {[ "home" := Dir {[ "user" := Dir ∅ ]} ]};
     modTime := fun _ => noon |}.

End Sample.

(** *** SHA-256, after FIPS 180-4 *)

Module RefSha256.
Local Open Scope N_scope.

Definition mask32 (x : N) : N := x mod 4294967296.
Definition add32 (x y : N) : N := mask32 (x + y).
Definition rotr (k x : N) : N :=
  N.lor (N.shiftr x k) (mask32 (N.shiftl x (32 - k))).

Definition Ch (x y z : N) : N := N.lxor (N.land x y) (N.land (N.lxor x 4294967295) z).
Definition Maj (x y z : N) : N :=
  N.lxor (N.lxor (N.land x y) (N.land x z)) (N.land y z).
Definition bigSigma0 (x : N) : N := N.lxor (N.lxor (rotr 2 x) (rotr 13 x)) (rotr 22 x).
Definition bigSigma1 (x : N) : N := N.lxor (N.lxor (rotr 6 x) (rotr 11 x)) (rotr 25 x).
Definition smallSigma0 (x : N) : N :=
  N.lxor (N.lxor (rotr 7 x) (rotr 18 x)) (N.shiftr x 3).
Definition smallSigma1 (x : N) : N :=
  N.lxor (N.lxor (rotr 17 x) (rotr 19 x)) (N.shiftr x 10).

(** The first 64 primes. *)
Definition primes : list N :=
  [2; 3; 5; 7; 11; 13; 17; 19; 23; 29; 31; 37; 41; 43; 47; 53;
   59; 61; 67; 71; 73; 79; 83; 89; 97; 101; 103; 107; 109; 113; 127; 131;
   137; 139; 149; 151; 157; 163; 167; 173; 179; 181; 191; 193; 197; 199; 211; 223;
   227; 229; 233; 239; 241; 251; 257; 263; 269; 271; 277; 281; 283; 293; 307; 311].

(** The integer part of the cube root, one bit at a time from bit 40. *)
Definition cubeRoot (n : N) : N :=
  fold_left
    (fun r i =>
       let c := r + N.shiftl 1 (40 - N.of_nat i) in
       if c * c * c <=? n then c else r)
    (seq 0 41) 0.

(** The round constants: the first 32 bits of the fractional parts of the
    cube roots of the primes. *)
Definition roundConstants : list N :=
  Eval vm_compute in map (fun q => mask32 (cubeRoot (q * 2 ^ 96))) primes.

(** The initial hash value: the first 32 bits of the fractional parts of
    the square roots of the first eight primes. *)
Definition initialHash : list N :=
  Eval vm_compute in map (fun q => mask32 (N.sqrt (q * 2 ^ 64))) (firstn 8 primes).

(** A number as [k] bytes, most significant first. *)
Definition bigEndian (k : nat) (x : N) : list N :=
  map (fun i => N.shiftr x (8 * N.of_nat (k - 1 - i)) mod 256) (seq 0 k).

Definition ofBigEndian (bs : list N) : N :=
  fold_left (fun acc b => acc * 256 + b) bs 0.

(** The message with its padding: a one bit, zeros, and the length in bits
    as 8 bytes, to a multiple of 64 bytes. *)
Definition pad (msg : list N) : list N :=
  let len := N.of_nat (length msg) in
  let zeros := N.to_nat ((119 - len mod 64) mod 64) in
  (msg ++ [128] ++ repeat 0 zeros ++ bigEndian 8 (8 * len))%list.

Fixpoint chunksOf (fuel k : nat) (l : list N) : list (list N) :=
  match fuel with
  | O => []
  | S fuel' =>
      match l with
      | [] => []
      | _ :: _ => firstn k l :: chunksOf fuel' k (skipn k l)
      end
  end.

(** The message schedule of a block, latest word first. *)
Definition schedule (block : list N) : list N :=
  let w16 := rev (map ofBigEndian (chunksOf 16 4 block)) in
  fold_left
    (fun w (_ : nat) =>
       add32 (add32 (smallSigma1 (nth 1 w 0)) (nth 6 w 0))
             (add32 (smallSigma0 (nth 14 w 0)) (nth 15 w 0)) :: w)
    (seq 16 48) w16.

Definition round (s : list N) (kw : N * N) : list N :=
  match s with
  | [a; b; c; d; e; f; g; h] =>
      let t1 := add32 (add32 (add32 h (bigSigma1 e)) (add32 (Ch e f g) (fst kw))) (snd kw) in
      let t2 := add32 (bigSigma0 a) (Maj a b c) in
      [add32 t1 t2; a; b; c; add32 d t1; e; f; g]
  | _ => s
  end.

Definition compress (h : list N) (block : list N) : list N :=
  let w := rev (schedule block) in
  let s := fold_left round (combine roundConstants w) h in
  map (fun xy => add32 (fst xy) (snd xy)) (combine h s).

Definition digest (msg : list N) : list N :=
  let padded := pad msg in
  let blocks := chunksOf (length padded) 64 padded in
  flat_map (bigEndian 4) (fold_left compress blocks initialHash).

Definition Sum256 (data : list byte) : list byte :=
  map RefBech32.byteOfN (digest (map Byte.to_N data)).

#[global] Instance lib : Sha256Lib := { sha256_Sum256 := Sum256 }.

End RefSha256.

(** *** secp256k1 and Schnorr signatures, after SEC 2 and BIP-340 *)

Module RefSecp256k1.
Local Open Scope Z_scope.

(** The field prime, the group order and the base point. *)
Definition P : Z := 2 ^ 256 - 2 ^ 32 - 977.
Definition order : Z :=
  0xFFFFFFFFFFFFFFFFFFFFFFFFFFFFFFFEBAAEDCE6AF48A03BBFD25E8CD0364141.
Definition Gx : Z :=
  0x79BE667EF9DCBBAC55A06295CE870B07029BFCDB2DCE28D959F2815B16F81798.
Definition Gy : Z :=
  0x483ADA7726A3C4655DA4FBFC0E1108A8FD17B448A68554199C47D08FFB10D4B8.

Fixpoint powPos (a : Z) (e : positive) (m : Z) : Z :=
  match e with
  | xH => a mod m
  | xO e' => let r := powPos a e' m in (r * r) mod m
  | xI e' => let r := powPos a e' m in (((r * r) mod m) * a) mod m
  end.

Definition inverse (a : Z) : Z :=
  match P - 2 with
  | Z.pos e => powPos a e P
  | _ => 0
  end.

(** A point in Jacobian coordinates; [Z = 0] is the point at infinity. *)
Record point := { X : Z; Y : Z; Zc : Z }.

Definition infinity : point := {| X := 1; Y := 1; Zc := 0 |}.
Definition G : point := {| X := Gx; Y := Gy; Zc := 1 |}.

Definition double (a : point) : point :=
  if (Zc a =? 0) || (Y a =? 0) then infinity
  else
    let yy := (Y a * Y a) mod P in
    let s := (4 * X a * yy) mod P in
    let m := (3 * X a * X a) mod P in
    let x' := (m * m - 2 * s) mod P in
    {| X := x';
       Y := (m * (s - x') - 8 * yy * yy) mod P;
       Zc := (2 * Y a * Zc a) mod P |}.

Definition add (a b : point) : point :=
  if Zc a =? 0 then b
  else if Zc b =? 0 then a
  else
    let za2 := (Zc a * Zc a) mod P in
    let zb2 := (Zc b * Zc b) mod P in
    let u1 := (X a * zb2) mod P in
    let u2 := (X b * za2) mod P in
    let s1 := (Y a * zb2 * Zc b) mod P in
    let s2 := (Y b * za2 * Zc a) mod P in
    if u1 =? u2 then
      if s1 =? s2 then double a else infinity
    else
      let h := (u2 - u1) mod P in
      let r := (s2 - s1) mod P in
      let h2 := (h * h) mod P in
      let h3 := (h2 * h) mod P in
      let x' := (r * r - h3 - 2 * u1 * h2) mod P in
      {| X := x';
         Y := (r * (u1 * h2 - x') - s1 * h3) mod P;
         Zc := (h * Zc a * Zc b) mod P |}.

Fixpoint mulPos (k : positive) (a : point) : point :=
  match k with
  | xH => a
  | xO k' => double (mulPos k' a)
  | xI k' => add (double (mulPos k' a)) a
  end.

Definition mul (k : Z) (a : point) : point :=
  match k with
  | Z.pos k' => mulPos k' a
  | _ => infinity
  end.

(** The affine coordinates of a point; [None] for the point at infinity. *)
Definition affine (a : point) : option (Z * Z) :=
  if Zc a =? 0 then None
  else
    let zi := inverse (Zc a) in
    let zi2 := (zi * zi) mod P in
    Some ((X a * zi2) mod P, (Y a * zi2 * zi) mod P).

Definition bytes32 (x : Z) : list byte :=
  map RefBech32.byteOfN (RefSha256.bigEndian 32 (Z.to_N x)).

Definition ofBytes (bs : list byte) : Z :=
  Z.of_N (RefSha256.ofBigEndian (map Byte.to_N bs)).

(** The scalar of a private key: the bytes as a number, reduced modulo
    the group order. *)
Definition privKeyFromBytes (bs : list byte) : Z := ofBytes bs mod order.

(** The x-only public key of a scalar, as 32 bytes. *)
Definition serializePubKey (d : Z) : list byte :=
  match affine (mul d G) with
  | Some (x, _) => bytes32 x
  | None => bytes32 0
  end.

Definition taggedHash (tag : string) (msg : list byte) : list byte :=
  let t := RefSha256.Sum256 (list_byte_of_string tag) in
  RefSha256.Sum256 (t ++ t ++ msg)%list.

(** A BIP-340 signature with the default nonce derivation and zero
    auxiliary randomness.  (btcec derives its nonce in another way, so its
    signature for the same key and message has other bytes; both verify.) *)
Definition sign (d0 : Z) (msg : list byte) : Result (list byte) :=
  if negb (length msg =? 32)%nat then Err "wrong size for message hash"
  else
    match affine (mul d0 G) with
    | None => Err "private key is zero"
    | Some (px, py) =>
        let d := if Z.even py then d0 else order - d0 in
        let t := bytes32 (Z.lxor d (ofBytes (taggedHash "BIP0340/aux" (repeat x00 32)))) in
        let k0 := ofBytes (taggedHash "BIP0340/nonce" (t ++ bytes32 px ++ msg)%list)
                  mod order in
        match affine (mul k0 G) with
        | None => Err "nonce is zero"
        | Some (rx, ry) =>
            let k := if Z.even ry then k0 else order - k0 in
            let e := ofBytes (taggedHash "BIP0340/challenge"
                                (bytes32 rx ++ bytes32 px ++ msg)%list) mod order in
            Ok (bytes32 rx ++ bytes32 ((k + e * d) mod order))%list
        end
    end.

#[global] Instance lib : Secp256k1Lib := {
  PrivateKey := Z;
  PrivKeyFromBytes := privKeyFromBytes;
  SerializePubKey := serializePubKey;
  schnorr_Sign := sign
}.

End RefSecp256k1.

(** *** Stand-ins *)

(** A stand-in for the scrypt stream, not scrypt itself: byte [i] of the
    stream is a byte of the SHA-256 of password, salt, cost parameters and
    block number.  It serves to run [encryptNsec] and [decryptNsec] on
    examples. *)
Module StandInScrypt.

Definition stream (password salt : list byte) (N r p : Z) (i : nat) : byte :=
  let block := RefSha256.bigEndian 4 (N.of_nat (i / 32)) in
  let cost := RefSha256.bigEndian 4 (Z.to_N (N + r + p)) in
  nth (i mod 32)
      (RefSha256.Sum256 (password ++ salt ++ map RefBech32.byteOfN (cost ++ block))%list)
      x00.

#[global] Instance lib : ScryptLib := { scrypt_stream := stream }.

End StandInScrypt.

(** The conversion of unrepresentable floats as the amd64 back end has
    it: the smallest int64. *)
Module Amd64.

#[global] Instance arch : GoArch := { int64_unrepresentable := fun _ => (- 2 ^ 63)%Z }.

End Amd64.

(** A stand-in for the JSON parser that knows one text, a sample event,
    and its parse; floats with an integral value are written as integers. *)
Module SampleJson.

Definition eventText : string :=
  "{" ++ String json.dquote "pubkey" ++ String json.dquote ":"
  ++ String json.dquote "79be667ef9dcbbac55a06295ce870b07029bfcdb2dce28d959f2815b16f81798"
  ++ String json.dquote ","
  ++ String json.dquote "created_at" ++ String json.dquote ":1.6942e9,"
  ++ String json.dquote "kind" ++ String json.dquote ":1,"
  ++ String json.dquote "tags" ++ String json.dquote ":[["
  ++ String json.dquote "t" ++ String json.dquote ","
  ++ String json.dquote "nostr" ++ String json.dquote "]],"
  ++ String json.dquote "content" ++ String json.dquote ":"
  ++ String json.dquote "<script>&" ++ String json.dquote "}".

(** The float64 1. *)
Definition one : spec_float := S754_finite false 4503599627370496 (-52).

Definition event : list (string * JValue) :=
  [ ("pubkey", JString "79be667ef9dcbbac55a06295ce870b07029bfcdb2dce28d959f2815b16f81798");
    ("created_at", JFloat Canon.float_1_6942e9);
    ("kind", JFloat one);
    ("tags", JArray [JArray [JString "t"; JString "nostr"]]);
    ("content", JString "<script>&") ].

Definition Unmarshal (data : string) : Result (list (string * JValue)) :=
  if String.eqb data eventText then Ok event
  else Err "invalid character looking for beginning of value".

Definition formatFloat (f : spec_float) : string :=
  Strs.fmt_d (int64_of_float (H := Amd64.arch) f).

#[global] Instance lib : JsonLib := {
  json_Unmarshal := Unmarshal;
  json_formatFloat := formatFloat
}.

End SampleJson.

(** ** A scenario: one stored account *)

Module Scenario.

(** The world after [add_account] for the private key 1 under the password
    ["12345678"], starting from a bare home directory. *)
Definition storedWorld : World :=
  Eval vm_compute in
    snd (handleAddAccount (H := RefBech32.lib) (H0 := RefSecp256k1.lib)
           (H1 := StandInScrypt.lib) Sample.counting
           (Sample.addRequest "12345678") Sample.freshWorld).

(** A daemon that holds the private key 1. *)
Definition daemonOne : Daemon (H := RefSecp256k1.lib) :=
  {| privateKey := Some 1%Z;
     npub := Sample.npubOne;
     pubkey := "79be667ef9dcbbac55a06295ce870b07029bfcdb2dce28d959f2815b16f81798" |}.

(** A daemon that holds the private key 3 and the name of another account. *)
Definition daemonThree : Daemon (H := RefSecp256k1.lib) :=
  {| privateKey := Some 3%Z;
     npub := Sample.npubA;
     pubkey := "f9308a019258c31049344f85f89d5229b531c845836f99b08601f113bce036f9" |}.

(** A [switch_account] request for the stored account. *)
Definition switchRequest (password : string) : SignRequest :=
  {| ID := "req-012"; Method := "switch_account"; EventJSON := ""; Plaintext := "";
     RecipientPubkey := ""; Payload := ""; SenderPubkey := "";
     ReqPubkey := ""; ReqNpub := Sample.npubOne;
     Nsec := ""; Password := password; SetActive := false |}.

Definition emptyKey : EncryptedKey := {| Salt := []; EncryptedNsec := [] |}.

(** The encrypted key of the stored account, as the key file holds it. *)
Definition storedKey : EncryptedKey :=
  Eval vm_compute in
    match fst (loadAccountEncryptedKey Sample.npubOne storedWorld) with
    | Ok k => k
    | Err _ => emptyKey
    end.

(** What the stored key decrypts to under a wrong password. *)
Definition garbage : string :=
  Eval vm_compute in
    match decryptNsec (H := StandInScrypt.lib) storedKey "wrong password" with
    | Ok s => s
    | Err e => e
    end.

(** The error with which the garbage fails to parse as an nsec. *)
Definition parseError : string :=
  Eval vm_compute in
    match nsecToPrivateKey (H := RefBech32.lib) (H0 := RefSecp256k1.lib) garbage with
    | Ok _ => ""
    | Err e => e
    end.

Definition noSession : TrustSession :=
  {| SessionToken := ""; ExpiresAt := Sample.noon; CreatedAt := Sample.noon;
     SessionNsec := [] |}.

(** The trust session created at [Sample.noon] for a sample plaintext. *)
Definition session : TrustSession :=
  Eval vm_compute in
    match createTrustSession Sample.counting Sample.noon "nsec1example" with
    | Ok s => s
    | Err _ => noSession
    end.

(** The compact text of the tags of the sample event. *)
Definition tagsText : string :=
  Eval vm_compute in
    match json.marshal (H := SampleJson.lib) false
            (JArray [JArray [JString "t"; JString "nostr"]]) with
    | Ok s => s
    | Err e => e
    end.

(** SHA-256 of the canonical text of the sample event,
    [6bd0378d...41e780d5]. *)
Definition sampleEventId : list byte :=
  Eval vm_compute in
    match Hex.decodeHex "6bd0378dca5fd009ee7672aadee9adec63740c2556039f10056054b041e780d5" with
    | Ok b => b
    | Err _ => []
    end.

(** The run of [switch_account] for the stored account under a wrong password. *)
Definition wrongSwitch : (AccountActionResponse * Daemon (H := RefSecp256k1.lib)) * World :=
  handleSwitchAccount (H := RefBech32.lib) (H0 := RefSecp256k1.lib)
    (H1 := StandInScrypt.lib) Sample.counting Sample.noon daemonThree
    (switchRequest "wrong password") storedWorld.

(** What [listAccounts] returns in [Sample.listingWorld]. *)
Definition listing : list AccountInfo :=
  Eval vm_compute in
    match fst (listAccounts (H := RefBech32.lib) Sample.listingWorld) with
    | Ok l => l
    | Err _ => []
    end.

(** [Sample.listingWorld] after the sample session is saved for [Sample.npubA]. *)
Definition sessionWorld : World :=
  Eval vm_compute in
    snd (saveAccountTrustSession Sample.npubA session Sample.listingWorld).

End Scenario.

(** ** Further scenarios: requests, the single-account layout, migration *)

(** [strconv.Quote] for texts of printable ASCII without a double quote or
    a backslash, which it returns between double quotes as they are. *)
Module PlainQuote.

Definition Quote (s : string) : string :=
  String json.dquote s ++ String json.dquote "".

Definition lib : StrconvLib := {| strconv_Quote := Quote |}.

End PlainQuote.

(** A JSON parser that knows, besides the sample event, the same event
    as a relay hands it out: with its [id] and [sig]. *)
Module SignedJson.

Definition eventText : string :=
  "{" ++ String json.dquote "id" ++ String json.dquote ":"
  ++ String json.dquote "6bd0378dca5fd009ee7672aadee9adec63740c2556039f10056054b041e780d5"
  ++ String json.dquote ","
  ++ String json.dquote "pubkey" ++ String json.dquote ":"
  ++ String json.dquote "79be667ef9dcbbac55a06295ce870b07029bfcdb2dce28d959f2815b16f81798"
  ++ String json.dquote ","
  ++ String json.dquote "created_at" ++ String json.dquote ":1694200000,"
  ++ String json.dquote "kind" ++ String json.dquote ":1,"
  ++ String json.dquote "tags" ++ String json.dquote ":[["
  ++ String json.dquote "t" ++ String json.dquote ","
  ++ String json.dquote "nostr" ++ String json.dquote "]],"
  ++ String json.dquote "content" ++ String json.dquote ":"
  ++ String json.dquote "<script>&" ++ String json.dquote ","
  ++ String json.dquote "sig" ++ String json.dquote ":"
  ++ String json.dquote "00" ++ String json.dquote "}".

Definition event : list (string * JValue) :=
  ("id", JString "6bd0378dca5fd009ee7672aadee9adec63740c2556039f10056054b041e780d5")
  :: SampleJson.event ++ [("sig", JString "00")].

Definition Unmarshal (data : string) : Result (list (string * JValue)) :=
  if String.eqb data eventText then Ok event else SampleJson.Unmarshal data.

Definition lib : JsonLib := {|
  json_Unmarshal := Unmarshal;
  json_formatFloat := SampleJson.formatFloat
|}.

End SignedJson.

(** A stand-in for the JSON parser that knows one more text: an event
    whose strings hold [<], [>] and [&] beside a double quote, a backslash,
    control characters, a letter beyond ASCII and the line separator
    U+2028. *)
Module MixedJson.

Definition newline : string := String "010"%char "".
Definition tab : string := String "009"%char "".

(** The letter e with an acute accent, U+00E9, in UTF-8. *)
Definition eacute : string := String "195"%char (String "169"%char "").

(** The line separator, U+2028, in UTF-8. *)
Definition lineSeparator : string :=
  String "226"%char (String "128"%char (String "168"%char "")).

Definition content : string :=
  "<b>" ++ String json.dquote "Tom & Jerry" ++ String json.dquote "</b>"
  ++ newline ++ tab ++ "caf" ++ eacute ++ " " ++ lineSeparator
  ++ "\" ++ String "001"%char "".

Definition tags : list JValue :=
  [ JArray [JString "t"; JString "<&>"];
    JArray [JString "alt"; JString ("caf" ++ eacute ++ newline)] ].

Definition event : list (string * JValue) :=
  [ ("pubkey", JString "79be667ef9dcbbac55a06295ce870b07029bfcdb2dce28d959f2815b16f81798");
    ("created_at", JFloat Canon.float_1_6942e9);
    ("kind", JFloat SampleJson.one);
    ("tags", JArray tags);
    ("content", JString content) ].

(** The text of the content as a JSON string literal, without the quotes
    around it, written out by hand. *)
Definition contentLiteral : string :=
  "<b>\" ++ String json.dquote "Tom & Jerry\" ++ String json.dquote "</b>\n\tcaf"
  ++ eacute ++ " \u2028\\\u0001".

(** The text of the tags, written out by hand. *)
Definition tagsLiteral : string :=
  "[[" ++ String json.dquote "t" ++ String json.dquote ","
  ++ String json.dquote "<&>" ++ String json.dquote "],["
  ++ String json.dquote "alt" ++ String json.dquote ","
  ++ String json.dquote "caf" ++ eacute ++ "\n" ++ String json.dquote "]]".

Definition eventText : string :=
  "{" ++ String json.dquote "pubkey" ++ String json.dquote ":"
  ++ String json.dquote "79be667ef9dcbbac55a06295ce870b07029bfcdb2dce28d959f2815b16f81798"
  ++ String json.dquote ","
  ++ String json.dquote "created_at" ++ String json.dquote ":1.6942e9,"
  ++ String json.dquote "kind" ++ String json.dquote ":1,"
  ++ String json.dquote "tags" ++ String json.dquote ":" ++ tagsLiteral ++ ","
  ++ String json.dquote "content" ++ String json.dquote ":"
  ++ String json.dquote contentLiteral ++ String json.dquote "}".

(** The canonical text of the event, written out by hand: 164 bytes. *)
Definition canonicalText : string :=
  "[0," ++ String json.dquote
            "79be667ef9dcbbac55a06295ce870b07029bfcdb2dce28d959f2815b16f81798"
  ++ String json.dquote ",1694200000,1," ++ tagsLiteral ++ ","
  ++ String json.dquote contentLiteral ++ String json.dquote "]".

(** SHA-256 of the canonical text, [b7c6216f...bda2bd90]. *)
Definition eventId : list byte :=
  Eval vm_compute in
    match Hex.decodeHex "b7c6216f0444296ae8762a7f1117a54dcf5e16c5223c56c308d851a1bda2bd90" with
    | Ok b => b
    | Err _ => []
    end.

Definition Unmarshal (data : string) : Result (list (string * JValue)) :=
  if String.eqb data eventText then Ok event else SampleJson.Unmarshal data.

Definition lib : JsonLib := {|
  json_Unmarshal := Unmarshal;
  json_formatFloat := SampleJson.formatFloat
|}.

End MixedJson.

Module Cases.

(** A [remove_account] request. *)
Definition removeRequest (npub password : string) : SignRequest :=
  {| ID := "req-013"; Method := "remove_account"; EventJSON := ""; Plaintext := "";
     RecipientPubkey := ""; Payload := ""; SenderPubkey := "";
     ReqPubkey := ""; ReqNpub := npub;
     Nsec := ""; Password := password; SetActive := false |}.

(** The answer to the [add_account] request that led to
    [Scenario.storedWorld]. *)
Definition added : AccountActionResponse :=
  Eval vm_compute in
    fst (handleAddAccount (H := RefBech32.lib) (H0 := RefSecp256k1.lib)
           (H1 := StandInScrypt.lib) Sample.counting
           (Sample.addRequest "12345678") Sample.freshWorld).

(** The run of [switch_account] for the stored account under its password. *)
Definition rightSwitch : (AccountActionResponse * Daemon (H := RefSecp256k1.lib)) * World :=
  handleSwitchAccount (H := RefBech32.lib) (H0 := RefSecp256k1.lib)
    (H1 := StandInScrypt.lib) Sample.counting Sample.noon Scenario.daemonThree
    (Scenario.switchRequest "12345678") Scenario.storedWorld.

(** The text of the key file of the stored account. *)
Definition storedContent : string :=
  Eval vm_compute in
    match State.fileAt (Spec.keyFilePath Sample.home Sample.npubOne) Scenario.storedWorld with
    | Some c => c
    | None => ""
    end.

(** A bare home directory after the stored key is saved for [Sample.npubA]. *)
Definition keyWorld : World :=
  Eval vm_compute in
    snd (saveAccountEncryptedKey Sample.npubA Scenario.storedKey Sample.freshWorld).

(** A name between white space. *)
Definition paddedName : string :=
  " " ++ Sample.npubA ++ String (ascii_of_nat 10) "".

Definition activeWorld : World :=
  Eval vm_compute in snd (saveActiveAccount paddedName Sample.freshWorld).

(** [Scenario.sessionWorld] after the session of [Sample.npubA] is cleared. *)
Definition clearedWorld : World :=
  Eval vm_compute in snd (clearAccountTrustSession Sample.npubA Scenario.sessionWorld).

(** A name of 70 bytes. *)
Definition longName : string := Sample.npubOne ++ "-laptop".

(** A bare home directory after the stored key is saved in the
    single-account layout. *)
Definition oldKeyWorld : World :=
  Eval vm_compute in snd (saveEncryptedKey Scenario.storedKey Sample.freshWorld).

(** A bare home directory after the sample session is saved in the
    single-account layout. *)
Definition oldSessionWorld : World :=
  Eval vm_compute in snd (saveTrustSession Scenario.session Sample.freshWorld).

(** A store of the single-account layout: the key file, the session file
    and an empty [accounts/]. *)
Definition oldWorld : World :=
  Eval vm_compute in
    snd (saveTrustSession Scenario.session
           (snd (saveEncryptedKey Scenario.storedKey
                   (snd (listAccounts (H := RefBech32.lib) Sample.freshWorld))))).

(** [oldWorld] after the migration under the password of the key. *)
Definition migratedWorld : World :=
  Eval vm_compute in
    snd (migrateToMultiAccount (H := RefBech32.lib) (H0 := RefSecp256k1.lib)
           (H1 := StandInScrypt.lib) (H2 := PlainQuote.lib) (Ok "12345678") oldWorld).

(** The stored account with a key file of the single-account layout
    beside it. *)
Definition mixedWorld : World :=
  Eval vm_compute in snd (saveEncryptedKey Scenario.storedKey Scenario.storedWorld).

(** What [listAccounts] returns in [mixedWorld]. *)
Definition mixedListing : list AccountInfo :=
  Eval vm_compute in
    match fst (listAccounts (H := RefBech32.lib) mixedWorld) with
    | Ok l => l
    | Err _ => []
    end.

End Cases.

(** * Properties *)

(** ** Bytes *)

Module BytesFacts.
Import Bytes.

Lemma to_N_lt (b : byte) : (Byte.to_N b < 256)%N.
Proof. pose proof (Byte.to_N_bounded b). lia. Qed.

Lemma lxor_lt_256 (x y : N) : (x < 256 -> y < 256 -> N.lxor x y < 256)%N.
Proof.
  intros Hx Hy.
  destruct (N.eq_dec (N.lxor x y) 0%N) as [-> | Hnz]; [lia |].
  change 256%N with (2 ^ 8)%N.
  apply N.log2_lt_pow2; [lia |].
  eapply N.le_lt_trans; [apply N.log2_lxor |].
  assert (Hb : forall z, (z < 256 -> N.log2 z < 8)%N).
  { intros z Hz. destruct (N.eq_dec z 0%N) as [-> | Hz0]; [reflexivity |].
    apply N.log2_lt_pow2; [lia | exact Hz]. }
  specialize (Hb x Hx) as Hbx. specialize (Hb y Hy) as Hby.
  lia.
Qed.

Lemma to_N_xor (a b : byte) :
  Byte.to_N (xor a b) = N.lxor (Byte.to_N a) (Byte.to_N b).
Proof.
  unfold xor.
  destruct (Byte.of_N (N.lxor (Byte.to_N a) (Byte.to_N b))) as [c |] eqn:E.
  - now apply Byte.to_of_N.
  - apply Byte.of_N_None_iff in E.
    pose proof (lxor_lt_256 _ _ (to_N_lt a) (to_N_lt b)). lia.
Qed.

Lemma to_N_inj (a b : byte) : Byte.to_N a = Byte.to_N b -> a = b.
Proof.
  intros E. pose proof (Byte.of_to_N a) as Ha.
  rewrite E, Byte.of_to_N in Ha. congruence.
Qed.

(** XOR with the same byte twice gives the byte back. *)
Lemma xor_xor (a k : byte) : xor (xor a k) k = a.
Proof.
  apply to_N_inj. rewrite !to_N_xor.
  now rewrite N.lxor_assoc, N.lxor_nilpotent, N.lxor_0_r.
Qed.

End BytesFacts.

(** ** The XOR stream *)

Lemma xorLoop_length (i : nat) (data key : list byte) :
  length (xorLoop i data key) = length data.
Proof.
  revert i. induction data as [| b rest IH]; intros i; simpl; [reflexivity |].
  now rewrite IH.
Qed.

(** Running the loop twice with the same key restores the data. *)
Lemma xorLoop_twice (i : nat) (data key : list byte) :
  xorLoop i (xorLoop i data key) key = data.
Proof.
  revert i. induction data as [| b rest IH]; intros i; simpl; [reflexivity |].
  rewrite BytesFacts.xor_xor. now rewrite IH.
Qed.

(** With the daemon's parameters scrypt does not fail and yields 32 bytes. *)
Lemma scrypt_Key_fixed `{ScryptLib} (password salt : list byte) :
  scrypt.Key password salt scryptN scryptR scryptP keyLen
  = Ok (map (scrypt_stream password salt scryptN scryptR scryptP) (seq 0 keyLen)).
Proof. reflexivity. Qed.

Lemma string_of_list_byte_length (l : list byte) :
  String.length (string_of_list_byte l) = length l.
Proof.
  induction l as [| b rest IH]; simpl; [reflexivity |].
  unfold string_of_list_byte in *. simpl. now rewrite IH.
Qed.

Lemma decryptNsec_total `{ScryptLib} (encKey : EncryptedKey) (password : string) :
  decryptNsec encKey password
  = Ok (string_of_list_byte
          (xorLoop 0 (EncryptedNsec encKey)
             (map (scrypt_stream (list_byte_of_string password) (Salt encKey)
                     scryptN scryptR scryptP) (seq 0 keyLen)))).
Proof. unfold decryptNsec. now rewrite scrypt_Key_fixed. Qed.

(** C1. For every nsec [n] and password [p]: whenever the random source
    delivers the salt, [encryptNsec] succeeds, and decrypting its result
    with the same password gives [n] back. *)
Theorem encrypt_decrypt_roundtrip `{ScryptLib} (rnd : Entropy) (n p : string) :
  rand_fail rnd = false ->
  exists encKey,
    encryptNsec rnd n p = Ok encKey /\
    length (Salt encKey) = saltLen /\
    decryptNsec encKey p = Ok n.
Proof.
  intros Hrnd.
  unfold encryptNsec, rand_Read. rewrite Hrnd, scrypt_Key_fixed.
  eexists. split; [reflexivity |]. split.
  - cbn [Salt]. now rewrite length_map, length_seq.
  - rewrite decryptNsec_total. cbn [Salt EncryptedNsec].
    rewrite xorLoop_twice. now rewrite string_of_list_byte_of_string.
Qed.

(** ** Trust sessions: validity *)

Lemma Before_wall (t u : Time) :
  Spec.normal t -> Spec.normal u ->
  ((wallSec t <? wallSec u)%Z
   || ((wallSec t =? wallSec u)%Z && (wallNsec t <? wallNsec u)%Z) = true
   <-> (Spec.instant t < Spec.instant u)%Z).
Proof.
  unfold Spec.normal, Spec.instant. intros Ht Hu.
  rewrite orb_true_iff, andb_true_iff, !Z.ltb_lt, Z.eqb_eq. lia.
Qed.

Lemma Before_iff (t u : Time) :
  Spec.normal t -> Spec.normal u ->
  (time.Before t u = true <-> Spec.strictlyBefore t u).
Proof.
  intros Ht Hu. unfold time.Before, Spec.strictlyBefore.
  destruct (mono t), (mono u); cbn.
  all: try apply Z.ltb_lt.
  all: exact (Before_wall t u Ht Hu).
Qed.

Lemma Before_irrefl (t : Time) : time.Before t t = false.
Proof.
  unfold time.Before. destruct (mono t); cbn.
  - apply Z.ltb_irrefl.
  - rewrite !Z.ltb_irrefl, Z.eqb_refl. reflexivity.
Qed.

(** C7. A trust session is valid exactly when the current time is strictly
    before its expiry; a session that expires at the current instant is
    not valid. *)
Theorem trust_session_valid_iff (now : Time) (session : TrustSession) :
  Spec.normal now ->
  Spec.normal (ExpiresAt session) ->
  (isTrustSessionValid now session = true
   <-> Spec.strictlyBefore now (ExpiresAt session))
  /\ (ExpiresAt session = now -> isTrustSessionValid now session = false)
  /\ (mono now = None ->
      Spec.instant (ExpiresAt session) = Spec.instant now ->
      isTrustSessionValid now session = false).
Proof.
  intros Hn He. unfold isTrustSessionValid.
  split; [exact (Before_iff _ _ Hn He) |].
  split.
  - intros ->. apply Before_irrefl.
  - intros Hm Heq.
    destruct (time.Before now (ExpiresAt session)) eqn:Hb; [| reflexivity].
    apply Before_iff in Hb; [| assumption | assumption].
    unfold Spec.strictlyBefore in Hb. rewrite Hm in Hb. lia.
Qed.

(** ** The file tree *)

Module TreeFacts.
Import os.

Lemma walk_app (p q : path) (t : node) :
  walk (p ++ q)%list t
  = match walk p t with
    | inl e => inl e
    | inr n => walk q n
    end.
Proof.
  revert t. induction p as [| c p IH]; intros t; simpl; [reflexivity |].
  destruct t as [d | m]; [reflexivity |].
  destruct (m !! c); [apply IH | reflexivity].
Qed.

Lemma walk_empty_dir (q : path) :
  q <> [] -> walk q (Dir ∅) = inl ENOENT.
Proof.
  destruct q as [| c q]; [congruence |]. intros _. simpl.
  now rewrite lookup_empty.
Qed.

(** [MkdirAll] leaves alone every path that is not on the way to the
    directory it makes. *)
Lemma MkdirAll_walk_other (p : path) :
  forall (t t' : node) (q : path),
    MkdirAll p t = inr t' ->
    ~ q `prefix_of` p ->
    walk q t' = walk q t.
Proof.
  induction p as [| c p IH]; intros t t' q Hmk Hq.
  - destruct t; simpl in Hmk; [discriminate |]. now inversion Hmk.
  - destruct t as [d | m]; simpl in Hmk; [discriminate |].
    destruct (MkdirAll p (default (Dir ∅) (m !! c))) as [e | n'] eqn:E;
      [discriminate |].
    inversion Hmk; subst t'; clear Hmk.
    destruct q as [| c2 q].
    { exfalso. apply Hq. apply prefix_nil. }
    simpl. destruct (decide (c = c2)) as [-> | Hne].
    + rewrite lookup_insert_eq.
      assert (Hq' : ~ q `prefix_of` p).
      { intros Hp. apply Hq. now apply prefix_cons. }
      rewrite (IH _ _ q E Hq').
      destruct (m !! c2) as [n0 |]; simpl; [reflexivity |].
      apply walk_empty_dir. intros ->. apply Hq'. apply prefix_nil.
    + now rewrite lookup_insert_ne.
Qed.

(** After [MkdirAll] the directory is there, with the entries it had
    before if it was there already. *)
Lemma MkdirAll_walk_self (p : path) :
  forall (t t' : node),
    MkdirAll p t = inr t' ->
    walk p t'
    = inr (Dir match walk p t with
               | inr (Dir m) => m
               | _ => ∅
               end).
Proof.
  induction p as [| c p IH]; intros t t' Hmk.
  - destruct t; simpl in Hmk; [discriminate |]. now inversion Hmk.
  - destruct t as [d | m]; simpl in Hmk; [discriminate |].
    destruct (MkdirAll p (default (Dir ∅) (m !! c))) as [e | n'] eqn:E;
      [discriminate |].
    inversion Hmk; subst t'; clear Hmk.
    simpl. rewrite lookup_insert_eq. rewrite (IH _ _ E).
    destruct (m !! c) as [n0 |]; simpl; [reflexivity |].
    destruct p as [| c' p]; simpl; [reflexivity |].
    now rewrite lookup_empty.
Qed.

(** [MkdirAll] of a directory that exists changes nothing. *)
Lemma MkdirAll_exists (p : path) :
  forall (t : node) (m : gmap string node),
    walk p t = inr (Dir m) -> MkdirAll p t = inr t.
Proof.
  induction p as [| c p IH]; intros t m Hw.
  - simpl in Hw. inversion Hw. reflexivity.
  - destruct t as [d | m0]; simpl in Hw; [discriminate |].
    destruct (m0 !! c) as [n0 |] eqn:E; [| discriminate].
    simpl. rewrite E. simpl. rewrite (IH _ _ Hw).
    now rewrite insert_id.
Qed.

(** [MkdirAll] fails only where the walk to the directory meets a file. *)
Lemma MkdirAll_ok_of_ENOENT (p q : path) :
  forall (t : node),
    walk (p ++ q)%list t = inl ENOENT ->
    exists t', MkdirAll p t = inr t'.
Proof.
  induction p as [| c p IH]; intros t Hw.
  - destruct t as [d | m].
    + destruct q; simpl in Hw; discriminate.
    + eexists. reflexivity.
  - destruct t as [d | m]; simpl in Hw; [discriminate |].
    simpl. destruct (m !! c) as [n0 |] eqn:E; simpl.
    + destruct (IH _ Hw) as [t' ->]. eexists. reflexivity.
    + assert (Hmk : exists t', MkdirAll p (Dir ∅) = inr t').
      { clear. induction p as [| c p IH]; simpl; [eexists; reflexivity |].
        rewrite lookup_empty. simpl. destruct IH as [t' ->]. eexists. reflexivity. }
      destruct Hmk as [t' ->]. eexists. reflexivity.
Qed.

(** A successful [WriteFile] leaves a file with the bytes written. *)
Lemma WriteFile_walk_self (p : path) (data : string) :
  forall (t t' : node),
    WriteFile p data t = inr t' -> walk p t' = inr (File data).
Proof.
  induction p as [| c p IH]; intros t t' Hw.
  - destruct t; simpl in Hw; [| discriminate]. now inversion Hw.
  - destruct t as [d | m]; simpl in Hw; [discriminate |].
    destruct (m !! c) as [n0 |] eqn:E.
    + destruct (WriteFile p data n0) as [e | n''] eqn:E'; [discriminate |].
      inversion Hw; subst t'. simpl. rewrite lookup_insert_eq. eauto.
    + destruct p; [| discriminate].
      inversion Hw; subst t'. simpl. now rewrite lookup_insert_eq.
Qed.

Lemma ReadFile_WriteFile (p : path) (data : string) (t t' : node) :
  WriteFile p data t = inr t' -> ReadFile p t' = inr data.
Proof.
  intros Hw. unfold ReadFile. now rewrite (WriteFile_walk_self _ _ _ _ Hw).
Qed.

(** [RemoveAll] of an entry of an existing directory: the entry is gone
    from the directory and every path that neither leads to the entry nor
    passes through it is as before. *)
Lemma RemoveAll_entry (p : path) (c : string) :
  forall (t : node) (m : gmap string node),
    walk p t = inr (Dir m) ->
    exists t',
      RemoveAll (p ++ [c])%list t = inr t' /\
      walk p t' = inr (Dir (delete c m)) /\
      (forall q, ~ q `prefix_of` p -> ~ (p ++ [c])%list `prefix_of` q ->
                 walk q t' = walk q t).
Proof.
  induction p as [| c0 p IH]; intros t m Hw.
  - simpl in Hw. inversion Hw; subst t. simpl.
    eexists. split; [reflexivity |]. split; [reflexivity |].
    intros q Hq1 Hq2. destruct q as [| c2 q].
    { exfalso. apply Hq1. apply prefix_nil. }
    simpl. destruct (decide (c = c2)) as [-> | Hne].
    + exfalso. apply Hq2. now apply prefix_cons, prefix_nil.
    + now rewrite lookup_delete_ne.
  - destruct t as [d | m0]; simpl in Hw; [discriminate |].
    destruct (m0 !! c0) as [n0 |] eqn:E; [| discriminate].
    destruct (IH _ _ Hw) as (n' & Hrm & Hself & Hother).
    exists (Dir (<[c0 := n']> m0)). split; [| split].
    + change ((c0 :: p) ++ [c])%list with (c0 :: (p ++ [c]))%list.
      cbn [RemoveAll]. destruct (p ++ [c])%list as [| x l] eqn:Ep.
      { destruct p; discriminate. }
      rewrite E, Hrm. reflexivity.
    + simpl. now rewrite lookup_insert_eq.
    + intros q Hq1 Hq2. destruct q as [| c2 q].
      { exfalso. apply Hq1. apply prefix_nil. }
      simpl. destruct (decide (c0 = c2)) as [-> | Hne].
      * rewrite lookup_insert_eq, E. apply Hother.
        -- intros Hp. apply Hq1. now apply prefix_cons.
        -- intros Hp. apply Hq2. now apply prefix_cons.
      * now rewrite lookup_insert_ne.
Qed.

(** [Remove] of a file: the file is gone. *)
Lemma Remove_file (p : path) :
  forall (t : node) (data : string),
    p <> [] ->
    walk p t = inr (File data) ->
    exists t', Remove p t = inr t' /\ walk p t' = inl ENOENT.
Proof.
  induction p as [| c p IH]; intros t data Hne Hw; [congruence |].
  destruct t as [d | m]; simpl in Hw; [discriminate |].
  destruct (m !! c) as [n0 |] eqn:E; [| discriminate].
  simpl. rewrite E. destruct p as [| c' p'].
  - simpl in Hw. inversion Hw; subst n0.
    eexists. split; [reflexivity |]. simpl. now rewrite lookup_delete_eq.
  - destruct (IH n0 data ltac:(discriminate) Hw) as (n' & Hrm & Hgone).
    rewrite Hrm. eexists. split; [reflexivity |].
    cbn [walk]. rewrite lookup_insert_eq. exact Hgone.
Qed.

End TreeFacts.

(** ** Paths *)

Module PathFacts.
Import os Spec.

Lemma Split_plain (sep : ascii) (s : string) :
  hasChar sep s = false -> Strs.Split sep s = [s].
Proof.
  induction s as [| c rest IH]; simpl; [reflexivity |].
  intros H. apply orb_false_iff in H as [Hc Hrest].
  rewrite Hc. now rewrite (IH Hrest).
Qed.

Lemma accountName_inv (s : string) :
  accountName s = true ->
  s <> "" /\ s <> "." /\ s <> ".." /\ hasChar "/"%char s = false
  /\ (String.length s <= 70)%nat.
Proof.
  unfold accountName. intros H.
  repeat (apply andb_true_iff in H as [H ?]).
  repeat match goal with
         | H : negb _ = true |- _ => apply negb_true_iff in H
         end.
  repeat split.
  - now apply String.eqb_neq.
  - now apply String.eqb_neq.
  - now apply String.eqb_neq.
  - assumption.
  - now apply Nat.leb_le.
Qed.

Lemma sanitize_accountName (s : string) :
  accountName s = true -> sanitizeNpubForPath s = s.
Proof.
  intros H. apply accountName_inv in H as (_ & _ & _ & _ & Hlen).
  unfold sanitizeNpubForPath.
  destruct (70 <? String.length s)%nat eqn:E; [| reflexivity].
  apply Nat.ltb_lt in E. lia.
Qed.

Lemma Join_accountName (dir : path) (s : string) :
  accountName s = true -> Join dir s = (dir ++ [s])%list.
Proof.
  intros H. apply accountName_inv in H as (H1 & H2 & H3 & H4 & _).
  unfold Join. rewrite (Split_plain _ _ H4). simpl. unfold step.
  apply String.eqb_neq in H1, H2, H3. now rewrite H1, H2, H3.
Qed.

Lemma Join_storage (h : path) : Join h ".noorsigner" = storagePath h.
Proof. reflexivity. Qed.

Lemma Join_accounts (h : path) : Join (storagePath h) "accounts" = accountsPath h.
Proof. reflexivity. Qed.

Lemma Join_active (h : path) : Join (storagePath h) "active_account" = activePath h.
Proof. reflexivity. Qed.

Lemma Join_keyFile (d : path) :
  Join d "keys.encrypted" = (d ++ ["keys.encrypted"])%list.
Proof. reflexivity. Qed.

Lemma Join_sessionFile (d : path) :
  Join d "trust_session" = (d ++ ["trust_session"])%list.
Proof. reflexivity. Qed.

(** Two paths that part ways after a common stem: neither leads to the
    other. *)
Lemma not_prefix_diverge (stem : path) (a b : string) (p q : path) :
  a <> b -> ~ (stem ++ a :: p)%list `prefix_of` (stem ++ b :: q)%list.
Proof.
  intros Hab [k Hk]. rewrite <- app_assoc in Hk.
  apply app_inv_head in Hk. simpl in Hk. congruence.
Qed.

Lemma active_not_prefix_accounts (h : path) :
  ~ activePath h `prefix_of` accountsPath h.
Proof.
  unfold activePath, accountsPath.
  apply (not_prefix_diverge (storagePath h) "active_account" "accounts" [] []).
  discriminate.
Qed.

Lemma longer_not_prefix (p q : path) :
  q <> [] -> ~ (p ++ q)%list `prefix_of` p.
Proof.
  intros Hq [k Hk]. rewrite <- app_assoc in Hk.
  rewrite <- (app_nil_r p) in Hk at 1.
  apply app_inv_head in Hk. destruct q; simpl in Hk; congruence.
Qed.

Lemma not_prefix_shorter (p q r : path) :
  ~ p `prefix_of` (q ++ r)%list -> ~ p `prefix_of` q.
Proof.
  intros H [k Hk]. apply H. exists (k ++ r)%list. rewrite Hk.
  now rewrite <- app_assoc.
Qed.

End PathFacts.

(** ** Running the storage functions *)

Module IOFacts.
Import os Spec State TreeFacts PathFacts.

Lemma setRoot_same (w : World) : setRoot w (root w) = w.
Proof. now destruct w. Qed.

Lemma sameFiles_refl (w : World) : sameFiles w w.
Proof. repeat split; auto. Qed.

Lemma sameFiles_trans (w1 w2 w3 : World) :
  sameFiles w1 w2 -> sameFiles w2 w3 -> sameFiles w1 w3.
Proof.
  intros (Hh1 & Hm1 & Hf1) (Hh2 & Hm2 & Hf2). repeat split.
  - congruence.
  - congruence.
  - intros q. now rewrite Hf2, Hf1.
Qed.

(** [MkdirAll] creates, changes and removes no file. *)
Lemma MkdirAll_files (p : path) :
  forall (t t' : node) (q : path),
    MkdirAll p t = inr t' ->
    match ReadFile q t' with inr c => Some c | inl _ => None end
    = match ReadFile q t with inr c => Some c | inl _ => None end.
Proof.
  induction p as [| x p IH]; intros t t' q Hmk.
  - destruct t; simpl in Hmk; [discriminate |]. now inversion Hmk.
  - destruct t as [d | m]; simpl in Hmk; [discriminate |].
    destruct (MkdirAll p (default (Dir ∅) (m !! x))) as [e | n'] eqn:E;
      [discriminate |].
    inversion Hmk; subst t'; clear Hmk.
    destruct q as [| y q]; [reflexivity |].
    unfold ReadFile. simpl. destruct (decide (x = y)) as [-> | Hne].
    + rewrite lookup_insert_eq.
      specialize (IH _ _ q E). unfold ReadFile in IH. rewrite IH.
      destruct (m !! y) as [n0 |]; simpl; [reflexivity |].
      destruct q as [| z q]; simpl; [reflexivity |].
      now rewrite lookup_empty.
    + now rewrite lookup_insert_ne.
Qed.

Lemma sameFiles_MkdirAll (w : World) (p : path) (r : node) :
  MkdirAll p (root w) = inr r -> sameFiles w (setRoot w r).
Proof.
  intros Hmk. repeat split. intros q. unfold fileAt. simpl.
  apply (MkdirAll_files _ _ _ q Hmk).
Qed.

(** *** What each function returns and does *)

Lemma getStorageDir_run (w : World) :
  getStorageDir w
  = match homeDir w with
    | None => (Err "cannot get home directory: $HOME is not defined", w)
    | Some h =>
        match MkdirAll (storagePath h) (root w) with
        | inl e => (Err ("cannot create storage directory: " ++ errorText e), w)
        | inr r => (Ok (storagePath h), setRoot w r)
        end
    end.
Proof.
  unfold getStorageDir, bind, sys.UserHomeDir, sys.MkdirAll, sys.update, ret.
  destruct (homeDir w) as [h |]; [| reflexivity].
  rewrite Join_storage. now destruct (MkdirAll (storagePath h) (root w)).
Qed.

Lemma getAccountsDir_run (w : World) :
  getAccountsDir w
  = match getStorageDir w with
    | (Err e, w1) => (Err e, w1)
    | (Ok storageDir, w1) =>
        match MkdirAll (Join storageDir "accounts") (root w1) with
        | inl e => (Err ("cannot create accounts directory: " ++ errorText e), w1)
        | inr r => (Ok (Join storageDir "accounts"), setRoot w1 r)
        end
    end.
Proof.
  unfold getAccountsDir, bind, sys.MkdirAll, sys.update, ret.
  destruct (getStorageDir w) as [[s | e] w1]; [| reflexivity].
  now destruct (MkdirAll (Join s "accounts") (root w1)).
Qed.

Lemma quiet_ret {A} (a : A) : quiet (ret a).
Proof. intros w. apply sameFiles_refl. Qed.

Lemma quiet_bind {A B} (c : IO A) (k : A -> IO B) :
  quiet c -> (forall a, quiet (k a)) -> quiet (bind c k).
Proof.
  intros Hc Hk w. unfold bind. specialize (Hc w).
  destruct (c w) as [a w1]. simpl in Hc.
  eapply sameFiles_trans; [exact Hc | apply Hk].
Qed.

Lemma quiet_query {A} (f : node -> A) : quiet (sys.query f).
Proof. intros w. apply sameFiles_refl. Qed.

Lemma quiet_ModTime (p : path) : quiet (sys.ModTime p).
Proof. intros w. apply sameFiles_refl. Qed.

Lemma quiet_UserHomeDir : quiet sys.UserHomeDir.
Proof.
  intros w. unfold sys.UserHomeDir. destruct (homeDir w); apply sameFiles_refl.
Qed.

Lemma quiet_MkdirAll (p : path) : quiet (sys.MkdirAll p).
Proof.
  intros w. unfold sys.MkdirAll, sys.update.
  destruct (MkdirAll p (root w)) as [e | r] eqn:E; simpl.
  - apply sameFiles_refl.
  - now apply (sameFiles_MkdirAll w p).
Qed.

Create HintDb quiet discriminated.

#[export] Hint Resolve quiet_ret quiet_query quiet_ModTime quiet_UserHomeDir
  quiet_MkdirAll : quiet.

(** Solves [quiet c] for a computation built from the quiet ones. *)
Ltac quiet_steps :=
  repeat first
    [ solve [auto 1 with quiet nocore]
    | apply quiet_bind; [| intros ?]
    | match goal with
      | |- quiet (match ?x with _ => _ end) => destruct x
      | |- quiet (if ?x then _ else _) => destruct x
      | |- quiet (let _ := _ in _) => cbv zeta
      end ].

Lemma quiet_getStorageDir : quiet getStorageDir.
Proof. unfold getStorageDir. quiet_steps. Qed.
#[export] Hint Resolve quiet_getStorageDir : quiet.

Lemma quiet_getAccountsDir : quiet getAccountsDir.
Proof. unfold getAccountsDir. quiet_steps. Qed.
#[export] Hint Resolve quiet_getAccountsDir : quiet.

Lemma quiet_getAccountDir (npub : string) : quiet (getAccountDir npub).
Proof. unfold getAccountDir. quiet_steps. Qed.
#[export] Hint Resolve quiet_getAccountDir : quiet.

Lemma quiet_getAccountKeyFilePath (npub : string) : quiet (getAccountKeyFilePath npub).
Proof. unfold getAccountKeyFilePath. quiet_steps. Qed.
#[export] Hint Resolve quiet_getAccountKeyFilePath : quiet.

Lemma quiet_getActiveAccountFilePath : quiet getActiveAccountFilePath.
Proof. unfold getActiveAccountFilePath. quiet_steps. Qed.
#[export] Hint Resolve quiet_getActiveAccountFilePath : quiet.

Lemma quiet_loadActiveAccount : quiet loadActiveAccount.
Proof. unfold loadActiveAccount, sys.Stat, sys.ReadFile. quiet_steps. Qed.
#[export] Hint Resolve quiet_loadActiveAccount : quiet.

Lemma quiet_accountExists (npub : string) : quiet (accountExists npub).
Proof. unfold accountExists, sys.Stat. quiet_steps. Qed.
#[export] Hint Resolve quiet_accountExists : quiet.

Lemma quiet_loadAccountEncryptedKey (npub : string) :
  quiet (loadAccountEncryptedKey npub).
Proof. unfold loadAccountEncryptedKey, sys.Stat, sys.ReadFile. quiet_steps. Qed.
#[export] Hint Resolve quiet_loadAccountEncryptedKey : quiet.

Lemma quiet_listEntry `{Bech32Lib} (dir : path) (entry : string * node) :
  quiet (listEntry dir entry).
Proof. unfold listEntry. quiet_steps. Qed.
#[export] Hint Resolve quiet_listEntry : quiet.

Lemma quiet_listEntries `{Bech32Lib} (dir : path) (entries : list (string * node)) :
  quiet (listEntries dir entries).
Proof.
  induction entries as [| entry rest IH]; simpl.
  - apply quiet_ret.
  - quiet_steps.
Qed.
#[export] Hint Resolve quiet_listEntries : quiet.

Lemma quiet_listAccounts `{Bech32Lib} : quiet listAccounts.
Proof. unfold listAccounts, sys.ReadDir. quiet_steps. Qed.
#[export] Hint Resolve quiet_listAccounts : quiet.

Lemma quiet_resolveTarget `{Bech32Lib} (req : SignRequest) : quiet (resolveTarget req).
Proof. unfold resolveTarget. quiet_steps. Qed.
#[export] Hint Resolve quiet_resolveTarget : quiet.

(** *** Successful runs *)

Lemma getStorageDir_ok (w w' : World) (p : path) :
  getStorageDir w = (Ok p, w') ->
  exists h, homeDir w = Some h /\ p = storagePath h /\
            MkdirAll (storagePath h) (root w) = inr (root w').
Proof.
  rewrite getStorageDir_run. destruct (homeDir w) as [h |]; [| discriminate].
  destruct (MkdirAll (storagePath h) (root w)) as [e | r] eqn:E; [discriminate |].
  intros Heq. inversion Heq; subst. exists h. auto.
Qed.

Lemma getAccountsDir_ok (w w' : World) (p : path) :
  getAccountsDir w = (Ok p, w') ->
  exists h, homeDir w = Some h /\ p = accountsPath h /\
            exists m, walk (accountsPath h) (root w') = inr (Dir m).
Proof.
  rewrite getAccountsDir_run.
  destruct (getStorageDir w) as [[s | e] w1] eqn:E1; [| discriminate].
  apply getStorageDir_ok in E1 as (h & Hh & -> & _).
  rewrite Join_accounts.
  destruct (MkdirAll (accountsPath h) (root w1)) as [e | r] eqn:E2; [discriminate |].
  intros Heq. inversion Heq; subst. exists h. repeat split; auto.
  eexists. simpl. apply (MkdirAll_walk_self _ _ _ E2).
Qed.

Lemma getAccountDir_ok (npub : string) (w w' : World) (p : path) :
  getAccountDir npub w = (Ok p, w') ->
  exists h, homeDir w = Some h /\
            p = Join (accountsPath h) (sanitizeNpubForPath npub) /\
            exists m, walk (accountsPath h) (root w') = inr (Dir m).
Proof.
  unfold getAccountDir, bind, ret.
  destruct (getAccountsDir w) as [[a | e] w1] eqn:E1; [| discriminate].
  apply getAccountsDir_ok in E1 as (h & Hh & -> & Hm).
  intros Heq. inversion Heq; subst. exists h. auto.
Qed.

Lemma loadAccountEncryptedKey_ok (npub : string) (w w' : World) (encKey : EncryptedKey) :
  loadAccountEncryptedKey npub w = (Ok encKey, w') ->
  exists h content,
    homeDir w = Some h /\
    fileAt (keyFileOf h npub) w' = Some content /\
    parseEncryptedKey content = Ok encKey.
Proof.
  unfold loadAccountEncryptedKey, getAccountKeyFilePath, bind, ret.
  destruct (getAccountDir npub w) as [[a | e] w1] eqn:E1; [| discriminate].
  apply getAccountDir_ok in E1 as (h & Hh & -> & _).
  unfold sys.Stat, sys.ReadFile, sys.query.
  fold (keyFileOf h npub).
  destruct (match Stat (keyFileOf h npub) (root w1) with
            | inl e => IsNotExist e
            | inr _ => false
            end); [discriminate |].
  destruct (ReadFile (keyFileOf h npub) (root w1)) as [e | c] eqn:E2; [discriminate |].
  intros Heq. inversion Heq; subst. exists h, c.
  unfold fileAt. rewrite E2. auto.
Qed.

End IOFacts.

(** ** Switching accounts *)

Section SwitchAccount.
Context `{Bech32Lib} `{Secp256k1Lib} `{ScryptLib}.
Import State IOFacts.

(** Every run of the handler either answers with an error and leaves the
    daemon and the files as they were, or answers with success, and then
    the password did unlock the key of the account named. *)
Lemma switch_outcome (rnd : Entropy) (now : Time) (d d' : Daemon)
  (req : SignRequest) (w w' : World) (resp : AccountActionResponse) :
  handleSwitchAccount rnd now d req w = ((resp, d'), w') ->
  (Success resp = false /\ ActionError resp <> "" /\ d' = d /\ sameFiles w w')
  \/ (Success resp = true /\
      passwordUnlocks w (fst (resolveTarget req w)) (Password req)).
Proof.
  assert (Hfail : forall (msg : string) (w0 : World),
             sameFiles w w0 -> msg <> "" ->
             (actionError (ID req) msg, d, w0) = (resp, d', w') ->
             Success resp = false /\ ActionError resp <> "" /\ d' = d /\ sameFiles w w').
  { intros msg w0 Q Hmsg Heq. inversion Heq; subst. repeat split; auto; apply Q. }
  unfold handleSwitchAccount, bind.
  pose proof (quiet_resolveTarget req w) as Q1.
  destruct (resolveTarget req w) as [target w1] eqn:E1. simpl in Q1. simpl fst.
  destruct (String.eqb target "").
  { intros Heq. left. eapply Hfail; [exact Q1 | | exact Heq]. discriminate. }
  destruct (String.eqb (Password req) "").
  { intros Heq. left. eapply Hfail; [exact Q1 | | exact Heq]. discriminate. }
  pose proof (quiet_accountExists target w1) as Q2.
  destruct (accountExists target w1) as [ex w2] eqn:E2. simpl in Q2.
  pose proof (sameFiles_trans _ _ _ Q1 Q2) as Q12.
  destruct ex; cbn [negb].
  2:{ intros Heq. left. eapply Hfail; [exact Q12 | | exact Heq]. discriminate. }
  pose proof (quiet_loadAccountEncryptedKey target w2) as Q3.
  destruct (loadAccountEncryptedKey target w2) as [loaded w3] eqn:E3. simpl in Q3.
  pose proof (sameFiles_trans _ _ _ Q12 Q3) as Q123.
  destruct loaded as [encKey | e].
  2:{ intros Heq. left. eapply Hfail; [exact Q123 | | exact Heq]. discriminate. }
  destruct (decryptNsec encKey (Password req)) as [nsec | e] eqn:E4.
  2:{ intros Heq. left. eapply Hfail; [exact Q123 | | exact Heq]. discriminate. }
  destruct (nsecToPrivateKey nsec) as [key | e] eqn:E5.
  2:{ intros Heq. left. eapply Hfail; [exact Q123 | | exact Heq]. discriminate. }
  intros Heq. right. split.
  - destruct (match createTrustSession rnd now nsec with
              | Ok session => saveAccountTrustSession target session
              | Err _ => ret (Ok tt)
              end w3) as [r4 w4].
    destruct (saveActiveAccount target w4) as [r5 w5].
    inversion Heq; subst. reflexivity.
  - apply loadAccountEncryptedKey_ok in E3 as (h & content & Hh & Hr & Hp).
    destruct Q12 as (Hh12 & _ & _). destruct Q123 as (_ & _ & Hf).
    exists h, content, encKey, nsec, key. repeat split; auto.
    + congruence.
    + now rewrite <- Hf.
Qed.

End SwitchAccount.

(** C2. A [switch_account] request whose password does not decrypt the
    key of the account it names to a valid nsec is answered with an error,
    and the daemon's private key, npub and pubkey and every file on disk,
    the [active_account] file among them, stay as they were. *)
Theorem switch_account_failure_atomic
  `{Bech32Lib} `{Secp256k1Lib} `{ScryptLib}
  (rnd : Entropy) (now : Time) (d d' : Daemon) (req : SignRequest)
  (w w' : World) (resp : AccountActionResponse) :
  handleSwitchAccount rnd now d req w = ((resp, d'), w') ->
  ~ State.passwordUnlocks w (fst (resolveTarget req w)) (Password req) ->
  Success resp = false /\ ActionError resp <> "" /\
  privateKey d' = privateKey d /\ npub d' = npub d /\ pubkey d' = pubkey d /\
  State.sameFiles w w' /\
  (forall h, homeDir w = Some h ->
     State.fileAt (Spec.activePath h) w' = State.fileAt (Spec.activePath h) w).
Proof.
  intros Hrun Hbad.
  destruct (switch_outcome _ _ _ _ _ _ _ _ Hrun) as [(Hs & He & -> & Hf) | (_ & Hu)];
    [| contradiction].
  split; [exact Hs |]. split; [exact He |].
  split; [reflexivity |]. split; [reflexivity |]. split; [reflexivity |].
  split; [exact Hf |].
  intros h Hh. destruct Hf as (_ & _ & Hf). apply Hf.
Qed.

(** ** Decryption never fails *)

Section DecryptionErrors.
Context `{Bech32Lib} `{Secp256k1Lib} `{ScryptLib}.

Lemma switch_never_invalid_password (rnd : Entropy) (now : Time) (d : Daemon)
  (req : SignRequest) (w : World) :
  ActionError (fst (fst (handleSwitchAccount rnd now d req w))) <> "invalid password".
Proof.
  unfold handleSwitchAccount, bind.
  destruct (resolveTarget req w) as [target w1].
  destruct (String.eqb target ""); [simpl; discriminate |].
  destruct (String.eqb (Password req) ""); [simpl; discriminate |].
  destruct (accountExists target w1) as [[|] w2]; cbn [negb]; [| simpl; discriminate].
  destruct (loadAccountEncryptedKey target w2) as [[encKey | e] w3];
    [| simpl; discriminate].
  rewrite decryptNsec_total.
  destruct (nsecToPrivateKey _) as [key | e]; [| simpl; discriminate].
  destruct (match createTrustSession rnd now _ with
            | Ok session => saveAccountTrustSession target session
            | Err _ => ret (Ok tt)
            end w3) as [r4 w4].
  destruct (saveActiveAccount target w4) as [r5 w5].
  simpl. discriminate.
Qed.

Lemma remove_never_invalid_password (d : Daemon) (req : SignRequest) (w : World) :
  ActionError (fst (handleRemoveAccount d req w)) <> "invalid password".
Proof.
  unfold handleRemoveAccount, bind.
  destruct (resolveTarget req w) as [target w1].
  destruct (String.eqb target ""); [simpl; discriminate |].
  destruct (String.eqb (Password req) ""); [simpl; discriminate |].
  destruct (accountExists target w1) as [[|] w2]; cbn [negb]; [| simpl; discriminate].
  destruct (loadAccountEncryptedKey target w2) as [[encKey | e] w3];
    [| simpl; discriminate].
  rewrite decryptNsec_total.
  destruct (String.eqb (npub d) target); [simpl; discriminate |].
  destruct (removeAccount target w3) as [[u | e] w4]; simpl; discriminate.
Qed.

(** A password under which the stored key decrypts to text that is no
    nsec is turned down by the parse that follows the decryption. *)
Lemma switch_rejects_at_parse (rnd : Entropy) (now : Time) (d : Daemon)
  (req : SignRequest) (w w1 w2 w3 : World) (target nsec e : string)
  (encKey : EncryptedKey) :
  resolveTarget req w = (target, w1) ->
  target <> "" ->
  Password req <> "" ->
  accountExists target w1 = (true, w2) ->
  loadAccountEncryptedKey target w2 = (Ok encKey, w3) ->
  decryptNsec encKey (Password req) = Ok nsec ->
  nsecToPrivateKey nsec = Err e ->
  handleSwitchAccount rnd now d req w
  = ((actionError (ID req) "corrupted key file", d), w3).
Proof.
  intros E1 Ht Hp E2 E3 E4 E5.
  unfold handleSwitchAccount, bind. rewrite E1.
  apply String.eqb_neq in Ht, Hp. rewrite Ht, Hp, E2. cbn [negb].
  rewrite E3, E4, E5. reflexivity.
Qed.

End DecryptionErrors.

(** C10. [decryptNsec] returns, for every encrypted key and every
    password, a string as long as the stored ciphertext, and never an
    error.  So no handler ever answers "invalid password": a wrong
    password is turned down only where the decrypted text fails to parse
    as an nsec. *)
Theorem decryptNsec_total_no_error
  `{Bech32Lib} `{Secp256k1Lib} `{ScryptLib} :
  (forall (encKey : EncryptedKey) (password : string),
     exists nsec,
       decryptNsec encKey password = Ok nsec /\
       String.length nsec = length (EncryptedNsec encKey))
  /\ (forall rnd now d req w,
        ActionError (fst (fst (handleSwitchAccount rnd now d req w)))
        <> "invalid password")
  /\ (forall d req w,
        ActionError (fst (handleRemoveAccount d req w)) <> "invalid password")
  /\ (forall rnd now d req w w1 w2 w3 target nsec e encKey,
        resolveTarget req w = (target, w1) ->
        target <> "" ->
        Password req <> "" ->
        accountExists target w1 = (true, w2) ->
        loadAccountEncryptedKey target w2 = (Ok encKey, w3) ->
        decryptNsec encKey (Password req) = Ok nsec ->
        nsecToPrivateKey nsec = Err e ->
        handleSwitchAccount rnd now d req w
        = ((actionError (ID req) "corrupted key file", d), w3)).
Proof.
  split; [| split; [| split]].
  - intros encKey password. eexists. split; [apply decryptNsec_total |].
    now rewrite string_of_list_byte_length, xorLoop_length.
  - apply switch_never_invalid_password.
  - apply remove_never_invalid_password.
  - intros. eapply switch_rejects_at_parse; eassumption.
Qed.

(** ** The event hash *)

Module EventFacts.
Import Canon.

Lemma substring_0_length (s : string) : String.substring 0 (String.length s) s = s.
Proof. induction s as [| c s IH]; simpl; [reflexivity | now rewrite IH]. Qed.

Lemma substring_app_skip (s t : string) (k : nat) :
  String.substring (String.length s) k (s ++ t) = String.substring 0 k t.
Proof. induction s as [| c s IH]; simpl; [reflexivity | exact IH]. Qed.

Lemma substring_app_take (s t : string) :
  String.substring 0 (String.length s) (s ++ t) = s.
Proof. induction s as [| c s IH]; simpl; [now destruct t | now rewrite IH]. Qed.

Lemma length_append (s t : string) :
  String.length (s ++ t) = (String.length s + String.length t)%nat.
Proof. induction s as [| c s IH]; simpl; [reflexivity | now rewrite IH]. Qed.

Lemma append_assoc (a b c : string) : (a ++ b) ++ c = a ++ (b ++ c).
Proof.
  induction a as [| x a IH]; [reflexivity |].
  change (String x ((a ++ b) ++ c) = String x (a ++ (b ++ c))).
  now rewrite IH.
Qed.

(** Trimming the newline that [Encode] appends gives the text back. *)
Lemma TrimSuffix_newline (s : string) :
  Strs.TrimSuffix (s ++ String "010"%char "") (String "010"%char "") = s.
Proof.
  unfold Strs.TrimSuffix. rewrite length_append.
  change (String.length (String "010"%char "")) with 1%nat.
  assert (Hle : (1 <=? String.length s + 1)%nat = true) by (apply Nat.leb_le; lia).
  rewrite Hle.
  replace (String.length s + 1 - 1)%nat with (String.length s) by lia.
  rewrite substring_app_skip, substring_app_take. reflexivity.
Qed.

Lemma marshal_array `{JsonLib} (esc : bool) (items : list JValue) :
  json.marshal esc (JArray items)
  = match marshalItems esc items with
    | Err e => Err e
    | Ok ss => Ok ("[" ++ Strs.Join ss "," ++ "]")
    end.
Proof.
  cbn [json.marshal]. cbv zeta.
  match goal with
  | |- match ?F items with _ => _ end = _ =>
      assert (E : forall l, F l = marshalItems esc l)
  end.
  { induction l as [| x l IH]; [reflexivity |].
    cbn [marshalItems]. rewrite <- IH. reflexivity. }
  rewrite E. reflexivity.
Qed.

(** The text the encoder writes for the serialization array. *)
Lemma marshal_serialization `{JsonLib} (pubkey content tagsText : string)
  (createdAt kind : Z) (tags : list JValue) :
  json.marshal false (JArray tags) = Ok tagsText ->
  json.marshal false
    (JArray [JInt 0; JString pubkey; JInt createdAt; JInt kind; JArray tags;
             JString content])
  = Ok (nip01Text pubkey createdAt kind tagsText content).
Proof.
  intros Htags. rewrite marshal_array. cbn [marshalItems].
  rewrite Htags.
  change (json.marshal false (JInt 0)) with (Ok (A:=string) "0").
  change (json.marshal false (JString pubkey)) with (Ok (quote pubkey)).
  change (json.marshal false (JInt createdAt)) with (Ok (Strs.fmt_d createdAt)).
  change (json.marshal false (JInt kind)) with (Ok (Strs.fmt_d kind)).
  change (json.marshal false (JString content)) with (Ok (quote content)).
  cbv beta iota. unfold nip01Text, Strs.Join. cbn [String.concat].
  rewrite !append_assoc. reflexivity.
Qed.

(** A rune-by-rune view of a string of verbatim characters. *)
Lemma chunks_verbatim (s : string) :
  verbatim s = true ->
  utf8.chunks s
  = map (fun c => (N_of_ascii c, String c "")) (list_ascii_of_string s).
Proof.
  induction s as [| c s IH]; [reflexivity |].
  intros Hv. simpl in Hv. apply andb_true_iff in Hv as [Hc Hs].
  unfold verbatimChar in Hc.
  repeat (apply andb_true_iff in Hc as [Hc ?]).
  cbn [utf8.chunks utf8.decodeRune list_ascii_of_string map].
  replace (N_of_ascii c <? 128)%N with true by (symmetry; assumption).
  cbn [fst snd]. now rewrite (IH Hs).
Qed.

(** Without HTML escaping a string of verbatim characters is written as
    it is. *)
Lemma escapeString_verbatim (s : string) :
  verbatim s = true -> json.escapeString false s = s.
Proof.
  intros Hv. unfold json.escapeString. rewrite (chunks_verbatim s Hv).
  induction s as [| c s IH]; [reflexivity |].
  simpl in Hv. apply andb_true_iff in Hv as [Hc Hs].
  cbn [list_ascii_of_string map String.concat fst snd].
  assert (Hone : json.escapeRune false (N_of_ascii c) (String c "") = String c "").
  { unfold json.escapeRune, json.safeSet, json.htmlSafeSet.
    unfold verbatimChar in Hc.
    repeat (apply andb_true_iff in Hc as [Hc ?]).
    replace (N_of_ascii c <? 128)%N with true by (symmetry; assumption).
    replace (32 <=? N_of_ascii c)%N with true by (symmetry; assumption).
    match goal with H : negb (_ =? 34)%N = true |- _ => rewrite H end.
    match goal with H : negb (_ =? 92)%N = true |- _ => rewrite H end.
    cbn. now rewrite orb_true_r. }
  destruct s as [| c' s'].
  - cbn. exact Hone.
  - cbn [list_ascii_of_string map] in *. rewrite Hone.
    cbn [String.append]. f_equal. now apply IH.
Qed.

Lemma quote_verbatim (s : string) :
  verbatim s = true ->
  quote s = String json.dquote (s ++ String json.dquote "").
Proof.
  intros Hv. unfold quote, json.appendString.
  now rewrite (escapeString_verbatim s Hv).
Qed.

End EventFacts.

Section EventHash.
Context `{JsonLib} `{GoArch} `{Sha256Lib}.
Import Canon EventFacts.

(** The hash of a well-formed event is the SHA-256 of its canonical text. *)
Lemma createEventHash_canonical
  (eventJSON pubkey content tagsText : string) (event : list (string * JValue))
  (createdAt kind : spec_float) (tags : list JValue) :
  json_Unmarshal eventJSON = Ok event ->
  json.get event "pubkey" = Some (JString pubkey) ->
  json.get event "created_at" = Some (JFloat createdAt) ->
  json.get event "kind" = Some (JFloat kind) ->
  json.get event "tags" = Some (JArray tags) ->
  json.get event "content" = Some (JString content) ->
  json.marshal false (JArray tags) = Ok tagsText ->
  createEventHash eventJSON
  = Ok (sha256_Sum256
          (list_byte_of_string
             (nip01Text pubkey (int64_of_float createdAt) (int64_of_float kind)
                tagsText content))).
Proof.
  intros Hu Hp Hc Hk Ht Hn Hm.
  unfold createEventHash. rewrite Hu, Hp, Hc, Hk, Ht, Hn.
  unfold json.Encode.
  rewrite (marshal_serialization pubkey content tagsText _ _ tags Hm).
  now rewrite TrimSuffix_newline.
Qed.

End EventHash.

(** C4. [sign_event] hashes the event with the [pubkey] the caller put
    in it: the hash is that of the canonical text holding this very
    string, whatever key and whatever public key the daemon holds, and it
    is this hash that is signed with the daemon's key. *)
Theorem sign_event_keeps_event_pubkey
  `{Secp256k1Lib} `{JsonLib} `{GoArch} `{Sha256Lib}
  (eventJSON pubkey content tagsText : string) (event : list (string * JValue))
  (createdAt kind : spec_float) (tags : list JValue) :
  json_Unmarshal eventJSON = Ok event ->
  json.get event "pubkey" = Some (JString pubkey) ->
  json.get event "created_at" = Some (JFloat createdAt) ->
  json.get event "kind" = Some (JFloat kind) ->
  json.get event "tags" = Some (JArray tags) ->
  json.get event "content" = Some (JString content) ->
  json.marshal false (JArray tags) = Ok tagsText ->
  let hash :=
    sha256_Sum256
      (list_byte_of_string
         (Canon.nip01Text pubkey (int64_of_float createdAt) (int64_of_float kind)
            tagsText content)) in
  createEventHash eventJSON = Ok hash
  /\ (forall (d : Daemon) (key : PrivateKey),
        privateKey d = Some key ->
        signEvent d eventJSON = signNostrEvent key hash)
  /\ (Canon.verbatim pubkey = true ->
      Canon.quote pubkey = String json.dquote (pubkey ++ String json.dquote "")).
Proof.
  intros Hu Hp Hc Hk Ht Hn Hm hash.
  assert (Hh : createEventHash eventJSON = Ok hash)
    by exact (createEventHash_canonical _ _ _ _ _ _ _ _ Hu Hp Hc Hk Ht Hn Hm).
  split; [exact Hh |]. split.
  - intros d key Hkey. unfold signEvent. now rewrite Hh, Hkey.
  - apply EventFacts.quote_verbatim.
Qed.

(** ** Listing accounts *)

Module ListFacts.
Import os Spec State TreeFacts PathFacts IOFacts.

Lemma leb_iff (a b : string) :
  String.leb a b = true <-> String_as_OT.lt a b \/ a = b.
Proof.
  unfold String.leb.
  destruct (String.compare a b) eqn:E.
  - apply String_as_OT.cmp_eq in E. tauto.
  - apply String_as_OT.cmp_lt in E. tauto.
  - split; [discriminate |]. intros [Hlt | Heq].
    + apply String_as_OT.cmp_lt in Hlt.
      unfold String_as_OT.cmp in Hlt. congruence.
    + apply String_as_OT.cmp_eq in Heq.
      unfold String_as_OT.cmp in Heq. congruence.
Qed.

Lemma ltb_iff (a b : string) : nameLt a b <-> String_as_OT.lt a b.
Proof.
  unfold nameLt, String.ltb. rewrite <- String_as_OT.cmp_lt.
  unfold String_as_OT.cmp. destruct (String.compare a b); split; congruence.
Qed.

#[export] Instance nameLe_trans : Transitive nameLe.
Proof.
  intros a b c. unfold nameLe. rewrite !leb_iff.
  intros [H1 | H1] [H2 | H2].
  - left. eapply String_as_OT.lt_trans; eassumption.
  - left. now rewrite <- H2.
  - left. now rewrite H1.
  - right. congruence.
Qed.

#[export] Instance nameLe_total : Total nameLe.
Proof. intros a b. unfold nameLe. apply String.leb_total. Qed.

Lemma nameLt_of_le (a b : string) :
  String.leb a b = true -> a <> b -> nameLt a b.
Proof.
  rewrite leb_iff, ltb_iff. intros [Hlt | Heq] Hne; [exact Hlt | contradiction].
Qed.

(** A list ordered by [nameLe] whose names are pairwise different is
    strictly ascending in its names. *)
Lemma strictly_sorted_names (l : list (string * node)) :
  StronglySorted nameLe l -> NoDup (l.*1) ->
  StronglySorted nameLt (l.*1).
Proof.
  induction l as [| x l IH]; intros Hs Hd; [constructor |].
  apply StronglySorted_inv in Hs as [Hs Hx].
  rewrite fmap_cons in Hd. apply NoDup_cons in Hd as [Hnx Hd].
  rewrite fmap_cons. constructor; [now apply IH |].
  rewrite Forall_fmap. rewrite Forall_forall in Hx. apply Forall_forall.
  intros y Hy. simpl.
  apply nameLt_of_le; [exact (Hx y Hy) |].
  intros Heq. apply Hnx. rewrite Heq. apply list_elem_of_fmap.
  exists y. split; [reflexivity | exact Hy].
Qed.

(** The entries [ReadDir] returns for a directory: the bindings of the
    directory, strictly ascending in their names. *)
Lemma ReadDir_entries (m : gmap string node) :
  let entries := merge_sort nameLe (map_to_list m) in
  (forall name n, (name, n) ∈ entries <-> m !! name = Some n)
  /\ StronglySorted nameLt (entries.*1).
Proof.
  intros entries. split.
  - intros name n. unfold entries. rewrite merge_sort_Permutation.
    apply elem_of_map_to_list.
  - apply strictly_sorted_names.
    + apply StronglySorted_merge_sort; apply _.
    + unfold entries. rewrite merge_sort_Permutation.
      apply NoDup_fst_map_to_list.
Qed.

Section WithBech32.
Context `{Bech32Lib}.

Lemma listEntry_run (dir : path) (entry : string * node) (w : World) :
  listEntry dir entry w = (accountOf (modTime w) dir entry, w).
Proof.
  unfold listEntry, accountOf. destruct entry as [name [d | sub]]; simpl; [reflexivity |].
  destruct (negb (Strs.HasPrefix name "npub1")); [reflexivity |].
  unfold bind, sys.ModTime. now destruct (npubToPubkey name).
Qed.

Lemma listEntries_run (dir : path) (entries : list (string * node)) (w : World) :
  listEntries dir entries w = (omap (accountOf (modTime w) dir) entries, w).
Proof.
  induction entries as [| entry rest IH]; [reflexivity |].
  cbn [listEntries]. unfold bind at 1. rewrite listEntry_run.
  unfold bind at 1. rewrite IH. cbn [omap list_omap].
  now destruct (accountOf (modTime w) dir entry).
Qed.

Lemma accountOf_Some (mt : path -> Time) (dir : path) (entry : string * node)
  (a : AccountInfo) :
  accountOf mt dir entry = Some a <->
  (exists sub, snd entry = Dir sub) /\
  Strs.HasPrefix (fst entry) "npub1" = true /\
  npubToPubkey (fst entry) = Ok (Pubkey a) /\
  Npub a = fst entry /\
  AccountCreatedAt a = mt (dir ++ [fst entry])%list.
Proof.
  unfold accountOf. destruct entry as [name [d | sub]]; simpl.
  - split; [discriminate | intros ([sub Hs] & _); discriminate].
  - destruct (Strs.HasPrefix name "npub1"); simpl.
    + destruct (npubToPubkey name) as [pk | e].
      * split.
        -- intros Heq. inversion Heq; subst; simpl. eauto 6.
        -- intros (_ & _ & Hpk & Hn & Ht). destruct a as [n p t]; simpl in *.
           inversion Hpk; subst. reflexivity.
      * split; [discriminate | intros (_ & _ & Hpk & _); discriminate].
    + split; [discriminate | intros (_ & Hp & _); discriminate].
Qed.

Lemma sorted_omap_names (mt : path -> Time) (dir : path) (entries : list (string * node)) :
  StronglySorted nameLt (entries.*1) ->
  StronglySorted nameLt (map Npub (omap (accountOf mt dir) entries)).
Proof.
  induction entries as [| e rest IH]; intros Hs; [constructor |].
  rewrite fmap_cons in Hs. apply StronglySorted_inv in Hs as [Hs He].
  cbn [omap list_omap].
  destruct (accountOf mt dir e) as [a |] eqn:Ea; [| now apply IH].
  cbn [map]. constructor; [now apply IH |].
  apply accountOf_Some in Ea as (_ & _ & _ & Hn & _). rewrite Hn.
  apply Forall_forall. intros y Hy.
  apply list_elem_of_In, in_map_iff in Hy as (b & <- & Hb).
  apply list_elem_of_In in Hb. apply list_elem_of_omap in Hb as (e' & He' & Hb).
  apply accountOf_Some in Hb as (_ & _ & _ & Hn' & _). rewrite Hn'.
  rewrite Forall_forall in He. apply He.
  apply list_elem_of_fmap. exists e'. split; [reflexivity | exact He'].
Qed.

(** A successful [getAccountsDir] leaves every path alone that does not
    lead to the accounts directory. *)
Lemma getAccountsDir_walk (w w' : World) (p : path) :
  getAccountsDir w = (Ok p, w') ->
  exists h, homeDir w = Some h /\ p = accountsPath h /\
    modTime w' = modTime w /\ homeDir w' = homeDir w /\
    (exists m, walk (accountsPath h) (root w') = inr (Dir m)) /\
    (forall q, ~ q `prefix_of` accountsPath h -> walk q (root w') = walk q (root w)).
Proof.
  intros Hrun. pose proof Hrun as Hok.
  apply getAccountsDir_ok in Hok as (h & Hh & -> & Hm).
  exists h. split; [exact Hh |]. split; [reflexivity |].
  revert Hrun. rewrite getAccountsDir_run, getStorageDir_run, Hh.
  destruct (MkdirAll (storagePath h) (root w)) as [e | r1] eqn:E1; [discriminate |].
  rewrite Join_accounts. cbn [root setRoot].
  destruct (MkdirAll (accountsPath h) r1) as [e | r2] eqn:E2; [discriminate |].
  intros Heq. inversion Heq; subst w'. cbn [root setRoot modTime homeDir].
  split; [reflexivity |]. split; [exact Hh |]. split; [exact Hm |].
  intros q Hq.
  rewrite (MkdirAll_walk_other _ _ _ q E2 Hq).
  apply (MkdirAll_walk_other _ _ _ q E1).
  unfold accountsPath in Hq. now apply not_prefix_shorter in Hq.
Qed.

Lemma listAccounts_ok (w w' : World) (l : list AccountInfo) :
  listAccounts w = (Ok l, w') ->
  exists h m,
    homeDir w = Some h /\
    walk (accountsPath h) (root w') = inr (Dir m) /\
    l = omap (accountOf (modTime w) (accountsPath h))
             (merge_sort nameLe (map_to_list m)) /\
    (forall q, ~ q `prefix_of` accountsPath h -> walk q (root w') = walk q (root w)).
Proof.
  unfold listAccounts, bind.
  destruct (getAccountsDir w) as [[a | e] w1] eqn:E1; [| discriminate].
  apply getAccountsDir_walk in E1 as (h & Hh & -> & Hmt & _ & (m & Hm) & Hq).
  unfold sys.ReadDir, sys.query, ReadDir. rewrite Hm.
  rewrite listEntries_run. unfold ret. intros Heq. inversion Heq; subst.
  exists h, m. rewrite Hmt. auto.
Qed.

End WithBech32.

End ListFacts.

(** C6 (as the code has it). [listAccounts] returns the directories under
    [accounts/] whose name starts with [npub1] and decodes as bech32,
    whether or not they hold [keys.encrypted]; the sequence is strictly
    ascending in the npub, and each entry carries the decoded public key
    and the directory's modification time. *)
Theorem list_accounts_npub_directories_sorted `{Bech32Lib}
  (w w' : World) (l : list AccountInfo) :
  listAccounts w = (Ok l, w') ->
  exists h,
    homeDir w = Some h /\
    (forall name,
       name ∈ map Npub l <->
       State.isDirAt (Spec.accountPath h name) w /\
       Strs.HasPrefix name "npub1" = true /\
       isOk (npubToPubkey name) = true) /\
    StronglySorted State.nameLt (map Npub l) /\
    (forall a, a ∈ l ->
       npubToPubkey (Npub a) = Ok (Pubkey a) /\
       AccountCreatedAt a = modTime w (Spec.accountPath h (Npub a))).
Proof.
  intros Hrun.
  apply ListFacts.listAccounts_ok in Hrun as (h & m & Hh & Hm & -> & Hq).
  destruct (ListFacts.ReadDir_entries m) as [Hin Hsorted].
  assert (Hdir : forall name sub,
             m !! name = Some (Dir sub) <->
             os.walk (Spec.accountPath h name) (root w) = inr (Dir sub)).
  { intros name sub. unfold Spec.accountPath.
    rewrite <- (Hq (Spec.accountsPath h ++ [name])%list)
      by (apply PathFacts.longer_not_prefix; discriminate).
    rewrite TreeFacts.walk_app, Hm. simpl.
    destruct (m !! name) as [n |]; split; congruence. }
  exists h. split; [exact Hh |]. split; [| split].
  - intros name. split.
    + intros Hname. apply list_elem_of_In, in_map_iff in Hname as (a & <- & Ha).
      apply list_elem_of_In, list_elem_of_omap in Ha as (e & He & Ha).
      apply ListFacts.accountOf_Some in Ha as ((sub & Hsub) & Hp & Hpk & Hn & _).
      rewrite Hn. split; [| split; [exact Hp | now rewrite Hpk]].
      exists sub. apply Hdir. apply Hin. destruct e as [name n]. simpl in *.
      now subst n.
    + intros ((sub & Hsub) & Hp & Hpk).
      destruct (npubToPubkey name) as [pk |] eqn:Epk; [| discriminate].
      apply list_elem_of_In, in_map_iff.
      exists {| Npub := name; Pubkey := pk;
                AccountCreatedAt := modTime w (Spec.accountsPath h ++ [name])%list |}.
      split; [reflexivity |].
      apply list_elem_of_In, list_elem_of_omap.
      exists (name, Dir sub). split.
      * apply Hin. now apply Hdir.
      * unfold State.accountOf. simpl. now rewrite Hp, Epk.
  - now apply ListFacts.sorted_omap_names.
  - intros a Ha. apply list_elem_of_omap in Ha as (e & _ & Ha).
    apply ListFacts.accountOf_Some in Ha as (_ & _ & Hpk & Hn & Ht).
    rewrite Hn. split; [exact Hpk | exact Ht].
Qed.

(** C6 (as the specification words it) fails: a directory named by an
    npub is listed although it holds no [keys.encrypted], and a directory
    that holds [keys.encrypted] is not listed when its name is no npub.  So
    the accounts listed are not those with a key file. *)
Lemma list_accounts_ignores_key_file :
  exists l,
    fst (listAccounts (H := RefBech32.lib) Sample.listingWorld) = Ok l
    /\ map Npub l = [Sample.npubA]
    /\ fst (accountExists Sample.npubA Sample.listingWorld) = false
    /\ fst (accountExists "backup" Sample.listingWorld) = true
    /\ ~ (forall name,
            name ∈ map Npub l <->
            fst (accountExists name Sample.listingWorld) = true).
Proof.
  eexists. split; [vm_compute; reflexivity |].
  split; [reflexivity |].
  split; [vm_compute; reflexivity |].
  split; [vm_compute; reflexivity |].
  intros Hall. specialize (Hall Sample.npubA) as [Hin _].
  assert (Hf : fst (accountExists Sample.npubA Sample.listingWorld) = false)
    by (vm_compute; reflexivity).
  rewrite Hin in Hf; [discriminate |].
  cbn [map Npub]. apply list_elem_of_here.
Qed.

(** ** Removing accounts *)

Module RemoveFacts.
Import os Spec State TreeFacts PathFacts IOFacts.

Lemma settled_storage (w : World) (h : path) :
  settled w h -> exists m0, walk (storagePath h) (root w) = inr (Dir m0).
Proof.
  intros (_ & m & Hm). unfold accountsPath in Hm. rewrite walk_app in Hm.
  destruct (walk (storagePath h) (root w)) as [e | [d | m0]]; try discriminate.
  eauto.
Qed.

Lemma getStorageDir_settled (w : World) (h : path) :
  settled w h -> getStorageDir w = (Ok (storagePath h), w).
Proof.
  intros Hs. destruct (settled_storage w h Hs) as (m0 & Hm0).
  destruct Hs as (Hh & _). rewrite getStorageDir_run, Hh.
  rewrite (MkdirAll_exists _ _ _ Hm0). now rewrite setRoot_same.
Qed.

Lemma getAccountsDir_settled (w : World) (h : path) :
  settled w h -> getAccountsDir w = (Ok (accountsPath h), w).
Proof.
  intros Hs. rewrite getAccountsDir_run, (getStorageDir_settled w h Hs).
  destruct Hs as (_ & m & Hm). rewrite Join_accounts.
  rewrite (MkdirAll_exists _ _ _ Hm). now rewrite setRoot_same.
Qed.

Lemma getAccountDir_settled (w : World) (h : path) (x : string) :
  settled w h -> accountName x = true ->
  getAccountDir x w = (Ok (accountPath h x), w).
Proof.
  intros Hs Hx. unfold getAccountDir, bind, ret.
  rewrite (getAccountsDir_settled w h Hs).
  rewrite (sanitize_accountName x Hx), (Join_accountName _ x Hx). reflexivity.
Qed.

Lemma getActiveAccountFilePath_settled (w : World) (h : path) :
  settled w h -> getActiveAccountFilePath w = (Ok (activePath h), w).
Proof.
  intros Hs. unfold getActiveAccountFilePath, bind, ret.
  rewrite (getStorageDir_settled w h Hs). now rewrite Join_active.
Qed.

Lemma loadActiveAccount_settled (w : World) (h : path) :
  settled w h ->
  loadActiveAccount w = (activeAnswer (walk (activePath h) (root w)), w).
Proof.
  intros Hs. unfold loadActiveAccount, bind, ret.
  rewrite (getActiveAccountFilePath_settled w h Hs).
  unfold sys.Stat, sys.ReadFile, sys.query, Stat, ReadFile, activeAnswer.
  destruct (walk (activePath h) (root w)) as [e | [c | sub]] eqn:E.
  - destruct (IsNotExist e); [reflexivity |]. now rewrite E.
  - now rewrite E.
  - now rewrite E.
Qed.

Lemma settled_setRoot (w : World) (h : path) (r : node) (m : gmap string node) :
  homeDir w = Some h -> walk (accountsPath h) r = inr (Dir m) ->
  settled (setRoot w r) h.
Proof. intros Hh Hm. split; [exact Hh | eauto]. Qed.

(** Removing a file with [Remove] is removing it with [RemoveAll]. *)
Lemma Remove_file_RemoveAll (p : path) :
  forall (t : node) (data : string),
    walk p t = inr (File data) -> p <> [] -> Remove p t = RemoveAll p t.
Proof.
  induction p as [| c p IH]; intros t data Hw Hne; [congruence |].
  destruct t as [d | m]; simpl in Hw; [discriminate |].
  destruct (m !! c) as [n0 |] eqn:E; [| discriminate].
  cbn [Remove RemoveAll]. rewrite E. destruct p as [| c' p'].
  - simpl in Hw. inversion Hw; subst n0. reflexivity.
  - now rewrite (IH n0 data Hw ltac:(discriminate)).
Qed.

(** In a world where the storage directories are laid out, listing
    succeeds, changes nothing, and names only directories of [accounts/]. *)
Lemma listAccounts_settled `{Bech32Lib} (w : World) (h : path) (m : gmap string node) :
  homeDir w = Some h ->
  walk (accountsPath h) (root w) = inr (Dir m) ->
  exists l, listAccounts w = (Ok l, w) /\
            forall name, name ∈ map Npub l -> exists sub, m !! name = Some (Dir sub).
Proof.
  intros Hh Hm.
  assert (Hs : settled w h) by (split; eauto).
  unfold listAccounts, bind. rewrite (getAccountsDir_settled w h Hs).
  unfold sys.ReadDir, sys.query, ReadDir. rewrite Hm.
  rewrite ListFacts.listEntries_run. unfold ret.
  eexists. split; [reflexivity |].
  intros name Hname.
  apply list_elem_of_In, in_map_iff in Hname as (a & <- & Ha).
  apply list_elem_of_In, list_elem_of_omap in Ha as (e & He & Ha).
  apply ListFacts.accountOf_Some in Ha as ((sub & Hsub) & _ & _ & Hn & _).
  exists sub. rewrite Hn.
  destruct (ListFacts.ReadDir_entries m) as [Hin _].
  apply Hin. destruct e as [nm n]. simpl in *. now subst n.
Qed.

End RemoveFacts.

Section RemoveAccount.
Context `{Bech32Lib}.
Import os Spec State TreeFacts PathFacts IOFacts RemoveFacts.

(** Where the accounts directory has no entry [x], the path of the account
    names nothing and no listing shows [x]. *)
Lemma gone_after_removal (w : World) (h : path) (x : string) (m : gmap string node) :
  homeDir w = Some h ->
  walk (accountsPath h) (root w) = inr (Dir (delete x m)) ->
  walk (accountPath h x) (root w) = inl ENOENT
  /\ exists l, listAccounts w = (Ok l, w) /\ x ∉ map Npub l.
Proof.
  intros Hh Hm. split.
  - unfold accountPath. rewrite walk_app, Hm. simpl.
    now rewrite lookup_delete_eq.
  - destruct (listAccounts_settled w h _ Hh Hm) as (l & Hl & Hnames).
    exists l. split; [exact Hl |].
    intros Hx. destruct (Hnames x Hx) as (sub & Hsub).
    rewrite lookup_delete_eq in Hsub. discriminate.
Qed.

Lemma active_apart_from_account (h : path) (x : string) :
  ~ activePath h `prefix_of` accountsPath h
  /\ ~ (accountsPath h ++ [x])%list `prefix_of` activePath h
  /\ ~ accountsPath h `prefix_of` storagePath h
  /\ ~ activePath h `prefix_of` accountsPath h.
Proof.
  split; [apply active_not_prefix_accounts |]. split; [| split].
  - unfold accountsPath, activePath. rewrite <- app_assoc.
    apply (not_prefix_diverge (storagePath h) "accounts" "active_account" [x] []).
    discriminate.
  - unfold accountsPath. apply longer_not_prefix. discriminate.
  - apply active_not_prefix_accounts.
Qed.

Lemma removeAccount_existing (w : World) (h : path) (x : string) (n : node) :
  homeDir w = Some h ->
  accountName x = true ->
  walk (accountPath h x) (root w) = inr n ->
  exists w',
    removeAccount x w = (Ok tt, w') /\
    walk (accountPath h x) (root w') = inl ENOENT /\
    (exists l, listAccounts w' = (Ok l, w') /\ x ∉ map Npub l) /\
    (fst (loadActiveAccount w) = Ok x ->
     fst (loadActiveAccount w') = Err "no active account set").
Proof.
  intros Hh Hx Hn.
  assert (Hm : exists m, walk (accountsPath h) (root w) = inr (Dir m)).
  { unfold accountPath in Hn. rewrite walk_app in Hn.
    destruct (walk (accountsPath h) (root w)) as [e | [d | m]]; try discriminate.
    eauto. }
  destruct Hm as (m & Hm).
  assert (Hs : settled w h) by (split; eauto).
  destruct (RemoveAll_entry (accountsPath h) x (root w) m Hm)
    as (t1 & Hrm & Hself & Hother).
  destruct (active_apart_from_account h x) as (Hp1 & Hp2 & Hp3 & _).
  assert (Hact1 : walk (activePath h) t1 = walk (activePath h) (root w))
    by (apply Hother; assumption).
  assert (Hs1 : settled (setRoot w t1) h) by (eapply settled_setRoot; eassumption).
  assert (Hh1 : homeDir (setRoot w t1) = Some h) by exact Hh.
  unfold removeAccount, bind.
  rewrite (getAccountDir_settled w h x Hs Hx).
  unfold sys.Stat, sys.query, Stat. rewrite Hn. cbv iota.
  unfold sys.RemoveAll, sys.update. fold (accountPath h x) in Hrm. rewrite Hrm.
  rewrite (loadActiveAccount_settled _ h Hs1). cbn [root setRoot].
  rewrite (loadActiveAccount_settled w h Hs). cbn [fst]. rewrite Hact1.
  destruct (walk (activePath h) (root w)) as [e | [c | sub]] eqn:Ew; cbn [activeAnswer].
  - destruct (gone_after_removal (setRoot w t1) h x m Hh1 Hself) as (Hg & Hl).
    destruct (IsNotExist e); exists (setRoot w t1);
      (split; [reflexivity |]); (split; [exact Hg |]); (split; [exact Hl |]);
      discriminate.
  - destruct (String.eqb (Strs.TrimSpace c) x) eqn:Eax.
    + rewrite (getActiveAccountFilePath_settled _ h Hs1).
      unfold sys.Remove, sys.update. cbn [root setRoot].
      assert (Hfile : walk (activePath h) t1 = inr (File c)) by congruence.
      rewrite (Remove_file_RemoveAll _ _ _ Hfile)
        by (unfold activePath; destruct (storagePath h); discriminate).
      destruct (settled_storage _ h Hs1) as (m0 & Hm0). cbn [root setRoot] in Hm0.
      destruct (RemoveAll_entry (storagePath h) "active_account" t1 m0 Hm0)
        as (t2 & Hrm2 & Hself2 & Hother2).
      fold (activePath h) in Hrm2, Hother2. rewrite Hrm2.
      exists (setRoot (setRoot w t1) t2). split; [reflexivity |].
      assert (Hacc2 : walk (accountsPath h) t2 = inr (Dir (delete x m))).
      { rewrite (Hother2 (accountsPath h) Hp3 Hp1). exact Hself. }
      assert (Hh2 : homeDir (setRoot (setRoot w t1) t2) = Some h) by exact Hh.
      destruct (gone_after_removal (setRoot (setRoot w t1) t2) h x m Hh2 Hacc2)
        as (Hg & Hl).
      split; [exact Hg |]. split; [exact Hl |]. intros _.
      assert (Hs2 : settled (setRoot (setRoot w t1) t2) h)
        by (eapply settled_setRoot; eassumption).
      rewrite (loadActiveAccount_settled _ h Hs2). cbn [fst root setRoot].
      unfold activePath. rewrite walk_app, Hself2. simpl.
      now rewrite lookup_delete_eq.
    + exists (setRoot w t1). split; [reflexivity |].
      destruct (gone_after_removal (setRoot w t1) h x m Hh1 Hself) as (Hg & Hl).
      split; [exact Hg |]. split; [exact Hl |].
      intros Heq. inversion Heq as [Hc]. rewrite Hc, String.eqb_refl in Eax.
      discriminate.
  - exists (setRoot w t1). split; [reflexivity |].
    destruct (gone_after_removal (setRoot w t1) h x m Hh1 Hself) as (Hg & Hl).
    split; [exact Hg |]. split; [exact Hl |]. discriminate.
Qed.

Lemma removeAccount_missing (w : World) (h : path) (x : string) :
  homeDir w = Some h ->
  accountName x = true ->
  walk (accountPath h x) (root w) = inl ENOENT ->
  fst (removeAccount x w) = Err ("account not found: " ++ x).
Proof.
  intros Hh Hx Hn.
  assert (Hlong1 : ~ accountPath h x `prefix_of` storagePath h).
  { unfold accountPath, accountsPath. rewrite <- app_assoc.
    apply longer_not_prefix. discriminate. }
  assert (Hlong2 : ~ accountPath h x `prefix_of` accountsPath h).
  { unfold accountPath. apply longer_not_prefix. discriminate. }
  assert (Hmk1 : exists r1, MkdirAll (storagePath h) (root w) = inr r1).
  { apply (MkdirAll_ok_of_ENOENT _ ["accounts"; x]).
    unfold accountPath, accountsPath in Hn. now rewrite <- app_assoc in Hn. }
  destruct Hmk1 as (r1 & Hmk1).
  assert (Hn1 : walk (accountPath h x) r1 = inl ENOENT)
    by (rewrite (MkdirAll_walk_other _ _ _ _ Hmk1 Hlong1); exact Hn).
  assert (Hmk2 : exists r2, MkdirAll (accountsPath h) r1 = inr r2)
    by (apply (MkdirAll_ok_of_ENOENT _ [x]); exact Hn1).
  destruct Hmk2 as (r2 & Hmk2).
  assert (Hn2 : walk (accountPath h x) r2 = inl ENOENT)
    by (rewrite (MkdirAll_walk_other _ _ _ _ Hmk2 Hlong2); exact Hn1).
  unfold removeAccount, getAccountDir, bind, ret.
  rewrite getAccountsDir_run, getStorageDir_run, Hh, Hmk1.
  rewrite Join_accounts. cbn [root setRoot]. rewrite Hmk2.
  rewrite (sanitize_accountName x Hx), (Join_accountName _ x Hx).
  fold (accountPath h x).
  unfold sys.Stat, sys.query, Stat. cbn [root setRoot]. rewrite Hn2.
  reflexivity.
Qed.

End RemoveAccount.

(** C9. For an account [x] (a name that is one path element of at most 70
    bytes): if [accounts/x] exists, [removeAccount x] succeeds, the
    directory is gone, no listing shows [x], and if the [active_account]
    file named [x], reading the active account now fails with "no active
    account set"; if [accounts/x] does not exist, [removeAccount x] fails
    with "account not found". *)
Theorem remove_account_effects `{Bech32Lib} (w : World) (h : path) (x : string) :
  homeDir w = Some h ->
  Spec.accountName x = true ->
  (forall n,
     os.walk (Spec.accountPath h x) (root w) = inr n ->
     exists w',
       removeAccount x w = (Ok tt, w') /\
       os.walk (Spec.accountPath h x) (root w') = inl ENOENT /\
       (exists l, listAccounts w' = (Ok l, w') /\ x ∉ map Npub l) /\
       (fst (loadActiveAccount w) = Ok x ->
        fst (loadActiveAccount w') = Err "no active account set"))
  /\ (os.walk (Spec.accountPath h x) (root w) = inl ENOENT ->
      fst (removeAccount x w) = Err ("account not found: " ++ x)).
Proof.
  intros Hh Hx. split.
  - intros n Hn. exact (removeAccount_existing w h x n Hh Hx Hn).
  - intros Hn. exact (removeAccount_missing w h x Hh Hx Hn).
Qed.

(** ** The trust-session file *)

Module SessionFacts.
Import os Spec State TreeFacts PathFacts IOFacts.

Lemma Unix_Add_day (now : Time) :
  normal now -> time.Unix (time.Add now (24 * time.Hour)) = (time.Unix now + 86400)%Z.
Proof.
  unfold normal, time.Unix, time.Add, time.Hour. intros Hn. cbn [wallSec].
  f_equal.
  replace (wallNsec now + 24 * (3600 * 1000000000))%Z
    with (wallNsec now + 86400 * 1000000000)%Z by lia.
  rewrite Z.div_add by lia. rewrite Z.div_small by lia. reflexivity.
Qed.

(** The session [createTrustSession] builds. *)
Lemma createTrustSession_ok (rnd : Entropy) (now : Time) (nsec : string)
  (session : TrustSession) :
  createTrustSession rnd now nsec = Ok session ->
  exists token,
    length token = 32%nat /\
    SessionToken session = Hex.encodeHex token /\
    ExpiresAt session = time.Add now (24 * time.Hour) /\
    CreatedAt session = now /\
    SessionNsec session = xorLoop 0 (list_byte_of_string nsec) token.
Proof.
  unfold createTrustSession, rand_Read.
  destruct (rand_fail rnd); [discriminate |].
  intros Heq. injection Heq as <-.
  exists (map (rand_byte rnd) (seq 0 32)).
  assert (Hlen : length (map (rand_byte rnd) (seq 0 32)) = 32%nat)
    by now rewrite length_map, length_seq.
  split; [exact Hlen |]. split; [reflexivity |]. split; [reflexivity |].
  split; [reflexivity |].
  reflexivity.
Qed.

Lemma content_expires_first (now : Time) (session : TrustSession) (token : list byte) :
  normal now ->
  SessionToken session = Hex.encodeHex token ->
  ExpiresAt session = time.Add now (24 * time.Hour) ->
  CreatedAt session = now ->
  trustSessionContent session
  = expiresFirstContent token (time.Unix now + 86400) (time.Unix now)
      (SessionNsec session).
Proof.
  intros Hn Ht He Hc. unfold trustSessionContent, expiresFirstContent.
  now rewrite Ht, He, Hc, (Unix_Add_day now Hn).
Qed.

Lemma saveAccountTrustSession_ok (npub : string) (session : TrustSession)
  (w w' : World) :
  saveAccountTrustSession npub session w = (Ok tt, w') ->
  exists h,
    homeDir w = Some h /\
    fileAt (Join (Join (accountsPath h) (sanitizeNpubForPath npub)) "trust_session") w'
    = Some (trustSessionContent session).
Proof.
  unfold saveAccountTrustSession, getAccountTrustSessionFilePath, bind, ret.
  destruct (getAccountDir npub w) as [[a | e] w1] eqn:E1; [| discriminate].
  apply getAccountDir_ok in E1 as (h & Hh & -> & _).
  unfold sys.WriteFile, sys.update.
  destruct (WriteFile _ (trustSessionContent session) (root w1)) as [e | r] eqn:E2;
    [discriminate |].
  intros Heq. inversion Heq; subst. exists h. split; [exact Hh |].
  unfold fileAt. cbn [root setRoot]. now rewrite (ReadFile_WriteFile _ _ _ _ E2).
Qed.

Lemma saveTrustSession_ok (session : TrustSession) (w w' : World) :
  saveTrustSession session w = (Ok tt, w') ->
  exists h,
    homeDir w = Some h /\
    fileAt (storagePath h ++ ["trust_session"])%list w'
    = Some (trustSessionContent session).
Proof.
  unfold saveTrustSession, bind, ret.
  destruct (getStorageDir w) as [[a | e] w1] eqn:E1; [| discriminate].
  apply getStorageDir_ok in E1 as (h & Hh & -> & _).
  unfold sys.WriteFile, sys.update. rewrite Join_sessionFile.
  destruct (WriteFile _ (trustSessionContent session) (root w1)) as [e | r] eqn:E2;
    [discriminate |].
  intros Heq. inversion Heq; subst. exists h. split; [exact Hh |].
  unfold fileAt. cbn [root setRoot]. now rewrite (ReadFile_WriteFile _ _ _ _ E2).
Qed.

End SessionFacts.

(** C8 (as the code has it). The file of a trust session that the program
    creates and saves holds
    [hex(token) ":" expires_unix ":" created_unix ":" hex(ciphertext)]:
    the expiry comes before the creation time, the expiry being the
    creation time plus 86400 seconds.  This holds for the per-account
    file and for the file of the single-account layout. *)
Theorem trust_session_file_expires_first
  (rnd : Entropy) (now : Time) (nsec npub : string) (session : TrustSession)
  (w w' : World) :
  Spec.normal now ->
  createTrustSession rnd now nsec = Ok session ->
  exists token,
    length token = 32%nat /\
    (saveAccountTrustSession npub session w = (Ok tt, w') ->
     exists h,
       homeDir w = Some h /\
       State.fileAt
         (os.Join (os.Join (Spec.accountsPath h) (sanitizeNpubForPath npub))
            "trust_session") w'
       = Some (Spec.expiresFirstContent token (time.Unix now + 86400)
                 (time.Unix now) (SessionNsec session))) /\
    (saveTrustSession session w = (Ok tt, w') ->
     exists h,
       homeDir w = Some h /\
       State.fileAt (Spec.storagePath h ++ ["trust_session"])%list w'
       = Some (Spec.expiresFirstContent token (time.Unix now + 86400)
                 (time.Unix now) (SessionNsec session))).
Proof.
  intros Hn Hc.
  destruct (SessionFacts.createTrustSession_ok _ _ _ _ Hc)
    as (token & Hlen & Ht & He & Hcr & _).
  pose proof (SessionFacts.content_expires_first now session token Hn Ht He Hcr) as Hcontent.
  exists token. split; [exact Hlen |]. split.
  - intros Hs. apply SessionFacts.saveAccountTrustSession_ok in Hs as (h & Hh & Hf).
    exists h. split; [exact Hh |]. now rewrite <- Hcontent.
  - intros Hs. apply SessionFacts.saveTrustSession_ok in Hs as (h & Hh & Hf).
    exists h. split; [exact Hh |]. now rewrite <- Hcontent.
Qed.

(** C8 (as the specification words it in section 3) fails: for a session
    created at 1700000000 the file holds the expiry 1700086400 in its
    second field and the creation time in its third. *)
Lemma trust_session_file_not_created_first :
  exists session w',
    createTrustSession Sample.counting Sample.noon "nsec1example" = Ok session
    /\ saveAccountTrustSession Sample.npubA session Sample.listingWorld = (Ok tt, w')
    /\ State.fileAt (Spec.sessionFilePath Sample.home Sample.npubA) w'
       = Some ("000102030405060708090a0b0c0d0e0f101112131415161718191a1b1c1d1e1f"
               ++ ":1700086400:1700000000:" ++ "6e72676035607e666579666e")
    /\ Spec.createdFirstContent session
       = "000102030405060708090a0b0c0d0e0f101112131415161718191a1b1c1d1e1f"
         ++ ":1700000000:1700086400:" ++ "6e72676035607e666579666e"
    /\ State.fileAt (Spec.sessionFilePath Sample.home Sample.npubA) w'
       <> Some (Spec.createdFirstContent session).
Proof.
  eexists. eexists.
  split; [vm_compute; reflexivity |].
  split; [vm_compute; reflexivity |].
  split; [vm_compute; reflexivity |].
  split; [vm_compute; reflexivity |].
  vm_compute. discriminate.
Qed.

(** ** Adding accounts *)

Module AddFacts.
Import os.

(** Whether [WriteFile] succeeds does not depend on the bytes written. *)
Lemma WriteFile_ok_any (p : path) (d1 d2 : string) :
  forall t : node,
    match WriteFile p d1 t, WriteFile p d2 t with
    | inl e1, inl e2 => e1 = e2
    | inr _, inr _ => True
    | _, _ => False
    end.
Proof.
  induction p as [| c p IH]; intros t.
  - destruct t; simpl; auto.
  - destruct t as [d | m]; simpl; [reflexivity |].
    destruct (m !! c) as [n0 |].
    + specialize (IH n0).
      destruct (WriteFile p d1 n0), (WriteFile p d2 n0); auto.
    + destruct p; auto.
Qed.

Lemma save_ok_any (npub : string) (k1 k2 : EncryptedKey) (w : World) :
  isOk (fst (saveAccountEncryptedKey npub k1 w))
  = isOk (fst (saveAccountEncryptedKey npub k2 w)).
Proof.
  unfold saveAccountEncryptedKey, bind.
  destruct (getAccountDir npub w) as [[dir | e] w1]; [| reflexivity].
  destruct (sys.MkdirAll dir w1) as [[e |] w2]; [reflexivity |].
  unfold sys.WriteFile, sys.update.
  pose proof (WriteFile_ok_any (Join dir "keys.encrypted")
                (Hex.encodeHex (Salt k1) ++ ":" ++ Hex.encodeHex (EncryptedNsec k1))
                (Hex.encodeHex (Salt k2) ++ ":" ++ Hex.encodeHex (EncryptedNsec k2))
                (root w2)) as Hw.
  destruct (WriteFile _ _ (root w2)), (WriteFile _ _ (root w2));
    first [contradiction | reflexivity].
Qed.

End AddFacts.

Section AddAccount.
Context `{Bech32Lib} `{Secp256k1Lib} `{ScryptLib}.

(** The outcome of [add_account] does not depend on the password beyond
    its being non-empty: the handler never looks at its length. *)
Lemma add_account_password_length_ignored
  (rnd : Entropy) (req1 req2 : SignRequest) (w : World) :
  Nsec req1 = Nsec req2 -> SetActive req1 = SetActive req2 ->
  Password req1 <> "" -> Password req2 <> "" ->
  Success (fst (handleAddAccount rnd req1 w))
  = Success (fst (handleAddAccount rnd req2 w)).
Proof.
  intros Hn Ha Hp1 Hp2. unfold handleAddAccount.
  apply String.eqb_neq in Hp1, Hp2. rewrite <- Hn, Hp1, Hp2.
  destruct (String.eqb (Nsec req1) ""); [reflexivity |]. cbn [orb].
  destruct (nsecToPrivateKey (Nsec req1)) as [key | e]; [| reflexivity].
  unfold bind.
  destruct (accountExists (privateKeyToNpub key) w) as [[|] w1]; [reflexivity |].
  unfold encryptNsec. destruct (rand_Read rnd saltLen) as [salt | e]; [| reflexivity].
  rewrite !scrypt_Key_fixed.
  match goal with
  | |- context [saveAccountEncryptedKey ?n ?k1 w1] =>
      match goal with
      | |- context [Password req2] =>
          match goal with
          | |- Success (fst (let (_, _) := _ in _))
               = Success (fst (let (_, _) := saveAccountEncryptedKey n ?k2 w1 in _)) =>
              pose proof (AddFacts.save_ok_any n k1 k2 w1) as Hsave
          end
      end
  end.
  destruct (saveAccountEncryptedKey _ _ w1) as [[u1 | e1] w2];
    destruct (saveAccountEncryptedKey _ _ w1) as [[u2 | e2] w2'];
    cbn [fst isOk] in Hsave; try discriminate; [| reflexivity].
  rewrite <- Ha.
  destruct (SetActive req1).
  - destruct (saveActiveAccount _ w2), (saveActiveAccount _ w2'). reflexivity.
  - reflexivity.
Qed.

End AddAccount.

(** C5 (what the code does). The [add_account] handler accepts a password
    of 8 characters and accepts one of 7 characters, and of 1 character,
    just the same: the account is stored under a key derived from it.  The
    command-line path turns the 7-character password down. *)
Theorem add_account_accepts_short_password :
  let run (password : string) :=
    handleAddAccount (H := RefBech32.lib) (H0 := RefSecp256k1.lib)
      (H1 := StandInScrypt.lib) Sample.counting (Sample.addRequest password)
      Sample.freshWorld in
  let eight := run "12345678" in
  let seven := run "1234567" in
  let single := run "1" in
  Success (fst eight) = true
  /\ Success (fst seven) = true
  /\ ActionError (fst seven) = ""
  /\ ActionNpub (fst seven) = Sample.npubOne
  /\ State.fileAt (Spec.keyFilePath Sample.home Sample.npubOne) (snd seven) <> None
  /\ Success (fst single) = true
  /\ cliPasswordTooShort "1234567" = true
  /\ cliPasswordTooShort "12345678" = false.
Proof. vm_compute. repeat split; first [reflexivity | discriminate]. Qed.
(** * The theorems at concrete inputs *)

(** ** The reference models against published values *)

Example bech32_decodes_npubs :
  npubToPubkey (H := RefBech32.lib) Sample.npubA
  = Ok "3bf0c63fcb93463407af97a5e5ee64fa883d107ef9e558472c4eb9aaaefa459d"
  /\ npubToPubkey (H := RefBech32.lib) Sample.npubB
     = Ok "82341f882b6eabcd2ba7f1ef90aad961cf074af15b9ef44a09f9d2a8fbfbe6a2"
  /\ isOk (npubToPubkey (H := RefBech32.lib)
             "npub1sg6plzptd64u62a878hep2kev88swjh3tw00gjsfl8f237lmu63q0uf63n")
     = false.
Proof. vm_compute. repeat split; reflexivity. Qed.

Example sha256_of_abc :
  Hex.encodeHex (RefSha256.Sum256 (list_byte_of_string "abc"))
  = "ba7816bf8f01cfea414140de5dae2223b00361a396177a9cb410ff61f20015ad".
Proof. vm_compute. reflexivity. Qed.

Example secp256k1_public_keys :
  Hex.encodeHex (RefSecp256k1.serializePubKey 1)
  = "79be667ef9dcbbac55a06295ce870b07029bfcdb2dce28d959f2815b16f81798"
  /\ Hex.encodeHex (RefSecp256k1.serializePubKey 3)
     = "f9308a019258c31049344f85f89d5229b531c845836f99b08601f113bce036f9".
Proof. vm_compute. split; reflexivity. Qed.

(** Test vector 0 of BIP-340: secret key 3, message of 32 zero bytes. *)
Example bip340_vector_0 :
  RefSecp256k1.sign 3 (repeat x00 32)
  = match Hex.decodeHex
            ("e907831f80848d1069a5371b402410364bdf1c5f8307b0084c55f1ce2dca8215"
             ++ "25f66a4a85ea8b71e482a74f382d2ce5ebeee8fdb2172f477df4900d310536c0") with
    | Ok sig => Ok sig
    | Err e => Err e
    end.
Proof. vm_compute. reflexivity. Qed.

(** The id of the sample event, as computed outside this development by
    SHA-256 over the canonical text. *)
Example sample_event_hash :
  createEventHash (H := SampleJson.lib) (H0 := Amd64.arch) (H1 := RefSha256.lib)
    SampleJson.eventText
  = Ok Scenario.sampleEventId.
Proof. vm_compute. reflexivity. Qed.

(** With the right password the switch succeeds and installs the key. *)
Example switch_with_right_password :
  let out :=
    handleSwitchAccount (H := RefBech32.lib) (H0 := RefSecp256k1.lib)
      (H1 := StandInScrypt.lib) Sample.counting Sample.noon Scenario.daemonThree
      (Scenario.switchRequest "12345678") Scenario.storedWorld in
  Success (fst (fst out)) = true
  /\ privateKey (snd (fst out)) = Some 1%Z
  /\ npub (snd (fst out)) = Sample.npubOne
  /\ pubkey (snd (fst out))
     = "79be667ef9dcbbac55a06295ce870b07029bfcdb2dce28d959f2815b16f81798"
  /\ State.fileAt (Spec.activePath Sample.home) (snd out) = Some Sample.npubOne.
Proof. vm_compute. repeat split; reflexivity. Qed.

(** ** Witnesses *)

Lemma encrypt_decrypt_roundtrip_witness :
  rand_fail Sample.counting = false
  /\ exists encKey,
       encryptNsec (H := StandInScrypt.lib) Sample.counting
         "nsec1example" "correct horse" = Ok encKey
       /\ length (Salt encKey) = saltLen
       /\ decryptNsec (H := StandInScrypt.lib) encKey "correct horse"
          = Ok "nsec1example".
Proof.
  split; [reflexivity |].
  apply (encrypt_decrypt_roundtrip (H := StandInScrypt.lib) Sample.counting
           "nsec1example" "correct horse").
  reflexivity.
Defined.

Lemma trust_session_valid_iff_witness :
  Spec.normal Sample.noon
  /\ Spec.normal (ExpiresAt Scenario.session)
  /\ ((isTrustSessionValid Sample.noon Scenario.session = true
       <-> Spec.strictlyBefore Sample.noon (ExpiresAt Scenario.session))
      /\ (ExpiresAt Scenario.session = Sample.noon ->
          isTrustSessionValid Sample.noon Scenario.session = false)
      /\ (mono Sample.noon = None ->
          Spec.instant (ExpiresAt Scenario.session) = Spec.instant Sample.noon ->
          isTrustSessionValid Sample.noon Scenario.session = false)).
Proof.
  assert (Hn : Spec.normal Sample.noon) by (unfold Spec.normal; simpl; lia).
  assert (He : Spec.normal (ExpiresAt Scenario.session))
    by (unfold Spec.normal; simpl; lia).
  split; [exact Hn |]. split; [exact He |].
  apply (trust_session_valid_iff Sample.noon Scenario.session Hn He).
Defined.

Lemma sign_event_keeps_event_pubkey_witness :
  json_Unmarshal (JsonLib := SampleJson.lib) SampleJson.eventText = Ok SampleJson.event
  /\ json.get SampleJson.event "pubkey"
     = Some (JString "79be667ef9dcbbac55a06295ce870b07029bfcdb2dce28d959f2815b16f81798")
  /\ pubkey Scenario.daemonThree
     <> "79be667ef9dcbbac55a06295ce870b07029bfcdb2dce28d959f2815b16f81798"
  /\ signEvent (H := RefSecp256k1.lib) (H0 := SampleJson.lib) (H1 := Amd64.arch)
       (H2 := RefSha256.lib) Scenario.daemonThree SampleJson.eventText
     = signNostrEvent (H := RefSecp256k1.lib) 3%Z
         (sha256_Sum256 (Sha256Lib := RefSha256.lib)
            (list_byte_of_string
               (Canon.nip01Text
                  "79be667ef9dcbbac55a06295ce870b07029bfcdb2dce28d959f2815b16f81798"
                  (int64_of_float (H := Amd64.arch) Canon.float_1_6942e9)
                  (int64_of_float (H := Amd64.arch) SampleJson.one)
                  Scenario.tagsText "<script>&"))).
Proof.
  split; [reflexivity |]. split; [reflexivity |]. split; [discriminate |].
  exact (proj1 (proj2
           (sign_event_keeps_event_pubkey
              (H := RefSecp256k1.lib) (H0 := SampleJson.lib) (H1 := Amd64.arch)
              (H2 := RefSha256.lib)
              SampleJson.eventText
              "79be667ef9dcbbac55a06295ce870b07029bfcdb2dce28d959f2815b16f81798"
              "<script>&" Scenario.tagsText SampleJson.event
              Canon.float_1_6942e9 SampleJson.one
              [JArray [JString "t"; JString "nostr"]]
              eq_refl eq_refl eq_refl eq_refl eq_refl eq_refl eq_refl))
         Scenario.daemonThree 3%Z eq_refl).
Defined.

Lemma switch_account_failure_atomic_witness :
  ~ State.passwordUnlocks (H := RefBech32.lib) (H0 := RefSecp256k1.lib)
      (H1 := StandInScrypt.lib) Scenario.storedWorld
      (fst (resolveTarget (Scenario.switchRequest "wrong password") Scenario.storedWorld))
      (Password (Scenario.switchRequest "wrong password"))
  /\ Success (fst (fst Scenario.wrongSwitch)) = false
  /\ ActionError (fst (fst Scenario.wrongSwitch)) <> ""
  /\ privateKey (snd (fst Scenario.wrongSwitch)) = privateKey Scenario.daemonThree
  /\ npub (snd (fst Scenario.wrongSwitch)) = npub Scenario.daemonThree
  /\ pubkey (snd (fst Scenario.wrongSwitch)) = pubkey Scenario.daemonThree
  /\ State.sameFiles Scenario.storedWorld (snd Scenario.wrongSwitch)
  /\ (forall h, homeDir Scenario.storedWorld = Some h ->
        State.fileAt (Spec.activePath h) (snd Scenario.wrongSwitch)
        = State.fileAt (Spec.activePath h) Scenario.storedWorld).
Proof.
  assert (Hbad : ~ State.passwordUnlocks (H := RefBech32.lib) (H0 := RefSecp256k1.lib)
                     (H1 := StandInScrypt.lib) Scenario.storedWorld
                     (fst (resolveTarget (Scenario.switchRequest "wrong password")
                             Scenario.storedWorld))
                     (Password (Scenario.switchRequest "wrong password"))).
  { intros (h & content & encKey & nsec & key & Hh & Hf & Hp & Hd & Hk).
    vm_compute in Hh. injection Hh as Hh. subst h.
    vm_compute in Hf. injection Hf as Hf. subst content.
    vm_compute in Hp. injection Hp as Hp. subst encKey.
    vm_compute in Hd. injection Hd as Hd. subst nsec.
    vm_compute in Hk. discriminate Hk. }
  split; [exact Hbad |].
  apply (switch_account_failure_atomic (H := RefBech32.lib) (H0 := RefSecp256k1.lib)
           (H1 := StandInScrypt.lib) Sample.counting Sample.noon
           Scenario.daemonThree (snd (fst Scenario.wrongSwitch))
           (Scenario.switchRequest "wrong password")
           Scenario.storedWorld (snd Scenario.wrongSwitch)
           (fst (fst Scenario.wrongSwitch))).
  - unfold Scenario.wrongSwitch.
    destruct (handleSwitchAccount _ _ _ _ _) as [[resp d'] w']. reflexivity.
  - exact Hbad.
Defined.

Lemma decryptNsec_total_no_error_witness :
  (exists nsec,
     decryptNsec (H := StandInScrypt.lib) Scenario.storedKey "wrong password" = Ok nsec
     /\ String.length nsec = length (EncryptedNsec Scenario.storedKey))
  /\ ActionError (fst (fst Scenario.wrongSwitch)) <> "invalid password"
  /\ Scenario.wrongSwitch
     = ((actionError "req-012" "corrupted key file", Scenario.daemonThree),
        Scenario.storedWorld).
Proof.
  pose proof (decryptNsec_total_no_error (H := RefBech32.lib) (H0 := RefSecp256k1.lib)
                (H1 := StandInScrypt.lib)) as (Htotal & Hswitch & _ & Hparse).
  split; [exact (Htotal Scenario.storedKey "wrong password") |].
  split; [exact (Hswitch Sample.counting Sample.noon Scenario.daemonThree
                   (Scenario.switchRequest "wrong password") Scenario.storedWorld) |].
  apply (Hparse Sample.counting Sample.noon Scenario.daemonThree
           (Scenario.switchRequest "wrong password")
           Scenario.storedWorld Scenario.storedWorld Scenario.storedWorld
           Scenario.storedWorld Sample.npubOne Scenario.garbage Scenario.parseError
           Scenario.storedKey).
  - vm_compute. reflexivity.
  - discriminate.
  - discriminate.
  - vm_compute. reflexivity.
  - vm_compute. reflexivity.
  - vm_compute. reflexivity.
  - vm_compute. reflexivity.
Defined.

Lemma list_accounts_npub_directories_sorted_witness :
  listAccounts (H := RefBech32.lib) Sample.listingWorld
  = (Ok Scenario.listing, Sample.listingWorld)
  /\ exists h,
       homeDir Sample.listingWorld = Some h /\
       (forall name,
          name ∈ map Npub Scenario.listing <->
          State.isDirAt (Spec.accountPath h name) Sample.listingWorld /\
          Strs.HasPrefix name "npub1" = true /\
          isOk (npubToPubkey (H := RefBech32.lib) name) = true) /\
       StronglySorted State.nameLt (map Npub Scenario.listing) /\
       (forall a, a ∈ Scenario.listing ->
          npubToPubkey (H := RefBech32.lib) (Npub a) = Ok (Pubkey a) /\
          AccountCreatedAt a = modTime Sample.listingWorld (Spec.accountPath h (Npub a))).
Proof.
  assert (Hrun : listAccounts (H := RefBech32.lib) Sample.listingWorld
                 = (Ok Scenario.listing, Sample.listingWorld))
    by (vm_compute; reflexivity).
  split; [exact Hrun |].
  exact (list_accounts_npub_directories_sorted (H := RefBech32.lib)
           Sample.listingWorld Sample.listingWorld Scenario.listing Hrun).
Defined.

Lemma trust_session_file_expires_first_witness :
  Spec.normal Sample.noon
  /\ createTrustSession Sample.counting Sample.noon "nsec1example" = Ok Scenario.session
  /\ saveAccountTrustSession Sample.npubA Scenario.session Sample.listingWorld
     = (Ok tt, Scenario.sessionWorld)
  /\ exists token,
       length token = 32%nat /\
       (saveAccountTrustSession Sample.npubA Scenario.session Sample.listingWorld
        = (Ok tt, Scenario.sessionWorld) ->
        exists h,
          homeDir Sample.listingWorld = Some h /\
          State.fileAt
            (os.Join (os.Join (Spec.accountsPath h) (sanitizeNpubForPath Sample.npubA))
               "trust_session") Scenario.sessionWorld
          = Some (Spec.expiresFirstContent token (time.Unix Sample.noon + 86400)
                    (time.Unix Sample.noon) (SessionNsec Scenario.session))) /\
       (saveTrustSession Scenario.session Sample.listingWorld
        = (Ok tt, Scenario.sessionWorld) ->
        exists h,
          homeDir Sample.listingWorld = Some h /\
          State.fileAt (Spec.storagePath h ++ ["trust_session"])%list Scenario.sessionWorld
          = Some (Spec.expiresFirstContent token (time.Unix Sample.noon + 86400)
                    (time.Unix Sample.noon) (SessionNsec Scenario.session))).
Proof.
  assert (Hn : Spec.normal Sample.noon) by (unfold Spec.normal; simpl; lia).
  assert (Hc : createTrustSession Sample.counting Sample.noon "nsec1example"
               = Ok Scenario.session) by (vm_compute; reflexivity).
  split; [exact Hn |]. split; [exact Hc |].
  split; [vm_compute; reflexivity |].
  exact (trust_session_file_expires_first Sample.counting Sample.noon "nsec1example"
           Sample.npubA Scenario.session Sample.listingWorld Scenario.sessionWorld
           Hn Hc).
Defined.

Lemma remove_account_effects_witness :
  homeDir Sample.listingWorld = Some Sample.home
  /\ Spec.accountName Sample.npubA = true
  /\ os.walk (Spec.accountPath Sample.home Sample.npubA) (root Sample.listingWorld)
     = inr (Dir ∅)
  /\ os.walk (Spec.accountPath Sample.home Sample.npubB) (root Sample.listingWorld)
     = inl ENOENT
  /\ (exists w',
        removeAccount Sample.npubA Sample.listingWorld = (Ok tt, w') /\
        os.walk (Spec.accountPath Sample.home Sample.npubA) (root w') = inl ENOENT /\
        (exists l, listAccounts (H := RefBech32.lib) w' = (Ok l, w')
                   /\ Sample.npubA ∉ map Npub l) /\
        (fst (loadActiveAccount Sample.listingWorld) = Ok Sample.npubA ->
         fst (loadActiveAccount w') = Err "no active account set"))
  /\ fst (removeAccount Sample.npubB Sample.listingWorld)
     = Err ("account not found: " ++ Sample.npubB).
Proof.
  assert (Hh : homeDir Sample.listingWorld = Some Sample.home) by reflexivity.
  assert (Ha : Spec.accountName Sample.npubA = true) by (vm_compute; reflexivity).
  assert (Hb : Spec.accountName Sample.npubB = true) by (vm_compute; reflexivity).
  assert (Hthere : os.walk (Spec.accountPath Sample.home Sample.npubA)
                     (root Sample.listingWorld) = inr (Dir ∅))
    by (vm_compute; reflexivity).
  assert (Hmissing : os.walk (Spec.accountPath Sample.home Sample.npubB)
                       (root Sample.listingWorld) = inl ENOENT)
    by (vm_compute; reflexivity).
  split; [exact Hh |]. split; [exact Ha |].
  split; [exact Hthere |]. split; [exact Hmissing |].
  split.
  - exact (proj1 (remove_account_effects (H := RefBech32.lib)
                    Sample.listingWorld Sample.home Sample.npubA Hh Ha)
             (Dir ∅) Hthere).
  - exact (proj2 (remove_account_effects (H := RefBech32.lib)
                    Sample.listingWorld Sample.home Sample.npubB Hh Hb)
             Hmissing).
Defined.

(** * Further properties of the code *)

(** ** Hexadecimal text *)

Module HexFacts.
Import Hex.

Lemma digits_of_byte (b : byte) :
  hexCharToNibble (hexChar (Bytes.hi b)) = Ok (Bytes.hi b)
  /\ hexCharToNibble (hexChar (Bytes.lo b)) = Ok (Bytes.lo b)
  /\ joinNibbles (Bytes.hi b) (Bytes.lo b) = b.
Proof. destruct b; vm_compute; repeat split; reflexivity. Qed.

Lemma decodePairs_encodeHex (data : list byte) :
  decodePairs (encodeHex data) = Ok data.
Proof.
  induction data as [| b rest IH]; [reflexivity |].
  destruct (digits_of_byte b) as (Hh & Hl & Hj).
  cbn [encodeHex decodePairs]. now rewrite Hh, Hl, IH, Hj.
Qed.

Lemma encodeHex_length (data : list byte) :
  String.length (encodeHex data) = (2 * length data)%nat.
Proof. induction data as [| b rest IH]; simpl; [reflexivity | rewrite IH; lia]. Qed.

Lemma decodeHex_encodeHex (data : list byte) :
  decodeHex (encodeHex data) = Ok data.
Proof.
  unfold decodeHex. rewrite encodeHex_length.
  replace ((2 * length data) mod 2)%nat with 0%nat
    by (symmetry; apply Nat.Div0.mod_mul || (rewrite Nat.mul_comm; apply Nat.Div0.mod_mul)).
  apply decodePairs_encodeHex.
Qed.

(** The library reads a digit as the program's own [hexCharToNibble] does. *)
Lemma fromHexChar_nibble (c : ascii) :
  fromHexChar c = match hexCharToNibble c with Ok n => Some n | Err _ => None end.
Proof. destruct c as [[|] [|] [|] [|] [|] [|] [|] [|]]; vm_compute; reflexivity. Qed.

Lemma DecodeString_encodeHex (data : list byte) :
  DecodeString (encodeHex data) = Ok data.
Proof.
  unfold DecodeString.
  induction data as [| b rest IH]; [reflexivity |].
  destruct (digits_of_byte b) as (Hh & Hl & Hj).
  cbn [encodeHex decodeLoop]. rewrite !fromHexChar_nibble, Hh, Hl, IH, Hj.
  reflexivity.
Qed.

Lemma DecodeString_EncodeToString (data : list byte) :
  DecodeString (EncodeToString data) = Ok data.
Proof. apply DecodeString_encodeHex. Qed.

Lemma nibble_of_hexDigit (c : ascii) :
  Text.isHexDigit c = true ->
  exists n, hexCharToNibble c = Ok n /\ (n < 16)%N
            /\ hexChar n = Text.lowerHex c.
Proof.
  destruct c as [[|] [|] [|] [|] [|] [|] [|] [|]]; vm_compute; intros Hc;
    try discriminate Hc; eexists; repeat split; reflexivity.
Qed.

Lemma nibble_hexDigit (c : ascii) (n : N) :
  hexCharToNibble c = Ok n -> Text.isHexDigit c = true.
Proof.
  destruct c as [[|] [|] [|] [|] [|] [|] [|] [|]]; vm_compute; intros Hc;
    try discriminate Hc; reflexivity.
Qed.

Lemma join_split (high low : N) :
  (high < 16)%N -> (low < 16)%N ->
  Bytes.hi (joinNibbles high low) = high /\ Bytes.lo (joinNibbles high low) = low.
Proof.
  intros Hh Hl.
  pose (nibbles := map N.of_nat (seq 0 16)).
  assert (Hin : forall n, (n < 16)%N -> In n nibbles).
  { intros n Hn. rewrite <- (N2Nat.id n). apply in_map. apply in_seq. lia. }
  assert (Hall : forallb (fun h => forallb (fun l =>
                   N.eqb (Bytes.hi (joinNibbles h l)) h
                   && N.eqb (Bytes.lo (joinNibbles h l)) l) nibbles) nibbles = true)
    by (vm_compute; reflexivity).
  rewrite forallb_forall in Hall. specialize (Hall high (Hin high Hh)).
  rewrite forallb_forall in Hall. specialize (Hall low (Hin low Hl)).
  apply andb_true_iff in Hall as [Hhi Hlo].
  apply N.eqb_eq in Hhi. apply N.eqb_eq in Hlo. now split.
Qed.

(** Induction on a string two characters at a time. *)
Lemma string_pair_ind (P : string -> Prop) :
  P "" -> (forall a, P (String a "")) ->
  (forall a b rest, P rest -> P (String a (String b rest))) ->
  forall s, P s.
Proof.
  intros H0 H1 H2 s.
  enough (P s /\ forall c, P (String c s)) by tauto.
  induction s as [| c s [IHs IHc]]; [split; auto |].
  split; [apply IHc |]. intros c'. now apply H2.
Qed.

(** What [decodePairs] accepts, and what it gives. *)
Lemma decodePairs_ok (s : string) :
  forall data,
    decodePairs s = Ok data ->
    String.length s = (2 * length data)%nat
    /\ Text.allOf Text.isHexDigit s = true
    /\ encodeHex data = Text.mapChars Text.lowerHex s.
Proof.
  induction s as [| a | a b rest IH] using string_pair_ind;
    intros data Hd; cbn [decodePairs] in Hd.
  - injection Hd as <-. repeat split; reflexivity.
  - discriminate.
  - destruct (hexCharToNibble a) as [high |] eqn:Ea; [| discriminate].
    destruct (hexCharToNibble b) as [low |] eqn:Eb; [| discriminate].
    destruct (decodePairs rest) as [tl |] eqn:Er; [| discriminate].
    injection Hd as <-.
    destruct (IH tl eq_refl) as (Hlen & Hall & Henc).
    pose proof (nibble_hexDigit _ _ Ea) as Ha.
    pose proof (nibble_hexDigit _ _ Eb) as Hb.
    destruct (nibble_of_hexDigit a Ha) as (na & Ena & Hna & Hca).
    destruct (nibble_of_hexDigit b Hb) as (nb & Enb & Hnb & Hcb).
    rewrite Ea in Ena. injection Ena as <-.
    rewrite Eb in Enb. injection Enb as <-.
    destruct (join_split high low Hna Hnb) as (Hhi & Hlo).
    split; [simpl; rewrite Hlen; lia |].
    split; [cbn [Text.allOf]; now rewrite Ha, Hb |].
    cbn [encodeHex Text.mapChars]. now rewrite Hhi, Hlo, Hca, Hcb, Henc.
Qed.

Lemma decodePairs_hexDigits (s : string) :
  Nat.even (String.length s) = true ->
  Text.allOf Text.isHexDigit s = true ->
  exists data, decodePairs s = Ok data.
Proof.
  induction s as [| a | a b rest IH] using string_pair_ind; intros Hev Hall.
  - now exists [].
  - discriminate.
  - cbn [Text.allOf] in Hall.
    apply andb_prop in Hall as [Ha Hall]. apply andb_prop in Hall as [Hb Hall].
    destruct (nibble_of_hexDigit a Ha) as (na & Ena & _).
    destruct (nibble_of_hexDigit b Hb) as (nb & Enb & _).
    destruct (IH Hev Hall) as (tl & Htl).
    cbn [decodePairs]. rewrite Ena, Enb, Htl. now eexists.
Qed.

Lemma even_mod (n : nat) : Nat.eqb (n mod 2) 0 = Nat.even n.
Proof.
  destruct (Nat.even n) eqn:E.
  - apply Nat.even_spec in E as [k ->]. rewrite Nat.mul_comm, Nat.Div0.mod_mul. reflexivity.
  - apply Nat.eqb_neq. intros Hm.
    assert (Nat.even n = true); [| congruence].
    apply Nat.even_spec. exists (n / 2)%nat.
    pose proof (Nat.div_mod_eq n 2). lia.
Qed.

End HexFacts.

(** X1. [decodeHex] undoes [encodeHex]: every byte sequence comes back from its
    hexadecimal text. *)
Theorem hex_decode_encode_roundtrip (data : list byte) :
  Hex.decodeHex (Hex.encodeHex data) = Ok data
  /\ String.length (Hex.encodeHex data) = (2 * length data)%nat.
Proof.
  split; [apply HexFacts.decodeHex_encodeHex | apply HexFacts.encodeHex_length].
Qed.

(** X2. [decodeHex] accepts exactly the strings of even length made of
    hexadecimal digits, upper-case letters included, and the bytes it
    returns encode back to the string in lower case. *)
Theorem decodeHex_accepts_hex_digits_of_either_case (s : string) :
  (isOk (Hex.decodeHex s) = true
   <-> Nat.even (String.length s) = true /\ Text.allOf Text.isHexDigit s = true)
  /\ (forall data,
        Hex.decodeHex s = Ok data ->
        String.length s = (2 * length data)%nat
        /\ Hex.encodeHex data = Text.mapChars Text.lowerHex s).
Proof.
  unfold Hex.decodeHex. rewrite HexFacts.even_mod. split.
  - split.
    + destruct (Nat.even (String.length s)); [| discriminate].
      destruct (Hex.decodePairs s) as [data |] eqn:E; [| discriminate].
      intros _. split; [reflexivity |]. now apply HexFacts.decodePairs_ok in E.
    + intros [Hev Hall]. rewrite Hev.
      destruct (HexFacts.decodePairs_hexDigits s Hev Hall) as (data & ->).
      reflexivity.
  - destruct (Nat.even (String.length s)); [| discriminate].
    intros data E. apply HexFacts.decodePairs_ok in E as (Hl & _ & He). now split.
Qed.

(** ** Decimal text and [parseInt64] *)

Module IntFacts.
Import Text.

Lemma wrapInt64_mod (z : Z) : (wrapInt64 z mod 2 ^ 64 = z mod 2 ^ 64)%Z.
Proof.
  unfold wrapInt64. rewrite Zminus_mod_idemp_l. f_equal. lia.
Qed.

Lemma wrapInt64_congr (a b : Z) :
  (a mod 2 ^ 64 = b mod 2 ^ 64)%Z -> wrapInt64 a = wrapInt64 b.
Proof.
  intros Hab. unfold wrapInt64.
  rewrite <- (Zplus_mod_idemp_l a), <- (Zplus_mod_idemp_l b), Hab. reflexivity.
Qed.

Lemma wrapInt64_small (z : Z) : (- 2 ^ 63 <= z < 2 ^ 63)%Z -> wrapInt64 z = z.
Proof. intros Hz. unfold wrapInt64. rewrite Z.mod_small; lia. Qed.

Lemma wrapInt64_range (z : Z) : (- 2 ^ 63 <= wrapInt64 z < 2 ^ 63)%Z.
Proof.
  unfold wrapInt64. pose proof (Z.mod_pos_bound (z + 2 ^ 63) (2 ^ 64)) as Hb. lia.
Qed.

Lemma wrapInt64_step (acc d : Z) :
  wrapInt64 (wrapInt64 (wrapInt64 acc * 10) + d) = wrapInt64 (acc * 10 + d).
Proof.
  apply wrapInt64_congr.
  rewrite <- Zplus_mod_idemp_l, wrapInt64_mod, Zplus_mod_idemp_l.
  rewrite <- Zplus_mod_idemp_l, <- Zmult_mod_idemp_l, wrapInt64_mod,
    Zmult_mod_idemp_l, Zplus_mod_idemp_l.
  reflexivity.
Qed.

Lemma decimalFrom_congr (s : string) :
  forall a b : Z,
    (a mod 2 ^ 64 = b mod 2 ^ 64)%Z ->
    (decimalFrom a s mod 2 ^ 64 = decimalFrom b s mod 2 ^ 64)%Z.
Proof.
  induction s as [| c s IH]; intros a b Hab; [exact Hab |].
  cbn [decimalFrom]. apply IH.
  rewrite <- Zplus_mod_idemp_l, <- Zmult_mod_idemp_l, Hab,
    Zmult_mod_idemp_l, Zplus_mod_idemp_l.
  reflexivity.
Qed.

(** *** Runes *)

Lemma lor_ge_l (a b : N) : (a <= N.lor a b)%N.
Proof.
  assert (Hd : N.land a (N.ldiff b a) = 0%N).
  { apply N.bits_inj. intros k.
    rewrite N.land_spec, N.ldiff_spec, N.bits_0.
    now destruct (N.testbit a k), (N.testbit b k). }
  assert (Hl : N.lor a b = N.lxor a (N.ldiff b a)).
  { apply N.bits_inj. intros k.
    rewrite N.lor_spec, N.lxor_spec, N.ldiff_spec.
    now destruct (N.testbit a k), (N.testbit b k). }
  rewrite Hl, <- (N.add_nocarry_lxor _ _ Hd). lia.
Qed.

Lemma lor_ge_r (a b : N) : (b <= N.lor a b)%N.
Proof. rewrite N.lor_comm. apply lor_ge_l. Qed.

Lemma land_31 (a : N) : N.land a 31 = (a mod 32)%N.
Proof. exact (N.land_ones a 5). Qed.
Lemma land_15 (a : N) : N.land a 15 = (a mod 16)%N.
Proof. exact (N.land_ones a 4). Qed.
Lemma land_7 (a : N) : N.land a 7 = (a mod 8)%N.
Proof. exact (N.land_ones a 3). Qed.
Lemma land_63 (a : N) : N.land a 63 = (a mod 64)%N.
Proof. exact (N.land_ones a 6). Qed.

Lemma rune2_high (b0 x : N) :
  (194 <= b0)%N -> (b0 <= 223)%N ->
  (128 <= N.lor (N.shiftl (N.land b0 31) 6) x)%N.
Proof.
  intros H1 H2. etransitivity; [| apply lor_ge_l].
  rewrite land_31, N.shiftl_mul_pow2. change (2 ^ 6)%N with 64%N.
  assert (Hm : (b0 mod 32 = b0 - 192)%N)
    by (symmetry; apply (N.mod_unique b0 32 6); lia).
  rewrite Hm. lia.
Qed.

Lemma rune3_high (b0 b1 x : N) :
  (224 <= b0)%N -> (b0 <= 239)%N -> (b0 = 224 -> 160 <= b1)%N ->
  (128 <= b1)%N -> (b1 <= 191)%N ->
  (128 <= N.lor (N.lor (N.shiftl (N.land b0 15) 12) (N.shiftl (N.land b1 63) 6)) x)%N.
Proof.
  intros H1 H2 H3 H4 H5. etransitivity; [| apply lor_ge_l].
  pose proof (lor_ge_l (N.shiftl (N.land b0 15) 12) (N.shiftl (N.land b1 63) 6)) as Hl.
  pose proof (lor_ge_r (N.shiftl (N.land b0 15) 12) (N.shiftl (N.land b1 63) 6)) as Hr.
  rewrite land_15, land_63, !N.shiftl_mul_pow2 in *.
  change (2 ^ 12)%N with 4096%N in *. change (2 ^ 6)%N with 64%N in *.
  assert (Hm : (b0 mod 16 = b0 - 224)%N)
    by (symmetry; apply (N.mod_unique b0 16 14); lia).
  assert (Hm1 : (b1 mod 64 = b1 - 128)%N)
    by (symmetry; apply (N.mod_unique b1 64 2); lia).
  rewrite Hm, Hm1 in *. lia.
Qed.

Lemma rune4_high (b0 b1 x y : N) :
  (240 <= b0)%N -> (b0 <= 244)%N -> (b0 = 240 -> 144 <= b1)%N ->
  (128 <= b1)%N -> (b1 <= 191)%N ->
  (128 <= N.lor (N.lor (N.lor (N.shiftl (N.land b0 7) 18)
                              (N.shiftl (N.land b1 63) 12)) x) y)%N.
Proof.
  intros H1 H2 H3 H4 H5.
  etransitivity; [| apply lor_ge_l]. etransitivity; [| apply lor_ge_l].
  pose proof (lor_ge_l (N.shiftl (N.land b0 7) 18) (N.shiftl (N.land b1 63) 12)) as Hl.
  pose proof (lor_ge_r (N.shiftl (N.land b0 7) 18) (N.shiftl (N.land b1 63) 12)) as Hr.
  rewrite land_7, land_63, !N.shiftl_mul_pow2 in *.
  change (2 ^ 18)%N with 262144%N in *. change (2 ^ 12)%N with 4096%N in *.
  assert (Hm : (b0 mod 8 = b0 - 240)%N)
    by (symmetry; apply (N.mod_unique b0 8 30); lia).
  assert (Hm1 : (b1 mod 64 = b1 - 128)%N)
    by (symmetry; apply (N.mod_unique b1 64 2); lia).
  rewrite Hm, Hm1 in *. lia.
Qed.

(** A byte from 0x80 on never starts a rune below 0x80. *)
Lemma decodeRune_high (c0 : ascii) (r0 : string) :
  (128 <= N_of_ascii c0)%N ->
  (128 <= fst (utf8.decodeRune (String c0 r0)))%N.
Proof.
  intros Hc. cbn [utf8.decodeRune].
  set (b0 := N_of_ascii c0) in *.
  destruct (N.ltb_spec b0 128) as [Hlt | _]; [lia |].
  unfold utf8.first.
  repeat match goal with
         | |- context [N.ltb ?x ?y] => destruct (N.ltb_spec x y)
         | |- context [N.leb ?x ?y] => destruct (N.leb_spec x y)
         | |- context [N.eqb ?x ?y] => destruct (N.eqb_spec x y)
         end.
  all: try (cbn [fst]; unfold utf8.RuneError; lia).
  all: destruct r0 as [| c1 r1]; [cbn [fst]; unfold utf8.RuneError; lia |].
  all: unfold utf8.isCont at 1.
  all: repeat match goal with
         | |- context [N.leb ?x ?y] => destruct (N.leb_spec x y)
         end.
  all: cbn [andb negb Nat.leb fst].
  all: try (unfold utf8.RuneError; lia).
  all: try (apply rune2_high; lia).
  all: destruct r1 as [| c2 r2]; [cbn [fst]; unfold utf8.RuneError; lia |].
  all: destruct (utf8.isCont (N_of_ascii c2) 128 191); cbn [negb fst].
  all: try (unfold utf8.RuneError; lia).
  all: try (apply rune3_high; lia).
  all: destruct r2 as [| c3 r3]; [cbn [fst]; unfold utf8.RuneError; lia |].
  all: destruct (utf8.isCont (N_of_ascii c3) 128 191); cbn [negb fst].
  all: try (unfold utf8.RuneError; lia).
  all: apply rune4_high; lia.
Qed.

Lemma chunks_cons_low (c : ascii) (rest : string) :
  (N_of_ascii c < 128)%N ->
  utf8.chunks (String c rest) = (N_of_ascii c, String c "") :: utf8.chunks rest.
Proof.
  intros Hc. cbn [utf8.chunks utf8.decodeRune].
  destruct (N.ltb_spec (N_of_ascii c) 128); [reflexivity | lia].
Qed.

Lemma chunks_cons_high (c : ascii) (rest : string) :
  (128 <= N_of_ascii c)%N ->
  exists r bytes more,
    utf8.chunks (String c rest) = (r, bytes) :: more /\ (128 <= r)%N.
Proof.
  intros Hc. pose proof (decodeRune_high c rest Hc) as Hr.
  cbn [utf8.chunks].
  destruct (snd (utf8.decodeRune (String c rest))) as [| [| [| [| [| k]]]]];
    try (do 3 eexists; split; [reflexivity | exact Hr]).
  - destruct rest as [| c1 r1];
      do 3 eexists; (split; [reflexivity |]); first [exact Hr | vm_compute; discriminate].
  - destruct rest as [| c1 [| c2 r2]];
      do 3 eexists; (split; [reflexivity |]); first [exact Hr | vm_compute; discriminate].
  - destruct rest as [| c1 [| c2 [| c3 r3]]];
      do 3 eexists; (split; [reflexivity |]); first [exact Hr | vm_compute; discriminate].
Qed.

Lemma isDigit_low (c : ascii) : isDigit c = true -> (N_of_ascii c < 128)%N.
Proof. unfold isDigit. intros Hc. apply andb_prop in Hc as [_ Hc]. apply N.leb_le in Hc. lia. Qed.

Lemma parse_digit (c : ascii) (rest : string) (acc : Z) :
  isDigit c = true ->
  parseInt64Loop (utf8.chunks (String c rest)) acc
  = parseInt64Loop (utf8.chunks rest)
      (wrapInt64 (wrapInt64 (acc * 10) + Z.of_N (N_of_ascii c - 48))).
Proof.
  intros Hc. rewrite (chunks_cons_low c rest (isDigit_low c Hc)).
  cbn [parseInt64Loop]. unfold isDigit in Hc. apply andb_prop in Hc as [H1 H2].
  apply N.leb_le in H1, H2.
  destruct (N.ltb_spec (N_of_ascii c) 48), (N.ltb_spec 57 (N_of_ascii c)); try lia.
  reflexivity.
Qed.

Lemma parse_other_low (c : ascii) (rest : string) (acc : Z) :
  isDigit c = false -> (N_of_ascii c < 128)%N ->
  parseInt64Loop (utf8.chunks (String c rest)) acc
  = Err ("invalid digit: " ++ String c "").
Proof.
  intros Hc Hlow. rewrite (chunks_cons_low c rest Hlow). cbn [parseInt64Loop].
  unfold isDigit in Hc.
  destruct (N.ltb_spec (N_of_ascii c) 48), (N.ltb_spec 57 (N_of_ascii c));
    cbn [orb];
    try (unfold utf8.EncodeRune;
         destruct (N.leb_spec (N_of_ascii c) 127); [| lia];
         now rewrite ascii_N_embedding).
  exfalso. apply andb_false_iff in Hc as [Hc | Hc]; apply N.leb_gt in Hc; lia.
Qed.

Lemma parse_other (c : ascii) (rest : string) (acc : Z) :
  isDigit c = false ->
  isOk (parseInt64Loop (utf8.chunks (String c rest)) acc) = false.
Proof.
  intros Hc. destruct (N.lt_ge_cases (N_of_ascii c) 128) as [Hlow | Hhigh].
  - now rewrite (parse_other_low c rest acc Hc Hlow).
  - destruct (chunks_cons_high c rest Hhigh) as (r & bytes & more & -> & Hr).
    cbn [parseInt64Loop].
    destruct (N.ltb_spec r 48), (N.ltb_spec 57 r); try lia; reflexivity.
Qed.

Lemma parseInt64Loop_digits (s : string) :
  forall a : Z,
    allOf isDigit s = true ->
    parseInt64Loop (utf8.chunks s) (wrapInt64 a) = Ok (wrapInt64 (decimalFrom a s)).
Proof.
  induction s as [| c s IH]; intros a Hs; [reflexivity |].
  cbn [allOf] in Hs. apply andb_prop in Hs as [Hc Hs].
  rewrite (parse_digit c s _ Hc), wrapInt64_step. cbn [decimalFrom]. now apply IH.
Qed.

Lemma parseInt64Loop_ok (s : string) :
  forall acc : Z,
    isOk (parseInt64Loop (utf8.chunks s) acc) = true -> allOf isDigit s = true.
Proof.
  induction s as [| c s IH]; intros acc Hok; [reflexivity |].
  cbn [allOf]. destruct (isDigit c) eqn:Hc.
  - rewrite (parse_digit c s _ Hc) in Hok. cbn [andb]. now apply IH in Hok.
  - now rewrite (parse_other c s acc Hc) in Hok.
Qed.

(** *** The text [%d] writes *)

Lemma uint_digits (d : Decimal.uint) : allOf isDigit (NilEmpty.string_of_uint d) = true.
Proof. induction d; cbn [NilEmpty.string_of_uint allOf]; try rewrite IHd; reflexivity. Qed.

Lemma decimalFrom_uint_acc (d : Decimal.uint) :
  forall acc : positive,
    decimalFrom (Z.pos acc) (NilEmpty.string_of_uint d) = Z.pos (Pos.of_uint_acc d acc).
Proof.
  induction d; intros acc; cbn [NilEmpty.string_of_uint decimalFrom Pos.of_uint_acc];
    [reflexivity | rewrite <- IHd; f_equal; vm_compute (Z.of_N _); lia ..].
Qed.

Lemma decimalFrom_uint (d : Decimal.uint) :
  decimalFrom 0 (NilEmpty.string_of_uint d) = Z.of_N (Pos.of_uint d).
Proof.
  induction d; cbn [NilEmpty.string_of_uint decimalFrom Pos.of_uint];
    [reflexivity | exact IHd | apply (decimalFrom_uint_acc d) ..].
Qed.

Lemma fmt_d_nonneg (n : Z) :
  (0 <= n)%Z ->
  allOf isDigit (Strs.fmt_d n) = true /\ decimalValue (Strs.fmt_d n) = n.
Proof.
  intros Hn. unfold Strs.fmt_d, decimalValue.
  destruct n as [| p | p]; [split; reflexivity | | lia].
  cbn [Z.to_int NilZero.string_of_int]. unfold NilZero.string_of_uint.
  pose proof (DecimalPos.Unsigned.to_uint_nonnil p) as Hnil.
  pose proof (DecimalPos.Unsigned.of_to p) as Hof.
  destruct (Pos.to_uint p); try congruence; cbv beta iota;
    (split; [apply uint_digits | now rewrite decimalFrom_uint, Hof]).
Qed.

Lemma digits_no_char (c : ascii) (s : string) :
  isDigit c = false -> allOf isDigit s = true -> Spec.hasChar c s = false.
Proof.
  intros Hc. induction s as [| x s IH]; [reflexivity |].
  cbn [allOf Spec.hasChar]. intros Hs. apply andb_prop in Hs as [Hx Hs].
  destruct (Ascii.eqb_spec x c) as [-> | _]; [congruence | now apply IH].
Qed.

Lemma parseInt64_fmt_d (n : Z) :
  (0 <= n < 2 ^ 63)%Z -> parseInt64 (Strs.fmt_d n) = Ok n.
Proof.
  intros Hn. destruct (fmt_d_nonneg n) as [Hd Hv]; [lia |].
  unfold parseInt64. change 0%Z with (wrapInt64 0).
  rewrite (parseInt64Loop_digits _ 0 Hd).
  fold (decimalValue (Strs.fmt_d n)). rewrite Hv.
  f_equal. apply wrapInt64_small. lia.
Qed.

End IntFacts.

(** X3. [parseInt64] reads back what [%d] wrote for every number from 0 up to
    the largest [int64]. *)
Theorem parseInt64_reads_back_decimal (n : Z) :
  (0 <= n < 2 ^ 63)%Z ->
  parseInt64 (Strs.fmt_d n) = Ok n.
Proof. exact (IntFacts.parseInt64_fmt_d n). Qed.

Lemma parseInt64_reads_back_decimal_witness :
  (0 <= 1700086400 < 2 ^ 63)%Z
  /\ parseInt64 (Strs.fmt_d 1700086400) = Ok 1700086400%Z.
Proof.
  split; [lia |]. apply (parseInt64_reads_back_decimal 1700086400). lia.
Defined.

(** X4. [parseInt64] accepts exactly the strings of decimal digits, the empty
    string among them, and never reports an overflow: the number read is
    reduced to the range of [int64].  A sign is turned down. *)
Theorem parseInt64_accepts_digits_and_wraps (s : string) :
  (isOk (parseInt64 s) = true <-> Text.allOf Text.isDigit s = true)
  /\ (Text.allOf Text.isDigit s = true ->
      parseInt64 s = Ok (wrapInt64 (Text.decimalValue s)))
  /\ parseInt64 (String "-" s) = Err "invalid digit: -"
  /\ parseInt64 "" = Ok 0%Z
  /\ parseInt64 "9223372036854775808" = Ok (- 9223372036854775808)%Z.
Proof.
  assert (Hd : Text.allOf Text.isDigit s = true ->
               parseInt64 s = Ok (wrapInt64 (Text.decimalValue s))).
  { intros Hs. unfold parseInt64. change 0%Z with (wrapInt64 0).
    now rewrite (IntFacts.parseInt64Loop_digits _ 0 Hs). }
  split; [split |].
  - apply IntFacts.parseInt64Loop_ok.
  - intros Hs. now rewrite (Hd Hs).
  - split; [exact Hd |]. split; [| split; reflexivity].
    unfold parseInt64. now rewrite IntFacts.parse_other_low.
Qed.

(** ** More about the file tree *)

Module StoreFacts.
Import os Spec State TreeFacts PathFacts IOFacts.

Local Abbreviation fileOf r := (match r with inr c => Some c | inl _ => None end).

Lemma walk_cons (c : string) (q : path) (m : gmap string node) :
  walk (c :: q) (Dir m)
  = match m !! c with None => inl ENOENT | Some n => walk q n end.
Proof. reflexivity. Qed.

Lemma ReadFile_cons (c : string) (q : path) (m : gmap string node) (n : node) :
  m !! c = Some n -> ReadFile (c :: q) (Dir m) = ReadFile q n.
Proof. intros Hc. unfold ReadFile. now rewrite walk_cons, Hc. Qed.

Lemma ReadFile_below_file (q : path) (data : string) :
  q <> [] -> ReadFile q (File data) = inl ENOTDIR.
Proof. destruct q; [congruence | reflexivity]. Qed.

(** [MkdirAll] leaves every directory a directory. *)
Lemma MkdirAll_keeps_dirs (p : path) :
  forall (t t' : node) (q : path) (m : gmap string node),
    MkdirAll p t = inr t' ->
    walk q t = inr (Dir m) ->
    exists m', walk q t' = inr (Dir m').
Proof.
  induction p as [| c p IH]; intros t t' q m Hmk Hq.
  - destruct t; simpl in Hmk; [discriminate |]. injection Hmk as <-. eauto.
  - destruct t as [| mm]; simpl in Hmk; [discriminate |].
    destruct (MkdirAll p (default (Dir ∅) (mm !! c))) as [e | n'] eqn:E; [discriminate |].
    injection Hmk as <-.
    destruct q as [| c' q]; [simpl; eauto |].
    rewrite walk_cons in Hq. rewrite walk_cons.
    destruct (decide (c' = c)) as [-> | Hne].
    + rewrite lookup_insert_eq.
      destruct (mm !! c) as [n0 |] eqn:E0; [| discriminate].
      simpl in E. exact (IH _ _ _ _ E Hq).
    + rewrite lookup_insert_ne by congruence.
      destruct (mm !! c'); [eauto | discriminate].
Qed.

(** [WriteFile] leaves every directory a directory. *)
Lemma WriteFile_keeps_dirs (p : path) (data : string) :
  forall (t t' : node) (q : path) (m : gmap string node),
    WriteFile p data t = inr t' ->
    walk q t = inr (Dir m) ->
    exists m', walk q t' = inr (Dir m').
Proof.
  induction p as [| c p IH]; intros t t' q m Hwr Hq.
  - destruct t; simpl in Hwr; [| discriminate].
    destruct q; simpl in Hq; discriminate.
  - destruct t as [| mm]; simpl in Hwr; [discriminate |].
    destruct q as [| c' q]; [destruct (mm !! c) as [n' |];
      [destruct (WriteFile p data n'); [discriminate |] | destruct p; [| discriminate]];
      injection Hwr as <-; simpl; eauto |].
    rewrite walk_cons in Hq.
    destruct (decide (c' = c)) as [-> | Hne].
    + destruct (mm !! c) as [n' |] eqn:E0; [| discriminate].
      destruct (WriteFile p data n') as [e | n''] eqn:E; [discriminate |].
      injection Hwr as <-. rewrite walk_cons, lookup_insert_eq.
      exact (IH _ _ _ _ E Hq).
    + assert (Ht' : exists n1, t' = Dir (<[c := n1]> mm)).
      { destruct (mm !! c) as [n' |];
          [destruct (WriteFile p data n'); [discriminate |] | destruct p; [| discriminate]];
          injection Hwr as <-; eauto. }
      destruct Ht' as (n1 & ->). rewrite walk_cons, lookup_insert_ne by congruence.
      destruct (mm !! c'); [eauto | discriminate].
Qed.

(** [WriteFile] leaves in place whatever a path named before. *)
Lemma WriteFile_keeps_nodes (p : path) (data : string) :
  forall (t t' : node) (q : path) (n : node),
    WriteFile p data t = inr t' ->
    walk q t = inr n ->
    exists n', walk q t' = inr n'.
Proof.
  induction p as [| c p IH]; intros t t' q n Hwr Hq.
  - destruct t; simpl in Hwr; [| discriminate]. injection Hwr as <-.
    destruct q; simpl in Hq; [simpl; eauto | discriminate].
  - destruct t as [| mm]; simpl in Hwr; [discriminate |].
    assert (Ht' : exists n1, t' = Dir (<[c := n1]> mm) /\
                  forall n0, mm !! c = Some n0 -> WriteFile p data n0 = inr n1).
    { destruct (mm !! c) as [n' |];
        [destruct (WriteFile p data n') eqn:E; [discriminate |]
        | destruct p; [| discriminate]];
        injection Hwr as <-; eexists; (split; [reflexivity |]); intros nx Hnx;
        congruence. }
    destruct Ht' as (n1 & -> & Hn1).
    destruct q as [| c' q]; [simpl; eauto |].
    rewrite walk_cons in Hq. rewrite walk_cons.
    destruct (decide (c' = c)) as [-> | Hne].
    + rewrite lookup_insert_eq.
      destruct (mm !! c) as [n0 |] eqn:E0; [| discriminate].
      exact (IH _ _ _ _ (Hn1 n0 eq_refl) Hq).
    + rewrite lookup_insert_ne by congruence.
      destruct (mm !! c'); [eauto | discriminate].
Qed.

(** [WriteFile] changes the bytes of no other file. *)
Lemma WriteFile_other_files (p : path) (data : string) :
  forall (t t' : node) (q : path),
    WriteFile p data t = inr t' ->
    q <> p ->
    fileOf (ReadFile q t') = fileOf (ReadFile q t).
Proof.
  induction p as [| c p IH]; intros t t' q Hwr Hne.
  - destruct t; simpl in Hwr; [| discriminate]. injection Hwr as <-.
    now rewrite !ReadFile_below_file.
  - destruct t as [| mm]; simpl in Hwr; [discriminate |].
    destruct q as [| c' q].
    { destruct (mm !! c) as [n' |];
        [destruct (WriteFile p data n'); [discriminate |] | destruct p; [| discriminate]];
        injection Hwr as <-; reflexivity. }
    destruct (mm !! c) as [n' |] eqn:E0.
    + destruct (WriteFile p data n') as [e | n''] eqn:E; [discriminate |].
      injection Hwr as <-.
      destruct (decide (c' = c)) as [-> | Hc].
      * rewrite (ReadFile_cons c q _ n'') by apply lookup_insert_eq.
        rewrite (ReadFile_cons c q _ n' E0).
        apply (IH _ _ _ E). congruence.
      * unfold ReadFile. rewrite !walk_cons, lookup_insert_ne by congruence. reflexivity.
    + destruct p; [| discriminate]. injection Hwr as <-.
      destruct (decide (c' = c)) as [-> | Hc].
      * rewrite (ReadFile_cons c q _ (File data)) by apply lookup_insert_eq.
        rewrite ReadFile_below_file by congruence.
        unfold ReadFile. now rewrite walk_cons, E0.
      * unfold ReadFile. rewrite !walk_cons, lookup_insert_ne by congruence. reflexivity.
Qed.

(** [WriteFile] makes no directory. *)
Lemma WriteFile_no_new_dirs (p : path) (data : string) :
  forall (t t' : node) (q : path) (m' : gmap string node),
    WriteFile p data t = inr t' ->
    walk q t' = inr (Dir m') ->
    exists m, walk q t = inr (Dir m).
Proof.
  induction p as [| c p IH]; intros t t' q m' Hwr Hq.
  - destruct t; simpl in Hwr; [| discriminate]. injection Hwr as <-.
    destruct q; simpl in Hq; discriminate.
  - destruct t as [| mm]; simpl in Hwr; [discriminate |].
    destruct q as [| c' q]; [simpl; eauto |].
    rewrite walk_cons.
    destruct (mm !! c) as [n' |] eqn:E0.
    + destruct (WriteFile p data n') as [e | n''] eqn:E; [discriminate |].
      injection Hwr as <-. rewrite walk_cons in Hq.
      destruct (decide (c' = c)) as [-> | Hne].
      * rewrite lookup_insert_eq in Hq. rewrite E0. exact (IH _ _ _ _ E Hq).
      * rewrite lookup_insert_ne in Hq by congruence.
        destruct (mm !! c'); [eauto | discriminate].
    + destruct p; [| discriminate]. injection Hwr as <-. rewrite walk_cons in Hq.
      destruct (decide (c' = c)) as [-> | Hne].
      * rewrite lookup_insert_eq in Hq. destruct q; simpl in Hq; discriminate.
      * rewrite lookup_insert_ne in Hq by congruence.
        destruct (mm !! c'); [eauto | discriminate].
Qed.

(** [WriteFile] succeeds on an entry of a directory that is no directory
    itself. *)
Lemma WriteFile_entry (p : path) (c data : string) :
  forall (t : node) (m : gmap string node),
    walk p t = inr (Dir m) ->
    (forall sub, m !! c <> Some (Dir sub)) ->
    exists t', WriteFile (p ++ [c])%list data t = inr t'.
Proof.
  induction p as [| c0 p IH]; intros t m Hp Hc.
  - simpl in Hp. injection Hp as ->. simpl.
    destruct (m !! c) as [[d | sub] |] eqn:E; eauto.
    now destruct (Hc sub).
  - destruct t as [| mm]; [discriminate |]. rewrite walk_cons in Hp.
    destruct (mm !! c0) as [n0 |] eqn:E0; [| discriminate].
    destruct (IH _ _ Hp Hc) as (t' & Ht').
    cbn [app WriteFile]. rewrite E0, Ht'. eauto.
Qed.

(** After [Remove] the path names nothing. *)
Lemma Remove_gone (p : path) :
  forall (t t' : node), Remove p t = inr t' -> walk p t' = inl ENOENT.
Proof.
  induction p as [| c p IH]; intros t t' Hrm; [discriminate |].
  destruct t as [| mm]; simpl in Hrm; [discriminate |].
  destruct (mm !! c) as [n' |] eqn:E0; [| discriminate].
  destruct p as [| c2 p].
  - assert (t' = Dir (delete c mm)) as ->.
    { destruct n' as [| sub]; [congruence |].
      destruct (decide (sub = ∅)); congruence. }
    now rewrite walk_cons, lookup_delete_eq.
  - destruct (Remove (c2 :: p) n') as [e | n''] eqn:E; [discriminate |].
    injection Hrm as <-. rewrite walk_cons, lookup_insert_eq. exact (IH _ _ E).
Qed.

(** [Remove] succeeds only on a path that names something. *)
Lemma Remove_needs_node (p : path) :
  forall (t t' : node), Remove p t = inr t' -> exists n, walk p t = inr n.
Proof.
  induction p as [| c p IH]; intros t t' Hrm; [discriminate |].
  destruct t as [| mm]; simpl in Hrm; [discriminate |].
  rewrite walk_cons.
  destruct (mm !! c) as [n' |] eqn:E0; [| discriminate].
  destruct p as [| c2 p]; [simpl; eauto |].
  destruct (Remove (c2 :: p) n') as [e | n''] eqn:E; [discriminate |].
  exact (IH _ _ E).
Qed.

(** [Remove] leaves every other directory a directory. *)
Lemma Remove_keeps_dirs (p : path) :
  forall (t t' : node) (q : path) (m : gmap string node),
    Remove p t = inr t' ->
    walk q t = inr (Dir m) ->
    q <> p ->
    exists m', walk q t' = inr (Dir m').
Proof.
  induction p as [| c p IH]; intros t t' q m Hrm Hq Hne; [discriminate |].
  destruct t as [| mm]; simpl in Hrm; [discriminate |].
  destruct (mm !! c) as [n' |] eqn:E0; [| discriminate].
  destruct p as [| c2 p].
  - assert (t' = Dir (delete c mm) /\ forall q', q' <> [] -> walk q' n' <> inr (Dir m))
      as [-> Hn'].
    { destruct n' as [| sub].
      - split; [congruence |]. intros [| ? ?] Hq'; [congruence | discriminate].
      - destruct (decide (sub = ∅)) as [-> |]; [| discriminate].
        split; [congruence |]. intros q' Hq'. now rewrite walk_empty_dir. }
    destruct q as [| c' q]; [simpl; eauto |].
    rewrite walk_cons in Hq. rewrite walk_cons.
    destruct (decide (c' = c)) as [-> | Hc].
    + rewrite E0 in Hq. exfalso. apply (Hn' q); [congruence | exact Hq].
    + rewrite lookup_delete_ne by congruence.
      destruct (mm !! c'); [eauto | discriminate].
  - destruct (Remove (c2 :: p) n') as [e | n''] eqn:E; [discriminate |].
    injection Hrm as <-.
    destruct q as [| c' q]; [simpl; eauto |].
    rewrite walk_cons in Hq. rewrite walk_cons.
    destruct (decide (c' = c)) as [-> | Hc].
    + rewrite lookup_insert_eq. rewrite E0 in Hq.
      apply (IH _ _ _ _ E Hq). congruence.
    + rewrite lookup_insert_ne by congruence.
      destruct (mm !! c'); [eauto | discriminate].
Qed.

(** [Remove] changes the bytes of no other file. *)
Lemma Remove_other_files (p : path) :
  forall (t t' : node) (q : path),
    Remove p t = inr t' ->
    q <> p ->
    fileOf (ReadFile q t') = fileOf (ReadFile q t).
Proof.
  induction p as [| c p IH]; intros t t' q Hrm Hne; [discriminate |].
  destruct t as [| mm]; simpl in Hrm; [discriminate |].
  destruct (mm !! c) as [n' |] eqn:E0; [| discriminate].
  destruct q as [| c' q].
  { assert (exists m', t' = Dir m') as (m' & ->).
    { destruct p; [destruct n' as [| sub]; [| destruct (decide (sub = ∅))] |
                   destruct (Remove _ n')]; try discriminate;
        injection Hrm as <-; eauto. }
    reflexivity. }
  destruct p as [| c2 p].
  - assert (t' = Dir (delete c mm) /\ forall q', q' <> [] -> fileOf (ReadFile q' n') = None)
      as [-> Hn'].
    { destruct n' as [| sub].
      - split; [congruence |]. intros q' Hq'. now rewrite ReadFile_below_file.
      - destruct (decide (sub = ∅)) as [-> |]; [| discriminate].
        split; [congruence |]. intros q' Hq'. unfold ReadFile.
        now rewrite walk_empty_dir. }
    destruct (decide (c' = c)) as [-> | Hc].
    + rewrite (ReadFile_cons c q _ n' E0), Hn' by congruence.
      unfold ReadFile. now rewrite walk_cons, lookup_delete_eq.
    + unfold ReadFile. rewrite !walk_cons, lookup_delete_ne by congruence. reflexivity.
  - destruct (Remove (c2 :: p) n') as [e | n''] eqn:E; [discriminate |].
    injection Hrm as <-.
    destruct (decide (c' = c)) as [-> | Hc].
    + rewrite (ReadFile_cons c q _ n'') by apply lookup_insert_eq.
      rewrite (ReadFile_cons c q _ n' E0). apply (IH _ _ _ E). congruence.
    + unfold ReadFile. rewrite !walk_cons, lookup_insert_ne by congruence. reflexivity.
Qed.

End StoreFacts.

(** ** What the store keeps *)

Module KeepFacts.
Import os Spec State TreeFacts PathFacts IOFacts RemoveFacts StoreFacts.

Lemma append_colon (a b : string) : a ++ ":" ++ b = a ++ String ":" b.
Proof. reflexivity. Qed.

Lemma cut_colon (a b : string) :
  hasChar ":" a = false -> Strs.cut ":" (a ++ String ":" b) = Some (a, b).
Proof.
  induction a as [| c a IH]; intros Ha; [reflexivity |].
  cbn [hasChar] in Ha. apply orb_false_iff in Ha as [Hc Ha].
  change (String c a ++ String ":" b) with (String c (a ++ String ":" b)).
  cbn [Strs.cut]. now rewrite Hc, (IH Ha).
Qed.

Lemma Split_colon (a rest : string) :
  hasChar ":" a = false ->
  Strs.Split ":" (a ++ String ":" rest) = a :: Strs.Split ":" rest.
Proof.
  induction a as [| c a IH]; intros Ha; [reflexivity |].
  cbn [hasChar] in Ha. apply orb_false_iff in Ha as [Hc Ha].
  change (String c a ++ String ":" rest) with (String c (a ++ String ":" rest)).
  cbn [Strs.Split]. now rewrite Hc, (IH Ha).
Qed.

Lemma hexDigits_encodeHex (data : list byte) :
  Text.allOf Text.isHexDigit (Hex.encodeHex data) = true.
Proof.
  pose proof (HexFacts.decodePairs_encodeHex data) as Hd.
  now apply HexFacts.decodePairs_ok in Hd.
Qed.

Lemma allOf_no_char (f : ascii -> bool) (c : ascii) (s : string) :
  f c = false -> Text.allOf f s = true -> hasChar c s = false.
Proof.
  intros Hc. induction s as [| x s IH]; [reflexivity |].
  cbn [Text.allOf hasChar]. intros Hs. apply andb_prop in Hs as [Hx Hs].
  destruct (Ascii.eqb_spec x c) as [-> | _]; [congruence | now apply IH].
Qed.

Lemma hex_no_colon (data : list byte) : hasChar ":" (Hex.encodeHex data) = false.
Proof. apply (allOf_no_char Text.isHexDigit); [reflexivity | apply hexDigits_encodeHex]. Qed.

Lemma fmt_d_no_colon (n : Z) : (0 <= n)%Z -> hasChar ":" (Strs.fmt_d n) = false.
Proof.
  intros Hn. apply (allOf_no_char Text.isDigit); [reflexivity |].
  now apply IntFacts.fmt_d_nonneg.
Qed.

(** The text of a key file parses back to the key. *)
Lemma parseEncryptedKey_content (encKey : EncryptedKey) :
  parseEncryptedKey (Hex.encodeHex (Salt encKey) ++ ":" ++ Hex.encodeHex (EncryptedNsec encKey))
  = Ok encKey.
Proof.
  unfold parseEncryptedKey, Strs.SplitN2.
  rewrite append_colon, cut_colon by apply hex_no_colon.
  rewrite !HexFacts.decodeHex_encodeHex. now destruct encKey.
Qed.

(** The text of a trust-session file parses back to the session, its
    times cut to whole seconds. *)
Lemma parseAccountTrustSession_content (session : TrustSession) :
  hasChar ":" (SessionToken session) = false ->
  (0 <= time.Unix (ExpiresAt session) < 2 ^ 63)%Z ->
  (0 <= time.Unix (CreatedAt session) < 2 ^ 63)%Z ->
  parseAccountTrustSession (trustSessionContent session)
  = Ok {| SessionToken := SessionToken session;
          ExpiresAt := time.Unix0 (time.Unix (ExpiresAt session));
          CreatedAt := time.Unix0 (time.Unix (CreatedAt session));
          SessionNsec := SessionNsec session |}.
Proof.
  intros Ht He Hc. unfold parseAccountTrustSession, trustSessionContent. cbv zeta.
  rewrite !append_colon.
  rewrite (Split_colon _ _ Ht).
  rewrite Split_colon by (apply fmt_d_no_colon; lia).
  rewrite Split_colon by (apply fmt_d_no_colon; lia).
  rewrite (Split_plain _ _ (hex_no_colon _)).
  rewrite !IntFacts.parseInt64_fmt_d by assumption.
  now rewrite HexFacts.decodeHex_encodeHex.
Qed.

(** *** Running the path functions *)

Lemma quiet_homeDir {A} (c : IO A) (w : World) :
  quiet c -> homeDir (snd (c w)) = homeDir w.
Proof. intros Hc. now destruct (Hc w) as (Hh & _). Qed.

Lemma getStorageDir_present (w : World) (h : path) (m : gmap string node) :
  homeDir w = Some h ->
  walk (storagePath h) (root w) = inr (Dir m) ->
  getStorageDir w = (Ok (storagePath h), w).
Proof.
  intros Hh Hm. rewrite getStorageDir_run, Hh, (MkdirAll_exists _ _ _ Hm).
  now rewrite setRoot_same.
Qed.

Lemma getStorageDir_made (w w' : World) (p : path) :
  getStorageDir w = (Ok p, w') ->
  exists h m, homeDir w = Some h /\ homeDir w' = Some h /\ p = storagePath h /\
              walk (storagePath h) (root w') = inr (Dir m).
Proof.
  intros Hrun. pose proof (quiet_homeDir _ w quiet_getStorageDir) as Hq.
  rewrite Hrun in Hq. simpl in Hq.
  apply getStorageDir_ok in Hrun as (h & Hh & -> & Hmk).
  exists h. eexists. split; [exact Hh |]. split; [congruence |]. split; [reflexivity |].
  apply (MkdirAll_walk_self _ _ _ Hmk).
Qed.

Lemma getActiveAccountFilePath_present (w : World) (h : path) (m : gmap string node) :
  homeDir w = Some h ->
  walk (storagePath h) (root w) = inr (Dir m) ->
  getActiveAccountFilePath w = (Ok (activePath h), w).
Proof.
  intros Hh Hm. unfold getActiveAccountFilePath, bind, ret.
  now rewrite (getStorageDir_present w h m Hh Hm), Join_active.
Qed.

Lemma getAccountDir_any (w : World) (h : path) (x : string) :
  settled w h ->
  getAccountDir x w = (Ok (Join (accountsPath h) (sanitizeNpubForPath x)), w).
Proof.
  intros Hs. unfold getAccountDir, bind, ret.
  now rewrite (getAccountsDir_settled w h Hs).
Qed.

Lemma getAccountDir_made (x : string) (w w' : World) (p : path) :
  getAccountDir x w = (Ok p, w') ->
  exists h, homeDir w = Some h /\ settled w' h /\
            p = Join (accountsPath h) (sanitizeNpubForPath x).
Proof.
  intros Hrun. pose proof (quiet_homeDir _ w (quiet_getAccountDir x)) as Hq.
  rewrite Hrun in Hq. simpl in Hq.
  apply getAccountDir_ok in Hrun as (h & Hh & -> & Hm).
  exists h. split; [exact Hh |]. split; [| reflexivity].
  split; [congruence | exact Hm].
Qed.

(** A world that differs from a settled one by a tree in which the
    directories are still directories is settled. *)
Lemma settled_keeps (w : World) (h : path) (r : node) :
  settled w h ->
  (forall m, walk (accountsPath h) (root w) = inr (Dir m) ->
             exists m', walk (accountsPath h) r = inr (Dir m')) ->
  settled (setRoot w r) h.
Proof.
  intros (Hh & m & Hm) Hkeep. split; [exact Hh |]. exact (Hkeep _ Hm).
Qed.

Lemma root_setRoot (w : World) (r : node) : root (setRoot w r) = r.
Proof. reflexivity. Qed.

(** Runs the reads of a file that is known to be there. *)
Ltac read_file H :=
  unfold sys.Stat, sys.ReadFile, sys.query, Stat, ReadFile;
  repeat (progress (rewrite ?root_setRoot, ?H; cbv beta zeta; cbn [IsNotExist])).

Lemma fileAt_setRoot (q : path) (w : World) (r : node) :
  fileAt q (setRoot w r) = match ReadFile q r with inr c => Some c | inl _ => None end.
Proof. reflexivity. Qed.

Lemma last_differs (d e : path) (a b : string) :
  a <> b -> (d ++ [a])%list <> (e ++ [b])%list.
Proof. intros Hab Heq. apply app_inj_tail in Heq as [_ Heq]. congruence. Qed.

End KeepFacts.

Section StoreRoundTrips.
Import os Spec State TreeFacts PathFacts IOFacts RemoveFacts StoreFacts KeepFacts.

Lemma saveActiveAccount_then_load (npub : string) (w w' : World) :
  saveActiveAccount npub w = (Ok tt, w') ->
  loadActiveAccount w' = (Ok (Strs.TrimSpace npub), w').
Proof.
  unfold saveActiveAccount, getActiveAccountFilePath, bind, ret.
  destruct (getStorageDir w) as [[p | e] w1] eqn:E1; [| discriminate].
  apply getStorageDir_made in E1 as (h & m & Hh & Hh1 & -> & Hm).
  rewrite Join_active. unfold sys.WriteFile, sys.update.
  destruct (WriteFile (activePath h) npub (root w1)) as [e | r] eqn:E2; [discriminate |].
  intros Heq. injection Heq as <-.
  destruct (WriteFile_keeps_dirs _ _ _ _ _ _ E2 Hm) as (m' & Hm').
  unfold loadActiveAccount, bind, ret.
  rewrite (getActiveAccountFilePath_present (setRoot w1 r) h m' Hh1 Hm').
  read_file (WriteFile_walk_self _ _ _ _ E2). reflexivity.
Qed.

Lemma saveAccountEncryptedKey_then_load (npub : string) (encKey : EncryptedKey)
  (w w' : World) :
  saveAccountEncryptedKey npub encKey w = (Ok tt, w') ->
  loadAccountEncryptedKey npub w' = (Ok encKey, w')
  /\ accountExists npub w' = (true, w').
Proof.
  unfold saveAccountEncryptedKey, bind, ret.
  destruct (getAccountDir npub w) as [[p | e] w1] eqn:E1; [| discriminate].
  apply getAccountDir_made in E1 as (h & Hh & Hs1 & ->).
  unfold sys.MkdirAll, sys.WriteFile, sys.update.
  destruct (MkdirAll _ (root w1)) as [e | r2] eqn:E2; [discriminate |].
  cbn [root setRoot].
  destruct (WriteFile _ _ r2) as [e | r3] eqn:E3; [discriminate |].
  intros Heq. injection Heq as <-.
  assert (Hs3 : settled (setRoot (setRoot w1 r2) r3) h).
  { apply settled_keeps; [apply settled_keeps; [exact Hs1 |] |].
    - intros m. apply (MkdirAll_keeps_dirs _ _ _ _ _ E2).
    - intros m. apply (WriteFile_keeps_dirs _ _ _ _ _ _ E3). }
  pose proof (WriteFile_walk_self _ _ _ _ E3) as Hfile.
  split.
  - unfold loadAccountEncryptedKey, getAccountKeyFilePath, bind, ret.
    rewrite (getAccountDir_any _ h npub Hs3).
    read_file Hfile. now rewrite parseEncryptedKey_content.
  - unfold accountExists, bind, ret.
    rewrite (getAccountDir_any _ h npub Hs3).
    read_file Hfile. reflexivity.
Qed.

Lemma saveAccountTrustSession_then_load (npub : string) (session : TrustSession)
  (w w' : World) :
  hasChar ":" (SessionToken session) = false ->
  (0 <= time.Unix (ExpiresAt session) < 2 ^ 63)%Z ->
  (0 <= time.Unix (CreatedAt session) < 2 ^ 63)%Z ->
  saveAccountTrustSession npub session w = (Ok tt, w') ->
  loadAccountTrustSession npub w'
  = (Ok {| SessionToken := SessionToken session;
           ExpiresAt := time.Unix0 (time.Unix (ExpiresAt session));
           CreatedAt := time.Unix0 (time.Unix (CreatedAt session));
           SessionNsec := SessionNsec session |}, w').
Proof.
  intros Ht He Hc.
  unfold saveAccountTrustSession, getAccountTrustSessionFilePath, bind, ret.
  destruct (getAccountDir npub w) as [[p | e] w1] eqn:E1; [| discriminate].
  apply getAccountDir_made in E1 as (h & Hh & Hs1 & ->).
  unfold sys.WriteFile, sys.update.
  destruct (WriteFile _ _ (root w1)) as [e | r] eqn:E2; [discriminate |].
  intros Heq. injection Heq as <-.
  assert (Hs : settled (setRoot w1 r) h).
  { apply settled_keeps; [exact Hs1 |].
    intros m. apply (WriteFile_keeps_dirs _ _ _ _ _ _ E2). }
  unfold loadAccountTrustSession, getAccountTrustSessionFilePath, bind, ret.
  rewrite (getAccountDir_any _ h npub Hs).
  read_file (WriteFile_walk_self _ _ _ _ E2).
  now rewrite parseAccountTrustSession_content.
Qed.

Lemma clearAccountTrustSession_ok (npub : string) (w w' : World) :
  clearAccountTrustSession npub w = (Ok tt, w') ->
  exists h,
    homeDir w = Some h /\
    loadAccountTrustSession npub w'
    = (Err ("no trust session for account: " ++ npub), w') /\
    (forall q,
       q <> Join (Join (accountsPath h) (sanitizeNpubForPath npub)) "trust_session" ->
       fileAt q w' = fileAt q w).
Proof.
  unfold clearAccountTrustSession, getAccountTrustSessionFilePath, bind, ret.
  pose proof (quiet_getAccountDir npub w) as Hquiet.
  destruct (getAccountDir npub w) as [[p | e] w1] eqn:E1; [| discriminate].
  simpl in Hquiet. destruct Hquiet as (_ & _ & Hfiles).
  apply getAccountDir_made in E1 as (h & Hh & Hs1 & ->).
  set (p := Join (Join (accountsPath h) (sanitizeNpubForPath npub)) "trust_session").
  assert (Hp : p <> accountsPath h).
  { unfold p. rewrite Join_sessionFile. unfold accountsPath.
    apply last_differs. discriminate. }
  assert (Hload : forall w2, settled w2 h -> walk p (root w2) = inl ENOENT ->
            loadAccountTrustSession npub w2
            = (Err ("no trust session for account: " ++ npub), w2)).
  { intros w2 Hs2 Hgone.
    unfold loadAccountTrustSession, getAccountTrustSessionFilePath, bind, ret.
    rewrite (getAccountDir_any _ h npub Hs2). fold p.
    unfold sys.Stat, sys.query, Stat. now rewrite Hgone. }
  unfold sys.Stat, sys.Remove, sys.query, sys.update, Stat.
  destruct (walk p (root w1)) as [e | n] eqn:E2.
  - destruct (IsNotExist e) eqn:Ee.
    + destruct e; try discriminate.
      intros Heq. injection Heq as <-. exists h. split; [exact Hh |].
      split; [now apply Hload |]. intros q _. apply Hfiles.
    + destruct (Remove p (root w1)) as [e' | r] eqn:E3; [discriminate |].
      apply Remove_needs_node in E3 as (n & Hn). congruence.
  - destruct (Remove p (root w1)) as [e | r] eqn:E3; [discriminate |].
    intros Heq. injection Heq as <-. exists h. split; [exact Hh |]. split.
    + apply Hload.
      * apply settled_keeps; [exact Hs1 |]. intros m Hq.
        apply (Remove_keeps_dirs _ _ _ _ _ E3 Hq). congruence.
      * apply (Remove_gone _ _ _ E3).
    + intros q Hq. rewrite fileAt_setRoot, (Remove_other_files _ _ _ _ E3 Hq).
      apply Hfiles.
Qed.

End StoreRoundTrips.

(** ** Trust sessions *)

Module TrustFacts.
Import Spec State SessionFacts KeepFacts.

Lemma decrypt_created (rnd : Entropy) (now : Time) (nsec : string)
  (session : TrustSession) :
  createTrustSession rnd now nsec = Ok session ->
  decryptTrustSessionNsec session = Some (Ok nsec).
Proof.
  intros Hc.
  destruct (createTrustSession_ok _ _ _ _ Hc) as (token & Hlen & Ht & _ & _ & Hn).
  unfold decryptTrustSessionNsec.
  change (Hex.encodeHex token) with (Hex.EncodeToString token) in Ht.
  rewrite Ht, HexFacts.DecodeString_EncodeToString, Hlen. cbn [Nat.ltb Nat.leb].
  rewrite firstn_all2 by lia. rewrite Hn, xorLoop_twice.
  now rewrite string_of_list_byte_of_string.
Qed.

(** Only the token and the ciphertext enter the decryption. *)
Lemma decrypt_same_token (s1 s2 : TrustSession) :
  SessionToken s1 = SessionToken s2 -> SessionNsec s1 = SessionNsec s2 ->
  decryptTrustSessionNsec s1 = decryptTrustSessionNsec s2.
Proof. intros Ht Hn. unfold decryptTrustSessionNsec. now rewrite Ht, Hn. Qed.

Lemma created_token_plain (rnd : Entropy) (now : Time) (nsec : string)
  (session : TrustSession) :
  createTrustSession rnd now nsec = Ok session ->
  hasChar ":" (SessionToken session) = false.
Proof.
  intros Hc.
  destruct (createTrustSession_ok _ _ _ _ Hc) as (token & _ & -> & _).
  apply hex_no_colon.
Qed.

Lemma instant_Add (t : Time) (d : Z) :
  normal t -> instant (time.Add t d) = (instant t + d)%Z.
Proof.
  unfold normal, instant, time.Add. intros Hn. cbn [wallSec wallNsec].
  pose proof (Z.div_mod (wallNsec t + d) 1000000000 ltac:(lia)). lia.
Qed.

Lemma normal_Add (t : Time) (d : Z) : normal (time.Add t d).
Proof.
  unfold normal, time.Add. cbn [wallNsec]. apply Z.mod_pos_bound. lia.
Qed.

End TrustFacts.

(** X5. [decryptTrustSessionNsec] gives back the nsec a session was created
    for. *)
Theorem trust_session_decrypts_to_nsec (rnd : Entropy) (now : Time) (nsec : string)
  (session : TrustSession) :
  createTrustSession rnd now nsec = Ok session ->
  decryptTrustSessionNsec session = Some (Ok nsec).
Proof. apply TrustFacts.decrypt_created. Qed.

(** X6. A session is valid for 24 hours from its creation and no longer: by
    the monotonic clock when both instants carry a reading of it, by the
    wall clock otherwise. *)
Theorem trust_session_lasts_24_hours (rnd : Entropy) (now t : Time) (nsec : string)
  (session : TrustSession) :
  Spec.normal now -> Spec.normal t ->
  createTrustSession rnd now nsec = Ok session ->
  (forall m k, mono now = Some m -> mono t = Some k ->
     (isTrustSessionValid t session = true <-> (k < m + 86400 * 1000000000)%Z))
  /\ (mono now = None \/ mono t = None ->
      (isTrustSessionValid t session = true
       <-> (Spec.instant t < Spec.instant now + 86400 * 1000000000)%Z)).
Proof.
  intros Hn Ht Hc.
  destruct (SessionFacts.createTrustSession_ok _ _ _ _ Hc) as (_ & _ & _ & He & _).
  unfold isTrustSessionValid. rewrite He.
  pose proof (Before_iff t (time.Add now (24 * time.Hour)) Ht
                (TrustFacts.normal_Add _ _)) as Hb.
  unfold Spec.strictlyBefore in Hb.
  rewrite (TrustFacts.instant_Add now _ Hn) in Hb.
  change (24 * time.Hour)%Z with (86400 * 1000000000)%Z in *.
  split.
  - intros m k Hm Hk. rewrite Hb. cbn [time.Add mono]. now rewrite Hm, Hk.
  - intros Hnone. rewrite Hb. cbn [time.Add mono].
    destruct Hnone as [-> | ->]; [now destruct (mono t) | reflexivity].
Qed.

(** ** The account handlers *)

Module HandlerFacts.
Import os Spec State TreeFacts PathFacts IOFacts RemoveFacts StoreFacts KeepFacts.

Lemma fileAt_walk (q : path) (w : World) (c : string) :
  fileAt q w = Some c -> walk q (root w) = inr (File c).
Proof.
  unfold fileAt, ReadFile.
  destruct (walk q (root w)) as [e | [d | m]]; try discriminate. congruence.
Qed.

Lemma keyFileOf_last (h : path) (x : string) :
  keyFileOf h x
  = (Join (accountsPath h) (sanitizeNpubForPath x) ++ ["keys.encrypted"])%list.
Proof. unfold keyFileOf. apply Join_keyFile. Qed.

Lemma accountExists_file (w : World) (h : path) (x c : string) :
  settled w h -> fileAt (keyFileOf h x) w = Some c ->
  accountExists x w = (true, w).
Proof.
  intros Hs Hf. apply fileAt_walk in Hf.
  unfold accountExists, bind, ret. rewrite (getAccountDir_any w h x Hs).
  fold (keyFileOf h x). read_file Hf. reflexivity.
Qed.

Lemma loadAccountEncryptedKey_file (w : World) (h : path) (x c : string) :
  settled w h -> fileAt (keyFileOf h x) w = Some c ->
  loadAccountEncryptedKey x w = (parseEncryptedKey c, w).
Proof.
  intros Hs Hf. apply fileAt_walk in Hf.
  unfold loadAccountEncryptedKey, getAccountKeyFilePath, bind, ret.
  rewrite (getAccountDir_any w h x Hs). fold (keyFileOf h x).
  read_file Hf. reflexivity.
Qed.

Lemma saveAccountEncryptedKey_made (x : string) (encKey : EncryptedKey) (w w' : World) :
  saveAccountEncryptedKey x encKey w = (Ok tt, w') ->
  exists h,
    homeDir w = Some h /\ settled w' h /\
    fileAt (keyFileOf h x) w'
    = Some (Hex.encodeHex (Salt encKey) ++ ":" ++ Hex.encodeHex (EncryptedNsec encKey)).
Proof.
  unfold saveAccountEncryptedKey, bind, ret.
  destruct (getAccountDir x w) as [[p | e] w1] eqn:E1; [| discriminate].
  apply getAccountDir_made in E1 as (h & Hh & Hs1 & ->).
  unfold sys.MkdirAll, sys.WriteFile, sys.update.
  destruct (MkdirAll _ (root w1)) as [e | r2] eqn:E2; [discriminate |].
  rewrite root_setRoot.
  destruct (WriteFile _ _ r2) as [e | r3] eqn:E3; [discriminate |].
  intros Heq. injection Heq as <-. exists h. split; [exact Hh |]. split.
  - apply settled_keeps; [apply settled_keeps; [exact Hs1 |] |].
    + intros m. apply (MkdirAll_keeps_dirs _ _ _ _ _ E2).
    + intros m. apply (WriteFile_keeps_dirs _ _ _ _ _ _ E3).
  - rewrite fileAt_setRoot. unfold keyFileOf.
    now rewrite (ReadFile_WriteFile _ _ _ _ E3).
Qed.

(** In a settled store a write to the [active_account] file touches no
    other file. *)
Lemma saveActiveAccount_settled (x : string) (w w' : World) (h : path)
  (r : Result unit) :
  settled w h ->
  saveActiveAccount x w = (r, w') ->
  settled w' h
  /\ (forall q, q <> activePath h -> fileAt q w' = fileAt q w)
  /\ (isDirAt (activePath h) w \/ fileAt (activePath h) w' = Some x).
Proof.
  intros Hs. unfold saveActiveAccount, bind, ret.
  rewrite (getActiveAccountFilePath_settled w h Hs).
  unfold sys.WriteFile, sys.update.
  destruct (WriteFile (activePath h) x (root w)) as [e | r1] eqn:E.
  - intros Heq. injection Heq as <- <-. split; [exact Hs |]. split; [reflexivity |].
    left. destruct (settled_storage w h Hs) as (m0 & Hm0).
    destruct (m0 !! "active_account") as [[d | sub] |] eqn:Ea.
    + destruct (WriteFile_entry (storagePath h) "active_account" x _ _ Hm0) as (t' & Ht');
        [intros sub; congruence |].
      unfold activePath in E. congruence.
    + exists sub. unfold activePath. now rewrite walk_app, Hm0, walk_cons, Ea.
    + destruct (WriteFile_entry (storagePath h) "active_account" x _ _ Hm0) as (t' & Ht');
        [intros sub; congruence |].
      unfold activePath in E. congruence.
  - intros Heq. injection Heq as <- <-. split; [| split].
    + apply settled_keeps; [exact Hs |].
      intros m. apply (WriteFile_keeps_dirs _ _ _ _ _ _ E).
    + intros q Hq. rewrite fileAt_setRoot. apply (WriteFile_other_files _ _ _ _ _ E Hq).
    + right. rewrite fileAt_setRoot. now rewrite (ReadFile_WriteFile _ _ _ _ E).
Qed.

(** In a settled store a write to a trust-session file touches no other
    file and makes no directory. *)
Lemma saveAccountTrustSession_settled (x : string) (session : TrustSession)
  (w w' : World) (h : path) (r : Result unit) :
  settled w h ->
  saveAccountTrustSession x session w = (r, w') ->
  settled w' h
  /\ (forall q,
        q <> (Join (accountsPath h) (sanitizeNpubForPath x) ++ ["trust_session"])%list ->
        fileAt q w' = fileAt q w)
  /\ (forall q, isDirAt q w' -> isDirAt q w).
Proof.
  intros Hs. unfold saveAccountTrustSession, getAccountTrustSessionFilePath, bind, ret.
  rewrite (getAccountDir_any w h x Hs), Join_sessionFile.
  unfold sys.WriteFile, sys.update.
  destruct (WriteFile _ _ (root w)) as [e | r1] eqn:E.
  - intros Heq. injection Heq as <- <-. split; [exact Hs |]. split; auto.
  - intros Heq. injection Heq as <- <-. split; [| split].
    + apply settled_keeps; [exact Hs |].
      intros m. apply (WriteFile_keeps_dirs _ _ _ _ _ _ E).
    + intros q Hq. rewrite fileAt_setRoot. apply (WriteFile_other_files _ _ _ _ _ E Hq).
    + intros q (sub & Hsub). rewrite root_setRoot in Hsub.
      exact (WriteFile_no_new_dirs _ _ _ _ _ _ E Hsub).
Qed.

Section WithLibraries.
Context `{Bech32Lib} `{Secp256k1Lib} `{ScryptLib}.

Lemma resolveTarget_settled (req : SignRequest) (w : World) (h : path) :
  settled w h -> snd (resolveTarget req w) = w.
Proof.
  intros Hs. unfold resolveTarget, bind, ret.
  destruct (String.eqb (ReqNpub req) "" && negb (String.eqb (ReqPubkey req) ""));
    [| reflexivity].
  destruct Hs as (Hh & m & Hm).
  destruct (listAccounts_settled w h m Hh Hm) as (l & -> & _). reflexivity.
Qed.

Lemma resolveTarget_named (req : SignRequest) (w : World) :
  ReqNpub req <> "" -> resolveTarget req w = (ReqNpub req, w).
Proof.
  intros Hn. unfold resolveTarget, ret. apply String.eqb_neq in Hn. now rewrite Hn.
Qed.

Lemma resolveTarget_same (req1 req2 : SignRequest) (w : World) :
  ReqNpub req1 = ReqNpub req2 -> ReqPubkey req1 = ReqPubkey req2 ->
  resolveTarget req1 w = resolveTarget req2 w.
Proof. intros Hn Hp. unfold resolveTarget. now rewrite Hn, Hp. Qed.

Lemma decrypt_encrypted (rnd : Entropy) (nsec password : string) (encKey : EncryptedKey) :
  encryptNsec rnd nsec password = Ok encKey ->
  decryptNsec encKey password = Ok nsec.
Proof.
  unfold encryptNsec. destruct (rand_Read rnd saltLen) as [salt | e]; [| discriminate].
  rewrite scrypt_Key_fixed. intros Heq. injection Heq as <-.
  rewrite decryptNsec_total. cbn [Salt EncryptedNsec].
  rewrite xorLoop_twice. now rewrite string_of_list_byte_of_string.
Qed.

(** The run of [switch_account] when the password unlocks the key. *)
Lemma switch_unlocked (rnd : Entropy) (now : Time) (d : Daemon) (req : SignRequest)
  (w : World) (h : path) (content nsec : string) (encKey : EncryptedKey)
  (key : PrivateKey) :
  settled w h ->
  fst (resolveTarget req w) <> "" ->
  Password req <> "" ->
  fileAt (keyFileOf h (fst (resolveTarget req w))) w = Some content ->
  parseEncryptedKey content = Ok encKey ->
  decryptNsec encKey (Password req) = Ok nsec ->
  nsecToPrivateKey nsec = Ok key ->
  let target := fst (resolveTarget req w) in
  let newPubkey := match npubToPubkey target with Ok p => p | Err _ => "" end in
  exists w',
    handleSwitchAccount rnd now d req w
    = (({| ActionID := ID req; Success := true; ActionPubkey := newPubkey;
           ActionNpub := target; ActionError := "" |},
        {| privateKey := Some key; npub := target; pubkey := newPubkey |}), w')
    /\ settled w' h
    /\ fileAt (keyFileOf h target) w' = Some content
    /\ (isDirAt (activePath h) w \/ fileAt (activePath h) w' = Some target).
Proof.
  intros Hs Ht Hp Hf Hparse Hdec Hkey target newPubkey.
  unfold handleSwitchAccount, bind.
  pose proof (resolveTarget_settled req w h Hs) as Hw1.
  destruct (resolveTarget req w) as [t w1] eqn:Er. simpl in Hw1, Ht, Hf, target. subst w1.
  subst target.
  apply String.eqb_neq in Ht, Hp. rewrite Ht, Hp.
  rewrite (accountExists_file w h t content Hs Hf). cbn [negb].
  rewrite (loadAccountEncryptedKey_file w h t content Hs Hf), Hparse, Hdec, Hkey.
  destruct (match createTrustSession rnd now nsec with
            | Ok session => saveAccountTrustSession t session
            | Err _ => ret (Ok tt)
            end w) as [r4 w4] eqn:E4.
  assert (H4 : settled w4 h /\ fileAt (keyFileOf h t) w4 = Some content
               /\ (forall q, isDirAt q w4 -> isDirAt q w)).
  { destruct (createTrustSession rnd now nsec) as [session | e].
    - destruct (saveAccountTrustSession_settled _ _ _ _ _ _ Hs E4) as (Hs4 & Hf4 & Hd4).
      split; [exact Hs4 |]. split; [| exact Hd4]. rewrite Hf4; [exact Hf |].
      rewrite keyFileOf_last. apply last_differs. discriminate.
    - injection E4 as <- <-. auto. }
  destruct H4 as (Hs4 & Hf4 & Hd4).
  destruct (saveActiveAccount t w4) as [r5 w5] eqn:E5.
  destruct (saveActiveAccount_settled _ _ _ _ _ Hs4 E5) as (Hs5 & Hf5 & Ha5).
  exists w5. split; [reflexivity |]. split; [exact Hs5 |]. split.
  - rewrite Hf5; [exact Hf4 |]. rewrite keyFileOf_last. unfold activePath.
    apply last_differs. discriminate.
  - destruct Ha5 as [Hdir | Hfile]; [left; now apply Hd4 | now right].
Qed.

(** What a successful [add_account] leaves behind. *)
Lemma add_outcome (rnd : Entropy) (req : SignRequest) (w w' : World)
  (resp : AccountActionResponse) :
  handleAddAccount rnd req w = (resp, w') ->
  Success resp = true ->
  exists h key encKey,
    Nsec req <> "" /\
    Password req <> "" /\
    nsecToPrivateKey (Nsec req) = Ok key /\
    ActionNpub resp = privateKeyToNpub key /\
    fst (accountExists (ActionNpub resp) w) = false /\
    encryptNsec rnd (Nsec req) (Password req) = Ok encKey /\
    settled w' h /\
    fileAt (keyFileOf h (ActionNpub resp)) w'
    = Some (Hex.encodeHex (Salt encKey) ++ ":" ++ Hex.encodeHex (EncryptedNsec encKey)).
Proof.
  unfold handleAddAccount, bind, ret.
  destruct (String.eqb (Nsec req) "") eqn:En; [intros Heq; now injection Heq as <- <- |].
  destruct (String.eqb (Password req) "") eqn:Ep;
    [intros Heq; now injection Heq as <- <- |].
  cbn [orb].
  destruct (nsecToPrivateKey (Nsec req)) as [key | e] eqn:Ek;
    [| intros Heq; now injection Heq as <- <-].
  destruct (accountExists (privateKeyToNpub key) w) as [[|] w1] eqn:Ex;
    [intros Heq; now injection Heq as <- <- |].
  destruct (encryptNsec rnd (Nsec req) (Password req)) as [encKey | e] eqn:Ee;
    [| intros Heq; now injection Heq as <- <-].
  destruct (saveAccountEncryptedKey (privateKeyToNpub key) encKey w1)
    as [[[] | e] w2] eqn:Es; [| intros Heq; now injection Heq as <- <-].
  apply saveAccountEncryptedKey_made in Es as (h & Hh & Hs2 & Hf2).
  destruct ((if SetActive req then saveActiveAccount (privateKeyToNpub key)
             else fun w0 => (Ok tt, w0)) w2) as [r3 w3] eqn:E3.
  intros Heq _. injection Heq as <- <-. cbn [ActionNpub].
  exists h, key, encKey.
  split; [now apply String.eqb_neq |].
  split; [now apply String.eqb_neq |]. split; [reflexivity |]. split; [reflexivity |].
  split; [now rewrite Ex |]. split; [reflexivity |].
  destruct (SetActive req).
  - destruct (saveActiveAccount_settled _ _ _ _ _ Hs2 E3) as (Hs3 & Hf3 & _).
    split; [exact Hs3 |]. rewrite Hf3; [exact Hf2 |].
    rewrite keyFileOf_last. unfold activePath. apply last_differs. discriminate.
  - injection E3 as <- <-. auto.
Qed.

End WithLibraries.

End HandlerFacts.

(** ** Account names and paths *)

Module NameFacts.
Import os Spec State TreeFacts PathFacts IOFacts RemoveFacts StoreFacts KeepFacts
  HandlerFacts.

Lemma Split_at (sep : ascii) (a rest : string) :
  hasChar sep a = false ->
  Strs.Split sep (a ++ String sep rest) = a :: Strs.Split sep rest.
Proof.
  induction a as [| c a IH]; intros Ha.
  - change ("" ++ String sep rest) with (String sep rest).
    cbn [Strs.Split]. now rewrite Ascii.eqb_refl.
  - cbn [hasChar] in Ha. apply orb_false_iff in Ha as [Hc Ha].
    change (String c a ++ String sep rest) with (String c (a ++ String sep rest)).
    cbn [Strs.Split]. now rewrite Hc, (IH Ha).
Qed.

Lemma length_concat (a b : string) :
  String.length (a ++ b) = (String.length a + String.length b)%nat.
Proof. induction a as [| c a IH]; [reflexivity |]. simpl. now rewrite IH. Qed.

(** A name followed by a slash names the same directory. *)
Lemma Join_trailing_slash (dir : path) (x : string) :
  accountName x = true -> Join dir (x ++ "/") = (dir ++ [x])%list.
Proof.
  intros Hx. destruct (accountName_inv x Hx) as (H1 & H2 & H3 & H4 & _).
  unfold Join. change (x ++ "/") with (x ++ String "/" "").
  rewrite (Split_at _ _ _ H4). cbn [Strs.Split fold_left]. unfold step at 2.
  apply String.eqb_neq in H1, H2, H3. rewrite H1, H2, H3. reflexivity.
Qed.

Lemma sanitize_short (s : string) :
  (String.length s <= 70)%nat -> sanitizeNpubForPath s = s.
Proof.
  intros Hs. unfold sanitizeNpubForPath.
  destruct (Nat.ltb_spec 70 (String.length s)); [lia | reflexivity].
Qed.

Lemma accountDir_trailing_slash (h : path) (x : string) :
  accountName x = true -> (String.length x < 70)%nat ->
  Join (accountsPath h) (sanitizeNpubForPath (x ++ "/")) = accountPath h x.
Proof.
  intros Hx Hlen. rewrite sanitize_short by (rewrite length_concat; simpl; lia).
  now apply Join_trailing_slash.
Qed.

(** The name [..] leads from the accounts directory to the storage
    directory. *)
Lemma accountDir_dotdot (h : path) :
  Join (accountsPath h) (sanitizeNpubForPath "..") = storagePath h.
Proof. unfold accountsPath. cbn. apply removelast_last. Qed.

(** [removeAccount] for a name that leads to the directory of [x]. *)
Lemma removeAccount_alias (w : World) (h : path) (x y : string) (n : node) :
  settled w h ->
  Join (accountsPath h) (sanitizeNpubForPath y) = accountPath h x ->
  walk (accountPath h x) (root w) = inr n ->
  exists w',
    removeAccount y w = (Ok tt, w') /\
    walk (accountPath h x) (root w') = inl ENOENT /\
    (forall a, a <> y ->
       fst (loadActiveAccount w) = Ok a -> fst (loadActiveAccount w') = Ok a).
Proof.
  intros Hs Hy Hn. destruct Hs as (Hh & m & Hm).
  assert (Hs : settled w h) by (split; eauto).
  destruct (RemoveAll_entry (accountsPath h) x (root w) m Hm)
    as (t1 & Hrm & Hself & Hother).
  assert (Hp1 : ~ activePath h `prefix_of` accountsPath h)
    by apply active_not_prefix_accounts.
  assert (Hp2 : ~ (accountsPath h ++ [x])%list `prefix_of` activePath h).
  { unfold accountsPath, activePath. rewrite <- app_assoc.
    apply (not_prefix_diverge (storagePath h) "accounts" "active_account" [x] []).
    discriminate. }
  assert (Hp3 : ~ accountsPath h `prefix_of` storagePath h)
    by (unfold accountsPath; apply longer_not_prefix; discriminate).
  assert (Hact1 : walk (activePath h) t1 = walk (activePath h) (root w))
    by (apply Hother; assumption).
  assert (Hs1 : settled (setRoot w t1) h) by (eapply settled_setRoot; eassumption).
  assert (Hgone : walk (accountPath h x) t1 = inl ENOENT).
  { unfold accountPath. now rewrite walk_app, Hself, walk_cons, lookup_delete_eq. }
  unfold removeAccount, bind.
  rewrite (getAccountDir_any w h y Hs), Hy.
  unfold sys.Stat, sys.query, Stat. rewrite Hn. cbv iota.
  unfold sys.RemoveAll, sys.update. fold (accountPath h x) in Hrm. rewrite Hrm.
  rewrite (loadActiveAccount_settled _ h Hs1). rewrite root_setRoot.
  rewrite (loadActiveAccount_settled w h Hs). cbn [fst]. rewrite Hact1.
  destruct (walk (activePath h) (root w)) as [e | [c | sub]] eqn:Ew; cbn [activeAnswer].
  - destruct (IsNotExist e); exists (setRoot w t1);
      (split; [reflexivity |]); (split; [exact Hgone |]);
      intros a _ Ha; discriminate.
  - destruct (String.eqb (Strs.TrimSpace c) y) eqn:Eay.
    + rewrite (getActiveAccountFilePath_settled _ h Hs1).
      unfold sys.Remove, sys.update. rewrite root_setRoot.
      assert (Hfile : walk (activePath h) t1 = inr (File c)) by congruence.
      rewrite (Remove_file_RemoveAll _ _ _ Hfile)
        by (unfold activePath; destruct (storagePath h); discriminate).
      destruct (settled_storage _ h Hs1) as (m0 & Hm0). rewrite root_setRoot in Hm0.
      destruct (RemoveAll_entry (storagePath h) "active_account" t1 m0 Hm0)
        as (t2 & Hrm2 & Hself2 & Hother2).
      fold (activePath h) in Hrm2, Hother2. rewrite Hrm2.
      exists (setRoot (setRoot w t1) t2). split; [reflexivity |]. split.
      * rewrite root_setRoot. rewrite Hother2; [exact Hgone | |].
        -- intros Hpre. apply Hp3. unfold accountPath in Hpre.
           destruct Hpre as (k & Hk). exists ([x] ++ k)%list.
           rewrite Hk. now rewrite <- app_assoc.
        -- unfold accountPath. intros Hpre. apply Hp1.
           destruct Hpre as (k & Hk).
           unfold activePath, accountsPath in Hk. rewrite <- !app_assoc in Hk.
           apply app_inv_head in Hk. discriminate.
      * intros a Ha Heq. injection Heq as Heq. apply String.eqb_eq in Eay. congruence.
    + exists (setRoot w t1). split; [reflexivity |]. split; [exact Hgone |].
      intros a _ Heq. rewrite (loadActiveAccount_settled _ h Hs1), root_setRoot, Hact1.
      exact Heq.
  - exists (setRoot w t1). split; [reflexivity |]. split; [exact Hgone |].
    intros a _ Heq. discriminate.
Qed.

(** [removeAccount] for the name [..]: the storage directory goes, and
    comes back empty when the active account is looked up. *)
Lemma removeAccount_dotdot (w : World) (h : path) :
  settled w h ->
  exists w',
    removeAccount ".." w = (Ok tt, w') /\
    homeDir w' = Some h /\
    walk (storagePath h) (root w') = inr (Dir ∅).
Proof.
  intros Hs. destruct (settled_storage w h Hs) as (m0 & Hm0).
  pose proof Hs as (Hh & _).
  assert (Hhome : exists mh, walk h (root w) = inr (Dir mh)).
  { unfold storagePath in Hm0. rewrite walk_app in Hm0.
    destruct (walk h (root w)) as [e | [d | mh]]; try discriminate. eauto. }
  destruct Hhome as (mh & Hmh).
  destruct (RemoveAll_entry h ".noorsigner" (root w) mh Hmh)
    as (t1 & Hrm & Hself & _).
  fold (storagePath h) in Hrm.
  assert (Hgone : walk (storagePath h ++ [])%list t1 = inl ENOENT).
  { rewrite app_nil_r. unfold storagePath.
    now rewrite walk_app, Hself, walk_cons, lookup_delete_eq. }
  destruct (MkdirAll_ok_of_ENOENT _ _ _ Hgone) as (t2 & Hmk).
  rewrite app_nil_r in Hgone.
  pose proof (MkdirAll_walk_self _ _ _ Hmk) as Hnew. rewrite Hgone in Hnew.
  unfold removeAccount, bind.
  rewrite (getAccountDir_any w h ".." Hs), accountDir_dotdot.
  unfold sys.Stat, sys.query, Stat. rewrite Hm0. cbv iota.
  unfold sys.RemoveAll, sys.update. rewrite Hrm.
  unfold loadActiveAccount, getActiveAccountFilePath, bind, ret.
  rewrite getStorageDir_run. cbn [homeDir setRoot]. rewrite Hh, root_setRoot, Hmk.
  rewrite Join_active.
  assert (Hact : walk (activePath h) t2 = inl ENOENT).
  { unfold activePath. now rewrite walk_app, Hnew. }
  unfold sys.Stat, sys.query, Stat. rewrite root_setRoot, Hact. cbn [IsNotExist].
  eexists. split; [reflexivity |]. split; [exact Hh |]. now rewrite root_setRoot.
Qed.

End NameFacts.

(** ** The stored files *)

(** X7. A key saved for an account is the key loaded for it afterwards, and
    the account exists from then on. *)
Theorem account_key_file_roundtrip (npub : string) (encKey : EncryptedKey)
  (w w' : World) :
  saveAccountEncryptedKey npub encKey w = (Ok tt, w') ->
  loadAccountEncryptedKey npub w' = (Ok encKey, w')
  /\ accountExists npub w' = (true, w').
Proof. apply saveAccountEncryptedKey_then_load. Qed.

(** X8. The active account read back is the name saved with the white space
    at its ends removed. *)
Theorem active_account_file_roundtrip (npub : string) (w w' : World) :
  saveActiveAccount npub w = (Ok tt, w') ->
  loadActiveAccount w' = (Ok (Strs.TrimSpace npub), w').
Proof. apply saveActiveAccount_then_load. Qed.

(** X9. A trust session saved for an account is loaded back with its token
    and ciphertext as they were and its two times cut to whole seconds,
    provided the token holds no colon and the times are not before 1970. *)
Theorem account_trust_session_file_roundtrip (npub : string) (session : TrustSession)
  (w w' : World) :
  Spec.hasChar ":" (SessionToken session) = false ->
  (0 <= time.Unix (ExpiresAt session) < 2 ^ 63)%Z ->
  (0 <= time.Unix (CreatedAt session) < 2 ^ 63)%Z ->
  saveAccountTrustSession npub session w = (Ok tt, w') ->
  loadAccountTrustSession npub w'
  = (Ok {| SessionToken := SessionToken session;
           ExpiresAt := time.Unix0 (time.Unix (ExpiresAt session));
           CreatedAt := time.Unix0 (time.Unix (CreatedAt session));
           SessionNsec := SessionNsec session |}, w').
Proof. apply saveAccountTrustSession_then_load. Qed.

(** X10. A session created and saved is found again by a later run: it
    loads, decrypts to the nsec it was created for, and is valid until
    86400 seconds after the whole second of its creation; the file keeps
    no nanoseconds.  The expiry is to be a second that [time.Unix] can
    hold, [time.maxUnix] at most. *)
Theorem trust_session_survives_restart (rnd : Entropy) (now : Time)
  (nsec npub : string) (session : TrustSession) (w w' : World) :
  Spec.normal now ->
  (0 <= time.Unix now)%Z -> (time.Unix now + 86400 <= time.maxUnix)%Z ->
  createTrustSession rnd now nsec = Ok session ->
  saveAccountTrustSession npub session w = (Ok tt, w') ->
  exists loaded,
    loadAccountTrustSession npub w' = (Ok loaded, w')
    /\ decryptTrustSessionNsec loaded = Some (Ok nsec)
    /\ ExpiresAt loaded = time.Unix0 (time.Unix now + 86400)
    /\ (forall t, Spec.normal t ->
          (isTrustSessionValid t loaded = true
           <-> (Spec.instant t < (time.Unix now + 86400) * 1000000000)%Z)).
Proof.
  intros Hn H0 Hmax Hc Hs.
  assert (H63 : (time.Unix now + 86400 < 2 ^ 63)%Z)
    by (unfold time.maxUnix, time.unixToInternal in Hmax; lia).
  destruct (SessionFacts.createTrustSession_ok _ _ _ _ Hc) as (token & _ & _ & He & Hcr & _).
  pose proof (SessionFacts.Unix_Add_day now Hn) as Hday.
  assert (Hexp : time.Unix (ExpiresAt session) = (time.Unix now + 86400)%Z)
    by now rewrite He.
  eexists. split.
  - apply (saveAccountTrustSession_then_load npub session w w'); [| | | exact Hs].
    + exact (TrustFacts.created_token_plain _ _ _ _ Hc).
    + rewrite Hexp. lia.
    + rewrite Hcr. lia.
  - split; [| split].
    + rewrite <- (TrustFacts.decrypt_created _ _ _ _ Hc).
      now apply TrustFacts.decrypt_same_token.
    + cbn [ExpiresAt]. now rewrite Hexp.
    + intros t Ht. unfold isTrustSessionValid. cbn [ExpiresAt]. rewrite Hexp.
      assert (Hnu : Spec.normal (time.Unix0 (time.Unix now + 86400)))
        by (unfold Spec.normal; simpl; lia).
      rewrite (Before_iff t _ Ht Hnu). unfold Spec.strictlyBefore.
      assert (Hi : Spec.instant (time.Unix0 (time.Unix now + 86400))
                   = ((time.Unix now + 86400) * 1000000000)%Z)
        by (unfold Spec.instant, time.Unix0; cbn [wallSec wallNsec];
            rewrite IntFacts.wrapInt64_small
              by (unfold time.maxUnix, time.unixToInternal in *; lia);
            lia).
      cbn [time.Unix0 mono]. fold (time.Unix0 (time.Unix now + 86400)).
      destruct (mono t); rewrite Hi; reflexivity.
Qed.

(** X11. After the trust session of an account is cleared there is no
    session to load for it, and every other file is as it was. *)
Theorem clear_account_trust_session_removes_that_file_only (npub : string)
  (w w' : World) :
  clearAccountTrustSession npub w = (Ok tt, w') ->
  exists h,
    homeDir w = Some h /\
    loadAccountTrustSession npub w'
    = (Err ("no trust session for account: " ++ npub), w') /\
    (forall q,
       q <> os.Join (os.Join (Spec.accountsPath h) (sanitizeNpubForPath npub))
              "trust_session" ->
       State.fileAt q w' = State.fileAt q w).
Proof. apply clearAccountTrustSession_ok. Qed.

(** ** The handlers *)

(** X12. [remove_account] asks for a password and never checks it: two
    requests for the same account that differ in the password alone, both
    not empty, are answered alike and have the same effect. *)
Theorem remove_account_ignores_password_value
  `{Bech32Lib} `{Secp256k1Lib} `{ScryptLib}
  (d : Daemon) (req1 req2 : SignRequest) (w : World) :
  ID req1 = ID req2 -> ReqNpub req1 = ReqNpub req2 -> ReqPubkey req1 = ReqPubkey req2 ->
  Password req1 <> "" -> Password req2 <> "" ->
  handleRemoveAccount d req1 w = handleRemoveAccount d req2 w.
Proof.
  intros Hid Hn Hp H1' H2'. unfold handleRemoveAccount, bind.
  rewrite (HandlerFacts.resolveTarget_same req1 req2 w Hn Hp), Hid.
  destruct (resolveTarget req2 w) as [target w1].
  destruct (String.eqb target ""); [reflexivity |].
  apply String.eqb_neq in H1', H2'. rewrite H1', H2'.
  destruct (accountExists target w1) as [[|] w2]; cbn [negb]; [| reflexivity].
  destruct (loadAccountEncryptedKey target w2) as [[encKey | e] w3]; [| reflexivity].
  now rewrite !decryptNsec_total.
Qed.

(** X13. In a store whose directories exist, [switch_account] with a password
    that unlocks the key of the account named succeeds: the daemon holds
    the key the password decrypts, under the name of the account, and the
    [active_account] file names the account unless a directory is in its
    place. *)
Theorem switch_account_succeeds_when_password_unlocks
  `{Bech32Lib} `{Secp256k1Lib} `{ScryptLib}
  (rnd : Entropy) (now : Time) (d d' : Daemon) (req : SignRequest)
  (w w' : World) (resp : AccountActionResponse) (h : path) :
  State.settled w h ->
  fst (resolveTarget req w) <> "" ->
  Password req <> "" ->
  State.passwordUnlocks w (fst (resolveTarget req w)) (Password req) ->
  handleSwitchAccount rnd now d req w = ((resp, d'), w') ->
  Success resp = true /\ ActionError resp = "" /\
  ActionNpub resp = fst (resolveTarget req w) /\
  npub d' = fst (resolveTarget req w) /\
  pubkey d' = ActionPubkey resp /\
  (exists content encKey nsec key,
     State.fileAt (State.keyFileOf h (fst (resolveTarget req w))) w = Some content /\
     parseEncryptedKey content = Ok encKey /\
     decryptNsec encKey (Password req) = Ok nsec /\
     nsecToPrivateKey nsec = Ok key /\
     privateKey d' = Some key) /\
  (State.isDirAt (Spec.activePath h) w
   \/ State.fileAt (Spec.activePath h) w' = Some (fst (resolveTarget req w))).
Proof.
  intros Hs Ht Hp (h0 & content & encKey & nsec & key & Hh0 & Hf & Hparse & Hdec & Hkey) Hrun.
  assert (h0 = h) as -> by (destruct Hs as (Hh & _); congruence).
  destruct (HandlerFacts.switch_unlocked rnd now d req w h content nsec encKey key
              Hs Ht Hp Hf Hparse Hdec Hkey) as (w'' & Hrun' & _ & _ & Hact).
  rewrite Hrun' in Hrun. injection Hrun as <- <- <-.
  cbn [Success ActionError ActionNpub ActionPubkey npub pubkey privateKey].
  repeat (split; [reflexivity |]). split; [| exact Hact].
  exists content, encKey, nsec, key. auto.
Qed.

(** X14. After a successful [add_account], [switch_account] to the new account
    with the same password succeeds and loads the key of the nsec that
    was added. *)
Theorem add_account_then_switch_with_same_password
  `{Bech32Lib} `{Secp256k1Lib} `{ScryptLib}
  (rnd rnd' : Entropy) (now : Time) (d d' : Daemon) (req sw : SignRequest)
  (w w1 w2 : World) (resp resp' : AccountActionResponse) :
  handleAddAccount rnd req w = (resp, w1) ->
  Success resp = true ->
  ActionNpub resp <> "" ->
  ReqNpub sw = ActionNpub resp ->
  Password sw = Password req ->
  handleSwitchAccount rnd' now d sw w1 = ((resp', d'), w2) ->
  Success resp' = true /\ npub d' = ActionNpub resp /\
  exists key, nsecToPrivateKey (Nsec req) = Ok key /\ privateKey d' = Some key.
Proof.
  intros Hadd Hok Hne Hsw Hpw Hrun.
  destruct (HandlerFacts.add_outcome rnd req w w1 resp Hadd Hok)
    as (h & key & encKey & _ & Hp & Hkey & _ & _ & Henc & Hs & Hf).
  assert (Ht : resolveTarget sw w1 = (ActionNpub resp, w1))
    by (rewrite <- Hsw; apply HandlerFacts.resolveTarget_named; congruence).
  assert (Hfst : fst (resolveTarget sw w1) = ActionNpub resp) by now rewrite Ht.
  destruct (HandlerFacts.switch_unlocked rnd' now d sw w1 h
              (Hex.encodeHex (Salt encKey) ++ ":" ++ Hex.encodeHex (EncryptedNsec encKey))
              (Nsec req) encKey key Hs)
    as (w'' & Hrun' & _); try (rewrite Hfst); try assumption.
  - congruence.
  - apply KeepFacts.parseEncryptedKey_content.
  - rewrite Hpw. now apply HandlerFacts.decrypt_encrypted with (rnd := rnd).
  - rewrite Hrun' in Hrun. injection Hrun as <- <- <-.
    cbn [Success npub privateKey]. rewrite Hfst. eauto.
Qed.

(** X15. After a successful [add_account] every further [add_account] for the
    same nsec is turned down with "account already exists", whatever the
    password given with it, and changes nothing. *)
Theorem add_account_refuses_existing_account
  `{Bech32Lib} `{Secp256k1Lib} `{ScryptLib}
  (rnd rnd2 : Entropy) (req req2 : SignRequest) (w w1 : World)
  (resp : AccountActionResponse) :
  handleAddAccount rnd req w = (resp, w1) ->
  Success resp = true ->
  Nsec req2 = Nsec req ->
  Password req2 <> "" ->
  handleAddAccount rnd2 req2 w1
  = (actionError (ID req2) "account already exists", w1).
Proof.
  intros Hadd Hok Hn Hp.
  destruct (HandlerFacts.add_outcome rnd req w w1 resp Hadd Hok)
    as (h & key & encKey & Hnsec & _ & Hkey & Hnpub & _ & _ & Hs & Hf).
  unfold handleAddAccount, bind, ret. rewrite Hn.
  apply String.eqb_neq in Hnsec, Hp. rewrite Hnsec, Hp. cbn [orb].
  rewrite Hkey, <- Hnpub.
  now rewrite (HandlerFacts.accountExists_file w1 h _ _ Hs Hf).
Qed.

(** ** Names that are paths *)

Module GuardFacts.
Import os Spec State TreeFacts PathFacts IOFacts RemoveFacts StoreFacts KeepFacts
  HandlerFacts NameFacts.

Lemma keyFileOf_name (h : path) (x : string) :
  accountName x = true -> keyFileOf h x = keyFilePath h x.
Proof.
  intros Hx. unfold keyFileOf, keyFilePath, accountPath.
  now rewrite (sanitize_accountName x Hx), (Join_accountName _ x Hx), Join_keyFile.
Qed.

Lemma keyFileOf_trailing_slash (h : path) (x : string) :
  accountName x = true -> (String.length x < 70)%nat ->
  keyFileOf h (x ++ "/") = keyFilePath h x.
Proof.
  intros Hx Hlen. unfold keyFileOf, keyFilePath.
  now rewrite (accountDir_trailing_slash h x Hx Hlen), Join_keyFile.
Qed.

Lemma keyFileOf_dotdot (h : path) :
  keyFileOf h ".." = (storagePath h ++ ["keys.encrypted"])%list.
Proof. unfold keyFileOf. now rewrite accountDir_dotdot, Join_keyFile. Qed.

Lemma not_own_alias (x : string) : x <> x ++ "/".
Proof.
  intros Heq. apply (f_equal String.length) in Heq.
  rewrite length_concat in Heq. simpl in Heq. lia.
Qed.

Lemma substring_0_app (n : nat) :
  forall a t : string,
    (n <= String.length a)%nat ->
    String.substring 0 n (a ++ t) = String.substring 0 n a.
Proof.
  induction n as [| n IH]; intros a t Hn.
  - now destruct a, t.
  - destruct a as [| c a]; [simpl in Hn; lia |].
    change (String c a ++ t) with (String c (a ++ t)). cbn [String.substring].
    rewrite IH by (simpl in Hn; lia). reflexivity.
Qed.

Lemma sanitize_long (a t : string) :
  (70 <= String.length a)%nat ->
  sanitizeNpubForPath (a ++ t) = String.substring 0 70 a.
Proof.
  intros Ha. unfold sanitizeNpubForPath. rewrite length_concat.
  destruct (Nat.ltb_spec 70 (String.length a + String.length t)).
  - now apply substring_0_app.
  - assert (String.length a = 70%nat /\ String.length t = 0%nat) as [Hl Ht] by lia.
    destruct t; [| discriminate].
    rewrite <- Hl. rewrite EventFacts.substring_0_length.
    clear. induction a as [| c a IH]; [reflexivity |].
    change (String c a ++ "") with (String c (a ++ "")). now rewrite IH.
Qed.

End GuardFacts.

Section NamesAsPaths.
Context `{Bech32Lib} `{Secp256k1Lib} `{ScryptLib}.
Import os Spec State TreeFacts PathFacts IOFacts RemoveFacts StoreFacts KeepFacts
  HandlerFacts NameFacts GuardFacts.

Lemma remove_request_run (d : Daemon) (req : SignRequest) (w : World) (h : path)
  (content : string) (encKey : EncryptedKey) :
  settled w h ->
  ReqNpub req <> "" -> Password req <> "" ->
  fileAt (keyFileOf h (ReqNpub req)) w = Some content ->
  parseEncryptedKey content = Ok encKey ->
  handleRemoveAccount d req w
  = (if String.eqb (npub d) (ReqNpub req)
     then ret (actionError (ID req)
                 "cannot remove active account - switch to another account first")
     else bind (removeAccount (ReqNpub req))
            (fun removed =>
               match removed with
               | Err e => ret (actionError (ID req) ("failed to remove account: " ++ e))
               | Ok _ => ret {| ActionID := ID req; Success := true;
                                ActionPubkey := ""; ActionNpub := "";
                                ActionError := "" |}
               end)) w.
Proof.
  intros Hs Hn Hp Hf Hparse. unfold handleRemoveAccount. unfold bind at 1.
  rewrite (resolveTarget_named req w Hn).
  pose proof Hn as Hn'. apply String.eqb_neq in Hn', Hp. rewrite Hn', Hp.
  unfold bind at 1. rewrite (accountExists_file w h _ content Hs Hf). cbn [negb].
  unfold bind at 1. rewrite (loadAccountEncryptedKey_file w h _ content Hs Hf), Hparse.
  rewrite decryptNsec_total. reflexivity.
Qed.

End NamesAsPaths.

(** X16. The guard of [remove_account] against removing the account in use
    compares names, not directories: the request is refused under the
    name the daemon holds, and carried out under the same name followed
    by a slash.  The account's directory is gone, and the
    [active_account] file still names it. *)
Theorem remove_account_guard_compares_names
  `{Bech32Lib} `{Secp256k1Lib} `{ScryptLib}
  (d : Daemon) (req0 req : SignRequest) (w : World) (h : path)
  (x content : string) (encKey : EncryptedKey) :
  State.settled w h ->
  Spec.accountName x = true -> (String.length x < 70)%nat ->
  npub d = x ->
  State.fileAt (Spec.keyFilePath h x) w = Some content ->
  parseEncryptedKey content = Ok encKey ->
  ReqNpub req0 = x -> Password req0 <> "" ->
  ReqNpub req = x ++ "/" -> Password req <> "" ->
  fst (handleRemoveAccount d req0 w)
  = actionError (ID req0)
      "cannot remove active account - switch to another account first"
  /\ exists w',
       handleRemoveAccount d req w
       = ({| ActionID := ID req; Success := true; ActionPubkey := "";
             ActionNpub := ""; ActionError := "" |}, w')
       /\ os.walk (Spec.accountPath h x) (root w') = inl ENOENT
       /\ (fst (loadActiveAccount w) = Ok x -> fst (loadActiveAccount w') = Ok x).
Proof.
  intros Hs Hx Hlen Hd Hf Hparse Hr0 Hp0 Hr Hp.
  destruct (PathFacts.accountName_inv x Hx) as (Hne & _).
  split.
  - rewrite (remove_request_run d req0 w h content encKey Hs); try assumption.
    + now rewrite Hr0, Hd, String.eqb_refl.
    + congruence.
    + rewrite Hr0. now rewrite (GuardFacts.keyFileOf_name h x Hx).
  - assert (Hdir : exists n, os.walk (Spec.accountPath h x) (root w) = inr n).
    { apply HandlerFacts.fileAt_walk in Hf. unfold Spec.keyFilePath in Hf.
      rewrite TreeFacts.walk_app in Hf.
      destruct (os.walk (Spec.accountPath h x) (root w)); [discriminate | eauto]. }
    destruct Hdir as (n & Hn).
    destruct (NameFacts.removeAccount_alias w h x (x ++ "/") n Hs
                (NameFacts.accountDir_trailing_slash h x Hx Hlen) Hn)
      as (w' & Hrm & Hgone & Hact).
    exists w'.
    rewrite (remove_request_run d req w h content encKey Hs); try assumption.
    + rewrite Hr, Hd.
      pose proof (GuardFacts.not_own_alias x) as Hna.
      apply String.eqb_neq in Hna. rewrite Hna. unfold bind. rewrite Hrm.
      split; [reflexivity |]. split; [exact Hgone |].
      apply Hact. apply GuardFacts.not_own_alias.
    + rewrite Hr. intros Heq. apply (f_equal String.length) in Heq.
      rewrite NameFacts.length_concat in Heq. simpl in Heq. lia.
    + rewrite Hr. now rewrite (GuardFacts.keyFileOf_trailing_slash h x Hx Hlen).
Qed.

(** X17. The name [..] is taken as it is: [removeAccount] then removes the
    storage directory with every account in it, which the look-up of the
    active account that follows creates again, empty.  A [remove_account]
    request for [..] is carried out wherever a key file of the
    single-account layout is in place and parses, whatever the password
    given with it. *)
Theorem remove_account_dotdot_empties_storage
  `{Bech32Lib} `{Secp256k1Lib} `{ScryptLib} (w : World) (h : path) :
  State.settled w h ->
  (exists w',
     removeAccount ".." w = (Ok tt, w')
     /\ os.walk (Spec.storagePath h) (root w') = inr (Dir ∅))
  /\ (forall (d : Daemon) (req : SignRequest) (content : string) (encKey : EncryptedKey),
        ReqNpub req = ".." -> Password req <> "" -> npub d <> ".." ->
        State.fileAt (Spec.storagePath h ++ ["keys.encrypted"])%list w = Some content ->
        parseEncryptedKey content = Ok encKey ->
        exists w',
          handleRemoveAccount d req w
          = ({| ActionID := ID req; Success := true; ActionPubkey := "";
                ActionNpub := ""; ActionError := "" |}, w')
          /\ os.walk (Spec.storagePath h) (root w') = inr (Dir ∅)).
Proof.
  intros Hs.
  destruct (NameFacts.removeAccount_dotdot w h Hs) as (w' & Hrm & _ & Hempty).
  split; [exists w'; auto |].
  intros d req content encKey Hr Hp Hd Hf Hparse. exists w'.
  rewrite (remove_request_run d req w h content encKey Hs); try assumption.
  - rewrite Hr. apply String.eqb_neq in Hd. rewrite Hd. unfold bind. rewrite Hrm.
    auto.
  - rewrite Hr. discriminate.
  - rewrite Hr. now rewrite GuardFacts.keyFileOf_dotdot.
Qed.

(** X18. Only the first 70 bytes of a name tell accounts apart: a name of 70
    bytes or more and the same name with anything appended lead to one
    directory, so that each exists when the other does and a key saved
    under one is the key loaded under the other. *)
Theorem account_names_collide_beyond_70_bytes (a t : string) (encKey : EncryptedKey)
  (w w' : World) :
  (70 <= String.length a)%nat ->
  accountExists (a ++ t) w = accountExists a w
  /\ (saveAccountEncryptedKey a encKey w = (Ok tt, w') ->
      fst (loadAccountEncryptedKey (a ++ t) w') = Ok encKey).
Proof.
  intros Ha.
  assert (Hsame : sanitizeNpubForPath (a ++ t) = sanitizeNpubForPath a).
  { rewrite (GuardFacts.sanitize_long a t Ha).
    rewrite <- (GuardFacts.sanitize_long a "" Ha). f_equal.
    clear. induction a as [| c a IH]; [reflexivity |].
    change (String c a ++ "") with (String c (a ++ "")). now rewrite IH. }
  assert (Hdir : getAccountDir (a ++ t) = getAccountDir a)
    by (unfold getAccountDir; now rewrite Hsame).
  split.
  - unfold accountExists. now rewrite Hdir.
  - intros Hsave.
    apply HandlerFacts.saveAccountEncryptedKey_made in Hsave as (h & _ & Hs & Hf).
    assert (Hk : State.keyFileOf h (a ++ t) = State.keyFileOf h a)
      by (unfold State.keyFileOf; now rewrite Hsame).
    rewrite <- Hk in Hf.
    rewrite (HandlerFacts.loadAccountEncryptedKey_file w' h _ _ Hs Hf).
    cbn [fst]. apply KeepFacts.parseEncryptedKey_content.
Qed.

(** ** What reading changes *)

Module QuietFacts.
Import IOFacts State.

Lemma quiet_getAccountTrustSessionFilePath (npub : string) :
  quiet (getAccountTrustSessionFilePath npub).
Proof. unfold getAccountTrustSessionFilePath. quiet_steps. Qed.

Lemma quiet_loadAccountTrustSession (npub : string) :
  quiet (loadAccountTrustSession npub).
Proof.
  pose proof quiet_getAccountTrustSessionFilePath as Hp.
  unfold loadAccountTrustSession, sys.Stat, sys.ReadFile. quiet_steps.
Qed.

End QuietFacts.

(** X19. Listing the accounts, asking whether one exists and loading the active
    account, a key or a trust session change the bytes of no file and
    create and remove none; what they may do is create the storage
    directories, which a listing that succeeds always leaves in place. *)
Theorem reading_changes_no_file `{Bech32Lib} (npub : string) (w : World) :
  State.sameFiles w (snd (listAccounts w))
  /\ State.sameFiles w (snd (accountExists npub w))
  /\ State.sameFiles w (snd (loadActiveAccount w))
  /\ State.sameFiles w (snd (loadAccountEncryptedKey npub w))
  /\ State.sameFiles w (snd (loadAccountTrustSession npub w))
  /\ (forall l w', listAccounts w = (Ok l, w') ->
        exists h, homeDir w = Some h /\ State.isDirAt (Spec.accountsPath h) w').
Proof.
  split; [apply IOFacts.quiet_listAccounts |].
  split; [apply IOFacts.quiet_accountExists |].
  split; [apply IOFacts.quiet_loadActiveAccount |].
  split; [apply IOFacts.quiet_loadAccountEncryptedKey |].
  split; [apply QuietFacts.quiet_loadAccountTrustSession |].
  intros l w' Hl.
  apply ListFacts.listAccounts_ok in Hl as (h & m & Hh & Hm & _).
  exists h. split; [exact Hh |]. now exists m.
Qed.

(** ** The single-account layout *)

Module LegacyFacts.
Import os Spec State TreeFacts PathFacts IOFacts RemoveFacts StoreFacts KeepFacts
  HandlerFacts.

Lemma hexDigit_plain (c : ascii) :
  Text.isHexDigit c = true -> (N_of_ascii c < 128)%N /\ (N_of_ascii c =? 58)%N = false.
Proof.
  destruct c as [[|] [|] [|] [|] [|] [|] [|] [|]]; vm_compute; intros Hc;
    try discriminate Hc; split; reflexivity.
Qed.

Lemma findSeparator_hex (a b : string) :
  forall i : nat,
    Text.allOf Text.isHexDigit a = true ->
    findSeparator (utf8.chunks (a ++ String ":" b)) i = Some (i + String.length a)%nat.
Proof.
  induction a as [| c a IH]; intros i Ha.
  - change ("" ++ String ":" b) with (String ":" b).
    rewrite IntFacts.chunks_cons_low by (vm_compute; reflexivity).
    cbn [findSeparator]. simpl. f_equal. lia.
  - cbn [Text.allOf] in Ha. apply andb_prop in Ha as [Hc Ha].
    destruct (hexDigit_plain c Hc) as [Hlow Hne].
    change (String c a ++ String ":" b) with (String c (a ++ String ":" b)).
    rewrite (IntFacts.chunks_cons_low c _ Hlow). cbn [findSeparator].
    rewrite Hne, (IH _ Ha). simpl. f_equal. lia.
Qed.

Lemma substring_after (a b : string) :
  String.substring (String.length a + 1)
    (String.length (a ++ String ":" b) - (String.length a + 1)) (a ++ String ":" b)
  = b.
Proof.
  rewrite NameFacts.length_concat. simpl String.length.
  replace (String.length a + S (String.length b) - (String.length a + 1))%nat
    with (String.length b) by lia.
  induction a as [| c a IH].
  - simpl. apply EventFacts.substring_0_length.
  - change (String c a ++ String ":" b) with (String c (a ++ String ":" b)).
    simpl. exact IH.
Qed.

(** The text of a key file of the old layout parses back to the key when
    it has 33 characters or more. *)
Lemma parseKeyFile_content (encKey : EncryptedKey) :
  parseKeyFile (Hex.EncodeToString (Salt encKey) ++ ":"
                ++ Hex.EncodeToString (EncryptedNsec encKey))
  = if (2 * length (Salt encKey) + 1 + 2 * length (EncryptedNsec encKey) <? 33)%nat
    then Err "invalid key file format"
    else Ok encKey.
Proof.
  unfold parseKeyFile, Hex.EncodeToString. rewrite append_colon.
  rewrite NameFacts.length_concat at 1. simpl String.length.
  rewrite !HexFacts.encodeHex_length.
  replace (2 * length (Salt encKey) + S (2 * length (EncryptedNsec encKey)))%nat
    with (2 * length (Salt encKey) + 1 + 2 * length (EncryptedNsec encKey))%nat by lia.
  destruct (_ <? 33)%nat; [reflexivity |].
  rewrite findSeparator_hex by apply hexDigits_encodeHex. cbn [Nat.add].
  rewrite EventFacts.substring_app_take, substring_after.
  rewrite !HexFacts.DecodeString_encodeHex. now destruct encKey.
Qed.

Lemma getKeyFilePath_present (w : World) (h : path) (m : gmap string node) :
  homeDir w = Some h ->
  walk (storagePath h) (root w) = inr (Dir m) ->
  getKeyFilePath w = (Ok (storagePath h ++ ["keys.encrypted"])%list, w).
Proof.
  intros Hh Hm. unfold getKeyFilePath, bind, ret.
  now rewrite (getStorageDir_present w h m Hh Hm), Join_keyFile.
Qed.

Lemma getTrustSessionFilePath_present (w : World) (h : path) (m : gmap string node) :
  homeDir w = Some h ->
  walk (storagePath h) (root w) = inr (Dir m) ->
  getTrustSessionFilePath w = (Ok (storagePath h ++ ["trust_session"])%list, w).
Proof.
  intros Hh Hm. unfold getTrustSessionFilePath, bind, ret.
  now rewrite (getStorageDir_present w h m Hh Hm), Join_sessionFile.
Qed.

Lemma loadEncryptedKey_file (w : World) (h : path) (m : gmap string node) (c : string) :
  homeDir w = Some h ->
  walk (storagePath h) (root w) = inr (Dir m) ->
  fileAt (storagePath h ++ ["keys.encrypted"])%list w = Some c ->
  loadEncryptedKey w = (parseKeyFile c, w).
Proof.
  intros Hh Hm Hf. apply fileAt_walk in Hf.
  unfold loadEncryptedKey, bind, ret. rewrite (getKeyFilePath_present w h m Hh Hm).
  read_file Hf. reflexivity.
Qed.

Lemma saveEncryptedKey_then_load (encKey : EncryptedKey) (w w' : World) :
  saveEncryptedKey encKey w = (Ok tt, w') ->
  loadEncryptedKey w'
  = (if (2 * length (Salt encKey) + 1 + 2 * length (EncryptedNsec encKey) <? 33)%nat
     then Err "invalid key file format"
     else Ok encKey, w').
Proof.
  unfold saveEncryptedKey, getKeyFilePath, bind, ret.
  destruct (getStorageDir w) as [[p | e] w1] eqn:E1; [| discriminate].
  apply getStorageDir_made in E1 as (h & m & Hh & Hh1 & -> & Hm).
  rewrite Join_keyFile. unfold sys.WriteFile, sys.update.
  destruct (WriteFile _ _ (root w1)) as [e | r] eqn:E2; [discriminate |].
  intros Heq. injection Heq as <-.
  destruct (WriteFile_keeps_dirs _ _ _ _ _ _ E2 Hm) as (m' & Hm').
  assert (Hf : fileAt (storagePath h ++ ["keys.encrypted"])%list (setRoot w1 r)
               = Some (Hex.EncodeToString (Salt encKey) ++ ":"
                       ++ Hex.EncodeToString (EncryptedNsec encKey)))
    by (rewrite fileAt_setRoot; now rewrite (ReadFile_WriteFile _ _ _ _ E2)).
  rewrite (loadEncryptedKey_file (setRoot w1 r) h m' _ Hh1 Hm' Hf).
  now rewrite parseKeyFile_content.
Qed.

(** *** [strconv.ParseInt] *)

Section WithStrconv.
Context `{StrconvLib}.

Lemma decimalFrom_ge (s : string) :
  forall a : Z, (0 <= a)%Z -> Text.allOf Text.isDigit s = true ->
                (a <= Text.decimalFrom a s)%Z.
Proof.
  induction s as [| c s IH]; intros a Ha Hs; [simpl; lia |].
  cbn [Text.allOf] in Hs. apply andb_prop in Hs as [Hc Hs].
  cbn [Text.decimalFrom]. etransitivity; [| apply IH; [lia | exact Hs]]. lia.
Qed.

Lemma parseUintLoop_digits (s : string) :
  forall n : Z,
    (0 <= n)%Z -> Text.allOf Text.isDigit s = true ->
    (Text.decimalFrom n s <= 2 ^ 63)%Z ->
    strconv.parseUintLoop s n = inr (Text.decimalFrom n s).
Proof.
  induction s as [| c s IH]; intros n Hn Hs Hmax; [reflexivity |].
  cbn [Text.allOf] in Hs. apply andb_prop in Hs as [Hc Hs].
  cbn [Text.decimalFrom] in Hmax.
  pose proof (decimalFrom_ge s (n * 10 + Z.of_N (N_of_ascii c - 48))
                ltac:(lia) Hs) as Hge.
  cbn [strconv.parseUintLoop Text.decimalFrom]. unfold Text.isDigit in Hc.
  rewrite Hc.
  change ((2 ^ 64 - 1) / 10 + 1)%Z with 1844674407370955162%Z.
  change (2 ^ 64 - 1)%Z with 18446744073709551615%Z.
  change (2 ^ 63)%Z with 9223372036854775808%Z in *.
  destruct (Z.leb_spec 1844674407370955162 n); [lia |].
  destruct (Z.ltb_spec 18446744073709551615 (n * 10 + Z.of_N (N_of_ascii c - 48)));
    [lia |].
  apply IH; [lia | exact Hs | exact Hmax].
Qed.

Lemma uint_text_nonempty (d : Decimal.uint) :
  d <> Decimal.Nil ->
  exists c rest, NilEmpty.string_of_uint d = String c rest /\ Text.isDigit c = true.
Proof. destruct d; [congruence | ..]; intros _; do 2 eexists; split; reflexivity. Qed.

Lemma NilZero_nonnil (d : Decimal.uint) :
  d <> Decimal.Nil -> NilZero.string_of_uint d = NilEmpty.string_of_uint d.
Proof. destruct d; [congruence | reflexivity ..]. Qed.

Lemma ParseInt_digits (c : ascii) (rest : string) :
  Text.allOf Text.isDigit (String c rest) = true ->
  (Text.decimalFrom 0 (String c rest) < 2 ^ 63)%Z ->
  strconv.ParseInt (String c rest) = Ok (Text.decimalFrom 0 (String c rest)).
Proof.
  intros Hd Hv. pose proof Hd as Hc. cbn [Text.allOf] in Hc.
  apply andb_prop in Hc as [Hc _].
  assert (Hplus : Ascii.eqb c "+" = false)
    by (destruct (Ascii.eqb_spec c "+") as [-> |]; [discriminate Hc | reflexivity]).
  assert (Hneg : Ascii.eqb c "-" = false)
    by (destruct (Ascii.eqb_spec c "-") as [-> |]; [discriminate Hc | reflexivity]).
  unfold strconv.ParseInt. rewrite Hplus, Hneg. cbn [orb negb andb].
  unfold strconv.ParseUint.
  rewrite (parseUintLoop_digits _ 0 ltac:(lia) Hd) by lia.
  destruct (Z.leb_spec (2 ^ 63) (Text.decimalFrom 0 (String c rest)));
    [lia | reflexivity].
Qed.

Lemma ParseInt_minus (c : ascii) (rest : string) :
  Text.allOf Text.isDigit (String c rest) = true ->
  (Text.decimalFrom 0 (String c rest) <= 2 ^ 63)%Z ->
  strconv.ParseInt (String "-" (String c rest))
  = Ok (- Text.decimalFrom 0 (String c rest))%Z.
Proof.
  intros Hd Hv. unfold strconv.ParseInt.
  change (Ascii.eqb "-" "-") with true. change (Ascii.eqb "-" "+") with false.
  cbn [orb negb andb]. unfold strconv.ParseUint.
  rewrite (parseUintLoop_digits _ 0 ltac:(lia) Hd) by lia.
  destruct (Z.ltb_spec (2 ^ 63) (Text.decimalFrom 0 (String c rest)));
    [lia | reflexivity].
Qed.

Lemma ParseInt_fmt_d (n : Z) :
  (- 2 ^ 63 <= n < 2 ^ 63)%Z -> strconv.ParseInt (Strs.fmt_d n) = Ok n.
Proof.
  intros Hn. destruct n as [| p | p]; [reflexivity | |].
  - destruct (IntFacts.fmt_d_nonneg (Z.pos p)) as [Hd Hv]; [lia |].
    unfold Text.decimalValue in Hv. unfold Strs.fmt_d in *.
    cbn [Z.to_int NilZero.string_of_int] in *.
    pose proof (DecimalPos.Unsigned.to_uint_nonnil p) as Hnil.
    rewrite (NilZero_nonnil _ Hnil) in *.
    destruct (uint_text_nonempty _ Hnil) as (c & rest & Ht & _).
    rewrite Ht in *. rewrite ParseInt_digits; [now rewrite Hv | exact Hd | lia].
  - destruct (IntFacts.fmt_d_nonneg (Z.pos p)) as [Hd Hv]; [lia |].
    unfold Text.decimalValue in Hv. unfold Strs.fmt_d in *.
    cbn [Z.to_int NilZero.string_of_int] in *.
    pose proof (DecimalPos.Unsigned.to_uint_nonnil p) as Hnil.
    rewrite (NilZero_nonnil _ Hnil) in *.
    destruct (uint_text_nonempty _ Hnil) as (c & rest & Ht & _).
    rewrite Ht in *.
    change (Ascii.Ascii true false true true false true false false) with "-"%char.
    rewrite ParseInt_minus; [now rewrite Hv | exact Hd | lia].
Qed.

Lemma fmt_d_no_colon_any (n : Z) : hasChar ":" (Strs.fmt_d n) = false.
Proof.
  destruct n as [| p | p]; [reflexivity | apply fmt_d_no_colon; lia |].
  pose proof (fmt_d_no_colon (Z.pos p) ltac:(lia)) as Hp.
  unfold Strs.fmt_d in *. cbn [Z.to_int NilZero.string_of_int] in *.
  cbn [hasChar]. now rewrite Hp.
Qed.

Lemma parseTrustSession_content (session : TrustSession) :
  hasChar ":" (SessionToken session) = false ->
  (- 2 ^ 63 <= time.Unix (ExpiresAt session) < 2 ^ 63)%Z ->
  (- 2 ^ 63 <= time.Unix (CreatedAt session) < 2 ^ 63)%Z ->
  parseTrustSession (trustSessionContent session)
  = Ok {| SessionToken := SessionToken session;
          ExpiresAt := time.Unix0 (time.Unix (ExpiresAt session));
          CreatedAt := time.Unix0 (time.Unix (CreatedAt session));
          SessionNsec := SessionNsec session |}.
Proof.
  intros Ht He Hc. unfold parseTrustSession, trustSessionContent. cbv zeta.
  rewrite !append_colon.
  rewrite (Split_colon _ _ Ht).
  rewrite Split_colon by apply fmt_d_no_colon_any.
  rewrite Split_colon by apply fmt_d_no_colon_any.
  rewrite (Split_plain _ _ (hex_no_colon _)).
  rewrite !ParseInt_fmt_d by assumption.
  now rewrite HexFacts.DecodeString_encodeHex.
Qed.

Lemma loadTrustSession_file (w : World) (h : path) (m : gmap string node) (c : string) :
  homeDir w = Some h ->
  walk (storagePath h) (root w) = inr (Dir m) ->
  fileAt (storagePath h ++ ["trust_session"])%list w = Some c ->
  loadTrustSession w = (parseTrustSession c, w).
Proof.
  intros Hh Hm Hf. apply fileAt_walk in Hf.
  unfold loadTrustSession, bind, ret.
  rewrite (getTrustSessionFilePath_present w h m Hh Hm).
  read_file Hf. reflexivity.
Qed.

Lemma saveTrustSession_then_load (session : TrustSession) (w w' : World) :
  hasChar ":" (SessionToken session) = false ->
  (- 2 ^ 63 <= time.Unix (ExpiresAt session) < 2 ^ 63)%Z ->
  (- 2 ^ 63 <= time.Unix (CreatedAt session) < 2 ^ 63)%Z ->
  saveTrustSession session w = (Ok tt, w') ->
  loadTrustSession w'
  = (Ok {| SessionToken := SessionToken session;
           ExpiresAt := time.Unix0 (time.Unix (ExpiresAt session));
           CreatedAt := time.Unix0 (time.Unix (CreatedAt session));
           SessionNsec := SessionNsec session |}, w').
Proof.
  intros Ht He Hc. unfold saveTrustSession, bind, ret.
  destruct (getStorageDir w) as [[p | e] w1] eqn:E1; [| discriminate].
  apply getStorageDir_made in E1 as (h & m & Hh & Hh1 & -> & Hm).
  rewrite Join_sessionFile. unfold sys.WriteFile, sys.update.
  destruct (WriteFile _ _ (root w1)) as [e | r] eqn:E2; [discriminate |].
  intros Heq. injection Heq as <-.
  destruct (WriteFile_keeps_dirs _ _ _ _ _ _ E2 Hm) as (m' & Hm').
  assert (Hf : fileAt (storagePath h ++ ["trust_session"])%list (setRoot w1 r)
               = Some (trustSessionContent session))
    by (rewrite fileAt_setRoot; now rewrite (ReadFile_WriteFile _ _ _ _ E2)).
  rewrite (loadTrustSession_file (setRoot w1 r) h m' _ Hh1 Hm' Hf).
  now rewrite parseTrustSession_content.
Qed.

End WithStrconv.

End LegacyFacts.

(** X20. A key saved in the single-account layout is the key loaded from it,
    unless its file comes to fewer than 33 characters: then
    [loadEncryptedKey] turns down what [saveEncryptedKey] wrote.  With the
    16-byte salt of [encryptNsec] the file is always long enough. *)
Theorem single_account_key_file_roundtrip `{ScryptLib} (encKey : EncryptedKey)
  (w w' : World) :
  saveEncryptedKey encKey w = (Ok tt, w') ->
  loadEncryptedKey w'
  = (if (2 * length (Salt encKey) + 1 + 2 * length (EncryptedNsec encKey) <? 33)%nat
     then Err "invalid key file format"
     else Ok encKey, w')
  /\ (forall rnd nsec password,
        encryptNsec rnd nsec password = Ok encKey ->
        loadEncryptedKey w' = (Ok encKey, w')).
Proof.
  intros Hs. split; [exact (LegacyFacts.saveEncryptedKey_then_load encKey w w' Hs) |].
  intros rnd nsec password He.
  assert (Hsalt : length (Salt encKey) = 16%nat).
  { clear Hs. unfold encryptNsec, rand_Read in He.
    destruct (rand_fail rnd); [discriminate |].
    rewrite scrypt_Key_fixed in He. injection He as <-. reflexivity. }
  rewrite (LegacyFacts.saveEncryptedKey_then_load encKey w w' Hs), Hsalt.
  destruct (Nat.ltb_spec (2 * 16 + 1 + 2 * length (EncryptedNsec encKey)) 33);
    [lia | reflexivity].
Qed.

(** X21. A trust session saved in the single-account layout is loaded back
    with its times cut to whole seconds; times before 1970 are read back
    as well, which the per-account loader turns down. *)
Theorem single_account_trust_session_roundtrip `{StrconvLib}
  (session : TrustSession) (w w' : World) :
  Spec.hasChar ":" (SessionToken session) = false ->
  (- 2 ^ 63 <= time.Unix (ExpiresAt session) < 2 ^ 63)%Z ->
  (- 2 ^ 63 <= time.Unix (CreatedAt session) < 2 ^ 63)%Z ->
  saveTrustSession session w = (Ok tt, w') ->
  loadTrustSession w'
  = (Ok {| SessionToken := SessionToken session;
           ExpiresAt := time.Unix0 (time.Unix (ExpiresAt session));
           CreatedAt := time.Unix0 (time.Unix (CreatedAt session));
           SessionNsec := SessionNsec session |}, w')
  /\ ((time.Unix (ExpiresAt session) < 0)%Z ->
      isOk (parseAccountTrustSession (trustSessionContent session)) = false).
Proof.
  intros Ht He Hc Hs. split.
  - now apply (LegacyFacts.saveTrustSession_then_load session w w').
  - intros Hneg. unfold parseAccountTrustSession, trustSessionContent. cbv zeta.
    rewrite !KeepFacts.append_colon.
    rewrite (KeepFacts.Split_colon _ _ Ht).
    rewrite KeepFacts.Split_colon by apply LegacyFacts.fmt_d_no_colon_any.
    rewrite KeepFacts.Split_colon by apply LegacyFacts.fmt_d_no_colon_any.
    rewrite (PathFacts.Split_plain _ _ (KeepFacts.hex_no_colon _)).
    destruct (time.Unix (ExpiresAt session)) as [| p | p] eqn:Ex; try lia.
    unfold Strs.fmt_d. cbn [Z.to_int NilZero.string_of_int].
    change (Ascii.Ascii true false true true false true false false) with "-"%char.
    unfold parseInt64. now rewrite IntFacts.parse_other_low.
Qed.

(** ** Migration *)

Module MigrateFacts.
Import os Spec State TreeFacts PathFacts IOFacts RemoveFacts StoreFacts KeepFacts
  HandlerFacts LegacyFacts.

Lemma Remove_failed_no_file (p : path) (t : node) (e : errno) :
  p <> [] -> Remove p t = inl e ->
  match ReadFile p t with inr c => Some c | inl _ => None end = None.
Proof.
  intros Hp Hrm. unfold ReadFile.
  destruct (walk p t) as [e' | [data | sub]] eqn:Ew; try reflexivity.
  destruct (Remove_file p t data Hp Ew) as (t' & Ht' & _). congruence.
Qed.

(** What [os.Remove], its error ignored, leaves of the files. *)
Lemma Remove_ignored (p : path) (w : World) :
  p <> [] ->
  let w' := snd (sys.Remove p w) in
  homeDir w' = homeDir w
  /\ fileAt p w' = None
  /\ (forall q, q <> p -> fileAt q w' = fileAt q w)
  /\ (forall q m, q <> p -> walk q (root w) = inr (Dir m) ->
                  exists m', walk q (root w') = inr (Dir m')).
Proof.
  intros Hp. unfold sys.Remove, sys.update.
  destruct (Remove p (root w)) as [e | r] eqn:E; cbn [snd].
  - split; [reflexivity |]. split; [exact (Remove_failed_no_file p _ e Hp E) |].
    split; [reflexivity | eauto].
  - split; [reflexivity |]. split; [| split].
    + rewrite fileAt_setRoot. unfold ReadFile. now rewrite (Remove_gone _ _ _ E).
    + intros q Hq. rewrite fileAt_setRoot. apply (Remove_other_files _ _ _ _ E Hq).
    + intros q m Hq Hm. rewrite root_setRoot. apply (Remove_keeps_dirs _ _ _ _ _ E Hm Hq).
Qed.

(** The two removals that end a migration. *)
Lemma old_files_removed (w : World) (h : path) :
  settled w h ->
  let oldKey := (storagePath h ++ ["keys.encrypted"])%list in
  let oldTrust := (storagePath h ++ ["trust_session"])%list in
  let w' := snd (sys.Remove oldTrust (snd (sys.Remove oldKey w))) in
  settled w' h
  /\ fileAt oldKey w' = None
  /\ fileAt oldTrust w' = None
  /\ (forall q, q <> oldKey -> q <> oldTrust -> fileAt q w' = fileAt q w).
Proof.
  intros Hs oldKey oldTrust.
  assert (Hk : oldKey <> []) by (unfold oldKey; destruct (storagePath h); discriminate).
  assert (Ht : oldTrust <> []) by (unfold oldTrust; destruct (storagePath h); discriminate).
  assert (Hkt : oldKey <> oldTrust) by (apply last_differs; discriminate).
  destruct (Remove_ignored oldKey w Hk) as (Hh1 & Hg1 & Ho1 & Hd1).
  set (w1 := snd (sys.Remove oldKey w)) in *.
  destruct (Remove_ignored oldTrust w1 Ht) as (Hh2 & Hg2 & Ho2 & Hd2).
  set (w2 := snd (sys.Remove oldTrust w1)) in *. cbv zeta.
  destruct Hs as (Hh & m & Hm).
  assert (Ha1 : accountsPath h <> oldKey) by (apply last_differs; discriminate).
  assert (Ha2 : accountsPath h <> oldTrust) by (apply last_differs; discriminate).
  destruct (Hd1 _ _ Ha1 Hm) as (m1 & Hm1). destruct (Hd2 _ _ Ha2 Hm1) as (m2 & Hm2).
  split; [split; [congruence | eauto] |].
  split; [rewrite Ho2 by exact Hkt; exact Hg1 |]. split; [exact Hg2 |].
  intros q Hq1 Hq2. rewrite Ho2 by exact Hq2. now apply Ho1.
Qed.

Lemma sys_Remove_pair {A} (p : path) (k : option errno -> IO A) (w : World) :
  bind (sys.Remove p) k w = k (fst (sys.Remove p w)) (snd (sys.Remove p w)).
Proof. unfold bind. now destruct (sys.Remove p w). Qed.

End MigrateFacts.

Section Migration.
Context `{Bech32Lib} `{Secp256k1Lib} `{ScryptLib} `{StrconvLib}.
Import os Spec State TreeFacts PathFacts IOFacts RemoveFacts StoreFacts KeepFacts
  HandlerFacts LegacyFacts MigrateFacts.

Lemma migrate_nothing_to_do (readPassword : Result string) (w : World) (h : path) :
  homeDir w = Some h ->
  walk (storagePath h ++ ["keys.encrypted"])%list (root w) = inl ENOENT ->
  exists w', migrateToMultiAccount readPassword w = (Ok tt, w') /\ sameFiles w w'.
Proof.
  intros Hh Hgone.
  destruct (MkdirAll_ok_of_ENOENT _ _ _ Hgone) as (t' & Hmk).
  assert (Hstill : walk (storagePath h ++ ["keys.encrypted"])%list t' = inl ENOENT).
  { rewrite (MkdirAll_walk_other _ _ _ _ Hmk); [exact Hgone |].
    apply longer_not_prefix. discriminate. }
  unfold migrateToMultiAccount. unfold bind at 1.
  rewrite getStorageDir_run, Hh, Hmk. cbv beta iota zeta. rewrite Join_keyFile.
  unfold bind at 1. unfold sys.Stat, sys.query, Stat. rewrite root_setRoot, Hstill.
  cbn [IsNotExist]. eexists. split; [reflexivity |].
  exact (sameFiles_MkdirAll w _ _ Hmk).
Qed.

Lemma migrate_already_done (readPassword : Result string) (w : World) (h : path)
  (c : string) (l : list AccountInfo) :
  settled w h ->
  fileAt (storagePath h ++ ["keys.encrypted"])%list w = Some c ->
  fst (listAccounts w) = Ok l -> l <> [] ->
  exists w',
    migrateToMultiAccount readPassword w = (Ok tt, w')
    /\ fileAt (storagePath h ++ ["keys.encrypted"])%list w' = None
    /\ fileAt (storagePath h ++ ["trust_session"])%list w' = None
    /\ (forall q,
          q <> (storagePath h ++ ["keys.encrypted"])%list ->
          q <> (storagePath h ++ ["trust_session"])%list ->
          fileAt q w' = fileAt q w).
Proof.
  intros Hs Hf Hl Hne. pose proof Hs as (Hh & m & Hm).
  destruct (listAccounts_settled w h m Hh Hm) as (l' & Hrun & _).
  rewrite Hrun in Hl. injection Hl as ->.
  destruct (old_files_removed w h Hs) as (_ & Hg1 & Hg2 & Ho).
  apply fileAt_walk in Hf.
  unfold migrateToMultiAccount. unfold bind at 1.
  rewrite (getStorageDir_settled w h Hs). cbv beta iota zeta.
  rewrite Join_keyFile, Join_sessionFile.
  unfold bind at 1. unfold sys.Stat at 1, sys.query, Stat. rewrite Hf. cbv iota zeta.
  unfold bind at 1. rewrite Hrun.
  destruct l as [| a l]; [congruence |]. cbn [length Nat.ltb Nat.leb].
  rewrite sys_Remove_pair, sys_Remove_pair. unfold ret.
  eexists. split; [reflexivity |]. auto.
Qed.

(** A migration that was carried out. *)
Lemma migrate_carried_out (password : string) (w w' : World) (h : path)
  (content : string) :
  settled w h ->
  fileAt (storagePath h ++ ["keys.encrypted"])%list w = Some content ->
  fst (listAccounts w) = Ok [] ->
  migrateToMultiAccount (Ok password) w = (Ok tt, w') ->
  exists encKey nsec key,
    parseKeyFile content = Ok encKey
    /\ decryptNsec encKey password = Ok nsec
    /\ nsecToPrivateKey nsec = Ok key
    /\ (accountName (privateKeyToNpub key) = true ->
        loadAccountEncryptedKey (privateKeyToNpub key) w' = (Ok encKey, w')
        /\ fst (loadActiveAccount w') = Ok (Strs.TrimSpace (privateKeyToNpub key))
        /\ fileAt (storagePath h ++ ["keys.encrypted"])%list w' = None
        /\ fileAt (storagePath h ++ ["trust_session"])%list w' = None).
Proof.
  intros Hs Hf Hl. pose proof Hs as (Hh & m & Hm).
  destruct (settled_storage w h Hs) as (m0 & Hm0).
  destruct (listAccounts_settled w h m Hh Hm) as (l' & Hrun & _).
  rewrite Hrun in Hl. injection Hl as ->.
  pose proof (fileAt_walk _ _ _ Hf) as Hwalk.
  unfold migrateToMultiAccount. unfold bind at 1.
  rewrite (getStorageDir_settled w h Hs). cbv beta iota zeta.
  rewrite Join_keyFile, Join_sessionFile.
  unfold bind at 1. unfold sys.Stat at 1, sys.query, Stat. rewrite Hwalk. cbv iota zeta.
  unfold bind at 1. rewrite Hrun. cbn [length Nat.ltb Nat.leb].
  unfold bind at 1. rewrite (loadEncryptedKey_file w h m0 content Hh Hm0 Hf).
  destruct (parseKeyFile content) as [encKey | e]; [| discriminate].
  rewrite decryptNsec_total.
  set (nsec := string_of_list_byte _).
  destruct (nsecToPrivateKey nsec) as [key | e] eqn:Ek; [| discriminate].
  set (npub := privateKeyToNpub key).
  unfold bind at 1.
  destruct (saveAccountEncryptedKey npub encKey w) as [[[] | e] w2] eqn:Es;
    [| discriminate].
  apply saveAccountEncryptedKey_made in Es as (h2 & Hh2 & Hs2 & Hf2).
  assert (h2 = h) as -> by congruence.
  unfold bind at 1.
  destruct (migrateTrustSession (storagePath h ++ ["trust_session"])%list npub w2)
    as [[] w3] eqn:Et.
  unfold bind at 1.
  destruct (saveActiveAccount npub w3) as [[[] | e] w4] eqn:Ea; [| discriminate].
  rewrite sys_Remove_pair, sys_Remove_pair. unfold ret.
  intros Heq. injection Heq as <-.
  exists encKey, nsec, key. split; [reflexivity |].
  split; [apply decryptNsec_total |]. split; [exact Ek |].
  intros Hname. fold npub in Hname. fold npub.
  (* the state after the trust session was carried over *)
  assert (H3 : settled w3 h /\ fileAt (keyFileOf h npub) w3 = fileAt (keyFileOf h npub) w2).
  { revert Et. unfold migrateTrustSession, bind, ret.
    unfold sys.Stat, sys.query, Stat.
    destruct (walk _ (root w2)) as [e | n]; [intros Heq; now injection Heq as <- |].
    destruct (settled_storage w2 h Hs2) as (m2 & Hm2). pose proof Hs2 as (Hh2' & _).
    unfold loadTrustSession, bind, ret.
    rewrite (getTrustSessionFilePath_present w2 h m2 Hh2' Hm2).
    unfold sys.Stat, sys.ReadFile, sys.query.
    destruct (match Stat _ (root w2) with inl e => IsNotExist e | inr _ => false end);
      [intros Heq; now injection Heq as <- |].
    destruct (ReadFile _ (root w2)) as [e | c2]; [intros Heq; now injection Heq as <- |].
    destruct (parseTrustSession c2) as [oldSession | e];
      [| intros Heq; now injection Heq as <-].
    destruct (saveAccountTrustSession npub oldSession w2) as [r w3'] eqn:Ess.
    intros Heq. injection Heq as <-.
    destruct (saveAccountTrustSession_settled _ _ _ _ _ _ Hs2 Ess) as (Hs3 & Hf3 & _).
    split; [exact Hs3 |]. apply Hf3.
    rewrite keyFileOf_last. apply last_differs. discriminate. }
  destruct H3 as (Hs3 & Hf3).
  destruct (saveActiveAccount_settled _ _ _ _ _ Hs3 Ea) as (Hs4 & Hf4 & _).
  pose proof (saveActiveAccount_then_load _ _ _ Ea) as Hact4.
  destruct (old_files_removed w4 h Hs4) as (Hs5 & Hg1 & Hg2 & Ho).
  set (w5 := snd (sys.Remove _ (snd (sys.Remove _ w4)))) in *.
  assert (Hkeyname : keyFileOf h npub = keyFilePath h npub)
    by (apply GuardFacts.keyFileOf_name; exact Hname).
  assert (Hkey5 : fileAt (keyFileOf h npub) w5
                  = Some (Hex.encodeHex (Salt encKey) ++ ":"
                          ++ Hex.encodeHex (EncryptedNsec encKey))).
  { rewrite Ho, Hf4, Hf3; [exact Hf2 | | |].
    - rewrite keyFileOf_last. unfold activePath. apply last_differs. discriminate.
    - rewrite Hkeyname. unfold keyFilePath, accountPath, accountsPath.
      rewrite <- !app_assoc. intros Heq. apply app_inv_head in Heq. discriminate.
    - rewrite keyFileOf_last. apply last_differs. discriminate. }
  split; [| split; [| split; [exact Hg1 | exact Hg2]]].
  - rewrite (loadAccountEncryptedKey_file w5 h npub _ Hs5 Hkey5).
    now rewrite parseEncryptedKey_content.
  - rewrite (loadActiveAccount_settled w5 h Hs5). cbn [fst].
    rewrite (loadActiveAccount_settled w4 h Hs4) in Hact4.
    injection Hact4 as Hact4.
    assert (Hsame : fileAt (activePath h) w5 = fileAt (activePath h) w4).
    { apply Ho; unfold activePath; apply last_differs; discriminate. }
    unfold fileAt, ReadFile in Hsame.
    destruct (walk (activePath h) (root w4)) as [e4 | [c4 | s4]] eqn:E4;
      destruct (walk (activePath h) (root w5)) as [e5 | [c5 | s5]] eqn:E5;
      cbn [activeAnswer] in *; try discriminate; try congruence.
    + destruct (IsNotExist e4); discriminate.
    + destruct (IsNotExist e4); discriminate.
Qed.

End Migration.

(** X22. Where no key file of the single-account layout is in place the
    migration does nothing: it succeeds without asking for the password
    and leaves every file as it was. *)
Theorem migration_without_old_key_changes_nothing
  `{Bech32Lib} `{Secp256k1Lib} `{ScryptLib} `{StrconvLib}
  (readPassword : Result string) (w : World) (h : path) :
  homeDir w = Some h ->
  os.walk (Spec.storagePath h ++ ["keys.encrypted"])%list (root w) = inl ENOENT ->
  exists w', migrateToMultiAccount readPassword w = (Ok tt, w') /\ State.sameFiles w w'.
Proof. apply migrate_nothing_to_do. Qed.

(** X23. Where the listing shows an account, the migration takes the old key
    for migrated: whatever the key file of the single-account layout
    holds and whatever the prompt for the password would return, it
    deletes that file and the session file beside it, and leaves every
    other file as it was. *)
Theorem migration_discards_old_key_when_accounts_exist
  `{Bech32Lib} `{Secp256k1Lib} `{ScryptLib} `{StrconvLib}
  (readPassword : Result string) (w : World) (h : path)
  (c : string) (l : list AccountInfo) :
  State.settled w h ->
  State.fileAt (Spec.storagePath h ++ ["keys.encrypted"])%list w = Some c ->
  fst (listAccounts w) = Ok l -> l <> [] ->
  exists w',
    migrateToMultiAccount readPassword w = (Ok tt, w')
    /\ State.fileAt (Spec.storagePath h ++ ["keys.encrypted"])%list w' = None
    /\ State.fileAt (Spec.storagePath h ++ ["trust_session"])%list w' = None
    /\ (forall q,
          q <> (Spec.storagePath h ++ ["keys.encrypted"])%list ->
          q <> (Spec.storagePath h ++ ["trust_session"])%list ->
          State.fileAt q w' = State.fileAt q w).
Proof. apply migrate_already_done. Qed.

(** X24. A migration that succeeds on a store without accounts has moved the
    key: the old key file parsed and, under the password given, decrypted
    to an nsec; the account of that nsec now holds the same encrypted key
    and is the active account, and the two old files are gone. *)
Theorem migration_moves_key_to_account
  `{Bech32Lib} `{Secp256k1Lib} `{ScryptLib} `{StrconvLib}
  (password : string) (w w' : World) (h : path) (content : string) :
  State.settled w h ->
  State.fileAt (Spec.storagePath h ++ ["keys.encrypted"])%list w = Some content ->
  fst (listAccounts w) = Ok [] ->
  migrateToMultiAccount (Ok password) w = (Ok tt, w') ->
  exists encKey nsec key,
    parseKeyFile content = Ok encKey
    /\ decryptNsec encKey password = Ok nsec
    /\ nsecToPrivateKey nsec = Ok key
    /\ (Spec.accountName (privateKeyToNpub key) = true ->
        loadAccountEncryptedKey (privateKeyToNpub key) w' = (Ok encKey, w')
        /\ fst (loadActiveAccount w') = Ok (Strs.TrimSpace (privateKeyToNpub key))
        /\ State.fileAt (Spec.storagePath h ++ ["keys.encrypted"])%list w' = None
        /\ State.fileAt (Spec.storagePath h ++ ["trust_session"])%list w' = None).
Proof. apply migrate_carried_out. Qed.

(** ** Keys and events *)

Module KeyFacts.

Lemma hex_not_bech32 (data : list byte) :
  Strs.HasPrefix (Hex.encodeHex data) "nsec1" = false.
Proof.
  destruct data as [| b rest]; [reflexivity |].
  cbn [Hex.encodeHex]. unfold Strs.HasPrefix. cbn [String.prefix].
  destruct (Ascii.ascii_dec "n" (Hex.hexChar (Bytes.hi b))) as [Heq |]; [| reflexivity].
  exfalso. revert Heq. destruct b; vm_compute; discriminate.
Qed.

End KeyFacts.

(** X25. An nsec given as the hexadecimal text of 32 bytes is the private key
    of those bytes; the hexadecimal text of any other number of bytes is
    turned down with that number. *)
Theorem hex_nsec_is_key_of_its_bytes `{Bech32Lib} `{Secp256k1Lib} (data : list byte) :
  nsecToPrivateKey (Hex.encodeHex data)
  = if (length data =? 32)%nat then Ok (PrivKeyFromBytes data)
    else Err ("nsec must be 32 bytes, got " ++ Strs.fmt_d (Z.of_nat (length data))).
Proof.
  unfold nsecToPrivateKey. rewrite KeyFacts.hex_not_bech32.
  rewrite HexFacts.DecodeString_encodeHex.
  now destruct (length data =? 32)%nat.
Qed.

(** X26. The event hash depends on the five fields [pubkey], [created_at],
    [kind], [tags] and [content] alone: two events that agree on them have
    one hash, whatever else they hold, an [id] or a [sig] for instance. *)
Theorem event_hash_ignores_other_fields `{JsonLib} `{GoArch} `{Sha256Lib}
  (e1 e2 : string) (m1 m2 : list (string * JValue)) :
  json_Unmarshal e1 = Ok m1 ->
  json_Unmarshal e2 = Ok m2 ->
  (forall k, In k ["pubkey"; "created_at"; "kind"; "tags"; "content"] ->
             json.get m1 k = json.get m2 k) ->
  createEventHash e1 = createEventHash e2.
Proof.
  intros H1' H2' Hsame. unfold createEventHash. rewrite H1', H2'.
  rewrite !(Hsame _) by (simpl; tauto). reflexivity.
Qed.

(** ** The key stream *)

Module StreamFacts.

(** Byte [i] of the loop's output is byte [i] of its input under the key
    byte the counter selects. *)
Lemma xorLoop_nth (data key : list byte) (s i : nat) :
  (i < length data)%nat ->
  nth i (xorLoop s data key) x00
  = Bytes.xor (nth i data x00) (nth ((s + i) mod length key) key x00).
Proof.
  revert s i. induction data as [| b rest IH]; intros s i Hi; simpl in Hi; [lia |].
  destruct i as [| i]; simpl.
  - now rewrite Nat.add_0_r.
  - rewrite IH by lia. do 3 f_equal. lia.
Qed.

(** Two bytes under one key byte: the key byte cancels. *)
Lemma xor_same_key (a b k : byte) :
  Bytes.xor (Bytes.xor a k) (Bytes.xor b k) = Bytes.xor a b.
Proof.
  apply BytesFacts.to_N_inj. rewrite !BytesFacts.to_N_xor.
  rewrite N.lxor_assoc, <- (N.lxor_assoc (Byte.to_N k)).
  rewrite (N.lxor_comm (Byte.to_N k) (Byte.to_N b)).
  rewrite N.lxor_assoc, N.lxor_nilpotent, N.lxor_0_r.
  reflexivity.
Qed.

End StreamFacts.

(** X27. The 32 bytes that scrypt derives are used over again from byte 32
    of the nsec on: two bytes of the ciphertext that are 32 apart are
    encrypted under one key byte, so that their exclusive or is that of
    the two bytes of the nsec, whatever the password and the salt.  For an
    nsec of 64 hexadecimal digits the key file thus shows the exclusive
    or of its two halves. *)
Theorem key_stream_repeats_after_32_bytes `{ScryptLib} (rnd : Entropy)
  (nsec password : string) (encKey : EncryptedKey) (i : nat) :
  encryptNsec rnd nsec password = Ok encKey ->
  (i + 32 < String.length nsec)%nat ->
  Bytes.xor (nth i (EncryptedNsec encKey) x00) (nth (i + 32) (EncryptedNsec encKey) x00)
  = Bytes.xor (nth i (list_byte_of_string nsec) x00)
      (nth (i + 32) (list_byte_of_string nsec) x00).
Proof.
  unfold encryptNsec. intros He Hi.
  destruct (rand_Read rnd saltLen) as [salt | e]; [| discriminate He].
  rewrite scrypt_Key_fixed in He. injection He as <-. cbn [EncryptedNsec].
  assert (Hlen : length (list_byte_of_string nsec) = String.length nsec).
  { rewrite <- (string_of_list_byte_of_string nsec) at 2.
    now rewrite string_of_list_byte_length. }
  rewrite !StreamFacts.xorLoop_nth by lia.
  cbn [length Nat.add].
  replace ((i + 32) mod 32)%nat with (i mod 32)%nat
    by (rewrite <- (Nat.Div0.mod_add i 1 32); f_equal; lia).
  apply StreamFacts.xor_same_key.
Qed.

(** * The further properties at concrete inputs *)

Lemma trust_session_decrypts_to_nsec_witness :
  createTrustSession Sample.counting Sample.noon "nsec1example" = Ok Scenario.session
  /\ decryptTrustSessionNsec Scenario.session = Some (Ok "nsec1example").
Proof.
  assert (Hc : createTrustSession Sample.counting Sample.noon "nsec1example"
               = Ok Scenario.session) by (vm_compute; reflexivity).
  split; [exact Hc |].
  exact (trust_session_decrypts_to_nsec Sample.counting Sample.noon "nsec1example"
           Scenario.session Hc).
Defined.

(** One second before the 24 hours are over the session is valid; when
    they are over it is not. *)
Lemma trust_session_lasts_24_hours_witness :
  Spec.normal Sample.noon
  /\ Spec.normal (time.Unix0 1700086399)
  /\ createTrustSession Sample.counting Sample.noon "nsec1example" = Ok Scenario.session
  /\ isTrustSessionValid (time.Unix0 1700086399) Scenario.session = true.
Proof.
  assert (Hn : Spec.normal Sample.noon) by (unfold Spec.normal; simpl; lia).
  assert (Ht : Spec.normal (time.Unix0 1700086399)) by (unfold Spec.normal; simpl; lia).
  assert (Hc : createTrustSession Sample.counting Sample.noon "nsec1example"
               = Ok Scenario.session) by (vm_compute; reflexivity).
  split; [exact Hn |]. split; [exact Ht |]. split; [exact Hc |].
  apply (proj2 (trust_session_lasts_24_hours Sample.counting Sample.noon
                  (time.Unix0 1700086399) "nsec1example" Scenario.session Hn Ht Hc)).
  - left. reflexivity.
  - vm_compute. reflexivity.
Defined.

Lemma account_key_file_roundtrip_witness :
  saveAccountEncryptedKey Sample.npubA Scenario.storedKey Sample.freshWorld
  = (Ok tt, Cases.keyWorld)
  /\ loadAccountEncryptedKey Sample.npubA Cases.keyWorld
     = (Ok Scenario.storedKey, Cases.keyWorld)
  /\ accountExists Sample.npubA Cases.keyWorld = (true, Cases.keyWorld).
Proof.
  assert (Hs : saveAccountEncryptedKey Sample.npubA Scenario.storedKey Sample.freshWorld
               = (Ok tt, Cases.keyWorld)) by (vm_compute; reflexivity).
  split; [exact Hs |].
  exact (account_key_file_roundtrip Sample.npubA Scenario.storedKey Sample.freshWorld
           Cases.keyWorld Hs).
Defined.

Lemma active_account_file_roundtrip_witness :
  saveActiveAccount Cases.paddedName Sample.freshWorld = (Ok tt, Cases.activeWorld)
  /\ loadActiveAccount Cases.activeWorld
     = (Ok (Strs.TrimSpace Cases.paddedName), Cases.activeWorld)
  /\ Strs.TrimSpace Cases.paddedName = Sample.npubA.
Proof.
  assert (Hs : saveActiveAccount Cases.paddedName Sample.freshWorld
               = (Ok tt, Cases.activeWorld)) by (vm_compute; reflexivity).
  split; [exact Hs |].
  split; [| vm_compute; reflexivity].
  exact (active_account_file_roundtrip Cases.paddedName Sample.freshWorld
           Cases.activeWorld Hs).
Defined.

Lemma account_trust_session_file_roundtrip_witness :
  Spec.hasChar ":" (SessionToken Scenario.session) = false
  /\ (0 <= time.Unix (ExpiresAt Scenario.session) < 2 ^ 63)%Z
  /\ (0 <= time.Unix (CreatedAt Scenario.session) < 2 ^ 63)%Z
  /\ saveAccountTrustSession Sample.npubA Scenario.session Sample.listingWorld
     = (Ok tt, Scenario.sessionWorld)
  /\ loadAccountTrustSession Sample.npubA Scenario.sessionWorld
     = (Ok {| SessionToken := SessionToken Scenario.session;
              ExpiresAt := time.Unix0 (time.Unix (ExpiresAt Scenario.session));
              CreatedAt := time.Unix0 (time.Unix (CreatedAt Scenario.session));
              SessionNsec := SessionNsec Scenario.session |}, Scenario.sessionWorld).
Proof.
  assert (Hc : Spec.hasChar ":" (SessionToken Scenario.session) = false)
    by (vm_compute; reflexivity).
  assert (He : (0 <= time.Unix (ExpiresAt Scenario.session) < 2 ^ 63)%Z)
    by (vm_compute; split; congruence).
  assert (Hb : (0 <= time.Unix (CreatedAt Scenario.session) < 2 ^ 63)%Z)
    by (vm_compute; split; congruence).
  assert (Hs : saveAccountTrustSession Sample.npubA Scenario.session Sample.listingWorld
               = (Ok tt, Scenario.sessionWorld)) by (vm_compute; reflexivity).
  split; [exact Hc |]. split; [exact He |]. split; [exact Hb |]. split; [exact Hs |].
  exact (account_trust_session_file_roundtrip Sample.npubA Scenario.session
           Sample.listingWorld Scenario.sessionWorld Hc He Hb Hs).
Defined.

Lemma trust_session_survives_restart_witness :
  Spec.normal Sample.noon
  /\ (0 <= time.Unix Sample.noon)%Z /\ (time.Unix Sample.noon + 86400 <= time.maxUnix)%Z
  /\ createTrustSession Sample.counting Sample.noon "nsec1example" = Ok Scenario.session
  /\ saveAccountTrustSession Sample.npubA Scenario.session Sample.listingWorld
     = (Ok tt, Scenario.sessionWorld)
  /\ exists loaded,
       loadAccountTrustSession Sample.npubA Scenario.sessionWorld
       = (Ok loaded, Scenario.sessionWorld)
       /\ decryptTrustSessionNsec loaded = Some (Ok "nsec1example")
       /\ ExpiresAt loaded = time.Unix0 (time.Unix Sample.noon + 86400)
       /\ (forall t, Spec.normal t ->
             (isTrustSessionValid t loaded = true
              <-> (Spec.instant t < (time.Unix Sample.noon + 86400) * 1000000000)%Z)).
Proof.
  assert (Hn : Spec.normal Sample.noon) by (unfold Spec.normal; simpl; lia).
  assert (H0 : (0 <= time.Unix Sample.noon)%Z) by (vm_compute; congruence).
  assert (H1 : (time.Unix Sample.noon + 86400 <= time.maxUnix)%Z)
    by (vm_compute; congruence).
  assert (Hc : createTrustSession Sample.counting Sample.noon "nsec1example"
               = Ok Scenario.session) by (vm_compute; reflexivity).
  assert (Hs : saveAccountTrustSession Sample.npubA Scenario.session Sample.listingWorld
               = (Ok tt, Scenario.sessionWorld)) by (vm_compute; reflexivity).
  split; [exact Hn |]. split; [exact H0 |]. split; [exact H1 |].
  split; [exact Hc |]. split; [exact Hs |].
  exact (trust_session_survives_restart Sample.counting Sample.noon "nsec1example"
           Sample.npubA Scenario.session Sample.listingWorld Scenario.sessionWorld
           Hn H0 H1 Hc Hs).
Defined.

Lemma clear_account_trust_session_removes_that_file_only_witness :
  clearAccountTrustSession Sample.npubA Scenario.sessionWorld = (Ok tt, Cases.clearedWorld)
  /\ exists h,
       homeDir Scenario.sessionWorld = Some h /\
       loadAccountTrustSession Sample.npubA Cases.clearedWorld
       = (Err ("no trust session for account: " ++ Sample.npubA), Cases.clearedWorld) /\
       (forall q,
          q <> os.Join (os.Join (Spec.accountsPath h) (sanitizeNpubForPath Sample.npubA))
                 "trust_session" ->
          State.fileAt q Cases.clearedWorld = State.fileAt q Scenario.sessionWorld).
Proof.
  assert (Hs : clearAccountTrustSession Sample.npubA Scenario.sessionWorld
               = (Ok tt, Cases.clearedWorld)) by (vm_compute; reflexivity).
  split; [exact Hs |].
  exact (clear_account_trust_session_removes_that_file_only Sample.npubA
           Scenario.sessionWorld Cases.clearedWorld Hs).
Defined.

(** The account of [Scenario.storedWorld] is removed under a password
    that is not its own. *)
Lemma remove_account_ignores_password_value_witness :
  handleRemoveAccount (H := RefBech32.lib) (H0 := RefSecp256k1.lib)
    (H1 := StandInScrypt.lib) Scenario.daemonThree
    (Cases.removeRequest Sample.npubOne "12345678") Scenario.storedWorld
  = handleRemoveAccount (H := RefBech32.lib) (H0 := RefSecp256k1.lib)
      (H1 := StandInScrypt.lib) Scenario.daemonThree
      (Cases.removeRequest Sample.npubOne "not the password") Scenario.storedWorld.
Proof.
  apply (remove_account_ignores_password_value (H := RefBech32.lib)
           (H0 := RefSecp256k1.lib) (H1 := StandInScrypt.lib) Scenario.daemonThree
           (Cases.removeRequest Sample.npubOne "12345678")
           (Cases.removeRequest Sample.npubOne "not the password") Scenario.storedWorld).
  - reflexivity.
  - reflexivity.
  - reflexivity.
  - simpl. discriminate.
  - simpl. discriminate.
Defined.

Lemma switch_account_succeeds_when_password_unlocks_witness :
  State.settled Scenario.storedWorld Sample.home
  /\ State.passwordUnlocks (H := RefBech32.lib) (H0 := RefSecp256k1.lib)
       (H1 := StandInScrypt.lib) Scenario.storedWorld
       (fst (resolveTarget (Scenario.switchRequest "12345678") Scenario.storedWorld))
       (Password (Scenario.switchRequest "12345678"))
  /\ Success (fst (fst Cases.rightSwitch)) = true
  /\ ActionError (fst (fst Cases.rightSwitch)) = ""
  /\ npub (snd (fst Cases.rightSwitch))
     = fst (resolveTarget (Scenario.switchRequest "12345678") Scenario.storedWorld).
Proof.
  assert (Hset : State.settled Scenario.storedWorld Sample.home).
  { split; [reflexivity |]. eexists. vm_compute. reflexivity. }
  assert (Hgood : State.passwordUnlocks (H := RefBech32.lib) (H0 := RefSecp256k1.lib)
                    (H1 := StandInScrypt.lib) Scenario.storedWorld
                    (fst (resolveTarget (Scenario.switchRequest "12345678")
                            Scenario.storedWorld))
                    (Password (Scenario.switchRequest "12345678"))).
  { exists Sample.home, Cases.storedContent, Scenario.storedKey,
      "0000000000000000000000000000000000000000000000000000000000000001", 1%Z.
    split; [reflexivity |].
    split; [vm_compute; reflexivity |].
    split; [vm_compute; reflexivity |].
    split; vm_compute; reflexivity. }
  assert (Hrun : handleSwitchAccount (H := RefBech32.lib) (H0 := RefSecp256k1.lib)
                   (H1 := StandInScrypt.lib) Sample.counting Sample.noon
                   Scenario.daemonThree (Scenario.switchRequest "12345678")
                   Scenario.storedWorld
                 = ((fst (fst Cases.rightSwitch), snd (fst Cases.rightSwitch)),
                    snd Cases.rightSwitch)).
  { unfold Cases.rightSwitch.
    destruct (handleSwitchAccount _ _ _ _ _) as [[resp d'] w']. reflexivity. }
  split; [exact Hset |]. split; [exact Hgood |].
  pose proof (switch_account_succeeds_when_password_unlocks (H := RefBech32.lib)
                (H0 := RefSecp256k1.lib) (H1 := StandInScrypt.lib)
                Sample.counting Sample.noon Scenario.daemonThree
                (snd (fst Cases.rightSwitch)) (Scenario.switchRequest "12345678")
                Scenario.storedWorld (snd Cases.rightSwitch)
                (fst (fst Cases.rightSwitch)) Sample.home Hset
                ltac:(simpl; discriminate) ltac:(simpl; discriminate) Hgood Hrun)
    as (Hok & Herr & _ & Hnpub & _).
  split; [exact Hok |]. split; [exact Herr | exact Hnpub].
Defined.

Lemma add_account_then_switch_with_same_password_witness :
  handleAddAccount (H := RefBech32.lib) (H0 := RefSecp256k1.lib)
    (H1 := StandInScrypt.lib) Sample.counting (Sample.addRequest "12345678")
    Sample.freshWorld
  = (Cases.added, Scenario.storedWorld)
  /\ Success (fst (fst Cases.rightSwitch)) = true
  /\ npub (snd (fst Cases.rightSwitch)) = ActionNpub Cases.added
  /\ exists key,
       nsecToPrivateKey (H := RefBech32.lib) (H0 := RefSecp256k1.lib)
         (Nsec (Sample.addRequest "12345678")) = Ok key
       /\ privateKey (snd (fst Cases.rightSwitch)) = Some key.
Proof.
  assert (Hadd : handleAddAccount (H := RefBech32.lib) (H0 := RefSecp256k1.lib)
                   (H1 := StandInScrypt.lib) Sample.counting
                   (Sample.addRequest "12345678") Sample.freshWorld
                 = (Cases.added, Scenario.storedWorld)) by (vm_compute; reflexivity).
  assert (Hrun : handleSwitchAccount (H := RefBech32.lib) (H0 := RefSecp256k1.lib)
                   (H1 := StandInScrypt.lib) Sample.counting Sample.noon
                   Scenario.daemonThree (Scenario.switchRequest "12345678")
                   Scenario.storedWorld
                 = ((fst (fst Cases.rightSwitch), snd (fst Cases.rightSwitch)),
                    snd Cases.rightSwitch)).
  { unfold Cases.rightSwitch.
    destruct (handleSwitchAccount _ _ _ _ _) as [[resp d'] w']. reflexivity. }
  split; [exact Hadd |].
  exact (add_account_then_switch_with_same_password (H := RefBech32.lib)
           (H0 := RefSecp256k1.lib) (H1 := StandInScrypt.lib)
           Sample.counting Sample.counting Sample.noon Scenario.daemonThree
           (snd (fst Cases.rightSwitch)) (Sample.addRequest "12345678")
           (Scenario.switchRequest "12345678") Sample.freshWorld Scenario.storedWorld
           (snd Cases.rightSwitch) Cases.added (fst (fst Cases.rightSwitch))
           Hadd eq_refl ltac:(simpl; discriminate) eq_refl eq_refl Hrun).
Defined.

Lemma add_account_refuses_existing_account_witness :
  handleAddAccount (H := RefBech32.lib) (H0 := RefSecp256k1.lib)
    (H1 := StandInScrypt.lib) Sample.counting (Sample.addRequest "12345678")
    Sample.freshWorld
  = (Cases.added, Scenario.storedWorld)
  /\ handleAddAccount (H := RefBech32.lib) (H0 := RefSecp256k1.lib)
       (H1 := StandInScrypt.lib) Sample.counting (Sample.addRequest "another password")
       Scenario.storedWorld
     = (actionError (ID (Sample.addRequest "another password")) "account already exists",
        Scenario.storedWorld).
Proof.
  assert (Hadd : handleAddAccount (H := RefBech32.lib) (H0 := RefSecp256k1.lib)
                   (H1 := StandInScrypt.lib) Sample.counting
                   (Sample.addRequest "12345678") Sample.freshWorld
                 = (Cases.added, Scenario.storedWorld)) by (vm_compute; reflexivity).
  split; [exact Hadd |].
  exact (add_account_refuses_existing_account (H := RefBech32.lib)
           (H0 := RefSecp256k1.lib) (H1 := StandInScrypt.lib)
           Sample.counting Sample.counting (Sample.addRequest "12345678")
           (Sample.addRequest "another password") Sample.freshWorld Scenario.storedWorld
           Cases.added Hadd eq_refl eq_refl ltac:(simpl; discriminate)).
Defined.

(** The daemon holds the stored account: removing it under its name is
    refused, under its name with a slash behind it carried out. *)
Lemma remove_account_guard_compares_names_witness :
  State.settled Scenario.storedWorld Sample.home
  /\ State.fileAt (Spec.keyFilePath Sample.home Sample.npubOne) Scenario.storedWorld
     = Some Cases.storedContent
  /\ parseEncryptedKey Cases.storedContent = Ok Scenario.storedKey
  /\ fst (handleRemoveAccount (H := RefBech32.lib) (H0 := RefSecp256k1.lib)
            (H1 := StandInScrypt.lib) Scenario.daemonOne
            (Cases.removeRequest Sample.npubOne "12345678") Scenario.storedWorld)
     = actionError (ID (Cases.removeRequest Sample.npubOne "12345678"))
         "cannot remove active account - switch to another account first"
  /\ exists w',
       handleRemoveAccount (H := RefBech32.lib) (H0 := RefSecp256k1.lib)
         (H1 := StandInScrypt.lib) Scenario.daemonOne
         (Cases.removeRequest (Sample.npubOne ++ "/") "12345678") Scenario.storedWorld
       = ({| ActionID := ID (Cases.removeRequest (Sample.npubOne ++ "/") "12345678");
             Success := true; ActionPubkey := "";
             ActionNpub := ""; ActionError := "" |}, w')
       /\ os.walk (Spec.accountPath Sample.home Sample.npubOne) (root w') = inl ENOENT
       /\ (fst (loadActiveAccount Scenario.storedWorld) = Ok Sample.npubOne ->
           fst (loadActiveAccount w') = Ok Sample.npubOne).
Proof.
  assert (Hset : State.settled Scenario.storedWorld Sample.home).
  { split; [reflexivity |]. eexists. vm_compute. reflexivity. }
  assert (Hf : State.fileAt (Spec.keyFilePath Sample.home Sample.npubOne)
                 Scenario.storedWorld = Some Cases.storedContent)
    by (vm_compute; reflexivity).
  assert (Hp : parseEncryptedKey Cases.storedContent = Ok Scenario.storedKey)
    by (vm_compute; reflexivity).
  split; [exact Hset |]. split; [exact Hf |]. split; [exact Hp |].
  exact (remove_account_guard_compares_names (H := RefBech32.lib)
           (H0 := RefSecp256k1.lib) (H1 := StandInScrypt.lib) Scenario.daemonOne
           (Cases.removeRequest Sample.npubOne "12345678")
           (Cases.removeRequest (Sample.npubOne ++ "/") "12345678")
           Scenario.storedWorld Sample.home Sample.npubOne Cases.storedContent
           Scenario.storedKey Hset
           ltac:(vm_compute; reflexivity) ltac:(vm_compute; lia) eq_refl Hf Hp
           eq_refl ltac:(simpl; discriminate) eq_refl ltac:(simpl; discriminate)).
Defined.

Lemma remove_account_dotdot_empties_storage_witness :
  State.settled Scenario.storedWorld Sample.home
  /\ exists w',
       removeAccount ".." Scenario.storedWorld = (Ok tt, w')
       /\ os.walk (Spec.storagePath Sample.home) (root w') = inr (Dir ∅).
Proof.
  assert (Hset : State.settled Scenario.storedWorld Sample.home).
  { split; [reflexivity |]. eexists. vm_compute. reflexivity. }
  split; [exact Hset |].
  exact (proj1 (remove_account_dotdot_empties_storage (H := RefBech32.lib)
                  (H0 := RefSecp256k1.lib) (H1 := StandInScrypt.lib)
                  Scenario.storedWorld Sample.home Hset)).
Defined.

Lemma account_names_collide_beyond_70_bytes_witness :
  (70 <= String.length Cases.longName)%nat
  /\ accountExists (Cases.longName ++ "-old") Cases.keyWorld
     = accountExists Cases.longName Cases.keyWorld
  /\ fst (saveAccountEncryptedKey Cases.longName Scenario.storedKey Sample.freshWorld)
     = Ok tt
  /\ fst (loadAccountEncryptedKey (Cases.longName ++ "-old")
            (snd (saveAccountEncryptedKey Cases.longName Scenario.storedKey
                    Sample.freshWorld)))
     = Ok Scenario.storedKey.
Proof.
  assert (Hlen : (70 <= String.length Cases.longName)%nat) by (vm_compute; lia).
  assert (Hs : saveAccountEncryptedKey Cases.longName Scenario.storedKey Sample.freshWorld
               = (Ok tt, snd (saveAccountEncryptedKey Cases.longName Scenario.storedKey
                                Sample.freshWorld))) by (vm_compute; reflexivity).
  split; [exact Hlen |].
  split; [| split; [vm_compute; reflexivity |]].
  - exact (proj1 (account_names_collide_beyond_70_bytes Cases.longName "-old"
                    Scenario.storedKey Cases.keyWorld Cases.keyWorld Hlen)).
  - exact (proj2 (account_names_collide_beyond_70_bytes Cases.longName "-old"
                    Scenario.storedKey Sample.freshWorld
                    (snd (saveAccountEncryptedKey Cases.longName Scenario.storedKey
                            Sample.freshWorld)) Hlen) Hs).
Defined.

Lemma single_account_key_file_roundtrip_witness :
  saveEncryptedKey Scenario.storedKey Sample.freshWorld = (Ok tt, Cases.oldKeyWorld)
  /\ loadEncryptedKey Cases.oldKeyWorld = (Ok Scenario.storedKey, Cases.oldKeyWorld).
Proof.
  assert (Hs : saveEncryptedKey Scenario.storedKey Sample.freshWorld
               = (Ok tt, Cases.oldKeyWorld)) by (vm_compute; reflexivity).
  split; [exact Hs |].
  exact (proj1 (single_account_key_file_roundtrip (H := StandInScrypt.lib)
                  Scenario.storedKey Sample.freshWorld Cases.oldKeyWorld Hs)).
Defined.

Lemma single_account_trust_session_roundtrip_witness :
  Spec.hasChar ":" (SessionToken Scenario.session) = false
  /\ (- 2 ^ 63 <= time.Unix (ExpiresAt Scenario.session) < 2 ^ 63)%Z
  /\ (- 2 ^ 63 <= time.Unix (CreatedAt Scenario.session) < 2 ^ 63)%Z
  /\ saveTrustSession Scenario.session Sample.freshWorld = (Ok tt, Cases.oldSessionWorld)
  /\ loadTrustSession (H := PlainQuote.lib) Cases.oldSessionWorld
     = (Ok {| SessionToken := SessionToken Scenario.session;
              ExpiresAt := time.Unix0 (time.Unix (ExpiresAt Scenario.session));
              CreatedAt := time.Unix0 (time.Unix (CreatedAt Scenario.session));
              SessionNsec := SessionNsec Scenario.session |}, Cases.oldSessionWorld).
Proof.
  assert (Hc : Spec.hasChar ":" (SessionToken Scenario.session) = false)
    by (vm_compute; reflexivity).
  assert (He : (- 2 ^ 63 <= time.Unix (ExpiresAt Scenario.session) < 2 ^ 63)%Z)
    by (vm_compute; split; congruence).
  assert (Hb : (- 2 ^ 63 <= time.Unix (CreatedAt Scenario.session) < 2 ^ 63)%Z)
    by (vm_compute; split; congruence).
  assert (Hs : saveTrustSession Scenario.session Sample.freshWorld
               = (Ok tt, Cases.oldSessionWorld)) by (vm_compute; reflexivity).
  split; [exact Hc |]. split; [exact He |]. split; [exact Hb |]. split; [exact Hs |].
  exact (proj1 (single_account_trust_session_roundtrip (H := PlainQuote.lib)
                  Scenario.session Sample.freshWorld Cases.oldSessionWorld Hc He Hb Hs)).
Defined.

(** The daemon's start in [Scenario.storedWorld], where no terminal is at hand. *)
Lemma migration_without_old_key_changes_nothing_witness :
  homeDir Scenario.storedWorld = Some Sample.home
  /\ os.walk (Spec.storagePath Sample.home ++ ["keys.encrypted"])%list
       (root Scenario.storedWorld) = inl ENOENT
  /\ exists w',
       migrateToMultiAccount (H := RefBech32.lib) (H0 := RefSecp256k1.lib)
         (H1 := StandInScrypt.lib) (H2 := PlainQuote.lib) (Err "no terminal")
         Scenario.storedWorld = (Ok tt, w')
       /\ State.sameFiles Scenario.storedWorld w'.
Proof.
  assert (Hw : os.walk (Spec.storagePath Sample.home ++ ["keys.encrypted"])%list
                 (root Scenario.storedWorld) = inl ENOENT) by (vm_compute; reflexivity).
  split; [reflexivity |]. split; [exact Hw |].
  exact (migration_without_old_key_changes_nothing (H := RefBech32.lib)
           (H0 := RefSecp256k1.lib) (H1 := StandInScrypt.lib) (H2 := PlainQuote.lib)
           (Err "no terminal") Scenario.storedWorld Sample.home eq_refl Hw).
Defined.

Lemma migration_discards_old_key_when_accounts_exist_witness :
  State.settled Cases.mixedWorld Sample.home
  /\ State.fileAt (Spec.storagePath Sample.home ++ ["keys.encrypted"])%list Cases.mixedWorld
     = Some Cases.storedContent
  /\ fst (listAccounts (H := RefBech32.lib) Cases.mixedWorld) = Ok Cases.mixedListing
  /\ Cases.mixedListing <> []
  /\ exists w',
       migrateToMultiAccount (H := RefBech32.lib) (H0 := RefSecp256k1.lib)
         (H1 := StandInScrypt.lib) (H2 := PlainQuote.lib) (Err "no terminal")
         Cases.mixedWorld = (Ok tt, w')
       /\ State.fileAt (Spec.storagePath Sample.home ++ ["keys.encrypted"])%list w' = None
       /\ State.fileAt (Spec.storagePath Sample.home ++ ["trust_session"])%list w' = None
       /\ (forall q,
             q <> (Spec.storagePath Sample.home ++ ["keys.encrypted"])%list ->
             q <> (Spec.storagePath Sample.home ++ ["trust_session"])%list ->
             State.fileAt q w' = State.fileAt q Cases.mixedWorld).
Proof.
  assert (Hset : State.settled Cases.mixedWorld Sample.home).
  { split; [reflexivity |]. eexists. vm_compute. reflexivity. }
  assert (Hf : State.fileAt (Spec.storagePath Sample.home ++ ["keys.encrypted"])%list
                 Cases.mixedWorld = Some Cases.storedContent)
    by (vm_compute; reflexivity).
  assert (Hl : fst (listAccounts (H := RefBech32.lib) Cases.mixedWorld)
               = Ok Cases.mixedListing) by (vm_compute; reflexivity).
  assert (Hne : Cases.mixedListing <> []) by (unfold Cases.mixedListing; discriminate).
  split; [exact Hset |]. split; [exact Hf |]. split; [exact Hl |]. split; [exact Hne |].
  exact (migration_discards_old_key_when_accounts_exist (H := RefBech32.lib)
           (H0 := RefSecp256k1.lib) (H1 := StandInScrypt.lib) (H2 := PlainQuote.lib)
           (Err "no terminal") Cases.mixedWorld Sample.home Cases.storedContent
           Cases.mixedListing Hset Hf Hl Hne).
Defined.

Lemma migration_moves_key_to_account_witness :
  State.settled Cases.oldWorld Sample.home
  /\ State.fileAt (Spec.storagePath Sample.home ++ ["keys.encrypted"])%list Cases.oldWorld
     = Some Cases.storedContent
  /\ fst (listAccounts (H := RefBech32.lib) Cases.oldWorld) = Ok []
  /\ migrateToMultiAccount (H := RefBech32.lib) (H0 := RefSecp256k1.lib)
       (H1 := StandInScrypt.lib) (H2 := PlainQuote.lib) (Ok "12345678") Cases.oldWorld
     = (Ok tt, Cases.migratedWorld)
  /\ exists encKey nsec key,
       parseKeyFile Cases.storedContent = Ok encKey
       /\ decryptNsec (H := StandInScrypt.lib) encKey "12345678" = Ok nsec
       /\ nsecToPrivateKey (H := RefBech32.lib) (H0 := RefSecp256k1.lib) nsec = Ok key
       /\ (Spec.accountName (privateKeyToNpub key) = true ->
           loadAccountEncryptedKey (privateKeyToNpub key) Cases.migratedWorld
           = (Ok encKey, Cases.migratedWorld)
           /\ fst (loadActiveAccount Cases.migratedWorld)
              = Ok (Strs.TrimSpace (privateKeyToNpub key))
           /\ State.fileAt (Spec.storagePath Sample.home ++ ["keys.encrypted"])%list
                Cases.migratedWorld = None
           /\ State.fileAt (Spec.storagePath Sample.home ++ ["trust_session"])%list
                Cases.migratedWorld = None).
Proof.
  assert (Hset : State.settled Cases.oldWorld Sample.home).
  { split; [reflexivity |]. eexists. vm_compute. reflexivity. }
  assert (Hf : State.fileAt (Spec.storagePath Sample.home ++ ["keys.encrypted"])%list
                 Cases.oldWorld = Some Cases.storedContent)
    by (vm_compute; reflexivity).
  assert (Hl : fst (listAccounts (H := RefBech32.lib) Cases.oldWorld) = Ok [])
    by (vm_compute; reflexivity).
  assert (Hm : migrateToMultiAccount (H := RefBech32.lib) (H0 := RefSecp256k1.lib)
                 (H1 := StandInScrypt.lib) (H2 := PlainQuote.lib) (Ok "12345678")
                 Cases.oldWorld = (Ok tt, Cases.migratedWorld))
    by (vm_compute; reflexivity).
  split; [exact Hset |]. split; [exact Hf |]. split; [exact Hl |]. split; [exact Hm |].
  exact (migration_moves_key_to_account (H := RefBech32.lib)
           (H0 := RefSecp256k1.lib) (H1 := StandInScrypt.lib) (H2 := PlainQuote.lib)
           "12345678" Cases.oldWorld Cases.migratedWorld Sample.home Cases.storedContent
           Hset Hf Hl Hm).
Defined.

(** The sample event with and without its [id] and [sig]. *)
Lemma event_hash_ignores_other_fields_witness :
  json_Unmarshal (JsonLib := SignedJson.lib) SampleJson.eventText = Ok SampleJson.event
  /\ json_Unmarshal (JsonLib := SignedJson.lib) SignedJson.eventText = Ok SignedJson.event
  /\ createEventHash (H := SignedJson.lib) (H0 := Amd64.arch) (H1 := RefSha256.lib)
       SampleJson.eventText
     = createEventHash (H := SignedJson.lib) (H0 := Amd64.arch) (H1 := RefSha256.lib)
         SignedJson.eventText.
Proof.
  assert (H1 : json_Unmarshal (JsonLib := SignedJson.lib) SampleJson.eventText
               = Ok SampleJson.event) by (vm_compute; reflexivity).
  assert (H2 : json_Unmarshal (JsonLib := SignedJson.lib) SignedJson.eventText
               = Ok SignedJson.event) by (vm_compute; reflexivity).
  split; [exact H1 |]. split; [exact H2 |].
  apply (event_hash_ignores_other_fields (H := SignedJson.lib) (H0 := Amd64.arch)
           (H1 := RefSha256.lib) SampleJson.eventText SignedJson.eventText
           SampleJson.event SignedJson.event H1 H2).
  intros k Hk. simpl in Hk.
  destruct Hk as [<- | [<- | [<- | [<- | [<- | []]]]]]; vm_compute; reflexivity.
Defined.

(** The stored key: the nsec is 63 zeros and a one, so that only the last
    byte of the second half differs from the byte 32 before it. *)
Lemma key_stream_repeats_after_32_bytes_witness :
  encryptNsec (H := StandInScrypt.lib) Sample.counting
    (Nsec (Sample.addRequest "12345678")) "12345678" = Ok Scenario.storedKey
  /\ (31 + 32 < String.length (Nsec (Sample.addRequest "12345678")))%nat
  /\ Bytes.xor (nth 31 (EncryptedNsec Scenario.storedKey) x00)
       (nth (31 + 32) (EncryptedNsec Scenario.storedKey) x00)
     = Bytes.xor "0"%byte "1"%byte.
Proof.
  assert (He : encryptNsec (H := StandInScrypt.lib) Sample.counting
                 (Nsec (Sample.addRequest "12345678")) "12345678"
               = Ok Scenario.storedKey) by (vm_compute; reflexivity).
  assert (Hi : (31 + 32 < String.length (Nsec (Sample.addRequest "12345678")))%nat)
    by (vm_compute; lia).
  split; [exact He |]. split; [exact Hi |].
  exact (key_stream_repeats_after_32_bytes (H := StandInScrypt.lib) Sample.counting
           (Nsec (Sample.addRequest "12345678")) "12345678" Scenario.storedKey 31 He Hi).
Defined.

(** * The event hash and the compact JSON text *)

Module CompactFacts.
Import Compact.

Lemma append_empty (s : string) : s ++ "" = s.
Proof.
  induction s as [| c s IH]; [reflexivity |].
  change (String c (s ++ "") = String c s). now rewrite IH.
Qed.

Lemma concat_cons (x : string) (l : list string) :
  String.concat "" (x :: l) = x ++ String.concat "" l.
Proof.
  destruct l as [| y l]; cbn [String.concat]; [now rewrite append_empty | reflexivity].
Qed.

(** The encoder's text of a string, one rune at a time. *)
Lemma escapeString_step (s rest bytes : string) (r : N) :
  utf8.chunks s = (r, bytes) :: utf8.chunks rest ->
  json.escapeString false s
  = json.escapeRune false r bytes ++ json.escapeString false rest.
Proof.
  intros Hc. unfold json.escapeString. rewrite Hc. cbn [map fst snd].
  apply concat_cons.
Qed.

(** *** Bits *)

Lemma land_shiftl_low (a b n : N) : (b < 2 ^ n)%N -> N.land (N.shiftl a n) b = 0%N.
Proof.
  intros Hb. apply N.bits_inj. intros k.
  rewrite N.land_spec, N.bits_0.
  destruct (N.lt_ge_cases k n) as [Hk | Hk].
  - now rewrite N.shiftl_spec_low.
  - rewrite <- (N.mod_small b (2 ^ n)) by exact Hb.
    rewrite N.mod_pow2_bits_high by exact Hk. apply andb_false_r.
Qed.

Lemma lor_shiftl_low (a b n : N) :
  (b < 2 ^ n)%N -> N.lor (N.shiftl a n) b = (a * 2 ^ n + b)%N.
Proof.
  intros Hb. pose proof (land_shiftl_low a b n Hb) as Hd.
  rewrite <- (N.lxor_lor _ _ Hd), <- (N.add_nocarry_lxor _ _ Hd).
  now rewrite N.shiftl_mul_pow2.
Qed.

(** The code point of a sequence of two bytes. *)
Lemma rune2_value (b0 b1 : N) :
  (192 <= b0)%N -> (b0 <= 223)%N -> (128 <= b1)%N -> (b1 <= 191)%N ->
  N.lor (N.shiftl (N.land b0 31) 6) (N.land b1 63)
  = ((b0 - 192) * 64 + (b1 - 128))%N.
Proof.
  intros H1 H2 H3 H4.
  rewrite IntFacts.land_31, IntFacts.land_63.
  assert (Hm0 : (b0 mod 32 = b0 - 192)%N)
    by (symmetry; apply (N.mod_unique b0 32 6); lia).
  assert (Hm1 : (b1 mod 64 = b1 - 128)%N)
    by (symmetry; apply (N.mod_unique b1 64 2); lia).
  rewrite Hm0, Hm1.
  rewrite (lor_shiftl_low _ _ 6) by (change (2 ^ 6)%N with 64%N; lia).
  reflexivity.
Qed.

(** The code point of a sequence of three bytes. *)
Lemma rune3_value (b0 b1 b2 : N) :
  (224 <= b0)%N -> (b0 <= 239)%N -> (128 <= b1)%N -> (b1 <= 191)%N ->
  (128 <= b2)%N -> (b2 <= 191)%N ->
  N.lor (N.lor (N.shiftl (N.land b0 15) 12) (N.shiftl (N.land b1 63) 6))
        (N.land b2 63)
  = ((b0 - 224) * 4096 + (b1 - 128) * 64 + (b2 - 128))%N.
Proof.
  intros H1 H2 H3 H4 H5 H6.
  rewrite IntFacts.land_15, !IntFacts.land_63.
  assert (Hm0 : (b0 mod 16 = b0 - 224)%N)
    by (symmetry; apply (N.mod_unique b0 16 14); lia).
  assert (Hm1 : (b1 mod 64 = b1 - 128)%N)
    by (symmetry; apply (N.mod_unique b1 64 2); lia).
  assert (Hm2 : (b2 mod 64 = b2 - 128)%N)
    by (symmetry; apply (N.mod_unique b2 64 2); lia).
  rewrite Hm0, Hm1, Hm2.
  rewrite (N.shiftl_mul_pow2 (b1 - 128) 6).
  rewrite (lor_shiftl_low _ _ 12) by (change (2 ^ 6)%N with 64%N;
                                      change (2 ^ 12)%N with 4096%N; lia).
  change (2 ^ 6)%N with 64%N. change (2 ^ 12)%N with 4096%N.
  replace ((b0 - 224) * 4096 + (b1 - 128) * 64)%N
    with (N.shiftl ((b0 - 224) * 64 + (b1 - 128)) 6)
    by (rewrite N.shiftl_mul_pow2; change (2 ^ 6)%N with 64%N; lia).
  rewrite (lor_shiftl_low _ _ 6) by (change (2 ^ 6)%N with 64%N; lia).
  now rewrite N.shiftl_mul_pow2.
Qed.

(** A sequence of four bytes encodes a code point from U+10000 on. *)
Lemma rune4_beyond (b0 b1 x y : N) :
  (240 <= b0)%N -> (b0 <= 244)%N -> (b0 = 240 -> 144 <= b1)%N ->
  (128 <= b1)%N -> (b1 <= 191)%N ->
  (65536 <= N.lor (N.lor (N.lor (N.shiftl (N.land b0 7) 18)
                                (N.shiftl (N.land b1 63) 12)) x) y)%N.
Proof.
  intros H1 H2 H3 H4 H5.
  etransitivity; [| apply IntFacts.lor_ge_l]. etransitivity; [| apply IntFacts.lor_ge_l].
  pose proof (IntFacts.lor_ge_l (N.shiftl (N.land b0 7) 18) (N.shiftl (N.land b1 63) 12)) as Hl.
  pose proof (IntFacts.lor_ge_r (N.shiftl (N.land b0 7) 18) (N.shiftl (N.land b1 63) 12)) as Hr.
  rewrite IntFacts.land_7, IntFacts.land_63, !N.shiftl_mul_pow2 in *.
  change (2 ^ 18)%N with 262144%N in *. change (2 ^ 12)%N with 4096%N in *.
  assert (Hm : (b0 mod 8 = b0 - 240)%N)
    by (symmetry; apply (N.mod_unique b0 8 30); lia).
  assert (Hm1 : (b1 mod 64 = b1 - 128)%N)
    by (symmetry; apply (N.mod_unique b1 64 2); lia).
  rewrite Hm, Hm1 in *. lia.
Qed.

(** *** Runes *)

Ltac bounds :=
  unfold within in *;
  repeat match goal with
         | H : (_ && _)%bool = true |- _ => apply andb_prop in H as [? ?]
         | H : (_ <=? _)%N = true |- _ => apply N.leb_le in H
         | H : (_ <? _)%N = false |- _ => apply N.ltb_ge in H
         | H : (_ =? _)%N = true |- _ => apply N.eqb_eq in H
         | H : (_ =? _)%N = false |- _ => apply N.eqb_neq in H
         end.

Ltac decide_tests :=
  repeat match goal with
         | |- context [N.ltb ?x ?y] => destruct (N.ltb_spec x y); try lia
         | |- context [N.leb ?x ?y] => destruct (N.leb_spec x y); try lia
         | |- context [N.eqb ?x ?y] => destruct (N.eqb_spec x y); try lia
         end.

Lemma decodeRune_two (c0 c1 : ascii) (r1 : string) :
  within (N_of_ascii c0) 194 223 = true ->
  within (N_of_ascii c1) 128 191 = true ->
  utf8.decodeRune (String c0 (String c1 r1))
  = (N.lor (N.shiftl (N.land (N_of_ascii c0) 31) 6) (N.land (N_of_ascii c1) 63), 2%nat).
Proof.
  intros H0 H1. bounds.
  cbn [utf8.decodeRune]. unfold utf8.first, utf8.isCont.
  decide_tests; reflexivity.
Qed.

Lemma decodeRune_three (c0 c1 c2 : ascii) (r2 : string) :
  within (N_of_ascii c0) 224 239 = true ->
  within (N_of_ascii c1) (if (N_of_ascii c0 =? 224)%N then 160 else 128)
         (if (N_of_ascii c0 =? 237)%N then 159 else 191) = true ->
  within (N_of_ascii c2) 128 191 = true ->
  utf8.decodeRune (String c0 (String c1 (String c2 r2)))
  = (N.lor (N.lor (N.shiftl (N.land (N_of_ascii c0) 15) 12)
                  (N.shiftl (N.land (N_of_ascii c1) 63) 6))
           (N.land (N_of_ascii c2) 63), 3%nat).
Proof.
  intros H0 H1 H2.
  destruct (N.eqb_spec (N_of_ascii c0) 224), (N.eqb_spec (N_of_ascii c0) 237);
    bounds; try lia;
    cbn [utf8.decodeRune]; unfold utf8.first, utf8.isCont;
    decide_tests; reflexivity.
Qed.

Lemma decodeRune_four (c0 c1 c2 c3 : ascii) (r3 : string) :
  within (N_of_ascii c0) 240 244 = true ->
  within (N_of_ascii c1) (if (N_of_ascii c0 =? 240)%N then 144 else 128)
         (if (N_of_ascii c0 =? 244)%N then 143 else 191) = true ->
  within (N_of_ascii c2) 128 191 = true ->
  within (N_of_ascii c3) 128 191 = true ->
  utf8.decodeRune (String c0 (String c1 (String c2 (String c3 r3))))
  = (N.lor (N.lor (N.lor (N.shiftl (N.land (N_of_ascii c0) 7) 18)
                         (N.shiftl (N.land (N_of_ascii c1) 63) 12))
                  (N.shiftl (N.land (N_of_ascii c2) 63) 6))
           (N.land (N_of_ascii c3) 63), 4%nat).
Proof.
  intros H0 H1 H2 H3.
  destruct (N.eqb_spec (N_of_ascii c0) 240), (N.eqb_spec (N_of_ascii c0) 244);
    bounds; try lia;
    cbn [utf8.decodeRune]; unfold utf8.first, utf8.isCont;
    decide_tests; reflexivity.
Qed.

(** *** The reference text, one character at a time *)

Lemma escapeRune_low (c : ascii) :
  (N_of_ascii c < 128)%N ->
  json.escapeRune false (N_of_ascii c) (String c "") = escapeChar c.
Proof.
  destruct c as [[|] [|] [|] [|] [|] [|] [|] [|]]; vm_compute; intros Hc;
    first [reflexivity | discriminate Hc].
Qed.

Lemma escapeChar_high (c : ascii) :
  (128 <= N_of_ascii c)%N -> escapeChar c = String c "".
Proof.
  destruct c as [[|] [|] [|] [|] [|] [|] [|] [|]]; vm_compute; intros Hc;
    first [reflexivity | congruence].
Qed.

Lemma escape_cons (c0 : ascii) (r0 : string) :
  (forall c1 c2 r2, r0 = String c1 (String c2 r2) -> separator c0 c1 c2 = false) ->
  escape (String c0 r0) = escapeChar c0 ++ escape r0.
Proof.
  intros Hs. destruct r0 as [| c1 [| c2 r2]]; try reflexivity.
  cbn [escape]. now rewrite (Hs c1 c2 r2 eq_refl).
Qed.

Lemma escape_cons_other (c0 : ascii) (r0 : string) :
  N_of_ascii c0 <> 226%N ->
  escape (String c0 r0) = escapeChar c0 ++ escape r0.
Proof.
  intros Hc. apply escape_cons. intros c1 c2 r2 _. unfold separator.
  destruct (N.eqb_spec (N_of_ascii c0) 226); [contradiction | reflexivity].
Qed.

(** A byte of a character beyond ASCII that does not begin a separator
    stands as it is. *)
Lemma escape_cons_high (c0 : ascii) (r0 : string) :
  (128 <= N_of_ascii c0)%N -> N_of_ascii c0 <> 226%N ->
  escape (String c0 r0) = String c0 (escape r0).
Proof.
  intros Hh Hc. rewrite (escape_cons_other c0 r0 Hc), (escapeChar_high c0 Hh).
  reflexivity.
Qed.

(** *** The encoder's text, one rune at a time *)

Lemma step_low (c0 : ascii) (r0 : string) :
  (N_of_ascii c0 < 128)%N ->
  json.escapeString false (String c0 r0)
  = escapeChar c0 ++ json.escapeString false r0
  /\ escape (String c0 r0) = escapeChar c0 ++ escape r0.
Proof.
  intros Hc. split.
  - rewrite (escapeString_step _ r0 (String c0 "") (N_of_ascii c0))
      by exact (IntFacts.chunks_cons_low c0 r0 Hc).
    now rewrite (escapeRune_low c0 Hc).
  - apply escape_cons_other. lia.
Qed.

Lemma step_two (c0 c1 : ascii) (r1 : string) :
  within (N_of_ascii c0) 194 223 = true ->
  within (N_of_ascii c1) 128 191 = true ->
  json.escapeString false (String c0 (String c1 r1))
  = String c0 (String c1 (json.escapeString false r1))
  /\ escape (String c0 (String c1 r1)) = String c0 (String c1 (escape r1)).
Proof.
  intros H0 H1. pose proof (decodeRune_two c0 c1 r1 H0 H1) as Hd. bounds. split.
  - rewrite (escapeString_step _ r1 (String c0 (String c1 ""))
               (fst (utf8.decodeRune (String c0 (String c1 r1)))))
      by (cbn [utf8.chunks]; rewrite Hd; reflexivity).
    rewrite Hd. cbn [fst]. rewrite rune2_value by lia.
    cbn [json.escapeRune]. decide_tests. reflexivity.
  - rewrite escape_cons_high by lia. now rewrite escape_cons_high by lia.
Qed.

Lemma step_three (c0 c1 c2 : ascii) (r2 : string) :
  within (N_of_ascii c0) 224 239 = true ->
  within (N_of_ascii c1) (if (N_of_ascii c0 =? 224)%N then 160 else 128)
         (if (N_of_ascii c0 =? 237)%N then 159 else 191) = true ->
  within (N_of_ascii c2) 128 191 = true ->
  exists piece,
    json.escapeString false (String c0 (String c1 (String c2 r2)))
    = piece ++ json.escapeString false r2
    /\ escape (String c0 (String c1 (String c2 r2))) = piece ++ escape r2.
Proof.
  intros H0 H1 H2. pose proof (decodeRune_three c0 c1 c2 r2 H0 H1 H2) as Hd.
  assert (Hb1 : (128 <= N_of_ascii c1)%N /\ (N_of_ascii c1 <= 191)%N)
    by (destruct (N_of_ascii c0 =? 224)%N, (N_of_ascii c0 =? 237)%N; bounds; lia).
  clear H1. destruct Hb1 as [Hl1 Hh1]. bounds.
  assert (He : json.escapeString false (String c0 (String c1 (String c2 r2)))
               = json.escapeRune false
                   (((N_of_ascii c0 - 224) * 4096 + (N_of_ascii c1 - 128) * 64
                     + (N_of_ascii c2 - 128))%N)
                   (String c0 (String c1 (String c2 "")))
                 ++ json.escapeString false r2).
  { rewrite (escapeString_step _ r2 (String c0 (String c1 (String c2 "")))
               (fst (utf8.decodeRune (String c0 (String c1 (String c2 r2))))))
      by (cbn [utf8.chunks]; rewrite Hd; reflexivity).
    rewrite Hd. cbn [fst]. now rewrite rune3_value by lia. }
  rewrite He. clear He Hd.
  destruct (separator c0 c1 c2) eqn:Hsep.
  - unfold separator in Hsep. bounds.
    exists ("\u202" ++ String (if (N_of_ascii c2 =? 168)%N then "8"%char else "9"%char) "").
    assert (Hc2 : N_of_ascii c2 = 168%N \/ N_of_ascii c2 = 169%N) by lia.
    split.
    + f_equal.
      match goal with H : N_of_ascii c0 = 226%N |- _ => rewrite H end.
      match goal with H : N_of_ascii c1 = 128%N |- _ => rewrite H end.
      destruct Hc2 as [-> | ->]; reflexivity.
    + cbn [escape]. unfold separator, within.
      match goal with H : N_of_ascii c0 = 226%N |- _ => rewrite H end.
      match goal with H : N_of_ascii c1 = 128%N |- _ => rewrite H end.
      destruct Hc2 as [-> | ->]; reflexivity.
  - exists (String c0 (String c1 (String c2 ""))). split.
    + f_equal. cbn [json.escapeRune].
      unfold separator, within in Hsep.
      destruct (N.eqb_spec (N_of_ascii c0) 226), (N.eqb_spec (N_of_ascii c1) 128),
        (N.leb_spec 168 (N_of_ascii c2)), (N.leb_spec (N_of_ascii c2) 169);
        try discriminate Hsep; decide_tests; reflexivity.
    + rewrite escape_cons by (intros ? ? ? [= <- <- <-]; exact Hsep).
      rewrite escapeChar_high by lia.
      rewrite escape_cons_high by lia. now rewrite escape_cons_high by lia.
Qed.

Lemma step_four (c0 c1 c2 c3 : ascii) (r3 : string) :
  within (N_of_ascii c0) 240 244 = true ->
  within (N_of_ascii c1) (if (N_of_ascii c0 =? 240)%N then 144 else 128)
         (if (N_of_ascii c0 =? 244)%N then 143 else 191) = true ->
  within (N_of_ascii c2) 128 191 = true ->
  within (N_of_ascii c3) 128 191 = true ->
  json.escapeString false (String c0 (String c1 (String c2 (String c3 r3))))
  = String c0 (String c1 (String c2 (String c3 (json.escapeString false r3))))
  /\ escape (String c0 (String c1 (String c2 (String c3 r3))))
     = String c0 (String c1 (String c2 (String c3 (escape r3)))).
Proof.
  intros H0 H1 H2 H3. pose proof (decodeRune_four c0 c1 c2 c3 r3 H0 H1 H2 H3) as Hd.
  assert (Hb1 : (128 <= N_of_ascii c1)%N /\ (N_of_ascii c1 <= 191)%N
                /\ (N_of_ascii c0 = 240%N -> (144 <= N_of_ascii c1)%N)).
  { destruct (N.eqb_spec (N_of_ascii c0) 240), (N.eqb_spec (N_of_ascii c0) 244);
      bounds; lia. }
  clear H1. destruct Hb1 as (Hl1 & Hh1 & Hf). bounds. split.
  - rewrite (escapeString_step _ r3 (String c0 (String c1 (String c2 (String c3 ""))))
               (fst (utf8.decodeRune
                       (String c0 (String c1 (String c2 (String c3 r3)))))))
      by (cbn [utf8.chunks]; rewrite Hd; reflexivity).
    rewrite Hd. cbn [fst json.escapeRune].
    pose proof (rune4_beyond (N_of_ascii c0) (N_of_ascii c1)
                  (N.shiftl (N.land (N_of_ascii c2) 63) 6)
                  (N.land (N_of_ascii c3) 63)) as Hr.
    specialize (Hr ltac:(lia) ltac:(lia) Hf ltac:(lia) ltac:(lia)).
    decide_tests. reflexivity.
  - rewrite escape_cons_high by lia. rewrite escape_cons_high by lia.
    rewrite escape_cons_high by lia. now rewrite escape_cons_high by lia.
Qed.

(** The encoder writes a well-formed string as the reference has it. *)
Lemma escapeString_wellFormed (s : string) :
  wellFormed s = true -> json.escapeString false s = escape s.
Proof.
  remember (String.length s) as n eqn:Hn. revert s Hn.
  induction n as [n IH] using lt_wf_ind. intros s Hn Hw.
  destruct s as [| c0 r0]; [reflexivity |].
  cbn [wellFormed] in Hw. cbn [String.length] in Hn.
  destruct (N.ltb_spec (N_of_ascii c0) 128) as [Hlow | Hhigh].
  { destruct (step_low c0 r0 Hlow) as [-> ->]. f_equal.
    apply (IH (String.length r0)); [lia | reflexivity | exact Hw]. }
  destruct r0 as [| c1 r1]; [discriminate Hw |]. cbn [String.length] in Hn.
  destruct (within (N_of_ascii c0) 194 223) eqn:H2.
  { apply andb_prop in Hw as [Hc1 Hw].
    destruct (step_two c0 c1 r1 H2 Hc1) as [-> ->]. do 2 f_equal.
    apply (IH (String.length r1)); [lia | reflexivity | exact Hw]. }
  destruct r1 as [| c2 r2]; [discriminate Hw |]. cbn [String.length] in Hn.
  destruct (within (N_of_ascii c0) 224 239) eqn:H3.
  { apply andb_prop in Hw as [Hw Hr]. apply andb_prop in Hw as [Hc1 Hc2].
    destruct (step_three c0 c1 c2 r2 H3 Hc1 Hc2) as (piece & -> & ->). f_equal.
    apply (IH (String.length r2)); [lia | reflexivity | exact Hr]. }
  destruct r2 as [| c3 r3]; [discriminate Hw |]. cbn [String.length] in Hn.
  apply andb_prop in Hw as [Hw Hr]. apply andb_prop in Hw as [Hw Hc3].
  apply andb_prop in Hw as [Hw Hc2]. apply andb_prop in Hw as [H4 Hc1].
  destruct (step_four c0 c1 c2 c3 r3 H4 Hc1 Hc2 Hc3) as [-> ->]. do 4 f_equal.
  apply (IH (String.length r3)); [lia | reflexivity | exact Hr].
Qed.

Lemma quote_wellFormed (s : string) :
  wellFormed s = true -> json.appendString s false = quote s.
Proof.
  intros Hw. unfold json.appendString, quote. now rewrite (escapeString_wellFormed s Hw).
Qed.

(** *** Values *)

Section Values.
Context `{JsonLib}.

(** The encoder writes a plain value as the reference has it. *)
Lemma marshal_plain :
  forall v : JValue, plain v = true -> json.marshal false v = Ok (text v).
Proof.
  fix IH 1. intros [| b | f | z | s | items | fields] Hp; cbn [plain] in Hp.
  - reflexivity.
  - destruct b; reflexivity.
  - cbn [json.marshal text]. now rewrite Hp.
  - reflexivity.
  - cbn [json.marshal text]. now rewrite (quote_wellFormed s Hp).
  - rewrite EventFacts.marshal_array.
    assert (Hitems : Canon.marshalItems false items = Ok (map text items)).
    { induction items as [| x rest IHr]; [reflexivity |].
      cbn [forallb] in Hp. apply andb_prop in Hp as [Hx Hr].
      cbn [Canon.marshalItems map]. rewrite (IH x Hx), (IHr Hr). reflexivity. }
    rewrite Hitems. reflexivity.
  - discriminate Hp.
Qed.

(** The reference text of the serialization array, piece by piece. *)
Lemma serialization_layout (pubkey content : string) (createdAt kind : Z)
  (tags : list JValue) :
  serialization pubkey createdAt kind tags content
  = "[0," ++ quote pubkey ++ "," ++ Strs.fmt_d createdAt ++ ","
    ++ Strs.fmt_d kind ++ "," ++ text (JArray tags) ++ "," ++ quote content ++ "]".
Proof.
  unfold serialization. cbn [text map String.concat].
  change (Strs.fmt_d 0) with "0". rewrite !EventFacts.append_assoc. reflexivity.
Qed.

End Values.

(** A string of plain characters is well formed and stands between the
    quotes as it is. *)
Lemma verbatim_wellFormed (s : string) :
  Canon.verbatim s = true -> wellFormed s = true.
Proof.
  induction s as [| c s IH]; [reflexivity |].
  cbn [Canon.verbatim wellFormed]. intros Hv. apply andb_prop in Hv as [Hc Hs].
  unfold Canon.verbatimChar in Hc. bounds.
  destruct (N.ltb_spec (N_of_ascii c) 128); [now apply IH | lia].
Qed.

Lemma quote_plain (s : string) :
  Canon.verbatim s = true ->
  quote s = String json.dquote (s ++ String json.dquote "").
Proof.
  intros Hv. rewrite <- (quote_wellFormed s (verbatim_wellFormed s Hv)).
  exact (EventFacts.quote_verbatim s Hv).
Qed.

(** A character of ASCII is written by itself wherever it stands: what
    is before it and what is behind it are written as they are without
    it. *)
Lemma escape_around (a b : string) (c : ascii) :
  (N_of_ascii c < 128)%N ->
  escape (a ++ String c b) = escape a ++ escapeChar c ++ escape b.
Proof.
  intros Hc.
  assert (Hno1 : forall c0 c2, separator c0 c c2 = false).
  { intros c0 c2. unfold separator.
    destruct (N.eqb_spec (N_of_ascii c) 128); [lia |]. now rewrite andb_false_r. }
  assert (Hno2 : forall c0 c1, separator c0 c1 c = false).
  { intros c0 c1. unfold separator, within.
    destruct (N.leb_spec 168 (N_of_ascii c)); [lia |]. now rewrite andb_false_r. }
  remember (String.length a) as n eqn:Hn. revert a Hn.
  induction n as [n IH] using lt_wf_ind. intros a Hn.
  destruct a as [| c0 [| c1 [| c2 r]]].
  - apply escape_cons_other. lia.
  - change (String c0 "" ++ String c b) with (String c0 (String c b)).
    rewrite escape_cons by (intros ? ? ? [= <- _]; apply Hno1).
    rewrite (escape_cons_other c b) by lia.
    change (escape (String c0 "")) with (escapeChar c0 ++ "").
    now rewrite append_empty.
  - change (String c0 (String c1 "") ++ String c b)
      with (String c0 (String c1 (String c b))).
    rewrite escape_cons by (intros ? ? ? [= <- <- _]; apply Hno2).
    rewrite (escape_cons c1) by (intros ? ? ? [= <- _]; apply Hno1).
    rewrite (escape_cons_other c b) by lia.
    change (escape (String c0 (String c1 "")))
      with (escapeChar c0 ++ escapeChar c1 ++ "").
    rewrite append_empty. now rewrite !EventFacts.append_assoc.
  - change (String c0 (String c1 (String c2 r)) ++ String c b)
      with (String c0 (String c1 (String c2 (r ++ String c b)))).
    cbn [String.length] in Hn.
    destruct (separator c0 c1 c2) eqn:Hsep.
    + cbn [escape]. rewrite Hsep.
      rewrite (IH (String.length r)) by (lia || reflexivity).
      reflexivity.
    + rewrite escape_cons by (intros ? ? ? [= <- <- _]; exact Hsep).
      rewrite (escape_cons c0 (String c1 (String c2 r)))
        by (intros ? ? ? [= <- <- _]; exact Hsep).
      change (String c1 (String c2 (r ++ String c b)))
        with (String c1 (String c2 r) ++ String c b).
      rewrite (IH (String.length (String c1 (String c2 r))))
        by (cbn [String.length]; lia || reflexivity).
      now rewrite !EventFacts.append_assoc.
Qed.

(** [<], [>] and [&] stand as they are wherever they occur. *)
Lemma escape_html (a b : string) :
  escape (a ++ "<>&" ++ b) = escape a ++ "<>&" ++ escape b.
Proof.
  change (a ++ "<>&" ++ b) with (a ++ String "<" (String ">" (String "&" b))).
  rewrite (escape_around a _ "<") by (vm_compute; reflexivity).
  rewrite (escape_cons_other ">") by (vm_compute; discriminate).
  rewrite (escape_cons_other "&") by (vm_compute; discriminate).
  reflexivity.
Qed.

End CompactFacts.

(** C3. For an event whose fields have the required types, the event hash
    is the SHA-256 of the compact JSON text of
    [[0, pubkey, created_at, kind, tags, content]] as the specification
    has it: nothing before, between or after the tokens, [created_at] and
    [kind] as integers, and in every string, those of the tags included,
    only the double quote, the backslash, the control characters and the
    two separators U+2028 and U+2029 escaped, so that [<], [>] and [&]
    stand as they are beside whatever else the string holds.  The strings
    are well-formed UTF-8, as those of a JSON text are, and the tags hold
    no object.  The float [1.6942e9] is written [1694200000]. *)
Theorem event_hash_is_sha256_of_canonical_json
  `{JsonLib} `{GoArch} `{Sha256Lib}
  (eventJSON pubkey content : string) (event : list (string * JValue))
  (createdAt kind : spec_float) (tags : list JValue) :
  json_Unmarshal eventJSON = Ok event ->
  json.get event "pubkey" = Some (JString pubkey) ->
  json.get event "created_at" = Some (JFloat createdAt) ->
  json.get event "kind" = Some (JFloat kind) ->
  json.get event "tags" = Some (JArray tags) ->
  json.get event "content" = Some (JString content) ->
  Compact.wellFormed pubkey = true ->
  Compact.wellFormed content = true ->
  forallb Compact.plain tags = true ->
  createEventHash eventJSON
  = Ok (sha256_Sum256
          (list_byte_of_string
             (Compact.serialization pubkey (int64_of_float createdAt)
                (int64_of_float kind) tags content)))
  /\ Compact.serialization pubkey (int64_of_float createdAt) (int64_of_float kind)
       tags content
     = "[0," ++ Compact.quote pubkey ++ ","
       ++ Strs.fmt_d (int64_of_float createdAt) ++ ","
       ++ Strs.fmt_d (int64_of_float kind) ++ ","
       ++ Compact.text (JArray tags) ++ "," ++ Compact.quote content ++ "]"
  /\ (forall a b, Compact.escape (a ++ "<>&" ++ b)
                  = Compact.escape a ++ "<>&" ++ Compact.escape b)
  /\ (forall s, Canon.verbatim s = true ->
                Compact.quote s = String json.dquote (s ++ String json.dquote ""))
  /\ Canon.verbatim "<>&" = true
  /\ Strs.fmt_d (int64_of_float Canon.float_1_6942e9) = "1694200000".
Proof.
  intros Hu Hp Hc Hk Ht Hn Hwp Hwc Hpl.
  split; [| split; [| split; [| split; [| split]]]].
  - rewrite (createEventHash_canonical eventJSON pubkey content
               (Compact.text (JArray tags)) event createdAt kind tags
               Hu Hp Hc Hk Ht Hn (CompactFacts.marshal_plain (JArray tags) Hpl)).
    rewrite CompactFacts.serialization_layout. unfold Canon.nip01Text, Canon.quote.
    now rewrite (CompactFacts.quote_wellFormed pubkey Hwp),
                (CompactFacts.quote_wellFormed content Hwc).
  - apply CompactFacts.serialization_layout.
  - apply CompactFacts.escape_html.
  - apply CompactFacts.quote_plain.
  - reflexivity.
  - reflexivity.
Qed.

(** The event of [MixedJson]: its content holds [<], [>] and [&] beside a
    double quote, a backslash, a newline, a tab, a control character, a
    letter beyond ASCII and U+2028; the hash is the SHA-256 of the text
    written out by hand. *)
Lemma event_hash_is_sha256_of_canonical_json_witness :
  json_Unmarshal (JsonLib := MixedJson.lib) MixedJson.eventText = Ok MixedJson.event
  /\ Compact.wellFormed MixedJson.content = true
  /\ forallb Compact.plain MixedJson.tags = true
  /\ Compact.serialization (H := MixedJson.lib)
       "79be667ef9dcbbac55a06295ce870b07029bfcdb2dce28d959f2815b16f81798"
       (int64_of_float (H := Amd64.arch) Canon.float_1_6942e9)
       (int64_of_float (H := Amd64.arch) SampleJson.one)
       MixedJson.tags MixedJson.content
     = MixedJson.canonicalText
  /\ sha256_Sum256 (Sha256Lib := RefSha256.lib)
       (list_byte_of_string MixedJson.canonicalText) = MixedJson.eventId
  /\ createEventHash (H := MixedJson.lib) (H0 := Amd64.arch) (H1 := RefSha256.lib)
       MixedJson.eventText
     = Ok (sha256_Sum256 (Sha256Lib := RefSha256.lib)
             (list_byte_of_string
                (Compact.serialization (H := MixedJson.lib)
                   "79be667ef9dcbbac55a06295ce870b07029bfcdb2dce28d959f2815b16f81798"
                   (int64_of_float (H := Amd64.arch) Canon.float_1_6942e9)
                   (int64_of_float (H := Amd64.arch) SampleJson.one)
                   MixedJson.tags MixedJson.content))).
Proof.
  assert (Hu : json_Unmarshal (JsonLib := MixedJson.lib) MixedJson.eventText
               = Ok MixedJson.event) by (vm_compute; reflexivity).
  assert (Hwc : Compact.wellFormed MixedJson.content = true) by (vm_compute; reflexivity).
  assert (Hpl : forallb Compact.plain MixedJson.tags = true) by (vm_compute; reflexivity).
  split; [exact Hu |]. split; [exact Hwc |]. split; [exact Hpl |].
  split; [vm_compute; reflexivity |]. split; [vm_compute; reflexivity |].
  exact (proj1 (event_hash_is_sha256_of_canonical_json
                  (H := MixedJson.lib) (H0 := Amd64.arch) (H1 := RefSha256.lib)
                  MixedJson.eventText
                  "79be667ef9dcbbac55a06295ce870b07029bfcdb2dce28d959f2815b16f81798"
                  MixedJson.content MixedJson.event
                  Canon.float_1_6942e9 SampleJson.one MixedJson.tags
                  Hu eq_refl eq_refl eq_refl eq_refl eq_refl
                  ltac:(vm_compute; reflexivity) Hwc Hpl)).
Defined.
